(* ===== verification/_CoqProject ===== *)
-Q . S2P
Prelude.v
CLib.v
StringUtil.v
Memory.v
Buffer.v
Parser.v
Request.v
Response.v
Config.v
ConfigText.v
Upstream.v
RateLimit.v
EventLoop.v
Timeout.v
Conn.v
Kernel.v
FileServer.v
Metrics.v
Cache.v
CacheShared.v
Features.v
Modules.v
Proxy.v
Handler.v
Hello.v
Worker.v
Answer.v
History.v
Process.v
Main.v
Tls.v
