(* ===== verification/Prelude.v ===== *)
(** * nproxy: a verification library

    nproxy is an HTTP reverse proxy and static file server in C.  A master
    process forks workers; each worker runs an epoll loop over its client
    connections.  A client's bytes are read into a buffer ([src/net/buffer.c]),
    parsed in place ([src/http/parser.c]), turned into a request
    ([src/http/request.c]) and dispatched ([src/http/handler.c]) to the built-in
    endpoints ([src/features]), the response cache ([src/cache/cache.c]), an
    upstream backend ([src/proxy]) or the file server ([src/static]); responses
    are formatted into the connection's write buffer ([src/http/response.c]).
    Connections are pooled ([src/net/conn.c]) and allocate from an arena
    ([src/core/memory.c]); everything is set up from a configuration file
    ([src/core/config.c]).

    ** Files and what they model

    - [Prelude]: bytes, machine integers at their width, the result monad [cres]
      whose [Stuck] is undefined behaviour, slices and searches, status codes and
      limits of src/core/types.h, the hint databases and tactics.
    - [CLib]: the C library as the sources use it: pointers into byte objects with
      checked loads, strings, <ctype.h>, [strtoll], [snprintf] conversions.
    - [StringUtil]: src/core/string_util: pointer and length slices.
    - [Memory]: src/core/memory: the arena; [malloc] is a class with laws
      ([AllocatorOK]) and a bump allocator as instance.
    - [Buffer]: src/net/buffer: read and write positions over an array, and the
      interface [WriteBuffer] / [WriteBufferOK] the response writers use.
    - [Parser]: src/http/parser: the request parser on pointers, a reference parser
      on byte lists and a printer.
    - [Request], [Response]: src/http/request, src/http/response.
    - [Config], [ConfigText]: src/core/config, from the bytes of the file; regular
      expressions are the class [Regex].  [ConfigText] has the round trips.
    - [Upstream]: src/proxy/upstream and src/proxy/balancer.
    - [RateLimit]: src/features/rate_limit, with [double] arithmetic as rounded
      integers.
    - [Conn]: src/net/conn: connections in a store indexed by address, the free
      list linked through it.
    - [Metrics]: src/features/metrics and src/features/health.
    - [Cache]: src/cache/cache as one process runs it: the file system as a map,
      with the system's answers to every call.
    - [CacheShared]: the same directory as the workers share it: names and the
      files behind them, an insertion one system call at a time, and the calls of
      any number of insertions and removals in any order.
    - [EventLoop]: src/net/event_loop: the heap of handler structures, the table and
      the kernel's interest list.
    - [Timeout]: src/net/timeout: the wheel of linked lists in a heap of entries.
    - [Kernel]: a list of answers to the reads and writes on descriptors, what went
      through each descriptor, and the loops around [buf_read_fd] and
      [buf_write_fd] of the worker and the proxy.
    - [FileServer]: src/static/file_server and src/static/mime.
    - [Features]: src/features/access_log and src/features/compress.
    - [Modules]: src/module/module; a module's own functions are arguments.
    - [Proxy]: src/proxy/proxy_conn: the request to the backend, the relay between
      the two sockets and the copy for the cache.
    - [Handler]: src/http/handler: virtual hosts, rewriting, and the dispatch over
      [RateLimit], [Metrics], [Cache], [Proxy], [FileServer] and [Modules].
    - [Hello]: tests/hello_module.c, the example module, as an instance of what the
      worker relies on of a module.
    - [Worker]: src/proc/worker: the read and write handlers over [Parser],
      [Request], [Handler] and [Kernel]; the store of connections they work on,
      with what becomes of a connection as the type [fate]; accepting, starting and
      stopping.
    - [Answer]: the server as a function, [reply], for what its endpoints answer
      without the cache, a backend or a file.
    - [History]: the events of a worker one after the other, over the state of all
      its components: the invariant of the worker, what each event needs of the
      outside, and the whole life from start to stop.
    - [Process]: src/net/socket (module [Socket]), src/core/log ([Log]),
      src/proc/daemon ([Daemon]), src/proc/signal ([Signal]), src/proc/master
      ([Master]).
    - [Main]: src/main.c: options, start and end of the program.
    - [Tls]: src/tls/tls_ctx and src/tls/tls_conn; OpenSSL is the class of the calls
      that the code makes, with the manual's reference counting as its laws and an
      engine that encrypts nothing as instance.  Nothing in the program calls it.

    The interfaces between the parts are classes: [Allocator], [Regex],
    [WriteBuffer] and [OpenSSL] have the operations, [AllocatorOK], [RegexOK],
    [WriteBufferOK], [ModuleOK] and [OpenSSLOK] what a client may rely on.

    Each C function is one definition with the C name.  A C structure is a record;
    a fixed array with a count is a list, its capacity the limit the code tests.
    [int] arithmetic that could overflow goes through [i32], unsigned 64-bit
    arithmetic through [u64].  What the code gets from outside - system calls,
    the clock, [malloc] - is an argument.

    ** What the theorems show

    - Memory safety and totality: the parser, the buffers, the arena, the response
      writers, the pools and the limiter return [Ret _] on every input their
      callers can pass, for every answer of the system.  [Worker] composes them: from
      the bytes of a client through parsing, rewriting, dispatch to modules and
      endpoints to the response, within limits that it names, and shows that a
      worker starts in such a state.  [History] composes the handlers: from the
      start of a worker every sequence of events that its event loop can report
      for connections in use is defined, keeps the invariants of all components,
      and can be followed by the stop.
    - Functional correctness from socket to socket: the read handler sends exactly
      the response that [reply] gives for the request that the reference parser
      finds in the bytes read ([Answer]).
    - Refinement and equivalence: the parser agrees with the reference parser, a
      buffer is a FIFO queue of bytes, round robin is a rotating queue of the
      healthy backends, a rate limiter slot is an exact token bucket, the wheel is
      a list of timers per bucket, the rewriting loop is a substitution.
    - Invariants over histories: upstream pools, connection pools, counters, the
      arena, event registrations, configurations loaded from any file, the objects
      of the TLS library, the cache directory under interleaved insertions: what a
      key leads to is always a whole entry, on the condition that no insertion
      under its hash opens its temporary file while another one is under way.
    - Round trips: printed requests and configurations, decimal numbers, cache
      entries, also from one request to the next, idle connections, the file of
      the process identifier.
    - Ends of loops and order: the relay and the write handler end for any answers
      of the kernel and lose and reorder nothing; a timer is called on time; a
      reload and a start do their steps in order; a stop frees what is idle.
    - Confinement: for a path that starts with a slash, what the file server does
      depends only on the files below its root ([file_server_confined]).
    - Framing: lengths announced in responses are the lengths sent.
    - Some theorems state what the code does where it departs from its
      documentation or from what it is for: a head without its blank line is taken
      as complete, the body of a file is never sent, an event releases a
      connection twice, a backend outlives its client and answers the next
      one, a bad request is kept, a closed backend is pooled, the copy for the cache
      repeats bytes, two insertions of one key mix their files
      ([cache_insert_race]), the arena does not align in a new block and wraps
      sizes around ([arena_new_block_misaligned], [arena_size_wraps]), the status
      of a backend is read past the bytes received ([status_overrun]), the drain at
      the stop serves nothing, a refusal of the limiter is a page that keeps the
      connection, [config_destroy], what a recycled connection keeps, hash
      collisions in the cache, the health response's length, and the arrays that
      long inputs overrun.

    ** Fuel

    [fmt_base] gives the digit loop [S (log2 n)] turns, each of which divides by at
    least 2 ([fmt_digits_value]).  The parser's header loop has one turn per byte
    of input, each line using at least two ([http_parse_request_Ret] shows it never
    runs out).  [destroy_rules] has 34 turns for an array of 32.
    [pool_destroy_loop] has one turn per connection in the store
    ([conn_pool_destroy_spec]).  The loops on a descriptor ([write_loop],
    [read_loop], [relay], [sendfile_loop]) have one turn per answer of the kernel
    and one more: a turn that goes on has used an answer, and when there are no
    more the kernel would block.
    [expand_loop] and [rewrite_loop] have one turn per byte of their text.
    [drain_loop], [accept_loop] and [master_loop] recur on the answers they get.
    All other recursion is structural.

    ** Not modelled

    A request's strings are values: their bytes do not change when the read buffer
    they point into is compacted by a later read, so the path in the log line of a
    proxied request is the one that was received.  Their lengths, on which the
    safety of the writers depends, are the same either way.  An event of the
    worker is assumed to be for a connection in use: the event loop can break this
    within one batch ([EventLoop]) and for a forgotten backend ([History]).  In the
    history of one worker the cache directory changes only by that worker; several
    workers at once are the subject of [CacheShared].  Not modelled: the text of [config_print], of the usage and of log messages of the
    components, the options set on sockets, the installation of signal handlers,
    the functions that only free a structure, zlib's deflate in
    src/features/compress, which is an argument, and OpenSSL.
*)

From Stdlib Require Import ZArith Lia Ascii String.
From stdpp Require Import base numbers option list.

#[global] Open Scope Z_scope.

(** ** Bytes and literals

    A C object of type [char[]] or [u8[]] is a list of its bytes, each a [Z]
    in [0, 256). *)

Abbreviation bytes := (list Z).
Abbreviation zlen l := (Z.of_nat (length l)).

Definition byte_of_ascii (c : ascii) : Z := Z.of_N (N_of_ascii c).

Definition lit (s : string) : bytes := map byte_of_ascii (list_ascii_of_string s).

Definition is_byte (b : Z) : Prop := 0 <= b < 256.

Definition CR : Z := 13.
Definition LF : Z := 10.
Definition CRLF : bytes := [CR; LF].
Definition DQUOTE : Z := 34.

(** ** The result of running C code

    [Stuck] is the outcome of undefined behaviour: a load or store outside an
    object, a dereferenced null pointer, a signed overflow, and also a loop
    that runs out of the fuel the model gives it.  A theorem that a function
    returns [Ret _] rules all of them out. *)

Inductive cres (A : Type) : Type :=
| Ret (a : A)
| Stuck.

Arguments Ret {A} a.
Arguments Stuck {A}.

#[global] Instance cres_mret : MRet cres := @Ret.
#[global] Instance cres_mbind : MBind cres :=
  fun A B f m => match m with Ret a => f a | Stuck => Stuck end.
#[global] Instance cres_fmap : FMap cres :=
  fun A B f m => match m with Ret a => Ret (f a) | Stuck => Stuck end.

(** ** Machine integers *)

Definition INT_MAX : Z := 2147483647.
Definition INT_MIN : Z := -2147483648.
Definition LLONG_MAX : Z := 9223372036854775807.
Definition LLONG_MIN : Z := -9223372036854775808.
Definition UINT64_MAX : Z := 18446744073709551615.

Definition u8 (z : Z) : Z := z mod 2 ^ 8.
Definition u16 (z : Z) : Z := z mod 2 ^ 16.
Definition u32 (z : Z) : Z := z mod 2 ^ 32.
Definition u64 (z : Z) : Z := z mod 2 ^ 64.

(** Two's complement reading of the low 32 bits, the conversion to [int]. *)
Definition to_i32 (z : Z) : Z :=
  let m := z mod 2 ^ 32 in if m <? 2 ^ 31 then m else m - 2 ^ 32.

(** Signed 32-bit arithmetic: an overflow is undefined. *)
Definition i32 (z : Z) : cres Z :=
  if (INT_MIN <=? z) && (z <=? INT_MAX) then Ret z else Stuck.

(** Signed 64-bit arithmetic ([time_t], [long]). *)
Definition i64 (z : Z) : cres Z :=
  if (LLONG_MIN <=? z) && (z <=? LLONG_MAX) then Ret z else Stuck.

(** ** Slices of a byte list, indexed by [Z] *)

Definition zsub {A} (off n : Z) (l : list A) : list A :=
  take (Z.to_nat n) (drop (Z.to_nat off) l).

(** The index of the first element that satisfies [P]. *)
Fixpoint index_of {A} (P : A -> bool) (l : list A) : option nat :=
  match l with
  | [] => None
  | x :: l' => if P x then Some 0%nat else S <$> index_of P l'
  end.

(** The index of the last element that satisfies [P]. *)
Fixpoint last_index_of {A} (P : A -> bool) (l : list A) : option nat :=
  match l with
  | [] => None
  | x :: l' =>
      match last_index_of P l' with
      | Some i => Some (S i)
      | None => if P x then Some 0%nat else None
      end
  end.

(** The longest prefix of elements that satisfy [P], and what follows it. *)
Fixpoint take_while {A} (P : A -> bool) (l : list A) : list A :=
  match l with
  | [] => []
  | x :: l' => if P x then x :: take_while P l' else []
  end.

Fixpoint drop_while {A} (P : A -> bool) (l : list A) : list A :=
  match l with
  | [] => []
  | x :: l' => if P x then drop_while P l' else l
  end.

Definition eqb_bytes (a b : bytes) : bool := bool_decide (a = b).

(** ** Status codes and limits of core/types.h *)

Inductive np_status_t : Type :=
| NP_OK
| NP_ERR
| NP_ERR_AGAIN
| NP_ERR_CLOSED
| NP_ERR_NOMEM
| NP_ERR_TIMEOUT
| NP_ERR_PARSE
| NP_ERR_CONFIG
| NP_ERR_TLS
| NP_ERR_UPSTREAM.

#[global] Instance np_status_eq_dec : EqDecision np_status_t.
Proof. solve_decision. Defined.

(** The enumerators' values: functions such as [buf_read_fd] return them mixed
    with byte counts in one signed integer. *)
Definition np_status_code (s : np_status_t) : Z :=
  match s with
  | NP_OK => 0
  | NP_ERR => -1
  | NP_ERR_AGAIN => -2
  | NP_ERR_CLOSED => -3
  | NP_ERR_NOMEM => -4
  | NP_ERR_TIMEOUT => -5
  | NP_ERR_PARSE => -6
  | NP_ERR_CONFIG => -7
  | NP_ERR_TLS => -8
  | NP_ERR_UPSTREAM => -9
  end.

Definition NP_MAX_HEADERS : Z := 64.
Definition NP_MAX_HEADER_LEN : Z := 8192.
Definition NP_ARENA_SIZE : Z := 64 * 1024.
Definition NP_READ_BUF_SIZE : Z := 64 * 1024.
Definition NP_WRITE_BUF_SIZE : Z := 128 * 1024.
Definition NP_TIMEOUT_BUCKETS : Z := 512.

(** ** Automation *)

Create HintDb nproxy discriminated.
Create Rewrite HintDb nplen.

(** Destruct the existentials, conjunctions and pairs of the context. *)
Ltac deex :=
  repeat match goal with
    | H : exists _, _ |- _ => destruct H
    | H : _ /\ _ |- _ => destruct H
    | H : Ret _ = Ret _ |- _ => injection H; clear H; intros
    | H : Some _ = Some _ |- _ => injection H; clear H; intros
    | H : (_, _) = (_, _) |- _ => injection H; clear H; intros
    end; subst.

(** Turn boolean comparisons of the context and the goal into propositions. *)
Ltac bprop :=
  repeat match goal with
    | H : (_ && _) = true |- _ => apply andb_true_iff in H; destruct H
    | H : (_ || _) = false |- _ => apply orb_false_iff in H; destruct H
    | H : negb _ = true |- _ => apply (proj1 (negb_true_iff _)) in H
    | H : negb _ = false |- _ => apply (proj1 (negb_false_iff _)) in H
    | H : (_ =? _) = true |- _ => apply Z.eqb_eq in H
    | H : (_ =? _) = false |- _ => apply Z.eqb_neq in H
    | H : (_ <? _) = true |- _ => apply Z.ltb_lt in H
    | H : (_ <? _) = false |- _ => apply Z.ltb_ge in H
    | H : (_ <=? _) = true |- _ => apply Z.leb_le in H
    | H : (_ <=? _) = false |- _ => apply Z.leb_gt in H
    end.

(** Case analysis on the first test or match that blocks the goal. *)
Ltac case_goal :=
  match goal with
  | |- context [if ?b then _ else _] => destruct b eqn:?; bprop
  | |- context [match ?x with _ => _ end] => destruct x eqn:?; bprop
  end.

(** The same in a hypothesis. *)
Ltac case_hyp H :=
  match type of H with
  | context [if ?b then _ else _] => destruct b eqn:?; bprop
  | context [match ?x with _ => _ end] => destruct x eqn:?; bprop
  end.

(** Arithmetic on lengths of lists. *)
Ltac len :=
  autorewrite with nplen in *;
  repeat rewrite ?length_take, ?length_drop, ?length_app, ?length_replicate,
    ?length_insert, ?length_map, ?length_fmap in *;
  try lia.

(** ** Lemmas on the result monad *)

Lemma bind_Ret {A B} (a : A) (f : A -> cres B) : (Ret a ≫= f) = f a.
Proof. reflexivity. Qed.

Lemma bind_inv {A B} (m : cres A) (f : A -> cres B) (b : B) :
  m ≫= f = Ret b -> exists a, m = Ret a /\ f a = Ret b.
Proof. destruct m; [eauto | discriminate]. Qed.

Lemma i32_Ret (z : Z) : INT_MIN <= z <= INT_MAX -> i32 z = Ret z.
Proof. intros [Hlo Hhi]. unfold i32. rewrite (proj2 (Z.leb_le _ _) Hlo), (proj2 (Z.leb_le _ _) Hhi). reflexivity. Qed.

Lemma i64_Ret (z : Z) : LLONG_MIN <= z <= LLONG_MAX -> i64 z = Ret z.
Proof. intros [Hlo Hhi]. unfold i64. rewrite (proj2 (Z.leb_le _ _) Hlo), (proj2 (Z.leb_le _ _) Hhi). reflexivity. Qed.

(** ** Lemmas on machine integers *)

Lemma u64_small (z : Z) : 0 <= z < 2 ^ 64 -> u64 z = z.
Proof. apply Z.mod_small. Qed.

Lemma u32_small (z : Z) : 0 <= z < 2 ^ 32 -> u32 z = z.
Proof. apply Z.mod_small. Qed.

Lemma u64_range (z : Z) : 0 <= u64 z < 2 ^ 64.
Proof. apply Z.mod_pos_bound. lia. Qed.

Lemma u32_range (z : Z) : 0 <= u32 z < 2 ^ 32.
Proof. apply Z.mod_pos_bound. lia. Qed.

Lemma u16_range (z : Z) : 0 <= u16 z < 2 ^ 16.
Proof. apply Z.mod_pos_bound. lia. Qed.

#[export] Hint Resolve u64_range u32_range u16_range : nproxy.

(** ** Lemmas on slices *)

Lemma zsub_length {A} (off n : Z) (l : list A) :
  0 <= off -> 0 <= n -> off + n <= zlen l -> zlen (zsub off n l) = n.
Proof. intros. unfold zsub. rewrite length_take, length_drop. lia. Qed.

Lemma zsub_all {A} (l : list A) : zsub 0 (zlen l) l = l.
Proof. unfold zsub. rewrite drop_0. apply take_ge. lia. Qed.

Lemma zsub_0 {A} (off : Z) (l : list A) : zsub off 0 l = [].
Proof. reflexivity. Qed.

Lemma zsub_zsub {A} (o1 n1 o2 n2 : Z) (l : list A) :
  0 <= o1 -> 0 <= o2 -> 0 <= n2 -> o2 + n2 <= n1 ->
  zsub o2 n2 (zsub o1 n1 l) = zsub (o1 + o2) n2 l.
Proof.
  intros. unfold zsub. rewrite skipn_firstn_comm, take_take, drop_drop.
  f_equal; [lia | f_equal; lia].
Qed.

Lemma zsub_cons {A} (off n : Z) (x : A) (l : list A) :
  0 <= off -> 0 < n -> l !! Z.to_nat off = Some x ->
  zsub off n l = x :: zsub (off + 1) (n - 1) l.
Proof.
  intros Ho Hn Hx. unfold zsub. rewrite (drop_S _ _ _ Hx).
  replace (Z.to_nat n) with (S (Z.to_nat (n - 1))) by lia.
  replace (Z.to_nat (off + 1)) with (S (Z.to_nat off)) by lia. reflexivity.
Qed.

Lemma zsub_snoc {A} (off n : Z) (x : A) (l : list A) :
  0 <= off -> 0 < n -> l !! Z.to_nat (off + n - 1) = Some x ->
  zsub off n l = zsub off (n - 1) l ++ [x].
Proof.
  intros Ho Hn Hx. unfold zsub.
  replace (Z.to_nat n) with (S (Z.to_nat (n - 1))) by lia.
  apply take_S_r. rewrite lookup_drop. rewrite <- Hx. f_equal. lia.
Qed.

Lemma zsub_app_split {A} (off n m : Z) (l : list A) :
  0 <= off -> 0 <= n -> 0 <= m ->
  zsub off (n + m) l = zsub off n l ++ zsub (off + n) m l.
Proof.
  intros. unfold zsub. rewrite Z2Nat.inj_add by lia.
  rewrite <- (take_take_drop (drop (Z.to_nat off) l) (Z.to_nat n) (Z.to_nat m)).
  rewrite drop_drop. do 3 f_equal. lia.
Qed.

Lemma zsub_lookup {A} (off n i : Z) (l : list A) :
  0 <= off -> 0 <= i < n -> zsub off n l !! Z.to_nat i = l !! Z.to_nat (off + i).
Proof.
  intros. unfold zsub. rewrite lookup_take_lt by lia. rewrite lookup_drop. f_equal. lia.
Qed.

Lemma zsub_app_l {A} (off n : Z) (a b : list A) :
  0 <= off -> 0 <= n -> off + n <= zlen a -> zsub off n (a ++ b) = zsub off n a.
Proof.
  intros. unfold zsub. rewrite drop_app_le by lia. rewrite take_app_le; [done |].
  rewrite length_drop. lia.
Qed.

Lemma zsub_app_r {A} (off n : Z) (a b : list A) :
  zlen a <= off -> zsub off n (a ++ b) = zsub (off - zlen a) n b.
Proof.
  intros. unfold zsub. rewrite drop_app_ge by lia. do 2 f_equal. lia.
Qed.

Lemma zsub_prefix {A} (c : nat) (l : list A) : zsub 0 (Z.of_nat c) l = take c l.
Proof. unfold zsub. by rewrite Nat2Z.id. Qed.

Lemma zsub_suffix {A} (off n : Z) (l : list A) :
  0 <= off -> off + n = zlen l -> zsub off n l = drop (Z.to_nat off) l.
Proof. intros. unfold zsub. apply take_ge. rewrite length_drop. lia. Qed.

Lemma take_drop_taken {A} (m : nat) (l : list A) : take m l ++ drop (length (take m l)) l = l.
Proof.
  rewrite length_take. destruct (Nat.min_spec m (length l)) as [[? ->] | [? ->]].
  - apply take_drop.
  - by rewrite take_ge, drop_all, app_nil_r by lia.
Qed.

(** ** Lemmas on searches *)

Lemma index_of_Some {A} (P : A -> bool) (l : list A) (i : nat) :
  index_of P l = Some i <->
  exists a x b, l = a ++ x :: b /\ length a = i /\ P x = true /\ Forall (fun y => P y = false) a.
Proof.
  revert i; induction l as [| y l IH]; intros i; simpl.
  - split; [discriminate | intros (a & x & b & Heq & _)]. destruct a; discriminate.
  - destruct (P y) eqn:Hy.
    + split.
      * intros [= <-]. exists [], y, l. auto.
      * intros (a & x & b & Heq & Hi & Hx & Ha). destruct a as [| z a]; [simpl in Hi; congruence |].
        injection Heq as -> ->. inversion Ha; congruence.
    + rewrite fmap_Some. setoid_rewrite IH. split.
      * intros (j & (a & x & b & -> & <- & Hx & Ha) & ->). exists (y :: a), x, b. repeat split; auto.
      * intros (a & x & b & Heq & Hi & Hx & Ha). destruct a as [| z a].
        { injection Heq as -> ->. congruence. }
        injection Heq as -> ->. inversion Ha; subst. exists (length a). split; [| done].
        exists a, x, b. auto.
Qed.

Lemma index_of_None {A} (P : A -> bool) (l : list A) :
  index_of P l = None <-> Forall (fun y => P y = false) l.
Proof.
  induction l as [| y l IH]; simpl; [split; auto |].
  destruct (P y) eqn:Hy.
  - split; [discriminate | inversion 1; congruence].
  - rewrite fmap_None, IH. split; [auto | by inversion 1].
Qed.

Lemma index_of_lt {A} (P : A -> bool) (l : list A) (i : nat) :
  index_of P l = Some i -> (i < length l)%nat.
Proof.
  rewrite index_of_Some. intros (a & x & b & -> & <- & _). rewrite length_app. simpl. lia.
Qed.

Lemma index_of_app_free {A} (P : A -> bool) (a : list A) (x : A) (b : list A) :
  Forall (fun y => P y = false) a -> P x = true -> index_of P (a ++ x :: b) = Some (length a).
Proof. intros. apply index_of_Some. eauto 10. Qed.

Lemma take_while_app_drop_while {A} (P : A -> bool) (l : list A) :
  take_while P l ++ drop_while P l = l.
Proof. induction l as [| x l IH]; simpl; [done |]. destruct (P x); simpl; congruence. Qed.

Lemma take_while_Forall {A} (P : A -> bool) (l : list A) :
  Forall (fun y => P y = true) (take_while P l).
Proof. induction l as [| x l IH]; simpl; [constructor |]. destruct (P x) eqn:?; auto. Qed.

Lemma take_while_all {A} (P : A -> bool) (l : list A) :
  Forall (fun y => P y = true) l -> take_while P l = l.
Proof. induction 1 as [| x l Hx _ IH]; simpl; [done |]. rewrite Hx. congruence. Qed.

Lemma take_while_stop {A} (P : A -> bool) (a b : list A) :
  Forall (fun y => P y = true) a -> (forall x, head b = Some x -> P x = false) ->
  take_while P (a ++ b) = a /\ drop_while P (a ++ b) = b.
Proof.
  induction 1 as [| x l Hx _ IH]; simpl; intros Hb.
  - destruct b as [| y b]; [done |]. simpl. rewrite (Hb y eq_refl). done.
  - rewrite Hx. destruct (IH Hb) as [-> ->]. done.
Qed.

Lemma drop_while_head {A} (P : A -> bool) (l : list A) (x : A) :
  head (drop_while P l) = Some x -> P x = false.
Proof.
  induction l as [| y l IH]; simpl; [discriminate |].
  destruct (P y) eqn:Hy; [auto |]. by intros [= <-].
Qed.

Lemma drop_while_length {A} (P : A -> bool) (l : list A) :
  (length (drop_while P l) <= length l)%nat.
Proof. induction l as [| x l IH]; simpl; [done |]. destruct (P x); simpl; lia. Qed.

Lemma drop_while_zsub {A} (P : A -> bool) (l : list A) :
  drop_while P l = drop (length l - length (drop_while P l)) l.
Proof.
  pose proof (take_while_app_drop_while P l) as Hl.
  rewrite <- Hl at 4. apply (f_equal length) in Hl. rewrite length_app in Hl.
  replace (length l - _)%nat with (length (take_while P l)) by lia.
  by rewrite drop_app_length.
Qed.

Lemma eqb_bytes_true (a b : bytes) : eqb_bytes a b = true <-> a = b.
Proof. apply bool_decide_eq_true. Qed.

Lemma eqb_bytes_false (a b : bytes) : eqb_bytes a b = false <-> a <> b.
Proof. apply bool_decide_eq_false. Qed.

Lemma eqb_bytes_refl (a : bytes) : eqb_bytes a a = true.
Proof. by apply eqb_bytes_true. Qed.
