(* ===== verification/CLib.v ===== *)
(** * The parts of the C library and of C's memory that the sources use

    - pointers into byte objects with bounds-checked loads ([cptr], [load],
      [load_n]); [memchr] and [memcmp] require their whole range to be
      readable, which is stricter than the C standard asks;
    - NUL-terminated strings: the value of a [char *] is the list of the bytes
      before its terminator, so it holds no 0 byte ([cstr] cuts an array there);
    - <ctype.h> in the C locale, [strtoll] and [atoi] as glibc has them (the
      result saturates, [atoi] truncates the [long] to [int]);
    - the conversions %d, %u, %llu, %zu, %lx and %016llx of [snprintf]. *)

From Stdlib Require Import ZArith Lia.
From stdpp Require Import base numbers option list.
From S2P Require Import Prelude.

(** ** Pointers *)

Inductive cptr : Type :=
| NULL
| Ptr (obj : bytes) (off : Z).

#[global] Instance cptr_eq_dec : EqDecision cptr.
Proof. solve_decision. Defined.

Definition is_null (p : cptr) : bool :=
  match p with NULL => true | Ptr _ _ => false end.

Definition padd (p : cptr) (n : Z) : cptr :=
  match p with NULL => NULL | Ptr o off => Ptr o (off + n) end.

(** [p[i]] as an unsigned char. *)
Definition load (p : cptr) (i : Z) : cres Z :=
  match p with
  | NULL => Stuck
  | Ptr o off =>
      if 0 <=? off + i
      then match o !! Z.to_nat (off + i) with Some b => Ret b | None => Stuck end
      else Stuck
  end.

(** The [n] bytes at [p], all of which must be inside the object. *)
Definition load_n (p : cptr) (n : Z) : cres bytes :=
  match p with
  | NULL => if n =? 0 then Ret [] else Stuck
  | Ptr o off =>
      if (0 <=? off) && (0 <=? n) && (off + n <=? zlen o)
      then Ret (zsub off n o) else Stuck
  end.

(** [memchr(p, c, n)]: the offset of the first [c] from [p], or null. *)
Definition memchr (p : cptr) (c n : Z) : cres (option Z) :=
  v ← load_n p n; Ret (Z.of_nat <$> index_of (Z.eqb c) v).

(** [memcmp(p, q, n) == 0]. *)
Definition memcmp_eq (p q : cptr) (n : Z) : cres bool :=
  a ← load_n p n; b ← load_n q n; Ret (eqb_bytes a b).

(** A string constant, with its terminator. *)
Definition cstring (s : bytes) : cptr := Ptr (s ++ [0]) 0.

(** ** Characters *)

Definition isspace (c : Z) : bool := ((9 <=? c) && (c <=? 13)) || (c =? 32).
Definition isdigit (c : Z) : bool := (48 <=? c) && (c <=? 57).
Definition tolower (c : Z) : Z := if (65 <=? c) && (c <=? 90) then c + 32 else c.

(** ** Strings *)

Definition cstr (a : bytes) : bytes := take_while (fun b => negb (b =? 0)) a.

Definition no_nul (s : bytes) : Prop := Forall (fun b => b <> 0) s.

Definition strchr (s : bytes) (c : Z) : option nat := index_of (Z.eqb c) s.
Definition strrchr (s : bytes) (c : Z) : option nat := last_index_of (Z.eqb c) s.
Definition strcmp_eq (a b : bytes) : bool := eqb_bytes a b.
Definition strncmp_eq (a b : bytes) (n : nat) : bool := eqb_bytes (take n a) (take n b).
Definition strcasecmp_eq (a b : bytes) : bool := eqb_bytes (map tolower a) (map tolower b).

(** [strncpy(dst, s, n)] into a zeroed array of [n + 1] bytes: the rest of the
    array is filled with zeros, so the value is the copied prefix. *)
Definition strncpy (s : bytes) (n : Z) : bytes := take (Z.to_nat n) s.

Fixpoint is_prefix (p s : bytes) : bool :=
  match p, s with
  | [], _ => true
  | x :: p', y :: s' => (x =? y) && is_prefix p' s'
  | _ :: _, [] => false
  end.

(** [strstr(s, p)]: the first position at which [p] occurs in [s]. *)
Fixpoint strstr (s p : bytes) : option nat :=
  if is_prefix p s then Some 0%nat
  else match s with [] => None | _ :: s' => S <$> strstr s' p end.

(** ** Numbers *)

Definition digits_value (ds : bytes) : Z :=
  fold_left (fun acc d => acc * 10 + (d - 48)) ds 0.

Definition clamp_ll (z : Z) : Z := Z.max LLONG_MIN (Z.min LLONG_MAX z).

(** [strtoll(s, &end, 10)]: the value and the text left at [end]; when no
    conversion is possible the value is 0 and [end] is [s] itself. *)
Definition strtoll (s : bytes) : Z * bytes :=
  let t := drop_while isspace s in
  let '(neg, t) :=
    match t with
    | c :: t' => if c =? 45 then (true, t') else if c =? 43 then (false, t') else (false, t)
    | [] => (false, [])
    end in
  match take_while isdigit t with
  | [] => (0, s)
  | ds => (clamp_ll (if neg then - digits_value ds else digits_value ds), drop_while isdigit t)
  end.

Definition atoi (s : bytes) : Z := to_i32 (fst (strtoll s)).

(** ** Formatting *)

Definition digit_char (d : Z) : Z := if d <? 10 then 48 + d else 87 + d.

Fixpoint fmt_digits (fuel : nat) (base n : Z) : bytes :=
  match fuel with
  | O => []
  | S f => (if n <? base then [] else fmt_digits f base (n / base)) ++ [digit_char (n mod base)]
  end.

(** Digits of a non-negative number; [S (log2 n)] steps are enough, since each
    divides by at least 2. *)
Definition fmt_base (base n : Z) : bytes := fmt_digits (S (Z.to_nat (Z.log2 n))) base n.

Definition fmt_u (n : Z) : bytes := fmt_base 10 n.
Definition fmt_d (z : Z) : bytes := if z <? 0 then 45 :: fmt_u (- z) else fmt_u z.
Definition fmt_lx (n : Z) : bytes := fmt_base 16 n.
Definition fmt_016llx (n : Z) : bytes :=
  let h := fmt_base 16 n in replicate (16 - length h) 48 ++ h.

(** [snprintf(buf, size, ...)] of the text [s]: what [buf] holds afterwards
    (for [size > 0]); the returned count is [zlen s] whether it fits or not. *)
Definition snprintf (size : Z) (s : bytes) : bytes := take (Z.to_nat (size - 1)) s.

(** ** Lemmas on loads *)

(** [readable p n v]: the [n] bytes at [p] are inside its object and are [v]. *)
Definition readable (p : cptr) (n : Z) (v : bytes) : Prop :=
  match p with
  | NULL => n = 0 /\ v = []
  | Ptr o off => 0 <= off /\ 0 <= n /\ off + n <= zlen o /\ v = zsub off n o
  end.

Lemma readable_length (p : cptr) (n : Z) (v : bytes) : readable p n v -> zlen v = n.
Proof. destruct p; simpl; intros; deex; [done | by apply zsub_length]. Qed.

Lemma load_n_Ret (p : cptr) (n : Z) (v : bytes) : load_n p n = Ret v <-> readable p n v.
Proof.
  unfold load_n, readable. destruct p as [| o off].
  - destruct (n =? 0) eqn:E; bprop; split; intros; deex; auto; try congruence; discriminate.
  - case_goal; split; intros; deex; try discriminate; auto.
    exfalso. repeat match goal with H : (_ && _) = false |- _ => apply andb_false_iff in H as [H|H] end; bprop; lia.
Qed.

Lemma load_Ret (p : cptr) (n i : Z) (v : bytes) :
  readable p n v -> 0 <= i < n -> exists b, load p i = Ret b /\ v !! Z.to_nat i = Some b.
Proof.
  destruct p as [| o off]; simpl; intros; deex; [lia |].
  replace (0 <=? off + i) with true by lia.
  rewrite zsub_lookup by lia.
  destruct (o !! Z.to_nat (off + i)) eqn:E; [eauto |].
  apply lookup_ge_None in E. lia.
Qed.

Lemma readable_sub (p : cptr) (n i m : Z) (v : bytes) :
  readable p n v -> 0 <= i -> 0 <= m -> i + m <= n -> readable (padd p i) m (zsub i m v).
Proof.
  destruct p as [| o off]; simpl; intros; deex.
  - split; [lia |]. unfold zsub. by rewrite drop_nil, take_nil.
  - repeat split; try lia. by rewrite zsub_zsub by lia.
Qed.

Lemma readable_take (q : cptr) (m : Z) (v : bytes) (c : nat) :
  readable q m v -> (c <= length v)%nat -> readable q (Z.of_nat c) (take c v).
Proof.
  intros Hq Hc. pose proof (readable_length _ _ _ Hq). rewrite <- zsub_prefix.
  replace q with (padd q 0) by (destruct q; simpl; [done | by rewrite Z.add_0_r]).
  apply readable_sub with (n := m); auto; lia.
Qed.

Lemma readable_take_min (q : cptr) (m : Z) (v : bytes) (k : nat) :
  readable q m v -> readable q (Z.of_nat (Nat.min k (length v))) (take k v).
Proof.
  intros H. replace (take k v) with (take (Nat.min k (length v)) v).
  - eapply readable_take; [exact H | lia].
  - destruct (Nat.le_ge_cases (length v) k); [rewrite Nat.min_r, !take_ge by lia | rewrite Nat.min_l by lia]; done.
Qed.

Lemma readable_drop (q : cptr) (m i : Z) (v : bytes) (c : nat) :
  readable q m v -> (c <= length v)%nat -> i = Z.of_nat c ->
  readable (padd q i) (m - i) (drop c v).
Proof.
  intros Hq Hc ->. pose proof (readable_length _ _ _ Hq).
  replace c with (Z.to_nat (Z.of_nat c)) at 3 by lia.
  rewrite <- (zsub_suffix _ (m - Z.of_nat c)) by lia.
  apply readable_sub with (n := m); auto; lia.
Qed.

Lemma readable_cstring (s : bytes) : readable (cstring s) (zlen s) s.
Proof.
  simpl. rewrite length_app. repeat split; try lia. rewrite zsub_app_l by lia.
  symmetry. apply zsub_all.
Qed.

Lemma memchr_Ret (p : cptr) (c n : Z) (v : bytes) :
  readable p n v -> memchr p c n = Ret (Z.of_nat <$> index_of (Z.eqb c) v).
Proof. intros H%load_n_Ret. unfold memchr. by rewrite H. Qed.

Lemma memcmp_eq_Ret (p q : cptr) (n : Z) (v w : bytes) :
  readable p n v -> readable q n w -> memcmp_eq p q n = Ret (eqb_bytes v w).
Proof. intros Hp%load_n_Ret Hq%load_n_Ret. unfold memcmp_eq. by rewrite Hp, bind_Ret, Hq. Qed.

#[export] Hint Resolve readable_cstring : nproxy.

(** ** Lemmas on strings *)

Lemma cstr_no_nul (a : bytes) : no_nul (cstr a).
Proof.
  unfold cstr. eapply Forall_impl; [apply take_while_Forall |].
  intros x Hx. simpl in Hx. bprop. done.
Qed.

Lemma cstr_id (a : bytes) : no_nul a -> cstr a = a.
Proof.
  intros H. apply take_while_all. eapply Forall_impl; [exact H |].
  intros x Hx. simpl. apply negb_true_iff, Z.eqb_neq, Hx.
Qed.

Lemma cstr_app_nul (a b : bytes) : no_nul a -> cstr (a ++ 0 :: b) = a.
Proof.
  intros H. apply take_while_stop.
  - eapply Forall_impl; [exact H |]. intros x Hx. simpl. apply negb_true_iff, Z.eqb_neq, Hx.
  - intros x [= <-]. done.
Qed.

Lemma no_nul_take (n : nat) (s : bytes) : no_nul s -> no_nul (take n s).
Proof. apply Forall_take. Qed.

Lemma no_nul_drop (n : nat) (s : bytes) : no_nul s -> no_nul (drop n s).
Proof. apply Forall_drop. Qed.

#[export] Hint Resolve cstr_no_nul no_nul_take no_nul_drop : nproxy.

Lemma is_prefix_spec (p s : bytes) : is_prefix p s = true <-> exists t, s = p ++ t.
Proof.
  revert s; induction p as [| x p IH]; intros s; simpl.
  - split; eauto.
  - destruct s as [| y s]; [split; [done | intros [t Ht]; discriminate] |].
    rewrite andb_true_iff, Z.eqb_eq, IH. split.
    + intros [-> [t ->]]. eauto.
    + intros [t [= -> ->]]. eauto.
Qed.

(** [strstr] finds nothing exactly when the needle occurs nowhere. *)
Lemma strstr_None (s p : bytes) : strstr s p = None <-> ~ exists a b, s = a ++ p ++ b.
Proof.
  induction s as [| x s IH]; simpl; destruct (is_prefix p _) eqn:Hp.
  - apply is_prefix_spec in Hp as [t Ht]. split; [done |]. intros H. exfalso. apply H. exists [], t. done.
  - split; [| done]. intros _ (a & b & Hab). symmetry in Hab.
    apply app_eq_nil in Hab as [-> [-> ->]%app_eq_nil]. done.
  - apply is_prefix_spec in Hp as [t Ht]. split; [done |]. intros H. exfalso. apply H. exists [], t. done.
  - rewrite fmap_None, IH. split.
    + intros H (a & b & Hab). destruct a as [| y a].
      * assert (is_prefix p (x :: s) = true) by (apply is_prefix_spec; eauto). congruence.
      * injection Hab as -> ->. eauto.
    + intros H (a & b & ->). apply H. exists (x :: a), b. done.
Qed.

Lemma last_index_of_None {A} (P : A -> bool) (l : list A) :
  last_index_of P l = None <-> Forall (fun y => P y = false) l.
Proof.
  induction l as [| y l IH]; simpl; [split; auto |].
  destruct (last_index_of P l) eqn:Hl.
  - split; [discriminate |]. inversion 1; subst. exfalso. assert (Some n = None) by (by apply IH). done.
  - assert (Forall (fun y => P y = false) l) by by apply IH.
    destruct (P y) eqn:Hy; split; auto; [discriminate |]. inversion 1; congruence.
Qed.

Lemma last_index_of_app_free {A} (P : A -> bool) (a : list A) (x : A) (b : list A) :
  P x = true -> Forall (fun y => P y = false) b -> last_index_of P (a ++ x :: b) = Some (length a).
Proof.
  intros Hx Hb%last_index_of_None. induction a as [| y a IH]; simpl.
  - by rewrite Hb, Hx.
  - by rewrite IH.
Qed.

Lemma last_index_of_Some {A} (P : A -> bool) (l : list A) (i : nat) :
  last_index_of P l = Some i ->
  exists a x b, l = a ++ x :: b /\ length a = i /\ P x = true /\ Forall (fun y => P y = false) b.
Proof.
  revert i; induction l as [| y l IH]; intros i; simpl; [discriminate |].
  destruct (last_index_of P l) as [j |] eqn:Hj.
  - intros [= <-]. destruct (IH j eq_refl) as (a & x & b & -> & <- & Hx & Hb).
    exists (y :: a), x, b. auto.
  - destruct (P y) eqn:Hy; [| discriminate]. intros [= <-].
    exists [], y, l. by apply last_index_of_None in Hj.
Qed.

(** ** Lemmas on numbers *)

Lemma digits_value_app (a b : bytes) :
  digits_value (a ++ b) = digits_value a * 10 ^ zlen b + digits_value b.
Proof.
  unfold digits_value. rewrite fold_left_app. generalize (fold_left (fun acc d => acc * 10 + (d - 48)) a 0).
  induction b as [| x b IH] using rev_ind; intros z; simpl; [lia |].
  rewrite !fold_left_app, IH, length_app. simpl.
  replace (Z.of_nat (length b + 1)) with (Z.succ (zlen b)) by lia.
  rewrite Z.pow_succ_r by lia. lia.
Qed.

Lemma fmt_digits_value (fuel : nat) (n : Z) :
  0 <= n < 2 ^ Z.of_nat fuel -> digits_value (fmt_digits fuel 10 n) = n.
Proof.
  revert n; induction fuel as [| f IH]; intros n Hn; [simpl in *; unfold digits_value; simpl; lia |].
  cbn [fmt_digits]. rewrite digits_value_app.
  assert (digits_value [digit_char (n mod 10)] = n mod 10) as ->.
  { pose proof (Z.mod_pos_bound n 10 ltac:(lia)). unfold digits_value, digit_char. simpl.
    replace (n mod 10 <? 10) with true by lia. lia. }
  destruct (n <? 10) eqn:E; bprop.
  - unfold digits_value. simpl. rewrite Z.mod_small; lia.
  - rewrite IH.
    + simpl. pose proof (Z.div_mod n 10). lia.
    + rewrite Nat2Z.inj_succ, Z.pow_succ_r in Hn by lia.
      split; [apply Z.div_pos; lia |]. apply Z.div_lt_upper_bound; lia.
Qed.

Lemma fmt_u_value (n : Z) : 0 <= n -> digits_value (fmt_u n) = n.
Proof.
  intros. apply fmt_digits_value. split; [done |].
  rewrite Nat2Z.inj_succ, Z2Nat.id by apply Z.log2_nonneg.
  destruct (Z.eq_dec n 0) as [-> |]; [done |]. apply Z.log2_spec. lia.
Qed.

Lemma fmt_digits_nonempty (fuel : nat) (b n : Z) : fmt_digits (S fuel) b n <> [].
Proof. simpl. destruct (n <? b); simpl; [done |]. by destruct (fmt_digits fuel b (n / b)). Qed.

Lemma fmt_digits_Forall (Q : Z -> Prop) (fuel : nat) (b n : Z) :
  1 < b -> 0 <= n -> (forall d, 0 <= d < b -> Q (digit_char d)) -> Forall Q (fmt_digits fuel b n).
Proof.
  intros Hb Hn HQ. revert n Hn; induction fuel as [| f IH]; intros n Hn; simpl; [constructor |].
  apply Forall_app. split.
  - destruct (n <? b); [constructor |]. apply IH. by apply Z.div_pos; lia.
  - constructor; [| constructor]. apply HQ, Z.mod_pos_bound. lia.
Qed.

Lemma fmt_u_digits (n : Z) : 0 <= n -> Forall (fun c => isdigit c = true) (fmt_u n).
Proof.
  intros. apply fmt_digits_Forall; [lia | done |]. intros d Hd.
  unfold digit_char, isdigit. replace (d <? 10) with true by lia. lia.
Qed.

Lemma fmt_u_nonempty (n : Z) : fmt_u n <> [].
Proof. apply fmt_digits_nonempty. Qed.

Lemma fmt_digits_length (fuel : nat) (b n : Z) (k : nat) :
  1 < b -> 0 <= n < b ^ Z.of_nat (S k) -> (length (fmt_digits fuel b n) <= S k)%nat.
Proof.
  intros Hb. revert n k; induction fuel as [| f IH]; intros n k Hn; simpl; [lia |].
  rewrite length_app. simpl. destruct (n <? b) eqn:E; bprop; [simpl; lia |].
  destruct k as [| k].
  - change (Z.of_nat 1) with 1 in Hn. rewrite Z.pow_1_r in Hn. lia.
  - specialize (IH (n / b) k). enough (length (fmt_digits f b (n / b)) <= S k)%nat by lia.
    apply IH. split; [apply Z.div_pos; lia |]. apply Z.div_lt_upper_bound; [lia |].
    rewrite Nat2Z.inj_succ, Z.pow_succ_r in Hn by lia. lia.
Qed.

(** A 64-bit counter has at most 20 decimal digits. *)
Lemma fmt_u_length_u64 (n : Z) : 0 <= n < 2 ^ 64 -> zlen (fmt_u n) <= 20.
Proof.
  intros Hn. pose proof (fmt_digits_length (S (Z.to_nat (Z.log2 n))) 10 n 19 ltac:(lia)).
  enough (0 <= n < 10 ^ Z.of_nat 20) by (unfold fmt_u, fmt_base; lia).
  split; [lia |]. transitivity (2 ^ 64); [lia |]. reflexivity.
Qed.

Lemma isdigit_not_space (c : Z) : isdigit c = true -> isspace c = false.
Proof. unfold isdigit, isspace. lia. Qed.

Lemma strtoll_digits (ds rest : bytes) (c : Z) :
  Forall (fun d => isdigit d = true) (c :: ds) ->
  (forall x, head rest = Some x -> isdigit x = false) ->
  strtoll (c :: ds ++ rest) = (clamp_ll (digits_value (c :: ds)), rest).
Proof.
  intros Hd Hr. unfold strtoll. cbn [drop_while].
  pose proof (Forall_inv Hd) as Hc. rewrite (isdigit_not_space c Hc).
  unfold isdigit in Hc. bprop.
  replace (c =? 45) with false by lia. replace (c =? 43) with false by lia.
  change (c :: ds ++ rest) with ((c :: ds) ++ rest).
  destruct (take_while_stop isdigit (c :: ds) rest Hd Hr) as [-> ->]. done.
Qed.

Lemma strtoll_neg_digits (ds rest : bytes) (c : Z) :
  Forall (fun d => isdigit d = true) (c :: ds) ->
  (forall x, head rest = Some x -> isdigit x = false) ->
  strtoll (45 :: c :: ds ++ rest) = (clamp_ll (- digits_value (c :: ds)), rest).
Proof.
  intros Hd Hr. unfold strtoll. cbn [drop_while].
  change (isspace 45) with false. cbn match. change (45 =? 45) with true. cbn match.
  change (c :: ds ++ rest) with ((c :: ds) ++ rest).
  destruct (take_while_stop isdigit (c :: ds) rest Hd Hr) as [-> ->]. done.
Qed.

(** Reading back a printed 64-bit number. *)
Lemma strtoll_fmt_d (z : Z) : LLONG_MIN <= z <= LLONG_MAX -> strtoll (fmt_d z) = (z, []).
Proof.
  intros Hz. unfold fmt_d. destruct (z <? 0) eqn:E; bprop.
  - pose proof (fmt_u_digits (- z) ltac:(lia)) as Hd. pose proof (fmt_u_value (- z) ltac:(lia)) as Hv.
    destruct (fmt_u (- z)) as [| c ds] eqn:Ef; [by apply fmt_u_nonempty in Ef |].
    rewrite <- (app_nil_r ds) at 1. rewrite strtoll_neg_digits by done. rewrite Hv.
    unfold clamp_ll. f_equal. lia.
  - pose proof (fmt_u_digits z ltac:(lia)) as Hd. pose proof (fmt_u_value z ltac:(lia)) as Hv.
    destruct (fmt_u z) as [| c ds] eqn:Ef; [by apply fmt_u_nonempty in Ef |].
    rewrite <- (app_nil_r ds) at 1. rewrite strtoll_digits by done. rewrite Hv.
    unfold clamp_ll. f_equal. lia.
Qed.

Lemma snprintf_fits (size : Z) (s : bytes) : zlen s < size -> snprintf size s = s.
Proof. intros. unfold snprintf. apply take_ge. lia. Qed.
