(* ===== verification/StringUtil.v ===== *)
(** * Non-owning string slices: src/core/string_util.{h,c}

    A [str_t] is a pointer and a length.  Every function is written with
    bounds-checked loads; the lemmas give, for a slice whose bytes are readable
    ([str_repr]), the value it computes, so they also show that it reads only
    inside the slice. *)

From Stdlib Require Import ZArith Lia String.
From stdpp Require Import base numbers option list.
From S2P Require Import Prelude CLib.

(** ** Data and operations *)

Record str_t : Type := mk_str { ptr : cptr; len : Z }.

Definition STR (s : bytes) : str_t := mk_str (cstring s) (zlen s).
Definition STR_NULL : str_t := mk_str NULL 0.

Definition str_from_cstr (s : option bytes) : str_t :=
  match s with Some v => mk_str (cstring v) (zlen v) | None => mk_str NULL 0 end.

Definition str_eq (a b : str_t) : cres bool :=
  if len a =? len b then memcmp_eq (ptr a) (ptr b) (len a) else Ret false.

(** The loop of [np_strncasecmp] with [n] iterations left at index [i]. *)
Fixpoint np_strncasecmp_loop (n : nat) (a b : cptr) (i : Z) : cres Z :=
  match n with
  | O => Ret 0
  | S n' =>
      x ← load a i; y ← load b i;
      let ca := tolower x in
      let cb := tolower y in
      if negb (ca =? cb) then Ret (ca - cb)
      else if ca =? 0 then Ret 0
      else np_strncasecmp_loop n' a b (i + 1)
  end.

Definition np_strncasecmp (a b : cptr) (n : Z) : cres Z :=
  np_strncasecmp_loop (Z.to_nat n) a b 0.

Definition str_ieq (a b : str_t) : cres bool :=
  if negb (len a =? len b) then Ret false
  else r ← np_strncasecmp (ptr a) (ptr b) (len a); Ret (r =? 0).

Fixpoint str_trim_left_loop (n : nat) (s : str_t) : cres str_t :=
  match n with
  | O => Ret s
  | S n' =>
      c ← load (ptr s) 0;
      if isspace c then str_trim_left_loop n' (mk_str (padd (ptr s) 1) (len s - 1)) else Ret s
  end.

Definition str_trim_left (s : str_t) : cres str_t := str_trim_left_loop (Z.to_nat (len s)) s.

Fixpoint str_trim_right_loop (n : nat) (s : str_t) : cres str_t :=
  match n with
  | O => Ret s
  | S n' =>
      c ← load (ptr s) (len s - 1);
      if isspace c then str_trim_right_loop n' (mk_str (ptr s) (len s - 1)) else Ret s
  end.

Definition str_trim_right (s : str_t) : cres str_t := str_trim_right_loop (Z.to_nat (len s)) s.

Definition str_trim (s : str_t) : cres str_t := l ← str_trim_left s; str_trim_right l.

Definition str_starts_with (s prefix : str_t) : cres bool :=
  if len s <? len prefix then Ret false
  else memcmp_eq (ptr s) (ptr prefix) (len prefix).

Definition str_ends_with (s suffix : str_t) : cres bool :=
  if len s <? len suffix then Ret false
  else memcmp_eq (padd (ptr s) (len s - len suffix)) (ptr suffix) (len suffix).

Definition str_slice (s : str_t) (start stop : Z) : str_t :=
  let start := if len s <? start then len s else start in
  let stop := if len s <? stop then len s else stop in
  let start := if stop <? start then stop else start in
  mk_str (padd (ptr s) start) (stop - start).

(** [str_to_int]: [None] stands for the -1 return. *)
Definition str_to_int (s : str_t) : cres (option Z) :=
  if len s =? 0 then Ret None
  else if 32 <=? len s then Ret None
  else
    v ← load_n (ptr s) (len s);
    let buf := cstr (v ++ [0]) in
    let '(x, rest) := strtoll buf in
    if eqb_bytes rest buf || negb (eqb_bytes rest []) then Ret None
    else Ret (Some x).

(** [malloc_ok] is whether the allocation succeeds; the result is the new
    object, terminator included. *)
Definition str_dup_cstr (malloc_ok : bool) (s : cptr) (n : Z) : cres (option bytes) :=
  if malloc_ok then v ← load_n s n; Ret (Some (v ++ [0])) else Ret None.

(** The loop of [str_contains_i] with [n] start positions left from [i]. *)
Fixpoint str_contains_i_loop (n : nat) (haystack needle : str_t) (i : Z) : cres bool :=
  match n with
  | O => Ret false
  | S n' =>
      r ← np_strncasecmp (padd (ptr haystack) i) (ptr needle) (len needle);
      if r =? 0 then Ret true else str_contains_i_loop n' haystack needle (i + 1)
  end.

Definition str_contains_i (haystack needle : str_t) : cres bool :=
  if len needle =? 0 then Ret true
  else if len haystack <? len needle then Ret false
  else str_contains_i_loop (Z.to_nat (len haystack - len needle + 1)) haystack needle 0.

(** ** Reference definitions on byte lists *)

Definition trim_left_val (v : bytes) : bytes := drop_while isspace v.
Definition trim_right_val (v : bytes) : bytes := rev (drop_while isspace (rev v)).
Definition trim_val (v : bytes) : bytes := trim_right_val (trim_left_val v).

(** Two texts that [np_strncasecmp] does not tell apart: equal up to case, as
    far as their first NUL. *)
Definition ieq_val (v w : bytes) : bool :=
  eqb_bytes (map tolower (cstr v)) (map tolower (cstr w)).

Fixpoint ncasecmp_val (v w : bytes) : Z :=
  match v, w with
  | x :: v', y :: w' =>
      if negb (tolower x =? tolower y) then tolower x - tolower y
      else if tolower x =? 0 then 0 else ncasecmp_val v' w'
  | _, _ => 0
  end.

Definition to_int_val (v : bytes) : option Z :=
  if (0 <? zlen v) && (zlen v <? 32) then
    let '(x, rest) := strtoll (cstr v) in
    if eqb_bytes rest (cstr v) || negb (eqb_bytes rest []) then None else Some x
  else None.

(** ** The representation of a slice *)

Definition str_repr (s : str_t) (v : bytes) : Prop := readable (ptr s) (len s) v.

Lemma str_repr_len (s : str_t) (v : bytes) : str_repr s v -> len s = zlen v.
Proof. intros H%readable_length. done. Qed.

Lemma str_repr_STR (s : bytes) : str_repr (STR s) s.
Proof. apply readable_cstring. Qed.

#[export] Hint Resolve str_repr_STR : nproxy.

Lemma str_repr_sub (s : str_t) (v : bytes) (i m : Z) :
  str_repr s v -> 0 <= i -> 0 <= m -> i + m <= len s ->
  str_repr (mk_str (padd (ptr s) i) m) (zsub i m v).
Proof. apply readable_sub. Qed.

Lemma padd_0 (p : cptr) : padd p 0 = p.
Proof. destruct p; simpl; [done |]. by rewrite Z.add_0_r. Qed.

Lemma padd_padd (p : cptr) (i j : Z) : padd (padd p i) j = padd p (i + j).
Proof. destruct p; simpl; [done |]. f_equal. lia. Qed.

(** ** Comparison *)

Lemma tolower_0 (c : Z) : tolower c = 0 <-> c = 0.
Proof. unfold tolower. case_goal; lia. Qed.

Lemma np_strncasecmp_loop_Ret (n : nat) (a b : cptr) (m i : Z) (v w : bytes) :
  readable a m v -> readable b m w -> 0 <= i -> i + Z.of_nat n = m ->
  np_strncasecmp_loop n a b i = Ret (ncasecmp_val (drop (Z.to_nat i) v) (drop (Z.to_nat i) w)).
Proof.
  intros Ha Hb. revert i; induction n as [| n IH]; intros i Hi Hm; simpl.
  - pose proof (readable_length _ _ _ Ha). rewrite (drop_ge v) by lia. done.
  - destruct (load_Ret a m i v Ha) as (x & -> & Hx); [lia |].
    destruct (load_Ret b m i w Hb) as (y & -> & Hy); [lia |].
    rewrite !bind_Ret, (drop_S _ _ _ Hx), (drop_S _ _ _ Hy). cbn [ncasecmp_val].
    destruct (negb _); [done |]. destruct (_ =? 0); [done |].
    rewrite IH by lia. do 2 f_equal; f_equal; lia.
Qed.

Lemma np_strncasecmp_Ret (a b : cptr) (n : Z) (v w : bytes) :
  readable a n v -> readable b n w -> np_strncasecmp a b n = Ret (ncasecmp_val v w).
Proof.
  intros Ha Hb. pose proof (readable_length _ _ _ Ha).
  unfold np_strncasecmp. by rewrite (np_strncasecmp_loop_Ret _ _ _ n _ v w) by (done || lia).
Qed.

Lemma ncasecmp_val_0 (v w : bytes) :
  length v = length w -> (ncasecmp_val v w =? 0) = ieq_val v w.
Proof.
  unfold ieq_val. revert w; induction v as [| x v IH]; intros [| y w] Hl; try discriminate; [done |].
  injection Hl as Hl. cbn [ncasecmp_val]. unfold cstr. cbn [take_while].
  destruct (Z.eqb_spec (tolower x) (tolower y)) as [E | E]; cbn [negb].
  - destruct (Z.eqb_spec (tolower x) 0) as [E0 | E0].
    + assert (x = 0) as -> by by apply tolower_0.
      assert (y = 0) as -> by (apply tolower_0; congruence). done.
    + assert (x <> 0) by (contradict E0; by apply tolower_0).
      assert (y <> 0) by (contradict E0; rewrite E; by apply tolower_0).
      rewrite (proj2 (Z.eqb_neq x 0)), (proj2 (Z.eqb_neq y 0)) by done. cbn [negb map].
      rewrite (IH w Hl). unfold eqb_bytes, cstr. rewrite E. apply bool_decide_ext.
      split; [by intros -> | by intros [= ->]].
  - replace (tolower x - tolower y =? 0) with false by lia. symmetry.
    destruct (Z.eqb_spec x 0) as [Ex | Ex], (Z.eqb_spec y 0) as [Ey | Ey]; subst;
      cbn [negb map]; apply eqb_bytes_false; congruence.
Qed.

Lemma str_ieq_Ret (a b : str_t) (v w : bytes) :
  str_repr a v -> str_repr b w ->
  str_ieq a b = Ret ((zlen v =? zlen w) && ieq_val v w).
Proof.
  intros Ha Hb. pose proof (str_repr_len _ _ Ha) as La. pose proof (str_repr_len _ _ Hb) as Lb.
  unfold str_ieq. rewrite La, Lb. destruct (Z.eqb_spec (zlen v) (zlen w)) as [E | E]; [| done].
  cbn [negb]. unfold str_repr in *. rewrite La in Ha. rewrite Lb in Hb. rewrite <- E in Hb.
  rewrite (np_strncasecmp_Ret _ _ _ v w) by done. rewrite bind_Ret, ncasecmp_val_0 by lia. done.
Qed.

(** ** Trimming *)

Lemma trim_left_val_cons (x : Z) (v : bytes) :
  trim_left_val (x :: v) = if isspace x then trim_left_val v else x :: v.
Proof. done. Qed.

Lemma trim_right_val_snoc (x : Z) (v : bytes) :
  trim_right_val (v ++ [x]) = if isspace x then trim_right_val v else v ++ [x].
Proof.
  unfold trim_right_val. rewrite rev_app_distr. simpl. destruct (isspace x); [done |].
  simpl. by rewrite rev_involutive.
Qed.

Lemma str_trim_left_loop_Ret (n : nat) (s : str_t) (v : bytes) :
  str_repr s v -> len s = Z.of_nat n ->
  exists k, 0 <= k <= len s /\
    str_trim_left_loop n s = Ret (mk_str (padd (ptr s) k) (len s - k)) /\
    str_repr (mk_str (padd (ptr s) k) (len s - k)) (trim_left_val v).
Proof.
  revert s v; induction n as [| n IH]; intros s v Hs Hn; simpl.
  - exists 0. rewrite padd_0, Z.sub_0_r. pose proof (str_repr_len _ _ Hs).
    destruct v; [| simpl in *; lia]. destruct s. simpl in *. split; [lia | done].
  - destruct (load_Ret (ptr s) (len s) 0 v Hs) as (x & -> & Hx); [lia |]. rewrite bind_Ret.
    destruct v as [| x' v]; [discriminate |]. injection Hx as ->. rewrite trim_left_val_cons.
    destruct (isspace x).
    + assert (str_repr (mk_str (padd (ptr s) 1) (len s - 1)) v) as Hs'.
      { pose proof (str_repr_len _ _ Hs) as Hl. simpl in Hl.
        replace v with (zsub 1 (len s - 1) (x :: v)).
        - apply readable_sub with (n := len s); [done | lia..].
        - unfold zsub. simpl. rewrite drop_0. apply take_ge. lia. }
      destruct (IH _ v Hs') as (k & Hk & -> & Hr); [simpl; lia |]. simpl in *.
      rewrite padd_padd in *. exists (1 + k).
      replace (len s - (1 + k)) with (len s - 1 - k) by lia. split; [lia | done].
    + exists 0. rewrite padd_0, Z.sub_0_r. destruct s. split; [simpl in *; lia | done].
Qed.

Lemma str_trim_right_loop_Ret (n : nat) (s : str_t) (v : bytes) :
  str_repr s v -> len s = Z.of_nat n ->
  exists m, 0 <= m <= len s /\
    str_trim_right_loop n s = Ret (mk_str (ptr s) m) /\
    str_repr (mk_str (ptr s) m) (trim_right_val v).
Proof.
  revert s v; induction n as [| n IH]; intros s v Hs Hn; simpl.
  - exists (len s). pose proof (str_repr_len _ _ Hs).
    destruct v; [| simpl in *; lia]. destruct s. split; [simpl in *; lia | done].
  - destruct (load_Ret (ptr s) (len s) (len s - 1) v Hs) as (x & -> & Hx); [lia |]. rewrite bind_Ret.
    pose proof (str_repr_len _ _ Hs) as Hl.
    destruct v as [| x' v _] using rev_ind; [discriminate |]. rewrite length_app in Hl. simpl in Hl.
    rewrite lookup_app_r in Hx by lia.
    replace (Z.to_nat (len s - 1) - length v)%nat with 0%nat in Hx by lia. injection Hx as ->.
    rewrite trim_right_val_snoc. destruct (isspace x).
    + assert (str_repr (mk_str (ptr s) (len s - 1)) v) as Hs'.
      { replace v with (zsub 0 (len s - 1) (v ++ [x])).
        - rewrite <- (padd_0 (ptr s)). apply readable_sub with (n := len s); [done | lia..].
        - unfold zsub. rewrite drop_0. replace (Z.to_nat (len s - 1)) with (length v) by lia.
          apply take_app_length. }
      destruct (IH _ v Hs') as (m & Hm & -> & Hr); [simpl; lia |]. simpl in *. exists m.
      split; [lia | done].
    + exists (len s). destruct s. split; [simpl in *; lia | done].
Qed.

(** Trimming returns a sub-slice of its argument. *)
Lemma str_trim_Ret (s : str_t) (v : bytes) :
  str_repr s v ->
  exists k m, 0 <= k /\ 0 <= m /\ k + m <= len s /\
    str_trim s = Ret (mk_str (padd (ptr s) k) m) /\
    str_repr (mk_str (padd (ptr s) k) m) (trim_val v).
Proof.
  intros Hs. unfold str_trim, str_trim_left, str_trim_right.
  pose proof (str_repr_len _ _ Hs).
  destruct (str_trim_left_loop_Ret (Z.to_nat (len s)) s v Hs) as (k & Hk & -> & Hl); [lia |].
  rewrite bind_Ret.
  destruct (str_trim_right_loop_Ret (Z.to_nat (len s - k)) _ _ Hl) as (m & Hm & Hr & Ht); [simpl; lia |].
  simpl in *. rewrite Hr. exists k, m. split_and!; auto; lia.
Qed.

(** What trimming leaves: the text without its longest blank prefix and suffix. *)
Lemma trim_val_spec (v : bytes) :
  exists l r, v = l ++ trim_val v ++ r /\
    Forall (fun c => isspace c = true) l /\ Forall (fun c => isspace c = true) r /\
    (forall c, head (trim_val v) = Some c -> isspace c = false) /\
    (forall c, last (trim_val v) = Some c -> isspace c = false).
Proof.
  set (u := trim_left_val v).
  exists (take_while isspace v), (rev (take_while isspace (rev u))).
  assert (u = trim_right_val u ++ rev (take_while isspace (rev u))) as Hu.
  { unfold trim_right_val. rewrite <- rev_app_distr, take_while_app_drop_while. by rewrite rev_involutive. }
  assert (forall c, last (trim_right_val u) = Some c -> isspace c = false) as Hlast.
  { intros c. unfold trim_right_val. rewrite rev_alt. setoid_rewrite last_reverse. apply drop_while_head. }
  split_and!; auto.
  - unfold trim_val. fold u. rewrite <- Hu. symmetry. apply take_while_app_drop_while.
  - apply take_while_Forall.
  - apply Forall_rev, take_while_Forall.
  - intros c Hc. unfold trim_val in Hc. fold u in Hc. apply (drop_while_head isspace v).
    change (drop_while isspace v) with u. rewrite Hu. destruct (trim_right_val u); [discriminate | done].
Qed.

Lemma trim_val_id (v : bytes) :
  (forall c, head v = Some c -> isspace c = false) ->
  (forall c, last v = Some c -> isspace c = false) -> trim_val v = v.
Proof.
  intros Hh Hl. unfold trim_val, trim_left_val.
  assert (drop_while isspace v = v) as ->.
  { destruct v as [| c v]; [done |]. simpl. by rewrite (Hh c eq_refl). }
  unfold trim_right_val. destruct v as [| c v _] using rev_ind; [done |].
  rewrite rev_app_distr. simpl. rewrite (Hl c) by apply last_snoc. simpl. by rewrite rev_involutive.
Qed.

(** ** Prefixes, suffixes, slices *)

Lemma str_starts_with_Ret (s p : str_t) (v w : bytes) :
  str_repr s v -> str_repr p w -> str_starts_with s p = Ret (is_prefix w v).
Proof.
  intros Hs Hp. pose proof (str_repr_len _ _ Hs) as Ls. pose proof (str_repr_len _ _ Hp) as Lp.
  unfold str_starts_with. destruct (len s <? len p) eqn:E; bprop.
  - f_equal. symmetry. destruct (is_prefix w v) eqn:H; [| done].
    apply is_prefix_spec in H as [t ->]. rewrite length_app in Ls. lia.
  - assert (readable (ptr s) (len p) (take (length w) v)) as Hs'.
    { rewrite <- (padd_0 (ptr s)). replace (take (length w) v) with (zsub 0 (len p) v).
      - apply readable_sub with (n := len s); [done | lia..].
      - unfold zsub. rewrite drop_0. f_equal. lia. }
    rewrite (memcmp_eq_Ret _ _ _ _ _ Hs' Hp). f_equal. apply eq_true_iff_eq.
    rewrite eqb_bytes_true, is_prefix_spec. split.
    + intros <-. exists (drop (length w) v). by rewrite take_drop.
    + intros [t ->]. apply take_app_length.
Qed.

Lemma str_ends_with_Ret (s p : str_t) (v w : bytes) :
  str_repr s v -> str_repr p w ->
  exists b, str_ends_with s p = Ret b /\ (b = true <-> exists t, v = t ++ w).
Proof.
  intros Hs Hp. pose proof (str_repr_len _ _ Hs) as Ls. pose proof (str_repr_len _ _ Hp) as Lp.
  unfold str_ends_with. destruct (len s <? len p) eqn:E; bprop.
  - exists false. split; [done |]. split; [done |]. intros [t ->]. rewrite length_app in Ls. lia.
  - assert (readable (padd (ptr s) (len s - len p)) (len p) (drop (length v - length w) v)) as Hs'.
    { replace (drop (length v - length w) v) with (zsub (len s - len p) (len p) v).
      - apply readable_sub with (n := len s); [done | lia..].
      - unfold zsub. replace (Z.to_nat (len s - len p)) with (length v - length w)%nat by lia.
        apply take_ge. rewrite length_drop. lia. }
    rewrite (memcmp_eq_Ret _ _ _ _ _ Hs' Hp). eexists. split; [done |].
    rewrite eqb_bytes_true. split.
    + intros <-. exists (take (length v - length w) v). by rewrite take_drop.
    + intros [t ->]. rewrite length_app, Nat.add_sub. apply drop_app_length.
Qed.

Lemma str_slice_repr (s : str_t) (v : bytes) (start stop : Z) :
  str_repr s v -> 0 <= start -> 0 <= stop ->
  str_repr (str_slice s start stop)
    (take (Z.to_nat stop - Z.to_nat start) (drop (Z.to_nat start) v)).
Proof.
  intros Hs H1 H2. pose proof (str_repr_len _ _ Hs) as Ls. unfold str_slice.
  set (b := if len s <? stop then len s else stop).
  set (a := if len s <? start then len s else start).
  assert (b = Z.min (len s) stop) by (unfold b; case_goal; lia).
  assert (a = Z.min (len s) start) by (unfold a; case_goal; lia).
  set (a' := if b <? a then b else a). assert (a' = Z.min a b) by (unfold a'; case_goal; lia).
  clearbody a b a'.
  replace (take _ _) with (zsub a' (b - a') v); [apply str_repr_sub; auto; lia |].
  unfold zsub. destruct (decide (start < stop /\ start < len s)).
  - replace (Z.to_nat a') with (Z.to_nat start) by lia.
    destruct (decide (stop <= len s)).
    + f_equal. lia.
    + rewrite !take_ge; [done | rewrite length_drop; lia..].
  - replace (Z.to_nat (b - a')) with 0%nat by lia.
    destruct (decide (start < stop)).
    + rewrite (drop_ge v (Z.to_nat start)) by lia. by rewrite take_nil, take_0.
    + replace (_ - _)%nat with 0%nat by lia. by rewrite !take_0.
Qed.

(** ** Numbers *)

Lemma str_to_int_Ret (s : str_t) (v : bytes) :
  str_repr s v -> str_to_int s = Ret (to_int_val v).
Proof.
  intros Hs. pose proof (str_repr_len _ _ Hs) as Ls. unfold str_to_int, to_int_val.
  destruct (Z.eqb_spec (len s) 0) as [E | E].
  { replace (0 <? zlen v) with false by lia. done. }
  destruct (Z.leb_spec 32 (len s)).
  { replace (zlen v <? 32) with false by lia. by rewrite andb_false_r. }
  replace (0 <? zlen v) with true by lia. replace (zlen v <? 32) with true by lia.
  cbn [andb]. apply load_n_Ret in Hs. rewrite Hs, bind_Ret.
  assert (cstr (v ++ [0]) = cstr v) as ->.
  { unfold cstr. clear. induction v as [| x v IH]; simpl; [done |].
    destruct (negb (x =? 0)); [by rewrite IH | done]. }
  destruct (strtoll (cstr v)) as [x rest]. by destruct (_ || _).
Qed.

Lemma fmt_d_no_nul (z : Z) : no_nul (fmt_d z).
Proof.
  assert (forall n, 0 <= n -> no_nul (fmt_u n)) as Hu.
  { intros n Hn. eapply Forall_impl; [by apply fmt_u_digits |].
    intros c Hc. unfold isdigit in Hc. bprop. lia. }
  unfold fmt_d. destruct (z <? 0) eqn:E; bprop; [constructor; [lia |] |]; apply Hu; lia.
Qed.

Lemma fmt_d_nonempty (z : Z) : fmt_d z <> [].
Proof. unfold fmt_d. case_goal; [done |]. apply fmt_u_nonempty. Qed.

Lemma fmt_d_length (z : Z) : LLONG_MIN <= z <= LLONG_MAX -> zlen (fmt_d z) <= 21.
Proof.
  unfold LLONG_MIN, LLONG_MAX, fmt_d. intros. case_goal.
  - pose proof (fmt_u_length_u64 (- z) ltac:(lia)). simpl length. lia.
  - pose proof (fmt_u_length_u64 z ltac:(lia)). lia.
Qed.

Lemma to_int_val_fmt_d (z : Z) : LLONG_MIN <= z <= LLONG_MAX -> to_int_val (fmt_d z) = Some z.
Proof.
  intros Hz. unfold to_int_val. pose proof (fmt_d_length z Hz). pose proof (fmt_d_nonempty z) as Hne.
  replace (zlen (fmt_d z) <? 32) with true by lia.
  assert (0 < zlen (fmt_d z)) by (destruct (fmt_d z); [done | simpl; lia]).
  replace (0 <? zlen (fmt_d z)) with true by lia.
  cbn [andb]. rewrite cstr_id by apply fmt_d_no_nul. rewrite strtoll_fmt_d by done.
  assert (eqb_bytes [] (fmt_d z) = false) as -> by (by apply eqb_bytes_false).
  by rewrite eqb_bytes_refl.
Qed.

(** ** Case-insensitive search *)

Lemma str_contains_i_loop_Ret (n : nat) (h d : str_t) (v w : bytes) (i : Z) :
  str_repr h v -> str_repr d w -> 0 <= i ->
  i + Z.of_nat n = zlen v - zlen w + 1 ->
  exists b, str_contains_i_loop n h d i = Ret b /\
    (b = true <-> exists j, i <= j /\ j + zlen w <= zlen v /\ ieq_val (zsub j (zlen w) v) w = true).
Proof.
  intros Hh Hd. pose proof (str_repr_len _ _ Hh) as Lh. pose proof (str_repr_len _ _ Hd) as Ld.
  revert i; induction n as [| n IH]; intros i Hi Hn; simpl.
  - exists false. split; [done |]. split; [done |]. intros (j & ? & ? & _). lia.
  - assert (readable (padd (ptr h) i) (len d) (zsub i (zlen w) v)) as Hs.
    { rewrite <- Ld. apply readable_sub with (n := len h); [done | lia..]. }
    rewrite (np_strncasecmp_Ret _ _ _ _ _ Hs Hd), bind_Ret, ncasecmp_val_0.
    2: { apply Nat2Z.inj. rewrite zsub_length; lia. }
    destruct (ieq_val (zsub i (zlen w) v) w) eqn:E.
    + exists true. split; [done |]. split; [| done]. intros _. exists i. split_and!; auto; lia.
    + destruct (IH (i + 1)) as (b & -> & Hb); [lia.. |]. exists b. split; [done |]. rewrite Hb.
      split; intros (j & ? & ? & Hj); exists j; split_and!; auto; [lia |].
      destruct (decide (j = i)) as [-> |]; [congruence | lia].
Qed.

Lemma str_contains_i_Ret (h d : str_t) (v w : bytes) :
  str_repr h v -> str_repr d w ->
  exists b, str_contains_i h d = Ret b /\
    (b = true <->
     exists i, 0 <= i /\ i + zlen w <= zlen v /\ ieq_val (zsub i (zlen w) v) w = true).
Proof.
  intros Hh Hd. pose proof (str_repr_len _ _ Hh) as Lh. pose proof (str_repr_len _ _ Hd) as Ld.
  unfold str_contains_i. destruct (Z.eqb_spec (len d) 0) as [E | E].
  - exists true. split; [done |]. split; [| done]. intros _. exists 0.
    destruct w; [| simpl in *; lia]. split_and!; [lia | simpl; lia | done].
  - destruct (Z.ltb_spec (len h) (len d)).
    + exists false. split; [done |]. split; [done |]. intros (i & ? & ? & _). lia.
    + apply str_contains_i_loop_Ret; auto; lia.
Qed.

(** ** Properties *)

(** [str_trim] never reads outside its argument: on a readable slice it
    returns a sub-slice of the same object, whose text is the argument without
    a blank prefix and a blank suffix, and which neither starts nor ends with a
    blank. *)
Theorem str_trim_correct (s : str_t) (v : bytes) :
  str_repr s v ->
  exists s' l t r, str_trim s = Ret s' /\ str_repr s' t /\ v = l ++ t ++ r /\
    (exists k, 0 <= k /\ ptr s' = padd (ptr s) k /\ k + len s' <= len s) /\
    Forall (fun c => isspace c = true) (l ++ r) /\
    (forall c, head t = Some c -> isspace c = false) /\
    (forall c, last t = Some c -> isspace c = false).
Proof.
  intros Hs. destruct (str_trim_Ret s v Hs) as (k & m & Hk & Hm & Hkm & Ht & Hr).
  destruct (trim_val_spec v) as (l & r & Hv & Hl & Hr' & Hhd & Hlast).
  exists (mk_str (padd (ptr s) k) m), l, (trim_val v), r. split_and!; auto; [by exists k |].
  by apply Forall_app.
Qed.

Lemma str_trim_correct_witness :
  exists s', str_trim (STR (lit " ab ")) = Ret s' /\ len s' = 2.
Proof.
  destruct (str_trim_correct (STR (lit " ab ")) (lit " ab "))
    as (s' & l & t & r & Hs & _); [apply str_repr_STR |].
  exists s'. split; [exact Hs |].
  vm_compute in Hs. injection Hs as <-. reflexivity.
Defined.

(** [str_contains_i] reads only inside its two slices and answers whether
    some window of the haystack equals the needle up to ASCII case (as far as a
    NUL byte, where the comparison of [np_strncasecmp] stops). *)
Theorem str_contains_i_correct (h d : str_t) (v w : bytes) :
  str_repr h v -> str_repr d w ->
  exists b, str_contains_i h d = Ret b /\
    (b = true <->
     exists i, 0 <= i /\ i + zlen w <= zlen v /\ ieq_val (zsub i (zlen w) v) w = true).
Proof. apply str_contains_i_Ret. Qed.

Lemma str_contains_i_correct_witness :
  exists b, str_contains_i (STR (lit "keep-alive, Upgrade")) (STR (lit "upgrade")) = Ret b /\ b = true.
Proof.
  destruct (str_contains_i_correct (STR (lit "keep-alive, Upgrade")) (STR (lit "upgrade"))
    (lit "keep-alive, Upgrade") (lit "upgrade")) as (b & Hb & Hi);
    [apply str_repr_STR | apply str_repr_STR |].
  exists b. split; [exact Hb |]. apply Hi. exists 12. repeat split; reflexivity || (vm_compute; discriminate).
Defined.

(** Reading back a printed number: the decimal text of every 64-bit signed
    value is accepted by [str_to_int] and yields that value. *)
Theorem str_to_int_roundtrip (z : Z) (s : str_t) :
  LLONG_MIN <= z <= LLONG_MAX -> str_repr s (fmt_d z) -> str_to_int s = Ret (Some z).
Proof. intros Hz Hs. by rewrite (str_to_int_Ret s _ Hs), to_int_val_fmt_d. Qed.

Lemma str_to_int_roundtrip_witness : str_to_int (STR (fmt_d (-42))) = Ret (Some (-42)).
Proof.
  apply str_to_int_roundtrip; [split; vm_compute; discriminate | apply str_repr_STR].
Defined.
