(* ===== verification/Memory.v ===== *)
(** * The arena allocator: src/core/memory.{h,c}

    An arena is a chain of blocks, the newest first; allocation bumps [used] in
    the newest block and chains a new block when the request does not fit.  The
    address arithmetic is that of [usize], modulo 2^64.  [malloc] is the C
    library's allocator: a parameter given as a function of the regions that are
    live when it is called, with the laws the code relies on in the class
    [AllocatorOK]; [bump] is an allocator that satisfies them. *)

From Stdlib Require Import ZArith Lia.
From stdpp Require Import base numbers option list.
From S2P Require Import Prelude.

(** ** The C library's allocator *)

(** A region is an address and a size. *)
Definition region : Type := (Z * Z)%type.

Definition disjoint_regions (r s : region) : Prop :=
  r.1 + r.2 <= s.1 \/ s.1 + s.2 <= r.1.

Class Allocator : Type := { malloc : list region -> Z -> option Z }.

(** On a 64-bit target: memory of the size asked for, aligned to 16 bytes, in
    the lower half of the address space, apart from every live region. *)
Class AllocatorOK (A : Allocator) : Prop := {
  malloc_pos : forall h n p, malloc h n = Some p -> 0 < p;
  malloc_aligned : forall h n p, malloc h n = Some p -> p mod 16 = 0;
  malloc_bound : forall h n p, malloc h n = Some p -> p + n <= 2 ^ 63;
  malloc_fresh : forall h n p, malloc h n = Some p -> Forall (disjoint_regions (p, n)) h
}.

(** [free(p)]: the region that starts at [p] is no longer live. *)
Definition free (h : list region) (p : Z) : list region :=
  filter (fun r => r.1 <> p) h.

(** ** Blocks and arenas *)

Record arena_block : Type := mk_block { ab_start : Z; ab_cap : Z; ab_used : Z }.

(** [a_head] is the chain from [arena->head] along [next]. *)
Record arena_t : Type := mk_arena { a_head : list arena_block; a_block_size : Z }.

Definition sizeof_arena_block : Z := 32.
Definition sizeof_arena : Z := 16.
Definition sizeof_ptr : Z := 8.

(** The bytes to skip from [addr] to the next multiple of [align]; the
    difference is at most [align], so nothing wraps. *)
Definition align_pad (addr align : Z) : Z := (align - addr mod align) mod align.

Section operations.
Context {A : Allocator}.

Definition block_create (h : list region) (size : Z) : option (arena_block * list region) :=
  let n := u64 (sizeof_arena_block + size) in
  match malloc h n with
  | None => None
  | Some p => Some (mk_block (p + sizeof_arena_block) size 0, (p, n) :: h)
  end.

(** The arena with the address of its own header, and the live regions. *)
Definition arena_create (h : list region) (bsize : Z) : option (Z * arena_t) * list region :=
  match malloc h sizeof_arena with
  | None => (None, h)
  | Some pa =>
      let h1 := (pa, sizeof_arena) :: h in
      match block_create h1 bsize with
      | None => (None, free h1 pa)
      | Some (b, h2) => (Some (pa, mk_arena [b] bsize), h2)
      end
  end.

(** [None] is a null pointer.  The chain is never empty between calls.  A zero
    alignment divides by zero.  In a new block the padding is dropped from the
    address, but not from the space used. *)
Definition arena_alloc_aligned (h : list region) (a : arena_t) (size align : Z)
    : cres (option Z * arena_t * list region) :=
  match a_head a with
  | [] => Stuck
  | block :: rest =>
      if align =? 0 then Stuck else
      let pad := align_pad (u64 (ab_start block + ab_used block)) align in
      let need := u64 (size + pad) in
      if ab_cap block <? u64 (ab_used block + need) then
        let bsize := if a_block_size a <? need then need else a_block_size a in
        match block_create h bsize with
        | None => Ret (None, a, h)
        | Some (nb, h') =>
            let nb' := mk_block (ab_start nb) (ab_cap nb) (u64 (ab_used nb + need)) in
            Ret (Some (u64 (ab_start nb + ab_used nb)), mk_arena (nb' :: block :: rest) (a_block_size a), h')
        end
      else
        let block' := mk_block (ab_start block) (ab_cap block) (u64 (ab_used block + need)) in
        Ret (Some (u64 (ab_start block + ab_used block + pad)), mk_arena (block' :: rest) (a_block_size a), h)
  end.

Definition arena_alloc (h : list region) (a : arena_t) (size : Z)
    : cres (option Z * arena_t * list region) :=
  arena_alloc_aligned h a size sizeof_ptr.

(** The address [malloc] returned for a block. *)
Definition block_addr (b : arena_block) : Z := ab_start b - sizeof_arena_block.

(** The loop of [arena_reset]: free every block that has a successor. *)
Fixpoint arena_reset_loop (h : list region) (b : arena_block) (next : list arena_block)
    : arena_block * list region :=
  match next with
  | [] => (b, h)
  | b' :: next' => arena_reset_loop (free h (block_addr b)) b' next'
  end.

Definition arena_reset (h : list region) (a : arena_t) : cres (arena_t * list region) :=
  match a_head a with
  | [] => Stuck
  | b :: next =>
      let '(l, h') := arena_reset_loop h b next in
      Ret (mk_arena [mk_block (ab_start l) (ab_cap l) 0] (a_block_size a), h')
  end.

Definition arena_destroy (h : list region) (pa : Z) (a : arena_t) : list region :=
  free (fold_left (fun h b => free h (block_addr b)) (a_head a) h) pa.

(** A sequence of requests (size, alignment): the pointers returned, in order,
    until one fails. *)
Fixpoint arena_run (h : list region) (a : arena_t) (reqs : list (Z * Z))
    : cres (list region * arena_t * list region) :=
  match reqs with
  | [] => Ret ([], a, h)
  | (size, align) :: reqs' =>
      r ← arena_alloc_aligned h a size align;
      match r with
      | (None, a', h') => Ret ([], a', h')
      | (Some p, a', h') =>
          r' ← arena_run h' a' reqs';
          let '(ps, a'', h'') := r' in Ret ((p, size) :: ps, a'', h'')
      end
  end.

End operations.

(** ** A bump allocator *)

Definition region_end (r : region) : Z := r.1 + r.2.

Definition round16 (n : Z) : Z := (n + 15) / 16 * 16.

#[export] Instance bump : Allocator := {|
  malloc h n :=
    let p := round16 (fold_right Z.max 1 (map region_end h)) in
    if p + n <=? 2 ^ 63 then Some p else None
|}.

Lemma fold_max_ge (l : list Z) (x : Z) : x ∈ l -> x <= fold_right Z.max 1 l.
Proof. induction 1; simpl; lia. Qed.

Lemma round16_ge (n : Z) : n <= round16 n.
Proof. unfold round16. pose proof (Z.div_mod (n + 15) 16). pose proof (Z.mod_pos_bound (n + 15) 16). lia. Qed.

#[export] Instance bump_ok : AllocatorOK bump.
Proof.
  constructor; simpl; intros h n p; case_goal; intros [= <-].
  - pose proof (round16_ge (fold_right Z.max 1 (map region_end h))).
    enough (1 <= fold_right Z.max 1 (map region_end h)) by lia.
    generalize (map region_end h). intros l. induction l; simpl; lia.
  - apply Z_mod_mult.
  - done.
  - apply Forall_forall. intros r Hr. right. simpl.
    etransitivity; [| apply round16_ge]. apply (fold_max_ge _ (region_end r)).
    apply list_elem_of_In, in_map, list_elem_of_In, Hr.
Qed.

(** ** The invariant *)

Definition block_region (b : arena_block) : region := (block_addr b, sizeof_arena_block + ab_cap b).

Definition block_ok (b : arena_block) : Prop :=
  0 <= ab_used b <= ab_cap b /\ sizeof_arena_block < ab_start b /\ ab_start b mod 16 = 0 /\
  ab_start b + ab_cap b <= 2 ^ 63.

(** [r] lies in the part of [b] that has been handed out. *)
Definition in_block (r : region) (b : arena_block) : Prop :=
  ab_start b <= r.1 /\ 0 <= r.2 /\ r.1 + r.2 <= ab_start b + ab_used b.

Fixpoint pairwise_disjoint (l : list region) : Prop :=
  match l with
  | [] => True
  | r :: l' => Forall (disjoint_regions r) l' /\ pairwise_disjoint l'
  end.

(** The blocks of [a] are live in [h] and apart from each other, and the
    allocations [L] made since the last reset lie in them, apart from each other. *)
Record arena_inv (h : list region) (a : arena_t) (L : list region) : Prop := {
  inv_nonempty : a_head a <> [];
  inv_blocks : Forall block_ok (a_head a);
  inv_bsize : 0 <= a_block_size a < 2 ^ 63;
  inv_live : Forall (fun b => block_region b ∈ h) (a_head a);
  inv_apart : pairwise_disjoint (map block_region (a_head a));
  inv_allocs : Forall (fun r => Exists (in_block r) (a_head a)) L;
  inv_disjoint : pairwise_disjoint L
}.

Lemma disjoint_regions_sym (r s : region) : disjoint_regions r s -> disjoint_regions s r.
Proof. unfold disjoint_regions. lia. Qed.

Lemma disjoint_regions_sub (r s r' s' : region) :
  disjoint_regions r s -> r.1 <= r'.1 -> r'.1 + r'.2 <= r.1 + r.2 ->
  s.1 <= s'.1 -> s'.1 + s'.2 <= s.1 + s.2 -> 0 <= r'.2 -> 0 <= s'.2 -> disjoint_regions r' s'.
Proof. unfold disjoint_regions. lia. Qed.

Lemma align_pad_spec (addr align : Z) :
  0 < align -> 0 <= align_pad addr align < align /\ (addr + align_pad addr align) mod align = 0.
Proof.
  intros Ha. unfold align_pad. split; [apply Z.mod_pos_bound; lia |].
  rewrite Z.add_mod_idemp_r by lia.
  replace (addr + (align - addr mod align)) with (align * (addr / align) + align).
  - rewrite <- Z.mul_succ_r. rewrite Z.mul_comm. apply Z_mod_mult.
  - pose proof (Z.div_mod addr align). lia.
Qed.

Lemma mod16_divides (x align : Z) : 0 < align -> 16 mod align = 0 -> x mod 16 = 0 -> x mod align = 0.
Proof.
  intros Ha H16 Hx. apply Z.mod_divide in H16; [| lia]. apply Z.mod_divide in Hx; [| lia].
  apply Z.mod_divide; [lia |]. etransitivity; eauto.
Qed.

(** The requests (size, alignment) whose arithmetic cannot wrap. *)
Definition request_fits (r : Z * Z) : Prop := 0 <= r.1 /\ 0 < r.2 /\ r.1 + r.2 <= 2 ^ 63.

Section soundness.
Context {A : Allocator} {OK : AllocatorOK A}.

Lemma block_create_ok (h : list region) (size : Z) (b : arena_block) (h' : list region) :
  0 <= size < 2 ^ 63 -> block_create h size = Some (b, h') ->
  block_ok b /\ ab_used b = 0 /\ ab_cap b = size /\ h' = block_region b :: h /\
  Forall (disjoint_regions (block_region b)) h.
Proof.
  unfold block_create, block_ok, block_region, block_addr, sizeof_arena_block. intros Hs.
  rewrite u64_small by lia. destruct (malloc h (32 + size)) as [p |] eqn:E; [| discriminate].
  intros [= <- <-]. simpl.
  pose proof (malloc_pos _ _ _ E). pose proof (malloc_aligned _ _ _ E) as Hal.
  pose proof (malloc_bound _ _ _ E). pose proof (malloc_fresh _ _ _ E).
  replace (p + 32 - 32) with p by lia. split_and!; auto; try lia.
  rewrite Z.add_mod, Hal by lia. done.
Qed.

Lemma Forall_in_tail (r : region) (b b' : arena_block) (bs : list arena_block) :
  ab_start b' = ab_start b -> ab_used b <= ab_used b' ->
  Exists (in_block r) (b :: bs) -> Exists (in_block r) (b' :: bs).
Proof.
  intros Hs Hu [Hb | Hb]%Exists_cons; apply Exists_cons; [left | by right].
  unfold in_block in *. lia.
Qed.

(** An allocation inside [b], past what was handed out, is apart from the others. *)
Lemma alloc_apart (b : arena_block) (bs : list arena_block) (L : list region) (p n : Z) :
  Forall block_ok (b :: bs) -> pairwise_disjoint (map block_region (b :: bs)) ->
  Forall (fun r => Exists (in_block r) (b :: bs)) L ->
  ab_start b + ab_used b <= p -> 0 <= n -> p + n <= ab_start b + ab_cap b ->
  Forall (disjoint_regions (p, n)) L.
Proof.
  intros Hok [Hap _] HL Hp Hn Hpn. apply Forall_forall. intros r Hr.
  rewrite Forall_forall in HL. specialize (HL r Hr). apply Exists_cons in HL as [Hb | Hb].
  - destruct Hb as (? & ? & ?). right. simpl. lia.
  - apply Exists_exists in Hb as (c & Hc & H1 & H2 & H3).
    rewrite Forall_forall in Hap. specialize (Hap (block_region c)).
    assert (block_region c ∈ map block_region bs) as Hcb
      by (apply list_elem_of_In, in_map, list_elem_of_In, Hc).
    rewrite Forall_forall in Hok. pose proof (Hok b (list_elem_of_here _ _)) as (? & ? & _).
    pose proof (Hok c (list_elem_of_further _ _ _ Hc)) as (? & ? & _).
    eapply disjoint_regions_sub; [by apply Hap |..];
      unfold block_region, block_addr, sizeof_arena_block in *; simpl; lia.
Qed.

(** One request: what it returns is apart from every earlier allocation, aligned
    when the alignment divides that of [malloc], and the invariant holds again. *)
Lemma arena_alloc_aligned_inv (h : list region) (a : arena_t) (L : list region) (size align : Z) :
  arena_inv h a L -> request_fits (size, align) ->
  exists o a' h', arena_alloc_aligned h a size align = Ret (o, a', h') /\
    match o with
    | Some p => (16 mod align = 0 -> p mod align = 0) /\ 0 < p /\ arena_inv h' a' ((p, size) :: L)
    | None => a' = a /\ h' = h
    end.
Proof.
  intros [Hne Hok Hbs Hlive Hap HL HD] (Hsz & Hal & Hfit). simpl in Hsz, Hal, Hfit. unfold arena_alloc_aligned.
  destruct (a_head a) as [| b bs] eqn:Ha; [done |].
  pose proof (Forall_inv Hok) as (Hu & Hst & Hm & Hend). unfold sizeof_arena_block in Hst.
  replace (align =? 0) with false by (symmetry; apply Z.eqb_neq; lia).
  pose proof (align_pad_spec (ab_start b + ab_used b) align Hal) as [Hpad Hpm].
  rewrite (u64_small (ab_start b + ab_used b)) by lia.
  set (pad := align_pad (ab_start b + ab_used b) align) in *.
  rewrite (u64_small (size + pad)) by lia. rewrite (u64_small (ab_used b + (size + pad))) by lia.
  destruct (ab_cap b <? ab_used b + (size + pad)) eqn:E; bprop.
  - set (bsize := if a_block_size a <? size + pad then _ else _).
    assert (0 <= bsize < 2 ^ 63 /\ size + pad <= bsize) as [Hb1 Hb2] by (unfold bsize; case_goal; lia).
    destruct (block_create h bsize) as [[nb h'] |] eqn:Ec; [| by exists None, a, h].
    destruct (block_create_ok _ _ _ _ Hb1 Ec) as ((Hu' & Hst' & Hm' & Hend') & Hu0 & Hcap & -> & Hf).
    unfold sizeof_arena_block in Hst'. rewrite Hu0, Z.add_0_r, Z.add_0_l in *.
    rewrite (u64_small (ab_start nb)), (u64_small (size + pad)) by lia.
    do 3 eexists. split; [done |]. split; [intros H16; by apply mod16_divides |]. split; [lia |].
    assert (Forall (disjoint_regions (block_region nb)) (map block_region (b :: bs))) as Hnb.
    { apply Forall_forall. intros r Hr. apply list_elem_of_In, in_map_iff in Hr as (c & <- & Hc).
      rewrite Forall_forall in Hlive. rewrite Forall_forall in Hf. by apply Hf, Hlive, list_elem_of_In. }
    constructor; simpl; auto.
    + constructor; [| done]. split_and!; simpl; auto; unfold sizeof_arena_block; lia.
    + constructor; [left | eapply Forall_impl; [exact Hlive |]; intros; by right].
    + constructor.
      * left. unfold in_block. simpl. lia.
      * eapply Forall_impl; [exact HL |]. intros r Hr. by right.
    + split; [| done]. eapply (alloc_apart nb (b :: bs)); simpl; auto; try lia.
      * constructor; [| done]. split_and!; auto; unfold sizeof_arena_block; lia.
      * eapply Forall_impl; [exact HL |]. intros r Hr. by right.
  - rewrite (u64_small (ab_start b + ab_used b + pad)) by lia.
    do 3 eexists. split; [done |]. split; [done |]. split; [lia |].
    inversion Hok; inversion Hlive; subst.
    constructor; simpl; auto.
    + constructor; [| done]. split_and!; simpl; auto; unfold sizeof_arena_block; lia.
    + constructor.
      * left. unfold in_block. simpl. lia.
      * eapply Forall_impl; [exact HL |]. intros r. apply Forall_in_tail; simpl; [done | lia].
    + split; [| done]. apply (alloc_apart b bs); auto; lia.
Qed.

Lemma arena_run_inv (reqs : list (Z * Z)) (h : list region) (a : arena_t) (L : list region) :
  arena_inv h a L ->
  Forall request_fits reqs ->
  exists ps a' h', arena_run h a reqs = Ret (ps, a', h') /\ arena_inv h' a' (rev ps ++ L) /\
    Forall2 (fun p r => (16 mod r.2 = 0 -> p.1 mod r.2 = 0) /\ p.2 = r.1) ps (take (length ps) reqs).
Proof.
  revert h a L; induction reqs as [| [size align] reqs IH]; intros h a L Hinv Hreqs.
  - exists [], a, h. split; [done |]. split; [done | constructor].
  - inversion Hreqs as [| ? ? Hfit Hreqs']; subst. cbn [arena_run].
    destruct (arena_alloc_aligned_inv h a L size align Hinv Hfit) as (o & a1 & h1 & -> & Ho).
    rewrite bind_Ret. destruct o as [p |].
    + destruct Ho as (Hp & _ & Hinv1).
      destruct (IH h1 a1 _ Hinv1 Hreqs') as (ps & a2 & h2 & -> & Hinv2 & Hf).
      rewrite bind_Ret. do 3 eexists. split; [done |]. split.
      * simpl. by rewrite <- app_assoc.
      * simpl. by constructor.
    + destruct Ho as [-> ->]. exists [], a, h. split; [done |]. split; [done | constructor].
Qed.

Lemma arena_create_inv (h : list region) (bsize pa : Z) (a : arena_t) (h' : list region) :
  0 <= bsize < 2 ^ 63 -> arena_create h bsize = (Some (pa, a), h') -> arena_inv h' a [].
Proof.
  intros Hb. unfold arena_create. destruct (malloc h sizeof_arena) as [p |]; [| discriminate].
  destruct (block_create _ bsize) as [[b h2] |] eqn:E; [| discriminate]. intros [= <- <- <-].
  destruct (block_create_ok _ _ _ _ Hb E) as (Hok & _ & _ & -> & _).
  constructor; simpl; auto; try done. constructor; [left | constructor].
Qed.

(** ** Reset and destruction *)

Lemma free_elem (h : list region) (p : Z) (r : region) : r ∈ free h p <-> r.1 <> p /\ r ∈ h.
Proof. unfold free. rewrite list_elem_of_filter. done. Qed.

Lemma arena_reset_loop_spec (next : list arena_block) (h : list region) (b : arena_block) :
  exists l, last (b :: next) = Some l /\
    arena_reset_loop h b next =
      (l, fold_left (fun h b => free h (block_addr b)) (removelast (b :: next)) h).
Proof.
  revert h b; induction next as [| b' next IH]; intros h b; [by exists b |].
  destruct (IH (free h (block_addr b)) b') as (l & Hl & He). exists l. by rewrite <- Hl.
Qed.

Lemma fold_free_elem (bs : list arena_block) (h : list region) (r : region) :
  r ∈ fold_left (fun h b => free h (block_addr b)) bs h <->
  r ∈ h /\ Forall (fun b => r.1 <> block_addr b) bs.
Proof.
  revert h; induction bs as [| b bs IH]; intros h; simpl; [by rewrite Forall_nil; tauto |].
  rewrite IH, free_elem, Forall_cons. tauto.
Qed.

End soundness.

(** ** Properties *)

(** C11 Any sequence of requests served by a fresh arena, with any non-zero
    alignments and sizes small enough that size and alignment together are at
    most 2^63 (block size below 2^63): no request is undefined behaviour, the
    memory handed out lies inside the arena's live blocks and no two allocations
    overlap; a pointer is aligned as asked when the alignment divides 16, the
    alignment of [malloc].  Outside of these bounds the conclusions fail:
    [arena_new_block_misaligned] and [arena_size_wraps] below. *)
Theorem arena_allocations_disjoint {A : Allocator} {OK : AllocatorOK A} (h h0 : list region) (bsize pa : Z) (a : arena_t)
    (reqs : list (Z * Z)) :
  0 <= bsize < 2 ^ 63 -> arena_create h bsize = (Some (pa, a), h0) ->
  Forall request_fits reqs ->
  exists ps a' h', arena_run h0 a reqs = Ret (ps, a', h') /\
    Forall2 (fun p r => (16 mod r.2 = 0 -> p.1 mod r.2 = 0) /\ p.2 = r.1) ps (take (length ps) reqs) /\
    pairwise_disjoint (rev ps) /\
    Forall (fun p => Exists (fun b => in_block p b /\ block_region b ∈ h') (a_head a')) ps.
Proof.
  intros Hb Hc Hreqs. pose proof (arena_create_inv _ _ _ _ _ Hb Hc) as Hinv.
  destruct (arena_run_inv reqs _ _ _ Hinv Hreqs) as (ps & a' & h' & Hr & Hi & Hf).
  rewrite app_nil_r in Hi. exists ps, a', h'. split_and!; auto; [apply Hi |].
  pose proof (inv_allocs _ _ _ Hi) as Ha. pose proof (inv_live _ _ _ Hi) as Hl.
  apply Forall_rev in Ha. rewrite rev_involutive in Ha.
  eapply Forall_impl; [exact Ha |]. intros p Hp.
  apply Exists_exists in Hp as (b & Hbi & Hpb). apply Exists_exists. exists b.
  rewrite Forall_forall in Hl. auto.
Qed.

Lemma arena_allocations_disjoint_witness :
  exists ps a' h',
    arena_run (A := bump) [(32, 96); (16, 16)]
      (mk_arena [mk_block 64 64 0] 64) [(10, 8); (100, 64); (3, 1)] = Ret (ps, a', h') /\
    pairwise_disjoint (rev ps).
Proof.
  destruct (arena_allocations_disjoint (OK := bump_ok) [] [(32, 96); (16, 16)] 64 16
    (mk_arena [mk_block 64 64 0] 64) [(10, 8); (100, 64); (3, 1)])
    as (ps & a' & h' & Hr & _ & Hd & _).
  - lia.
  - vm_compute. reflexivity.
  - repeat constructor; simpl; reflexivity || lia.
  - exists ps, a', h'. split; assumption.
Defined.

(** A request that does not fit in the newest block is answered with the first
    byte of a new one whatever alignment it asked for: the pointer is aligned
    exactly when the address of [malloc] happens to be. *)
Theorem arena_new_block_misaligned {A : Allocator} {OK : AllocatorOK A} (h : list region) (b : arena_block) (bs : list arena_block)
    (bsize size align p : Z) :
  block_ok b -> request_fits (size, align) ->
  let need := size + align_pad (ab_start b + ab_used b) align in
  ab_cap b < ab_used b + need -> 0 <= bsize < 2 ^ 63 ->
  malloc h (sizeof_arena_block + Z.max need bsize) = Some p ->
  exists a' h', arena_alloc_aligned h (mk_arena (b :: bs) bsize) size align
                = Ret (Some (p + sizeof_arena_block), a', h').
Proof.
  intros (Hu & Hst & _ & Hend) (Hs & Hal & Hfit) need Hcap Hbs Hm. simpl in Hs, Hal, Hfit.
  unfold sizeof_arena_block in *. pose proof (align_pad_spec (ab_start b + ab_used b) align Hal) as [Hpad _].
  pose proof (malloc_bound _ _ _ Hm) as Hpb. pose proof (malloc_pos _ _ _ Hm) as Hp0.
  unfold arena_alloc_aligned. cbn [a_head a_block_size].
  replace (align =? 0) with false by (symmetry; apply Z.eqb_neq; lia).
  rewrite (u64_small (ab_start b + ab_used b)) by lia. cbn zeta. fold need.
  rewrite (u64_small need) by lia. rewrite (u64_small (ab_used b + need)) by lia.
  replace (ab_cap b <? ab_used b + need) with true by (symmetry; apply Z.ltb_lt; lia).
  replace (if bsize <? need then need else bsize) with (Z.max need bsize) by (case_goal; lia).
  unfold block_create, sizeof_arena_block. rewrite (u64_small (32 + _)) by lia. rewrite Hm. simpl.
  rewrite Z.add_0_r, u64_small by lia. eauto.
Qed.

(** With alignment 32: the 64 bytes of the first block are in use, and the
    second request gets address 144, which is no multiple of 32. *)
Example arena_misaligned_example :
  arena_run (A := bump) [(16, 96)] (mk_arena [mk_block 48 64 0] 64) [(64, 16); (16, 32)]
  = Ret ([(48, 64); (144, 16)], mk_arena [mk_block 144 64 32; mk_block 48 64 64] 64, [(112, 96); (16, 96)]).
Proof. vm_compute. reflexivity. Qed.

(** A size for which [used + need] wraps passes the capacity test: the request
    is answered with memory that does not hold it, and [used] goes back to 0, so
    the next requests get memory that is already in use. *)
Theorem arena_size_wraps {A : Allocator} (h : list region) (b : arena_block) (bs : list arena_block) (bsize : Z) :
  block_ok b -> 0 < ab_used b ->
  arena_alloc_aligned h (mk_arena (b :: bs) bsize) (2 ^ 64 - ab_used b) 1
  = Ret (Some (ab_start b + ab_used b), mk_arena (mk_block (ab_start b) (ab_cap b) 0 :: bs) bsize, h).
Proof.
  intros (Hu & Hst & _ & Hend) Hpos. unfold arena_alloc_aligned, align_pad, sizeof_arena_block in *. cbn [a_head a_block_size].
  simpl (1 =? 0). cbn iota zeta. rewrite !Z.mod_1_r, !Z.add_0_r.
  rewrite (u64_small (2 ^ 64 - ab_used b)) by lia. replace (ab_used b + (2 ^ 64 - ab_used b)) with (2 ^ 64) by lia.
  replace (u64 (2 ^ 64)) with 0 by reflexivity.
  replace (ab_cap b <? 0) with false by (symmetry; apply Z.ltb_ge; lia).
  by rewrite u64_small by lia.
Qed.

(** [arena_reset] on a well-formed arena keeps exactly the block created
    first, empty and still live, frees every other block of the chain and
    nothing else, and leaves a well-formed arena in which nothing is allocated. *)
Theorem arena_reset_correct (h : list region) (a : arena_t) (L : list region) :
  arena_inv h a L ->
  exists l h', last (a_head a) = Some l /\
    arena_reset h a = Ret (mk_arena [mk_block (ab_start l) (ab_cap l) 0] (a_block_size a), h') /\
    (forall r, r ∈ h' <-> r ∈ h /\ Forall (fun b => r.1 <> block_addr b) (removelast (a_head a))) /\
    arena_inv h' (mk_arena [mk_block (ab_start l) (ab_cap l) 0] (a_block_size a)) [].
Proof.
  intros [Hne Hok Hbs Hlive Hap _ _]. unfold arena_reset.
  destruct (a_head a) as [| b next]; [done |].
  destruct (arena_reset_loop_spec next h b) as (l & Hl & ->). exists l. eexists.
  split; [done |]. split; [done |]. split; [intros r; apply fold_free_elem |].
  assert (b :: next = removelast (b :: next) ++ [l]) as Hsplit.
  { apply last_Some in Hl as [bs Hbs']. rewrite Hbs'. by rewrite removelast_last. }
  rewrite Hsplit in Hok, Hlive, Hap. clear Hsplit Hl Hne.
  generalize dependent (removelast (b :: next)). intros bs Hok Hlive Hap. apply Forall_app in Hok as [Hok1 Hok2].
  apply Forall_inv in Hok2 as (Hu & Hst & Hm & Hend). apply Forall_app in Hlive as [_ Hlv].
  apply Forall_inv in Hlv. constructor; simpl; auto; try done.
  - constructor; [| constructor]. split_and!; simpl; auto; lia.
  - constructor; [| constructor]. apply fold_free_elem. split; [exact Hlv |].
    rewrite map_app in Hap. revert Hap. clear -Hu Hok1. induction Hok1 as [| c bs (Hc & _) _ IH]; simpl; [constructor |].
    intros [Hd Hr]. constructor; [| by apply IH].
    apply Forall_app in Hd as [_ Hd]. apply Forall_inv in Hd.
    unfold disjoint_regions, block_region, block_addr, sizeof_arena_block in *. simpl in *. lia.
Qed.

Lemma arena_reset_correct_witness :
  exists a' h', arena_reset [(144, 148); (48, 96); (16, 16)]
    (mk_arena [mk_block 176 116 100; mk_block 80 64 10] 64) = Ret (a', h') /\
    arena_inv h' a' [].
Proof.
  destruct (arena_reset_correct [(144, 148); (48, 96); (16, 16)]
    (mk_arena [mk_block 176 116 100; mk_block 80 64 10] 64) []) as (l & h' & Hl & Hr & _ & Hi).
  - constructor; simpl; try done.
    + repeat constructor; unfold sizeof_arena_block; simpl; lia.
    + repeat constructor.
    + split; [| split; [constructor | done]]. constructor; [| constructor].
      unfold disjoint_regions, block_region, block_addr, sizeof_arena_block; simpl; lia.
  - eexists _, _. split; [exact Hr | exact Hi].
Defined.
