(* ===== verification/Buffer.v ===== *)
(** * Connection buffers: src/net/buffer.{h,c}

    A buffer is a fixed array with a read and a write position.  The bytes
    between them are a queue: [buf_read_fd] appends what [read] delivers,
    [buf_write_fd] removes what [write] accepts, [buf_compact] moves the
    remaining bytes to the front of the array.  The operations compute positions
    modulo 2^64 and check every access to the array.

    The operating system's answers to [read] and [write] are arguments; the
    kernel side of a socket is modelled in [io_step] for the streaming theorem.
    [WriteBuffer] is the interface the response writers use. *)

From Stdlib Require Import ZArith Lia String.
From stdpp Require Import base numbers option list.
From S2P Require Import Prelude.

(** ** Data and operations *)

(** [data] is [None] for a null pointer. *)
Record np_buf_t : Type := mk_buf {
  b_data : option bytes;
  b_cap : Z;
  read_pos : Z;
  write_pos : Z
}.

Inductive errno : Type := EAGAIN | EOTHER.

(** What [read] stored, or its error; no byte stored is the end of the file. *)
Inductive sys_read : Type := RdData (bs : bytes) | RdErr (e : errno).
Inductive sys_write : Type := WrCount (n : Z) | WrErr (e : errno).

(** Overwrite the bytes of [l] from [off] with [bs]. *)
Definition splice (off : Z) (bs l : bytes) : bytes :=
  take (Z.to_nat off) l ++ bs ++ drop (Z.to_nat off + length bs) l.

(** [memcpy(data + off, bs, n)] with a bounds check. *)
Definition store_n (data : option bytes) (off : Z) (bs : bytes) : cres (option bytes) :=
  match data with
  | None => if eqb_bytes bs [] then Ret None else Stuck
  | Some d =>
      if (0 <=? off) && (off + zlen bs <=? zlen d) then Ret (Some (splice off bs d)) else Stuck
  end.

(** [mem] is what [malloc(cap)] returned: an array of [cap] arbitrary bytes, or
    null.  On failure the buffer is left with its null pointer. *)
Definition buf_init (b : np_buf_t) (mem : option bytes) (cap : Z) : np_status_t * np_buf_t :=
  match mem with
  | None => (NP_ERR_NOMEM, mk_buf None (b_cap b) (read_pos b) (write_pos b))
  | Some d => (NP_OK, mk_buf (Some d) cap 0 0)
  end.

Definition buf_free (b : np_buf_t) : np_buf_t := mk_buf None 0 0 0.

Definition buf_reset (b : np_buf_t) : np_buf_t := mk_buf (b_data b) (b_cap b) 0 0.

Definition buf_readable (b : np_buf_t) : Z := u64 (write_pos b - read_pos b).
Definition buf_writable (b : np_buf_t) : Z := u64 (b_cap b - write_pos b).

Definition buf_consume (b : np_buf_t) (n : Z) : np_buf_t :=
  let rp := u64 (read_pos b + n) in
  if rp =? write_pos b then mk_buf (b_data b) (b_cap b) 0 0
  else mk_buf (b_data b) (b_cap b) rp (write_pos b).

Definition buf_produce (b : np_buf_t) (n : Z) : np_buf_t :=
  mk_buf (b_data b) (b_cap b) (read_pos b) (u64 (write_pos b + n)).

(** The [n] bytes at [buf_read_ptr]. *)
Definition buf_peek (b : np_buf_t) (n : Z) : cres bytes :=
  match b_data b with
  | None => Stuck
  | Some d =>
      if (0 <=? read_pos b) && (read_pos b + n <=? zlen d) then Ret (zsub (read_pos b) n d) else Stuck
  end.

Definition buf_compact (b : np_buf_t) : cres np_buf_t :=
  let readable := buf_readable b in
  if readable =? 0 then Ret (buf_reset b)
  else if 0 <? read_pos b then
    bs ← buf_peek b readable;
    d ← store_n (b_data b) 0 bs;
    Ret (mk_buf d (b_cap b) 0 readable)
  else Ret b.

(** [memcpy(buf_write_ptr(b), bs, n); buf_produce(b, n)]. *)
Definition buf_append (b : np_buf_t) (bs : bytes) : cres np_buf_t :=
  d ← store_n (b_data b) (write_pos b) bs;
  Ret (buf_produce (mk_buf d (b_cap b) (read_pos b) (write_pos b)) (zlen bs)).

(** [read] is asked for [space] bytes; [r] is its answer for that request. *)
Definition buf_read_fd (b : np_buf_t) (r : Z -> sys_read) : cres (Z * np_buf_t) :=
  b ← buf_compact b;
  let space := buf_writable b in
  if space =? 0 then Ret (0, b)
  else
    match r space with
    | RdData [] => Ret (np_status_code NP_ERR_CLOSED, b)
    | RdData bs => b' ← buf_append b bs; Ret (zlen bs, b')
    | RdErr EAGAIN => Ret (np_status_code NP_ERR_AGAIN, b)
    | RdErr EOTHER => Ret (np_status_code NP_ERR, b)
    end.

(** [write] is offered the readable bytes; [w] is its answer. *)
Definition buf_write_fd (b : np_buf_t) (w : bytes -> sys_write) : cres (Z * np_buf_t) :=
  let readable := buf_readable b in
  if readable =? 0 then Ret (0, b)
  else
    bs ← buf_peek b readable;
    match w bs with
    | WrCount n => if 0 <? n then Ret (n, buf_consume b n) else Ret (n, b)
    | WrErr EAGAIN => Ret (np_status_code NP_ERR_AGAIN, b)
    | WrErr EOTHER => Ret (np_status_code NP_ERR, b)
    end.

(** ** The kernel side of a socket

    [inq] holds the bytes that have arrived and were not read, [out] the bytes
    accepted for sending.  [IoRead k] is a [read] for which at most [k] bytes
    are ready, [IoWrite k] a [write] that accepts at most [k] bytes. *)

Record io_state : Type := mk_io { io_buf : np_buf_t; inq : bytes; out : bytes }.

Inductive io_event : Type := IoRead (k : nat) | IoWrite (k : nat) | IoCompact.

Definition kernel_read (k : nat) (q : bytes) (space : Z) : sys_read :=
  match take (Nat.min k (Z.to_nat space)) q with
  | [] => RdErr EAGAIN
  | bs => RdData bs
  end.

Definition kernel_write (k : nat) (bs : bytes) : sys_write :=
  match k with O => WrErr EAGAIN | _ => WrCount (Z.of_nat (Nat.min k (length bs))) end.

Definition io_step (s : io_state) (e : io_event) : cres io_state :=
  match e with
  | IoRead k =>
      r ← buf_read_fd (io_buf s) (kernel_read k (inq s));
      let '(n, b) := r in
      Ret (mk_io b (drop (Z.to_nat (Z.max 0 n)) (inq s)) (out s))
  | IoWrite k =>
      bs ← (if buf_readable (io_buf s) =? 0 then Ret [] else buf_peek (io_buf s) (buf_readable (io_buf s)));
      r ← buf_write_fd (io_buf s) (kernel_write k);
      let '(n, b) := r in
      Ret (mk_io b (inq s) (out s ++ take (Z.to_nat (Z.max 0 n)) bs))
  | IoCompact => b ← buf_compact (io_buf s); Ret (mk_io b (inq s) (out s))
  end.

Fixpoint io_run (s : io_state) (es : list io_event) : cres io_state :=
  match es with
  | [] => Ret s
  | e :: es' => s' ← io_step s e; io_run s' es'
  end.

(** ** The invariant and the queue a buffer stands for *)

Record buf_ok (b : np_buf_t) : Prop := {
  ok_data : exists d, b_data b = Some d /\ zlen d = b_cap b;
  ok_pos : 0 <= read_pos b <= write_pos b;
  ok_cap : write_pos b <= b_cap b < 2 ^ 63
}.

Definition contents (b : np_buf_t) : bytes :=
  match b_data b with
  | Some d => zsub (read_pos b) (write_pos b - read_pos b) d
  | None => []
  end.

Lemma contents_length (b : np_buf_t) : buf_ok b -> zlen (contents b) = write_pos b - read_pos b.
Proof. intros [(d & Hd & Hl) Hp Hc]. unfold contents. rewrite Hd. apply zsub_length; lia. Qed.

Lemma buf_readable_val (b : np_buf_t) : buf_ok b -> buf_readable b = zlen (contents b).
Proof.
  intros H. rewrite contents_length by done. destruct H as [_ Hp Hc].
  apply u64_small. lia.
Qed.

Lemma buf_writable_val (b : np_buf_t) : buf_ok b -> buf_writable b = b_cap b - write_pos b.
Proof. intros [_ Hp Hc]. apply u64_small. lia. Qed.

Lemma splice_length (off : Z) (bs l : bytes) :
  0 <= off -> off + zlen bs <= zlen l -> zlen (splice off bs l) = zlen l.
Proof. intros. unfold splice. rewrite !length_app, length_take, length_drop. lia. Qed.

Lemma splice_before (off n o : Z) (bs l : bytes) :
  0 <= o -> 0 <= n -> o + n <= off -> off + zlen bs <= zlen l ->
  zsub o n (splice off bs l) = zsub o n l.
Proof.
  intros. unfold splice. rewrite zsub_app_l by (rewrite ?length_take; lia).
  unfold zsub. rewrite skipn_firstn_comm, take_take. f_equal. lia.
Qed.

Lemma splice_at (off : Z) (bs l : bytes) :
  0 <= off -> off + zlen bs <= zlen l -> zsub off (zlen bs) (splice off bs l) = bs.
Proof.
  intros. unfold splice. rewrite zsub_app_r by (rewrite length_take; lia).
  rewrite zsub_app_l by (rewrite ?length_take; lia).
  replace (off - zlen (take (Z.to_nat off) l)) with 0 by (rewrite length_take; lia). apply zsub_all.
Qed.

(** The last byte of the array is not reached. *)
Lemma splice_last (off : Z) (bs l : bytes) : 0 <= off -> off + zlen bs < zlen l -> last (splice off bs l) = last l.
Proof.
  intros H1 H2. unfold splice. assert (forall n, (n < length l)%nat -> last (drop n l) = last l) as Hd.
  { intros n Hn. rewrite <- (take_drop n l) at 2. rewrite last_app.
    destruct (last (drop n l)) eqn:E; [done |]. apply last_None in E. apply (f_equal length) in E. rewrite length_drop in E. cbn in E. lia. }
  rewrite app_assoc, last_app, Hd by lia. destruct (last l) eqn:E; [done |]. apply last_None in E. subst. cbn in H2. lia.
Qed.

Lemma buf_peek_Ret (b : np_buf_t) : buf_ok b -> buf_peek b (buf_readable b) = Ret (contents b).
Proof.
  intros H. rewrite buf_readable_val, contents_length by done. destruct H as [(d & Hd & Hl) Hp Hc].
  unfold buf_peek, contents. rewrite Hd.
  replace (0 <=? read_pos b) with true by lia. cbn [andb].
  by replace (read_pos b + (write_pos b - read_pos b) <=? zlen d) with true by lia.
Qed.

Lemma buf_peek_all (b : np_buf_t) : buf_ok b -> buf_peek b (zlen (contents b)) = Ret (contents b).
Proof. intros H. by rewrite <- buf_readable_val, buf_peek_Ret. Qed.

(** The byte at the end of the array, read or not. *)
Definition array_last (b : np_buf_t) : option Z := b_data b ≫= last.

(** ** Functional behaviour *)

Lemma buf_reset_ok (b : np_buf_t) : buf_ok b -> buf_ok (buf_reset b).
Proof. intros [Hd Hp Hc]. constructor; simpl; [done | lia | lia]. Qed.

Lemma buf_reset_contents (b : np_buf_t) : contents (buf_reset b) = [].
Proof. unfold contents, buf_reset. simpl. by destruct (b_data b). Qed.

Lemma buf_append_Ret (b : np_buf_t) (bs : bytes) :
  buf_ok b -> zlen bs <= buf_writable b ->
  exists b', buf_append b bs = Ret b' /\ buf_ok b' /\ contents b' = contents b ++ bs /\
    b_cap b' = b_cap b /\ buf_writable b' = buf_writable b - zlen bs.
Proof.
  intros Hok Hbs. rewrite buf_writable_val in Hbs by done. destruct Hok as [(d & Hd & Hl) Hp Hc] eqn:Ho.
  unfold buf_append, store_n. rewrite Hd.
  replace (0 <=? write_pos b) with true by lia. cbn [andb].
  replace (write_pos b + zlen bs <=? zlen d) with true by lia. rewrite bind_Ret.
  unfold buf_produce. simpl. rewrite u64_small by lia. eexists. split; [done |].
  assert (zlen (splice (write_pos b) bs d) = b_cap b) as Hsl by (rewrite splice_length; lia).
  assert (buf_ok (mk_buf (Some (splice (write_pos b) bs d)) (b_cap b) (read_pos b) (write_pos b + zlen bs))) as Hok'.
  { constructor; simpl; [eauto | lia | lia]. }
  split; [exact Hok' |]. split; [| split; [done |]].
  - unfold contents. simpl. rewrite Hd.
    replace (write_pos b + zlen bs - read_pos b) with ((write_pos b - read_pos b) + zlen bs) by lia.
    rewrite zsub_app_split by lia. rewrite splice_before by lia.
    replace (read_pos b + (write_pos b - read_pos b)) with (write_pos b) by lia.
    by rewrite splice_at by lia.
  - rewrite !buf_writable_val by done. simpl. lia.
Qed.

Lemma buf_append_last (b b' : np_buf_t) (bs : bytes) :
  buf_ok b -> buf_append b bs = Ret b' -> write_pos b + zlen bs < b_cap b -> array_last b' = array_last b.
Proof.
  intros [(d & Hd & Hl) Hp Hc] H Hlt. unfold buf_append, store_n in H. rewrite Hd in H. case_match; [| discriminate]. rewrite bind_Ret in H. injection H as <-.
  unfold array_last, buf_produce. cbn [b_data]. rewrite Hd. cbn. apply splice_last; lia.
Qed.

Lemma buf_compact_last (b b' : np_buf_t) :
  buf_ok b -> buf_compact b = Ret b' -> zlen (contents b) < b_cap b -> array_last b' = array_last b.
Proof.
  intros Hok H Hlt. unfold buf_compact in H. case_match; [by injection H as <- |]. case_match; [| by injection H as <-].
  rewrite buf_peek_Ret, bind_Ret in H by done. destruct Hok as [(d & Hd & Hl) Hp Hc]. unfold store_n in H. rewrite Hd in H. case_match; [| discriminate].
  rewrite bind_Ret in H. injection H as <-. unfold array_last. cbn [b_data]. rewrite Hd. cbn. apply splice_last; lia.
Qed.

Lemma buf_compact_Ret (b : np_buf_t) :
  buf_ok b -> exists b', buf_compact b = Ret b' /\ buf_ok b' /\ contents b' = contents b /\
    read_pos b' = 0 /\ b_cap b' = b_cap b /\ buf_writable b' = b_cap b - zlen (contents b).
Proof.
  intros Hok. pose proof (contents_length b Hok) as Hlen. unfold buf_compact.
  rewrite buf_readable_val by done. destruct (Z.eqb_spec (zlen (contents b)) 0) as [E | E].
  - exists (buf_reset b). pose proof (buf_reset_ok b Hok). split; [done |]. split; [done |].
    rewrite buf_reset_contents, buf_writable_val by done. simpl.
    destruct (contents b); [| simpl in E; lia]. split_and!; auto; simpl; lia.
  - destruct (Z.ltb_spec 0 (read_pos b)).
    + rewrite buf_peek_all, bind_Ret by done. pose proof Hok as [(d & Hd & Hl) Hp Hc].
      unfold store_n. rewrite Hd. cbn [Z.leb Z.compare andb].
      replace (0 + zlen (contents b) <=? zlen d) with true by lia. rewrite bind_Ret.
      eexists. split; [done |].
      assert (buf_ok (mk_buf (Some (splice 0 (contents b) d)) (b_cap b) 0 (zlen (contents b)))) as Hok'.
      { constructor; simpl; [| lia | lia]. eexists. split; [done |]. rewrite splice_length; lia. }
      split; [exact Hok' |]. rewrite buf_writable_val by done. simpl. split_and!; auto.
      unfold contents at 1. simpl. rewrite Z.sub_0_r. apply splice_at; lia.
    + exists b. split_and!; auto; [destruct Hok; lia |]. rewrite buf_writable_val by done.
      destruct Hok; lia.
Qed.

Lemma buf_consume_ok (b : np_buf_t) (n : Z) :
  buf_ok b -> 0 <= n <= zlen (contents b) ->
  buf_ok (buf_consume b n) /\ contents (buf_consume b n) = drop (Z.to_nat n) (contents b).
Proof.
  intros Hok Hn. pose proof (contents_length b Hok) as Hlen.
  pose proof Hok as [(d & Hd & Hl) Hp Hc]. unfold buf_consume.
  rewrite u64_small by lia. destruct (Z.eqb_spec (read_pos b + n) (write_pos b)) as [E | E].
  - split; [apply (buf_reset_ok b Hok) |]. pose proof (buf_reset_contents b) as Hr. unfold buf_reset in Hr. rewrite Hr.
    symmetry. apply drop_ge. lia.
  - split; [constructor; simpl; [eauto | lia | lia] |].
    unfold contents. simpl. rewrite Hd. unfold zsub. rewrite skipn_firstn_comm, drop_drop.
    f_equal; [lia | f_equal; lia].
Qed.

(** [buf_read_fd] on every answer of [read] that keeps to the space offered. *)
Lemma buf_read_fd_Ret (b : np_buf_t) (r : Z -> sys_read) :
  buf_ok b -> (forall space bs, 0 < space -> r space = RdData bs -> zlen bs <= space) ->
  exists n b' got, buf_read_fd b r = Ret (n, b') /\ buf_ok b' /\ b_cap b' = b_cap b /\
    contents b' = contents b ++ got /\
    let space := b_cap b - zlen (contents b) in
    if space =? 0 then n = 0 /\ got = []
    else match r space with
      | RdData [] => n = -3 /\ got = []
      | RdData bs => n = zlen bs /\ got = bs
      | RdErr EAGAIN => n = -2 /\ got = []
      | RdErr EOTHER => n = -1 /\ got = []
      end.
Proof.
  intros Hok Hr. unfold buf_read_fd.
  destruct (buf_compact_Ret b Hok) as (b1 & -> & Hok1 & Hc1 & _ & Hcap & Hw). rewrite bind_Ret, Hw.
  pose proof (contents_length b Hok). destruct (Z.eqb_spec (b_cap b - zlen (contents b)) 0) as [Es | Es].
  { exists 0, b1, []. by rewrite app_nil_r. }
  destruct (r (b_cap b - zlen (contents b))) as [[| x bs] | []] eqn:E;
    [| | eexists _, b1, []; rewrite app_nil_r; by split_and!..].
  { eexists _, b1, []. rewrite app_nil_r. by split_and!. }
  apply Hr in E; [| destruct Hok; lia]. destruct (buf_append_Ret b1 (x :: bs) Hok1) as (b2 & -> & Hok2 & Hc2 & Hcap2 & _); [lia |].
  rewrite bind_Ret. exists (zlen (x :: bs)), b2, (x :: bs). split_and!; auto; congruence.
Qed.

(** [buf_write_fd] on every answer of [write] that keeps to the bytes offered. *)
Lemma buf_write_fd_Ret (b : np_buf_t) (w : bytes -> sys_write) :
  buf_ok b -> (forall bs n, w bs = WrCount n -> 0 <= n <= zlen bs) ->
  exists n b', buf_write_fd b w = Ret (n, b') /\ buf_ok b' /\ b_cap b' = b_cap b /\
    contents b' = drop (Z.to_nat (Z.max 0 n)) (contents b) /\
    n <= zlen (contents b) /\
    (contents b = [] -> n = 0) /\
    (contents b <> [] ->
     n = match w (contents b) with WrCount k => k | WrErr EAGAIN => -2 | WrErr EOTHER => -1 end).
Proof.
  intros Hok Hw. unfold buf_write_fd. rewrite buf_readable_val by done.
  destruct (Z.eqb_spec (zlen (contents b)) 0) as [E | E].
  { assert (contents b = []) as Hn by (destruct (contents b); [done | simpl in E; lia]).
    exists 0, b. split_and!; auto; [lia | done]. }
  rewrite buf_peek_all, bind_Ret by done.
  assert (contents b <> []) as Hne by (intros Hn; apply E; by rewrite Hn).
  destruct (w (contents b)) as [n | []] eqn:Ew.
  - pose proof (Hw _ _ Ew) as Hn. destruct (Z.ltb_spec 0 n).
    + destruct (buf_consume_ok b n Hok Hn) as [Hok' Hc'].
      exists n, (buf_consume b n). split_and!; auto.
      * unfold buf_consume. by destruct (_ =? _).
      * rewrite Hc'. f_equal. lia.
      * lia.
      * done.
    + exists n, b. replace (Z.to_nat (Z.max 0 n)) with 0%nat by lia.
      split_and!; auto; first [lia | congruence | done].
  - eexists _, b. split; [done |]. simpl. split_and!; auto; first [lia | congruence | done].
  - eexists _, b. split; [done |]. simpl. split_and!; auto; first [lia | congruence | done].
Qed.

(** ** The interface of the response writers *)

Class WriteBuffer (B : Type) : Type := {
  wb_writable : B -> Z;
  wb_put : B -> bytes -> cres B
}.

Class WriteBufferOK (B : Type) (W : WriteBuffer B) : Type := {
  wb_ok : B -> Prop;
  wb_contents : B -> bytes;
  wb_room_nonneg : forall b, wb_ok b -> 0 <= wb_writable b;
  wb_put_Ret : forall b bs, wb_ok b -> zlen bs <= wb_writable b ->
    exists b', wb_put b bs = Ret b' /\ wb_ok b' /\ wb_contents b' = wb_contents b ++ bs /\
      wb_writable b' = wb_writable b - zlen bs
}.

#[export] Instance np_buf_write_buffer : WriteBuffer np_buf_t := {|
  wb_writable := buf_writable;
  wb_put := buf_append
|}.

#[export] Instance np_buf_write_buffer_ok : WriteBufferOK np_buf_t np_buf_write_buffer.
Proof.
  refine {| wb_ok := buf_ok; wb_contents := contents |}.
  - intros b Hb. apply u64_range.
  - intros b bs Hb Hbs. destruct (buf_append_Ret b bs Hb Hbs) as (b' & ? & ? & ? & _ & ?). eauto 10.
Defined.

(** ** Streaming *)

Lemma io_step_Ret (s : io_state) (e : io_event) :
  buf_ok (io_buf s) ->
  exists s', io_step s e = Ret s' /\ buf_ok (io_buf s') /\ b_cap (io_buf s') = b_cap (io_buf s) /\
    out s' ++ contents (io_buf s') ++ inq s' = out s ++ contents (io_buf s) ++ inq s.
Proof.
  intros Hok. destruct e as [k | k |]; cbn [io_step].
  - destruct (buf_read_fd_Ret (io_buf s) (kernel_read k (inq s)) Hok) as (n & b' & got & -> & Hok' & Hcap & Hc & Hn).
    { intros space bs Hsp. unfold kernel_read. destruct (take _ (inq s)) eqn:E; [discriminate |].
      intros [= <-]. rewrite <- E, length_take. lia. }
    rewrite bind_Ret. eexists. split; [done |]. cbn [io_buf inq out]. split_and!; auto.
    rewrite Hc, <- app_assoc. do 2 f_equal. cbn zeta in Hn. unfold kernel_read in Hn.
    destruct (_ =? 0); [by destruct Hn as [-> ->] |].
    destruct (take _ (inq s)) as [| x bs] eqn:E; destruct Hn as [-> ->]; [done |].
    rewrite <- E. replace (Z.to_nat (Z.max 0 _)) with (length (take (k `min` Z.to_nat (b_cap (io_buf s) - zlen (contents (io_buf s)))) (inq s))) by lia.
    apply take_drop_taken.
  - rewrite buf_readable_val by done.
    destruct (buf_write_fd_Ret (io_buf s) (kernel_write k) Hok) as (n & b' & -> & Hok' & Hcap & Hc & Hle & H0 & Hn).
    { intros bs n. unfold kernel_write. destruct k; [discriminate |]. intros Hk.
      assert (n = Z.of_nat (Nat.min (S k) (length bs))) as -> by congruence. lia. }
    assert (exists bs, (if zlen (contents (io_buf s)) =? 0 then Ret []
              else buf_peek (io_buf s) (zlen (contents (io_buf s)))) = Ret bs /\ bs = contents (io_buf s)) as (bs & -> & ->).
    { destruct (Z.eqb_spec (zlen (contents (io_buf s))) 0) as [E | E].
      - exists []. split; [done |]. destruct (contents (io_buf s)); [done | simpl in E; lia].
      - rewrite buf_peek_all by done. eauto. }
    rewrite !bind_Ret. eexists. split; [done |]. cbn [io_buf inq out]. split_and!; auto.
    rewrite Hc, <- app_assoc. f_equal. rewrite app_assoc. by rewrite take_drop.
  - destruct (buf_compact_Ret (io_buf s) Hok) as (b' & -> & Hok' & Hc & _ & Hcap & _).
    rewrite bind_Ret. eexists. split; [done |]. cbn [io_buf inq out]. split_and!; auto. by rewrite Hc.
Qed.

(** ** Properties *)

(** C6 A buffer is a FIFO queue of bytes: for every interleaving of reads,
    writes and compactions, with the kernel delivering and accepting any number
    of bytes each time, no operation is undefined, the array bounds hold, and
    the bytes sent, then those buffered, then those still to be read are exactly
    the bytes there were at the start, in order: nothing is lost, duplicated or
    reordered. *)
Theorem buffer_streams_in_order (s : io_state) (es : list io_event) :
  buf_ok (io_buf s) ->
  exists s', io_run s es = Ret s' /\ buf_ok (io_buf s') /\
    out s' ++ contents (io_buf s') ++ inq s' = out s ++ contents (io_buf s) ++ inq s.
Proof.
  revert s; induction es as [| e es IH]; intros s Hok; [by exists s |].
  destruct (io_step_Ret s e Hok) as (s1 & Hs & Hok1 & _ & Heq).
  destruct (IH s1 Hok1) as (s2 & Hr & Hok2 & Heq2).
  exists s2. cbn [io_run]. rewrite Hs, bind_Ret. split_and!; auto. congruence.
Qed.

Lemma buffer_streams_in_order_witness :
  exists s', io_run (mk_io (mk_buf (Some [0; 0; 0; 0]) 4 0 0) (lit "abcdef") [])
    [IoRead 3; IoWrite 2; IoRead 9; IoWrite 9; IoRead 1] = Ret s' /\
    out s' ++ contents (io_buf s') ++ inq s' = lit "abcdef".
Proof.
  destruct (buffer_streams_in_order (mk_io (mk_buf (Some [0; 0; 0; 0]) 4 0 0) (lit "abcdef") [])
    [IoRead 3; IoWrite 2; IoRead 9; IoWrite 9; IoRead 1]) as (s' & Hr & _ & He).
  - constructor; simpl; [eauto | lia | lia].
  - exists s'. split; [exact Hr | exact He].
Defined.
