(* ===== verification/Parser.v ===== *)
(** * The HTTP/1.x request parser: src/http/parser.{h,c}

    [http_parse_request] is the C function with its pointer arithmetic, every
    load checked against the input buffer.  [parse_val] is its reference
    definition on byte lists.  The state is generic in the type of strings: the
    parser keeps slices of the input ([str_t]), the reference keeps bytes. *)

From Stdlib Require Import ZArith Lia String.
From stdpp Require Import base numbers option list.
From S2P Require Import Prelude CLib StringUtil.

(** ** Data *)

Inductive http_method_t : Type :=
| HTTP_METHOD_GET
| HTTP_METHOD_POST
| HTTP_METHOD_PUT
| HTTP_METHOD_DELETE
| HTTP_METHOD_HEAD
| HTTP_METHOD_OPTIONS
| HTTP_METHOD_PATCH
| HTTP_METHOD_UNKNOWN.

#[global] Instance http_method_eq_dec : EqDecision http_method_t.
Proof. solve_decision. Defined.

Inductive http_version_t : Type := HTTP_10 | HTTP_11.

#[global] Instance http_version_eq_dec : EqDecision http_version_t.
Proof. solve_decision. Defined.

Inductive parse_result_t : Type := PARSE_INCOMPLETE | PARSE_DONE | PARSE_ERROR.

Record http_header_t (S : Type) : Type := mk_header { h_name : S; h_value : S }.
Arguments mk_header {S} h_name h_value.
Arguments h_name {S} _.
Arguments h_value {S} _.

(** [headers] is the used part of the array, so [header_count] is its length.
    [version] is [None] for the zero the state is initialised with. *)
Record http_parse_state_t (S : Type) : Type := mk_ps {
  ps_method : http_method_t;
  ps_uri : S;
  ps_version : option http_version_t;
  ps_headers : list (http_header_t S);
  ps_content_length : Z;
  ps_chunked : bool;
  ps_keep_alive : bool;
  ps_has_connection_header : bool;
  ps_upgrade : bool;
  ps_upgrade_protocol : S;
  ps_body_offset : Z;
  ps_parsed_bytes : Z
}.

Arguments mk_ps {S} _ _ _ _ _ _ _ _ _ _ _ _.
Arguments ps_method {S} _.
Arguments ps_uri {S} _.
Arguments ps_version {S} _.
Arguments ps_headers {S} _.
Arguments ps_content_length {S} _.
Arguments ps_chunked {S} _.
Arguments ps_keep_alive {S} _.
Arguments ps_has_connection_header {S} _.
Arguments ps_upgrade {S} _.
Arguments ps_upgrade_protocol {S} _.
Arguments ps_body_offset {S} _.
Arguments ps_parsed_bytes {S} _.

Section setters.
Context {S : Type}.
Implicit Types s : http_parse_state_t S.

Definition set_method s v := mk_ps v (ps_uri s) (ps_version s) (ps_headers s) (ps_content_length s) (ps_chunked s) (ps_keep_alive s) (ps_has_connection_header s) (ps_upgrade s) (ps_upgrade_protocol s) (ps_body_offset s) (ps_parsed_bytes s).
Definition set_uri s v := mk_ps (ps_method s) v (ps_version s) (ps_headers s) (ps_content_length s) (ps_chunked s) (ps_keep_alive s) (ps_has_connection_header s) (ps_upgrade s) (ps_upgrade_protocol s) (ps_body_offset s) (ps_parsed_bytes s).
Definition set_version s v := mk_ps (ps_method s) (ps_uri s) (Some v) (ps_headers s) (ps_content_length s) (ps_chunked s) (ps_keep_alive s) (ps_has_connection_header s) (ps_upgrade s) (ps_upgrade_protocol s) (ps_body_offset s) (ps_parsed_bytes s).
Definition add_header s h := mk_ps (ps_method s) (ps_uri s) (ps_version s) (ps_headers s ++ [h]) (ps_content_length s) (ps_chunked s) (ps_keep_alive s) (ps_has_connection_header s) (ps_upgrade s) (ps_upgrade_protocol s) (ps_body_offset s) (ps_parsed_bytes s).
Definition set_content_length s v := mk_ps (ps_method s) (ps_uri s) (ps_version s) (ps_headers s) v (ps_chunked s) (ps_keep_alive s) (ps_has_connection_header s) (ps_upgrade s) (ps_upgrade_protocol s) (ps_body_offset s) (ps_parsed_bytes s).
Definition set_chunked s v := mk_ps (ps_method s) (ps_uri s) (ps_version s) (ps_headers s) (ps_content_length s) v (ps_keep_alive s) (ps_has_connection_header s) (ps_upgrade s) (ps_upgrade_protocol s) (ps_body_offset s) (ps_parsed_bytes s).
Definition set_keep_alive s v := mk_ps (ps_method s) (ps_uri s) (ps_version s) (ps_headers s) (ps_content_length s) (ps_chunked s) v (ps_has_connection_header s) (ps_upgrade s) (ps_upgrade_protocol s) (ps_body_offset s) (ps_parsed_bytes s).
Definition set_has_connection s v := mk_ps (ps_method s) (ps_uri s) (ps_version s) (ps_headers s) (ps_content_length s) (ps_chunked s) (ps_keep_alive s) v (ps_upgrade s) (ps_upgrade_protocol s) (ps_body_offset s) (ps_parsed_bytes s).
Definition set_upgrade s v := mk_ps (ps_method s) (ps_uri s) (ps_version s) (ps_headers s) (ps_content_length s) (ps_chunked s) (ps_keep_alive s) (ps_has_connection_header s) v (ps_upgrade_protocol s) (ps_body_offset s) (ps_parsed_bytes s).
Definition set_upgrade_protocol s v := mk_ps (ps_method s) (ps_uri s) (ps_version s) (ps_headers s) (ps_content_length s) (ps_chunked s) (ps_keep_alive s) (ps_has_connection_header s) (ps_upgrade s) v (ps_body_offset s) (ps_parsed_bytes s).
Definition set_body_offset s v := mk_ps (ps_method s) (ps_uri s) (ps_version s) (ps_headers s) (ps_content_length s) (ps_chunked s) (ps_keep_alive s) (ps_has_connection_header s) (ps_upgrade s) (ps_upgrade_protocol s) v (ps_parsed_bytes s).
Definition set_parsed_bytes s v := mk_ps (ps_method s) (ps_uri s) (ps_version s) (ps_headers s) (ps_content_length s) (ps_chunked s) (ps_keep_alive s) (ps_has_connection_header s) (ps_upgrade s) (ps_upgrade_protocol s) (ps_body_offset s) v.
End setters.

(** ** The parser *)

Definition http_parse_state_init : http_parse_state_t str_t :=
  mk_ps HTTP_METHOD_GET STR_NULL None [] (-1) false false false false STR_NULL 0 0.

(** [len == sizeof(w) - 1 && memcmp(p, w, len) == 0]. *)
Definition token_is (p : cptr) (n : Z) (w : bytes) : cres bool :=
  if n =? zlen w then memcmp_eq p (cstring w) n else Ret false.

Definition parse_method (p : cptr) (n : Z) : cres http_method_t :=
  b ← token_is p n (lit "GET"); if (b : bool) then Ret HTTP_METHOD_GET else
  b ← token_is p n (lit "POST"); if (b : bool) then Ret HTTP_METHOD_POST else
  b ← token_is p n (lit "PUT"); if (b : bool) then Ret HTTP_METHOD_PUT else
  b ← token_is p n (lit "DELETE"); if (b : bool) then Ret HTTP_METHOD_DELETE else
  b ← token_is p n (lit "HEAD"); if (b : bool) then Ret HTTP_METHOD_HEAD else
  b ← token_is p n (lit "OPTIONS"); if (b : bool) then Ret HTTP_METHOD_OPTIONS else
  b ← token_is p n (lit "PATCH"); if (b : bool) then Ret HTTP_METHOD_PATCH else
  Ret HTTP_METHOD_UNKNOWN.

(** The loop of [find_crlf] with [n] iterations left at index [i]. *)
Fixpoint find_crlf_loop (n : nat) (s : cptr) (i : Z) : cres (option Z) :=
  match n with
  | O => Ret None
  | S n' =>
      a ← load s i;
      if a =? CR then
        b ← load s (i + 1);
        if b =? LF then Ret (Some i) else find_crlf_loop n' s (i + 1)
      else find_crlf_loop n' s (i + 1)
  end.

Definition find_crlf (s : cptr) (n : Z) : cres (option Z) :=
  find_crlf_loop (Z.to_nat (n - 1)) s 0.

(** What a header line changes besides the array of headers. *)
Definition header_effect (s : http_parse_state_t str_t) (name value : str_t)
    : cres (http_parse_state_t str_t) :=
  b ← str_ieq name (STR (lit "Content-Length"));
  if (b : bool) then
    r ← str_to_int value;
    match r with Some cl => Ret (set_content_length s cl) | None => Ret s end
  else
  b ← str_ieq name (STR (lit "Transfer-Encoding"));
  if (b : bool) then
    c ← str_ieq value (STR (lit "chunked"));
    Ret (if (c : bool) then set_chunked s true else s)
  else
  b ← str_ieq name (STR (lit "Connection"));
  if (b : bool) then
    c ← str_ieq value (STR (lit "close"));
    u ← str_contains_i value (STR (lit "upgrade"));
    let s := set_keep_alive (set_has_connection s true) (negb c) in
    Ret (if (u : bool) then set_upgrade s true else s)
  else
  b ← str_ieq name (STR (lit "Upgrade"));
  Ret (if (b : bool) then set_upgrade_protocol s value else s).

(** How the header loop ends: by a return of the function, or by falling out of
    the loop with the position [cur]. *)
Inductive loop_exit (S : Type) : Type :=
| Return (r : parse_result_t) (s : http_parse_state_t S)
| Fallthrough (s : http_parse_state_t S) (cur : Z).
Arguments Return {S} r s.
Arguments Fallthrough {S} s cur.

(** [cur] is the offset of the current pointer from [buf]. *)
Fixpoint header_loop (fuel : nat) (s : http_parse_state_t str_t) (buf : cptr) (cur stop : Z)
    : cres (loop_exit str_t) :=
  match fuel with
  | O => Stuck
  | S fuel' =>
      if cur <? stop then
        line ← find_crlf (padd buf cur) (stop - cur);
        match line with
        | None => Ret (Return PARSE_INCOMPLETE s)
        | Some n =>
            if n =? 0 then Ret (Fallthrough s (cur + 2))
            else
              c ← memchr (padd buf cur) 58 n;
              match c with
              | None => Ret (Return PARSE_ERROR s)
              | Some colon =>
                  if NP_MAX_HEADERS <=? zlen (ps_headers s) then Ret (Return PARSE_ERROR s)
                  else
                    name ← str_trim (mk_str (padd buf cur) colon);
                    value ← str_trim (mk_str (padd buf (cur + colon + 1)) (n - colon - 1));
                    s' ← header_effect (add_header s (mk_header name value)) name value;
                    header_loop fuel' s' buf (cur + n + 2) stop
              end
        end
      else Ret (Fallthrough s cur)
  end.

(** The code after the header loop. *)
Definition parse_finish {S} (s : http_parse_state_t S) (n cur : Z)
    : parse_result_t * http_parse_state_t S :=
  let s := if ps_has_connection_header s then s
           else set_keep_alive s (bool_decide (ps_version s = Some HTTP_11)) in
  let s := if bool_decide (ps_version s = Some HTTP_11) && negb (ps_chunked s)
              && (ps_content_length s <? 0)
           then set_content_length s 0 else s in
  let s := set_parsed_bytes (set_body_offset s cur) cur in
  if 0 <? ps_content_length s then
    let body_avail := u64 (n - ps_body_offset s) in
    if body_avail <? u64 (ps_content_length s) then (PARSE_INCOMPLETE, s)
    else (PARSE_DONE, set_parsed_bytes s (u64 (ps_parsed_bytes s + u64 (ps_content_length s))))
  else (PARSE_DONE, s).

Definition http_parse_request (s : http_parse_state_t str_t) (data : cptr) (n : Z)
    : cres (parse_result_t * http_parse_state_t str_t) :=
  line ← find_crlf data n;
  match line with
  | None => Ret (PARSE_INCOMPLETE, s)
  | Some line_end =>
      r1 ← memchr data 32 line_end;
      match r1 with
      | None => Ret (PARSE_ERROR, s)
      | Some sp1 =>
          m ← parse_method data sp1;
          let s := set_method s m in
          let cur := sp1 + 1 in
          r2 ← memchr (padd data cur) 32 (line_end - cur);
          match r2 with
          | None => Ret (PARSE_ERROR, s)
          | Some k =>
              let sp2 := cur + k in
              let s := set_uri s (mk_str (padd data cur) (sp2 - cur)) in
              let cur := sp2 + 1 in
              let ver_len := line_end - cur in
              is11 ← token_is (padd data cur) ver_len (lit "HTTP/1.1");
              is10 ← (if (is11 : bool) then Ret false
                      else token_is (padd data cur) ver_len (lit "HTTP/1.0"));
              if is11 || is10 then
                let s := set_version s (if is11 then HTTP_11 else HTTP_10) in
                r ← header_loop (S (Z.to_nat n)) s data (line_end + 2) n;
                match r with
                | Return pr s' => Ret (pr, s')
                | Fallthrough s' cur => Ret (parse_finish s' n cur)
                end
              else Ret (PARSE_ERROR, s)
          end
      end
  end.

Definition http_method_str (m : http_method_t) : bytes :=
  match m with
  | HTTP_METHOD_GET => lit "GET"
  | HTTP_METHOD_POST => lit "POST"
  | HTTP_METHOD_PUT => lit "PUT"
  | HTTP_METHOD_DELETE => lit "DELETE"
  | HTTP_METHOD_HEAD => lit "HEAD"
  | HTTP_METHOD_OPTIONS => lit "OPTIONS"
  | HTTP_METHOD_PATCH => lit "PATCH"
  | HTTP_METHOD_UNKNOWN => lit "UNKNOWN"
  end.

(** ** The reference parser on byte lists *)

Definition init_val : http_parse_state_t bytes :=
  mk_ps HTTP_METHOD_GET [] None [] (-1) false false false false [] 0 0.

Definition method_val (t : bytes) : http_method_t :=
  if eqb_bytes t (lit "GET") then HTTP_METHOD_GET
  else if eqb_bytes t (lit "POST") then HTTP_METHOD_POST
  else if eqb_bytes t (lit "PUT") then HTTP_METHOD_PUT
  else if eqb_bytes t (lit "DELETE") then HTTP_METHOD_DELETE
  else if eqb_bytes t (lit "HEAD") then HTTP_METHOD_HEAD
  else if eqb_bytes t (lit "OPTIONS") then HTTP_METHOD_OPTIONS
  else if eqb_bytes t (lit "PATCH") then HTTP_METHOD_PATCH
  else HTTP_METHOD_UNKNOWN.

(** The length of the first line, when there is a whole one. *)
Fixpoint find_crlf_val (v : bytes) : option nat :=
  match v with
  | a :: ((b :: _) as v') => if (a =? CR) && (b =? LF) then Some 0%nat else S <$> find_crlf_val v'
  | _ => None
  end.

Definition name_is (name : bytes) (w : bytes) : bool := (zlen name =? zlen w) && ieq_val name w.

Fixpoint contains_val (v w : bytes) : bool :=
  match v with
  | [] => eqb_bytes w []
  | _ :: v' => ((zlen w <=? zlen v) && ieq_val (take (length w) v) w) || contains_val v' w
  end.

Definition effect_val (s : http_parse_state_t bytes) (name value : bytes) : http_parse_state_t bytes :=
  if name_is name (lit "Content-Length") then
    match to_int_val value with Some cl => set_content_length s cl | None => s end
  else if name_is name (lit "Transfer-Encoding") then
    if name_is value (lit "chunked") then set_chunked s true else s
  else if name_is name (lit "Connection") then
    let s := set_keep_alive (set_has_connection s true) (negb (name_is value (lit "close"))) in
    if contains_val value (lit "upgrade") then set_upgrade s true else s
  else if name_is name (lit "Upgrade") then set_upgrade_protocol s value else s.

Fixpoint headers_val (fuel : nat) (s : http_parse_state_t bytes) (off : Z) (rest : bytes)
    : loop_exit bytes :=
  match fuel with
  | O => Return PARSE_ERROR s
  | S fuel' =>
      match rest with
      | [] => Fallthrough s off
      | _ =>
          match find_crlf_val rest with
          | None => Return PARSE_INCOMPLETE s
          | Some O => Fallthrough s (off + 2)
          | Some n =>
              let line := take n rest in
              match index_of (Z.eqb 58) line with
              | None => Return PARSE_ERROR s
              | Some c =>
                  if NP_MAX_HEADERS <=? zlen (ps_headers s) then Return PARSE_ERROR s
                  else
                    let name := trim_val (take c line) in
                    let value := trim_val (drop (S c) line) in
                    headers_val fuel' (effect_val (add_header s (mk_header name value)) name value)
                      (off + Z.of_nat n + 2) (drop (n + 2) rest)
              end
          end
      end
  end.

Definition parse_val (s : http_parse_state_t bytes) (v : bytes)
    : parse_result_t * http_parse_state_t bytes :=
  match find_crlf_val v with
  | None => (PARSE_INCOMPLETE, s)
  | Some n =>
      let line := take n v in
      match index_of (Z.eqb 32) line with
      | None => (PARSE_ERROR, s)
      | Some sp1 =>
          let s := set_method s (method_val (take sp1 line)) in
          let line2 := drop (S sp1) line in
          match index_of (Z.eqb 32) line2 with
          | None => (PARSE_ERROR, s)
          | Some sp2 =>
              let s := set_uri s (take sp2 line2) in
              let ver := drop (S sp2) line2 in
              if eqb_bytes ver (lit "HTTP/1.1") || eqb_bytes ver (lit "HTTP/1.0") then
                let s := set_version s (if eqb_bytes ver (lit "HTTP/1.1") then HTTP_11 else HTTP_10) in
                match headers_val (S (length v)) s (Z.of_nat n + 2) (drop (n + 2) v) with
                | Return pr s' => (pr, s')
                | Fallthrough s' cur => parse_finish s' (zlen v) cur
                end
              else (PARSE_ERROR, s)
          end
      end
  end.

(** A request as a client writes it. *)
Definition print_header (h : bytes * bytes) : bytes := h.1 ++ lit ": " ++ h.2 ++ CRLF.

Definition version_text (v : http_version_t) : bytes :=
  match v with HTTP_11 => lit "HTTP/1.1" | HTTP_10 => lit "HTTP/1.0" end.

Definition print_request_line (m uri : bytes) (v : http_version_t) : bytes :=
  m ++ [32] ++ uri ++ [32] ++ version_text v ++ CRLF.

Definition print_head (m uri : bytes) (v : http_version_t) (hs : list (bytes * bytes)) : bytes :=
  print_request_line m uri v ++ concat (map print_header hs) ++ CRLF.

Example parse_get : fst (parse_val init_val (print_head (lit "GET") (lit "/a?b") HTTP_11 [(lit "Host", lit "x")])) = PARSE_DONE.
Proof. reflexivity. Qed.

Example parse_get_c :
  match http_parse_request http_parse_state_init
    (cstring (print_head (lit "PUT") (lit "/a?b") HTTP_11 [(lit "Host", lit "x"); (lit "content-length", lit " 3 ")] ++ lit "abcd"))
    (zlen (print_head (lit "PUT") (lit "/a?b") HTTP_11 [(lit "Host", lit "x"); (lit "content-length", lit " 3 ")] ++ lit "abcd")) with
  | Ret (PARSE_DONE, s) => Some (ps_method s, ps_content_length s, ps_parsed_bytes s, length (ps_headers s))
  | _ => None
  end = Some (HTTP_METHOD_PUT, 3, 54, 2%nat).
Proof. vm_compute. reflexivity. Qed.

(** ** Refinement *)

(** [s] is a slice of the [n] bytes at [p] whose bytes are [v], or is unset. *)
Definition str_in (p : cptr) (n : Z) (s : str_t) (v : bytes) : Prop :=
  str_repr s v /\
  (s = STR_NULL \/ exists k, 0 <= k /\ 0 <= len s /\ k + len s <= n /\ ptr s = padd p k).

Definition header_in (p : cptr) (n : Z) (h : http_header_t str_t) (hv : http_header_t bytes) : Prop :=
  str_in p n (h_name h) (h_name hv) /\ str_in p n (h_value h) (h_value hv).

Record state_rel (p : cptr) (n : Z) (s : http_parse_state_t str_t) (sv : http_parse_state_t bytes)
    : Prop := {
  rel_method : ps_method s = ps_method sv;
  rel_uri : str_in p n (ps_uri s) (ps_uri sv);
  rel_version : ps_version s = ps_version sv;
  rel_headers : Forall2 (header_in p n) (ps_headers s) (ps_headers sv);
  rel_content_length : ps_content_length s = ps_content_length sv;
  rel_chunked : ps_chunked s = ps_chunked sv;
  rel_keep_alive : ps_keep_alive s = ps_keep_alive sv;
  rel_has_connection : ps_has_connection_header s = ps_has_connection_header sv;
  rel_upgrade : ps_upgrade s = ps_upgrade sv;
  rel_upgrade_protocol : str_in p n (ps_upgrade_protocol s) (ps_upgrade_protocol sv);
  rel_body_offset : ps_body_offset s = ps_body_offset sv;
  rel_parsed_bytes : ps_parsed_bytes s = ps_parsed_bytes sv
}.

(** A setter applied on both sides. *)
Ltac rel := intros; match goal with H : state_rel _ _ _ _ |- _ => destruct H end;
  constructor; simpl; auto; try congruence.

Section refinement.
Context (p : cptr) (n : Z).

Lemma rel_set_method s sv m : state_rel p n s sv -> state_rel p n (set_method s m) (set_method sv m).
Proof. rel. Qed.
Lemma rel_set_uri s sv u uv :
  str_in p n u uv -> state_rel p n s sv -> state_rel p n (set_uri s u) (set_uri sv uv).
Proof. rel. Qed.
Lemma rel_set_version s sv v : state_rel p n s sv -> state_rel p n (set_version s v) (set_version sv v).
Proof. rel. Qed.
Lemma rel_add_header s sv h hv :
  header_in p n h hv -> state_rel p n s sv -> state_rel p n (add_header s h) (add_header sv hv).
Proof. rel. by apply Forall2_app; [| constructor]. Qed.
Lemma rel_set_content_length s sv v :
  state_rel p n s sv -> state_rel p n (set_content_length s v) (set_content_length sv v).
Proof. rel. Qed.
Lemma rel_set_chunked s sv v : state_rel p n s sv -> state_rel p n (set_chunked s v) (set_chunked sv v).
Proof. rel. Qed.
Lemma rel_set_keep_alive s sv v :
  state_rel p n s sv -> state_rel p n (set_keep_alive s v) (set_keep_alive sv v).
Proof. rel. Qed.
Lemma rel_set_has_connection s sv v :
  state_rel p n s sv -> state_rel p n (set_has_connection s v) (set_has_connection sv v).
Proof. rel. Qed.
Lemma rel_set_upgrade s sv v : state_rel p n s sv -> state_rel p n (set_upgrade s v) (set_upgrade sv v).
Proof. rel. Qed.
Lemma rel_set_upgrade_protocol s sv u uv :
  str_in p n u uv -> state_rel p n s sv ->
  state_rel p n (set_upgrade_protocol s u) (set_upgrade_protocol sv uv).
Proof. rel. Qed.
Lemma rel_set_body_offset s sv v :
  state_rel p n s sv -> state_rel p n (set_body_offset s v) (set_body_offset sv v).
Proof. rel. Qed.
Lemma rel_set_parsed_bytes s sv v :
  state_rel p n s sv -> state_rel p n (set_parsed_bytes s v) (set_parsed_bytes sv v).
Proof. rel. Qed.

#[local] Hint Resolve rel_set_method rel_set_uri rel_set_version rel_add_header rel_set_content_length
  rel_set_chunked rel_set_keep_alive rel_set_has_connection rel_set_upgrade rel_set_upgrade_protocol
  rel_set_body_offset rel_set_parsed_bytes : nproxy.

Lemma find_crlf_val_cons2 (a b : Z) (t : bytes) :
  find_crlf_val (a :: b :: t) =
  if (a =? CR) && (b =? LF) then Some 0%nat else S <$> find_crlf_val (b :: t).
Proof. reflexivity. Qed.

Lemma find_crlf_loop_Ret (k : nat) (q : cptr) (m i : Z) (v : bytes) :
  readable q m v -> 0 <= i -> i + Z.of_nat k = m - 1 ->
  find_crlf_loop k q i = Ret ((fun j => i + Z.of_nat j) <$> find_crlf_val (drop (Z.to_nat i) v)).
Proof.
  intros Hq. pose proof (readable_length _ _ _ Hq) as Hl.
  revert i; induction k as [| k IH]; intros i Hi Hk; cbn [find_crlf_loop].
  - destruct (drop (Z.to_nat i) v) as [| a [| b t]] eqn:E; [done | done |].
    apply (f_equal length) in E. rewrite length_drop in E. simpl in E. lia.
  - destruct (load_Ret q m i v Hq) as (a & -> & Ha); [lia |].
    destruct (load_Ret q m (i + 1) v Hq) as (b & Hb & Hb'); [lia |].
    rewrite (drop_S _ _ _ Ha). replace (S (Z.to_nat i)) with (Z.to_nat (i + 1)) by lia.
    rewrite bind_Ret, (drop_S _ _ _ Hb'), find_crlf_val_cons2, <- (drop_S _ _ _ Hb').
    assert (forall o : option nat, ((fun j => i + 1 + Z.of_nat j) <$> o) = ((fun j => i + Z.of_nat j) <$> (S <$> o))) as Hshift.
    { intros [j |]; simpl; [| done]. f_equal. lia. }
    destruct (a =? CR); cbn [andb]; [rewrite Hb, bind_Ret; destruct (b =? LF) |].
    + simpl. do 2 f_equal. lia.
    + rewrite IH by lia. by rewrite Hshift.
    + rewrite IH by lia. by rewrite Hshift.
Qed.

Lemma find_crlf_Ret (q : cptr) (m : Z) (v : bytes) :
  readable q m v -> find_crlf q m = Ret (Z.of_nat <$> find_crlf_val v).
Proof.
  intros Hq. pose proof (readable_length _ _ _ Hq) as Hl. unfold find_crlf.
  destruct (decide (m = 0)) as [-> | Hm].
  - destruct v; [done | simpl in Hl; lia].
  - rewrite (find_crlf_loop_Ret _ _ m _ v) by (done || lia). rewrite drop_0. f_equal.
Qed.

Lemma find_crlf_val_Some (v : bytes) (i : nat) :
  find_crlf_val v = Some i -> (i + 2 <= length v)%nat.
Proof.
  revert i; induction v as [| a v IH]; intros i; simpl; [discriminate |].
  destruct v as [| b v]; [discriminate |]. destruct (_ && _).
  - intros [= <-]. simpl. lia.
  - intros (j & Hj & ->)%fmap_Some. apply IH in Hj. simpl in *. lia.
Qed.

Lemma token_is_Ret (q : cptr) (m : Z) (t w : bytes) :
  readable q m t -> token_is q m w = Ret (eqb_bytes t w).
Proof.
  intros Hq. pose proof (readable_length _ _ _ Hq) as Hl. unfold token_is.
  destruct (Z.eqb_spec m (zlen w)) as [-> | E].
  - apply memcmp_eq_Ret; [done | apply readable_cstring].
  - f_equal. symmetry. apply eqb_bytes_false. intros ->. lia.
Qed.

Lemma parse_method_Ret (q : cptr) (m : Z) (t : bytes) :
  readable q m t -> parse_method q m = Ret (method_val t).
Proof.
  intros Hq. unfold parse_method, method_val.
  assert (forall w (A B : http_method_t) k, k = Ret B ->
    (token_is q m w ≫= fun b : bool => if b then Ret A else k) = Ret (if eqb_bytes t w then A else B)) as Htok.
  { intros w A B k ->. rewrite (token_is_Ret q m t w Hq), bind_Ret. by destruct (eqb_bytes t w). }
  repeat apply Htok. done.
Qed.

Lemma contains_val_spec (v w : bytes) :
  contains_val v w = true <->
  exists i, 0 <= i /\ i + zlen w <= zlen v /\ ieq_val (zsub i (zlen w) v) w = true.
Proof.
  induction v as [| x v IH]; cbn [contains_val].
  - rewrite eqb_bytes_true. split.
    + intros ->. exists 0. simpl. split_and!; [lia | lia | done].
    + intros (i & ? & ? & _). destruct w; [done | simpl in *; lia].
  - rewrite orb_true_iff, andb_true_iff, IH. split.
    + intros [[Hl Hi] | (i & ? & ? & Hi)]; bprop.
      * exists 0. split_and!; [lia | lia |]. by rewrite zsub_prefix.
      * exists (i + 1). split_and!; [lia | simpl length; lia |].
        unfold zsub in *. replace (Z.to_nat (i + 1)) with (S (Z.to_nat i)) by lia. done.
    + intros (i & ? & ? & Hi). destruct (decide (i = 0)) as [-> | Hne].
      * left. rewrite zsub_prefix in Hi. split; [lia | done].
      * right. exists (i - 1). simpl length in *. split_and!; [lia | lia |].
        unfold zsub in *. replace (Z.to_nat i) with (S (Z.to_nat (i - 1))) in Hi by lia. done.
Qed.

Lemma header_effect_Ret s sv name value nv vv :
  state_rel p n s sv -> str_in p n name nv -> str_in p n value vv ->
  exists s', header_effect s name value = Ret s' /\ state_rel p n s' (effect_val sv nv vv).
Proof.
  intros Hs [Hn _] Hv. pose proof Hv as [Hvr _]. unfold header_effect, effect_val, name_is.
  rewrite (str_ieq_Ret name _ nv _ Hn (str_repr_STR (lit "Content-Length"))), bind_Ret.
  destruct (_ && ieq_val nv (lit "Content-Length")).
  { rewrite (str_to_int_Ret value vv Hvr), bind_Ret. destruct (to_int_val vv); eauto with nproxy. }
  rewrite (str_ieq_Ret name _ nv _ Hn (str_repr_STR (lit "Transfer-Encoding"))), bind_Ret.
  destruct (_ && ieq_val nv (lit "Transfer-Encoding")).
  { rewrite (str_ieq_Ret value _ vv _ Hvr (str_repr_STR _)), bind_Ret.
    destruct (_ && ieq_val vv _); eauto with nproxy. }
  rewrite (str_ieq_Ret name _ nv _ Hn (str_repr_STR (lit "Connection"))), bind_Ret.
  destruct (_ && ieq_val nv (lit "Connection")).
  { rewrite (str_ieq_Ret value _ vv _ Hvr (str_repr_STR _)), bind_Ret.
    destruct (str_contains_i_Ret value _ vv _ Hvr (str_repr_STR (lit "upgrade"))) as (b & -> & Hb).
    rewrite bind_Ret. rewrite <- contains_val_spec in Hb.
    assert (b = contains_val vv (lit "upgrade")) as -> by (apply eq_true_iff_eq; exact Hb).
    destruct (contains_val vv _); eauto 10 with nproxy. }
  rewrite (str_ieq_Ret name _ nv _ Hn (str_repr_STR _)), bind_Ret.
  destruct (_ && ieq_val nv _); eauto with nproxy.
Qed.

Definition exit_rel (e : loop_exit str_t) (ev : loop_exit bytes) : Prop :=
  match e, ev with
  | Return r s, Return r' sv => r = r' /\ state_rel p n s sv
  | Fallthrough s cur, Fallthrough sv off => cur = off /\ 0 <= cur <= n /\ state_rel p n s sv
  | _, _ => False
  end.

Lemma str_trim_in (i m : Z) (t : bytes) :
  readable (padd p i) m t -> 0 <= i -> i + m <= n ->
  exists s, str_trim (mk_str (padd p i) m) = Ret s /\ str_in p n s (trim_val t).
Proof.
  intros Hq Hi Him. destruct (str_trim_Ret (mk_str (padd p i) m) t Hq) as (k & l & ? & ? & Hkl & -> & Hr).
  simpl in *. eexists. split; [done |]. split; [done |]. right. exists (i + k). simpl.
  rewrite padd_padd. split_and!; auto; lia.
Qed.

(** One header line, found between [cur] and [cur + k]. *)
Lemma header_line_Ret (s : http_parse_state_t str_t) (sv : http_parse_state_t bytes)
    (line : bytes) (cur : Z) (c : nat) :
  readable (padd p cur) (zlen line) line -> (c < length line)%nat ->
  0 <= cur -> cur + zlen line <= n -> state_rel p n s sv ->
  let name := trim_val (take c line) in
  let value := trim_val (drop (S c) line) in
  exists nm vl s', str_trim (mk_str (padd p cur) (Z.of_nat c)) = Ret nm /\
    str_trim (mk_str (padd p (cur + Z.of_nat c + 1)) (zlen line - Z.of_nat c - 1)) = Ret vl /\
    header_effect (add_header s (mk_header nm vl)) nm vl = Ret s' /\
    state_rel p n s' (effect_val (add_header sv (mk_header name value)) name value).
Proof.
  intros Hline Hc Hcur Hend Hs name value.
  destruct (str_trim_in cur (Z.of_nat c) (take c line)) as (nm & Hnm & Hin); [| lia | lia |].
  { eapply readable_take; [exact Hline | lia]. }
  destruct (str_trim_in (cur + Z.of_nat c + 1) (zlen line - Z.of_nat c - 1) (drop (S c) line))
    as (vl & Hvl & Hiv); [| lia | lia |].
  { replace (cur + Z.of_nat c + 1) with (cur + (Z.of_nat c + 1)) by lia. rewrite <- padd_padd.
    replace (zlen line - Z.of_nat c - 1) with (zlen line - (Z.of_nat c + 1)) by lia.
    eapply readable_drop; [exact Hline | lia | lia]. }
  assert (state_rel p n (add_header s (mk_header nm vl)) (add_header sv (mk_header name value))) as Hadd
    by (apply rel_add_header; [by split | done]).
  destruct (header_effect_Ret _ _ _ _ _ _ Hadd Hin Hiv) as (s' & He & Hs').
  exists nm, vl, s'. auto.
Qed.

Lemma header_loop_Ret (fuel : nat) (s : http_parse_state_t str_t) (sv : http_parse_state_t bytes)
    (v : bytes) (cur : Z) :
  readable p n v -> state_rel p n s sv -> 0 <= cur <= n -> n - cur < Z.of_nat fuel ->
  exists e, header_loop fuel s p cur n = Ret e /\
    exit_rel e (headers_val fuel sv cur (drop (Z.to_nat cur) v)).
Proof.
  intros Hp. pose proof (readable_length _ _ _ Hp) as Hl.
  revert s sv cur; induction fuel as [| fuel IH]; intros s sv cur Hs Hc Hf; [lia |].
  cbn [header_loop headers_val].
  destruct (Z.ltb_spec cur n) as [Hlt | Hge].
  2: { rewrite drop_ge by lia. eexists. split; [done |]. by split_and!; try lia. }
  assert (readable (padd p cur) (n - cur) (drop (Z.to_nat cur) v)) as Hrest
    by (eapply readable_drop; [exact Hp | lia | lia]).
  pose proof (readable_length _ _ _ Hrest) as Hrl.
  set (rest := drop (Z.to_nat cur) v) in *.
  destruct rest as [| x rest'] eqn:Er; [simpl in Hrl; lia |]. rewrite <- Er in *.
  rewrite (find_crlf_Ret _ _ _ Hrest), bind_Ret.
  destruct (find_crlf_val rest) as [k |] eqn:Ek; simpl fmap; cbn match; [| by eexists].
  apply find_crlf_val_Some in Ek.
  destruct k as [| k']; [eexists; split; [done |]; by split_and!; try lia |].
  remember (S k') as k eqn:Hk. replace (Z.of_nat k =? 0) with false by lia.
  assert (readable (padd p cur) (Z.of_nat k) (take k rest)) as Hline
    by (eapply readable_take; [exact Hrest | lia]).
  pose proof (readable_length _ _ _ Hline) as Hkl.
  rewrite (memchr_Ret _ _ _ _ Hline), bind_Ret.
  destruct (index_of (Z.eqb 58) (take k rest)) as [c |] eqn:Ec; simpl fmap; cbn match; [| by eexists].
  apply index_of_lt in Ec. rewrite (Forall2_length _ _ _ (rel_headers _ _ _ _ Hs)).
  destruct (NP_MAX_HEADERS <=? zlen (ps_headers sv)); [by eexists |].
  rewrite <- Hkl in Hline.
  destruct (header_line_Ret s sv (take k rest) cur c Hline Ec) as (nm & vl & s' & Hn & Hv & He & Hs'); [lia | lia | done |].
  rewrite Hkl in Hv. rewrite Hn, bind_Ret, Hv, bind_Ret, He, bind_Ret.
  replace (drop (k + 2) rest) with (drop (Z.to_nat (cur + Z.of_nat k + 2)) v)
    by (unfold rest; rewrite drop_drop; f_equal; lia).
  apply IH; [done | lia | lia].
Qed.

Lemma parse_finish_rel (s : http_parse_state_t str_t) (sv : http_parse_state_t bytes) (m cur : Z) :
  state_rel p n s sv ->
  fst (parse_finish s m cur) = fst (parse_finish sv m cur) /\
  state_rel p n (snd (parse_finish s m cur)) (snd (parse_finish sv m cur)).
Proof.
  intros Hs. unfold parse_finish.
  set (s1 := if ps_has_connection_header s then s else _).
  set (sv1 := if ps_has_connection_header sv then sv else _).
  assert (state_rel p n s1 sv1) as H1.
  { unfold s1, sv1. rewrite (rel_has_connection _ _ _ _ Hs), (rel_version _ _ _ _ Hs).
    destruct (ps_has_connection_header sv); auto with nproxy. }
  clearbody s1 sv1.
  set (s2 := if _ && _ && _ then set_content_length s1 0 else s1).
  set (sv2 := if _ && _ && _ then set_content_length sv1 0 else sv1).
  assert (state_rel p n s2 sv2) as H2.
  { unfold s2, sv2. rewrite (rel_version _ _ _ _ H1), (rel_chunked _ _ _ _ H1), (rel_content_length _ _ _ _ H1).
    case_goal; auto with nproxy. }
  clearbody s2 sv2.
  cbn [ps_content_length ps_body_offset ps_parsed_bytes set_parsed_bytes set_body_offset].
  rewrite (rel_content_length _ _ _ _ H2).
  destruct (0 <? ps_content_length sv2); [destruct (_ <? _) |]; simpl; auto with nproxy.
Qed.

(** The version test of the request line. *)
Lemma version_test_Ret (q : cptr) (m : Z) (ver : bytes) {A} (f : bool -> bool -> cres A) :
  readable q m ver ->
  (is11 ← token_is q m (lit "HTTP/1.1");
   is10 ← (if (is11 : bool) then Ret false else token_is q m (lit "HTTP/1.0")); f is11 is10)
  = f (eqb_bytes ver (lit "HTTP/1.1"))
      (negb (eqb_bytes ver (lit "HTTP/1.1")) && eqb_bytes ver (lit "HTTP/1.0")).
Proof.
  intros Hq. rewrite (token_is_Ret _ _ _ (lit "HTTP/1.1") Hq), bind_Ret.
  destruct (eqb_bytes ver (lit "HTTP/1.1")); [done |].
  by rewrite (token_is_Ret _ _ _ (lit "HTTP/1.0") Hq).
Qed.

(** The parser agrees with the reference on every readable buffer. *)
Lemma http_parse_request_Ret (s : http_parse_state_t str_t) (sv : http_parse_state_t bytes) (v : bytes) :
  readable p n v -> state_rel p n s sv ->
  exists r s', http_parse_request s p n = Ret (r, s') /\ r = fst (parse_val sv v) /\
    state_rel p n s' (snd (parse_val sv v)).
Proof.
  intros Hp Hs. pose proof (readable_length _ _ _ Hp) as Hl. unfold http_parse_request, parse_val.
  rewrite (find_crlf_Ret _ _ _ Hp), bind_Ret.
  destruct (find_crlf_val v) as [k |] eqn:Ek; simpl fmap; cbn match; [| by eexists _, _].
  apply find_crlf_val_Some in Ek.
  assert (readable p (Z.of_nat k) (take k v)) as Hline by (eapply readable_take; [exact Hp | lia]).
  rewrite (memchr_Ret _ _ _ _ Hline), bind_Ret.
  destruct (index_of (Z.eqb 32) (take k v)) as [sp1 |] eqn:E1; simpl fmap; cbn match; [| by eexists _, _].
  apply index_of_lt in E1.
  assert (readable p (Z.of_nat sp1) (take sp1 (take k v))) as Hm by (eapply readable_take; [exact Hline | lia]).
  rewrite (parse_method_Ret _ _ _ Hm), bind_Ret.
  assert (readable (padd p (Z.of_nat sp1 + 1)) (Z.of_nat k - (Z.of_nat sp1 + 1)) (drop (S sp1) (take k v))) as Hl2
    by (eapply readable_drop; [exact Hline | lia | lia]).
  pose proof (readable_length _ _ _ Hl2) as Hl2l. rewrite length_take in E1.
  set (line2 := drop (S sp1) (take k v)) in *.
  rewrite (memchr_Ret _ _ _ _ Hl2), bind_Ret.
  destruct (index_of (Z.eqb 32) line2) as [sp2 |] eqn:E2; simpl fmap; cbn match; [| eexists _, _; simpl; auto with nproxy].
  apply index_of_lt in E2.
  replace (Z.of_nat sp1 + 1 + Z.of_nat sp2 - (Z.of_nat sp1 + 1)) with (Z.of_nat sp2) by lia.
  assert (str_in p n (mk_str (padd p (Z.of_nat sp1 + 1)) (Z.of_nat sp2)) (take sp2 line2)) as Huri.
  { split; [unfold str_repr; simpl; eapply readable_take; [exact Hl2 | lia] |].
    right. exists (Z.of_nat sp1 + 1). simpl. split_and!; auto; lia. }
  assert (readable (padd p (Z.of_nat sp1 + 1 + Z.of_nat sp2 + 1))
    (Z.of_nat k - (Z.of_nat sp1 + 1 + Z.of_nat sp2 + 1)) (drop (S sp2) line2)) as Hver.
  { replace (Z.of_nat sp1 + 1 + Z.of_nat sp2 + 1) with (Z.of_nat sp1 + 1 + (Z.of_nat sp2 + 1)) by lia.
    rewrite <- padd_padd, Z.sub_add_distr. eapply readable_drop; [exact Hl2 | lia | lia]. }
  set (ver := drop (S sp2) line2) in *. rewrite (version_test_Ret _ _ _ _ Hver).
  replace (eqb_bytes ver (lit "HTTP/1.1") || negb (eqb_bytes ver (lit "HTTP/1.1")) && eqb_bytes ver (lit "HTTP/1.0"))
    with (eqb_bytes ver (lit "HTTP/1.1") || eqb_bytes ver (lit "HTTP/1.0"))
    by (by destruct (eqb_bytes ver (lit "HTTP/1.1"))).
  destruct (eqb_bytes ver (lit "HTTP/1.1") || eqb_bytes ver (lit "HTTP/1.0")); [| eexists _, _; simpl; auto with nproxy].
  set (vv := if eqb_bytes ver _ then HTTP_11 else HTTP_10).
  destruct (header_loop_Ret (S (Z.to_nat n)) _ _ v (Z.of_nat k + 2) Hp
    (rel_set_version _ _ vv (rel_set_uri _ _ _ _ Huri (rel_set_method _ _ (method_val (take sp1 (take k v))) Hs))))
    as (e & -> & He); [lia | lia |].
  rewrite bind_Ret. replace (S (length v)) with (S (Z.to_nat n)) by lia.
  replace (drop (k + 2) v) with (drop (Z.to_nat (Z.of_nat k + 2)) v) by (f_equal; lia).
  destruct e as [r s' | s' cur], (headers_val _ _ _ _) as [r' sv' | sv' cur']; simpl in He; try done.
  - destruct He as [-> He]. by eexists _, _.
  - destruct He as (-> & _ & He). rewrite Hl. destruct (parse_finish_rel _ _ n cur' He) as [Hr Hr'].
    destruct (parse_finish s' n cur') as [r1 s1]. eexists _, _. simpl in *. auto.
Qed.

End refinement.

(** ** Parsing what a client prints *)

Definition no_byte (c : Z) (t : bytes) : Prop := Forall (fun b => b <> c) t.

Definition trimmed (t : bytes) : Prop :=
  (forall c, head t = Some c -> isspace c = false) /\ (forall c, last t = Some c -> isspace c = false).

(** A token of the request line. *)
Definition valid_token (t : bytes) : Prop := no_byte 32 t /\ no_byte CR t.

(** A header field that fits on a line and whose name and value carry no
    surrounding blanks. *)
Definition valid_field (h : bytes * bytes) : Prop :=
  no_byte 58 h.1 /\ no_byte CR h.1 /\ no_byte CR h.2 /\ trimmed h.1 /\ trimmed h.2.

Definition apply_header (s : http_parse_state_t bytes) (h : bytes * bytes) : http_parse_state_t bytes :=
  effect_val (add_header s (mk_header h.1 h.2)) h.1 h.2.

Lemma no_byte_index (c : Z) (t : bytes) : no_byte c t -> Forall (fun y => (c =? y) = false) t.
Proof. intros H. eapply Forall_impl; [exact H |]. intros x Hx. simpl in *. lia. Qed.

Lemma find_crlf_val_line (t rest : bytes) :
  no_byte CR t -> find_crlf_val (t ++ CRLF ++ rest) = Some (length t).
Proof.
  induction 1 as [| x t Hx Ht IH]; [done |].
  assert (forall l, find_crlf_val (x :: l) = match l with [] => None | _ => S <$> find_crlf_val l end) as Hc.
  { intros [| y l]; [done |]. rewrite find_crlf_val_cons2. by rewrite (proj2 (Z.eqb_neq x CR) Hx). }
  rewrite <- app_comm_cons, Hc, IH. by destruct t.
Qed.

Lemma effect_val_fields (s : http_parse_state_t bytes) (name value : bytes) :
  ps_method (effect_val s name value) = ps_method s /\ ps_uri (effect_val s name value) = ps_uri s /\
  ps_version (effect_val s name value) = ps_version s /\ ps_headers (effect_val s name value) = ps_headers s.
Proof. unfold effect_val. repeat case_goal; done. Qed.

Lemma apply_headers_fields (hs : list (bytes * bytes)) (s : http_parse_state_t bytes) :
  let s' := fold_left apply_header hs s in
  ps_method s' = ps_method s /\ ps_uri s' = ps_uri s /\ ps_version s' = ps_version s /\
  ps_headers s' = ps_headers s ++ map (fun h => mk_header h.1 h.2) hs.
Proof.
  revert s; induction hs as [| h hs IH]; intros s; simpl; [by rewrite app_nil_r |].
  destruct (IH (apply_header s h)) as (-> & -> & -> & ->).
  destruct (effect_val_fields (add_header s (mk_header h.1 h.2)) h.1 h.2) as (E1 & E2 & E3 & E4).
  unfold apply_header. rewrite E1, E2, E3, E4. simpl. by rewrite <- app_assoc.
Qed.

Lemma headers_val_line (fuel : nat) (s : http_parse_state_t bytes) (off : Z) (h : bytes * bytes) (tail : bytes) :
  valid_field h -> zlen (ps_headers s) < NP_MAX_HEADERS ->
  headers_val (S fuel) s off (print_header h ++ tail) =
  headers_val fuel (apply_header s h) (off + zlen (print_header h)) tail.
Proof.
  destruct h as [name value]. intros (Hc & Hn & Hv & Htn & Htv) Hlt. unfold print_header. cbn [fst snd] in *.
  set (line := name ++ lit ": " ++ value).
  assert ((name ++ lit ": " ++ value ++ CRLF) ++ tail = line ++ CRLF ++ tail) as ->
    by (unfold line; by rewrite <- !app_assoc). cbn [headers_val].
  assert (no_byte CR line) as Hline.
  { apply Forall_app. split; [done |]. constructor; [done |]. constructor; [done |]. done. }
  assert (index_of (Z.eqb 58) line = Some (length name)) as Hidx.
  { apply index_of_app_free; [by apply no_byte_index | done]. }
  assert (length line = length name + 2 + length value)%nat as Hll.
  { unfold line. rewrite length_app. simpl. lia. }
  rewrite (find_crlf_val_line line tail Hline), take_app_length, Hidx.
  destruct (line ++ CRLF ++ tail) as [| x l] eqn:E.
  { apply (f_equal length) in E. rewrite length_app in E. simpl in E. lia. }
  rewrite <- E. clear E x l.
  destruct (length line) as [| k] eqn:Ek; [lia |]. rewrite <- Ek.
  replace (NP_MAX_HEADERS <=? zlen (ps_headers s)) with false by lia.
  assert (take (length name) line = name) as -> by apply take_app_length.
  assert (drop (S (length name)) line = 32 :: value) as ->.
  { unfold line. change (lit ": " ++ value) with ([58] ++ 32 :: value). rewrite app_assoc.
    replace (S (length name)) with (length (name ++ [58])) by (rewrite length_app; simpl; lia).
    apply drop_app_length. }
  rewrite (trim_val_id name) by apply Htn. change (trim_val (32 :: value)) with (trim_val value).
  rewrite (trim_val_id value) by apply Htv.
  replace (drop (length line + 2) (line ++ CRLF ++ tail)) with tail.
  2: { rewrite app_assoc. replace (length line + 2)%nat with (length (line ++ CRLF)) by (rewrite length_app; simpl; lia).
       symmetry. apply drop_app_length. }
  unfold apply_header. cbn [fst snd]. f_equal. rewrite !length_app.
  change (length (lit ": ")) with 2%nat. change (length CRLF) with 2%nat. lia.
Qed.

Lemma headers_val_lines (hs : list (bytes * bytes)) (fuel : nat) (s : http_parse_state_t bytes) (off : Z) (tail : bytes) :
  Forall valid_field hs -> zlen (ps_headers s) + zlen hs <= NP_MAX_HEADERS ->
  headers_val (length hs + fuel) s off (concat (map print_header hs) ++ tail) =
  headers_val fuel (fold_left apply_header hs s) (off + zlen (concat (map print_header hs))) tail.
Proof.
  intros Hv. revert s off; induction Hv as [| h hs Hh Hhs IH]; intros s off Hlen.
  - simpl. f_equal. lia.
  - cbn [map concat length Nat.add fold_left]. rewrite <- app_assoc, headers_val_line; [| done | simpl in Hlen; lia].
    rewrite IH.
    + f_equal. rewrite length_app. lia.
    + destruct (effect_val_fields (add_header s (mk_header h.1 h.2)) h.1 h.2) as (_ & _ & _ & E4).
      unfold apply_header. rewrite E4. simpl. rewrite length_app. simpl in *. lia.
Qed.

Lemma print_headers_length (hs : list (bytes * bytes)) : zlen hs <= zlen (concat (map print_header hs)).
Proof.
  induction hs as [| h hs IH]; [done |]. cbn [map concat]. unfold print_header at 1.
  rewrite !length_app. simpl in *. lia.
Qed.

(** The state before the header lines. *)
Definition request_line_state (m uri : bytes) (v : http_version_t) : http_parse_state_t bytes :=
  set_version (set_uri (set_method init_val (method_val m)) uri) v.

Lemma parse_val_request_line (m uri : bytes) (v : http_version_t) (tail : bytes) :
  valid_token m -> valid_token uri ->
  parse_val init_val (print_request_line m uri v ++ tail) =
  match headers_val (S (length (print_request_line m uri v ++ tail))) (request_line_state m uri v)
          (zlen (print_request_line m uri v)) tail with
  | Return pr s' => (pr, s')
  | Fallthrough s' cur => parse_finish s' (zlen (print_request_line m uri v ++ tail)) cur
  end.
Proof.
  intros [Hm Hm'] [Hu Hu']. unfold parse_val, print_request_line.
  set (line := m ++ [32] ++ uri ++ [32] ++ version_text v).
  assert (m ++ [32] ++ uri ++ [32] ++ version_text v ++ CRLF = line ++ CRLF) as ->
    by (unfold line; by rewrite <- !app_assoc).
  assert (no_byte CR line) as Hline.
  { unfold line. repeat (apply Forall_app; split); auto; try (constructor; [done | constructor]).
    destruct v; repeat (constructor; [done |]); constructor. }
  rewrite <- app_assoc, (find_crlf_val_line line tail Hline), take_app_length.
  assert (index_of (Z.eqb 32) line = Some (length m)) as ->
    by (apply index_of_app_free; [by apply no_byte_index | done]).
  assert (take (length m) line = m) as -> by apply take_app_length.
  assert (drop (S (length m)) line = uri ++ [32] ++ version_text v) as ->.
  { unfold line. rewrite (app_assoc m). replace (S (length m)) with (length (m ++ [32])) by (rewrite length_app; simpl; lia).
    apply drop_app_length. }
  assert (index_of (Z.eqb 32) (uri ++ [32] ++ version_text v) = Some (length uri)) as ->
    by (apply index_of_app_free; [by apply no_byte_index | done]).
  rewrite take_app_length.
  assert (drop (S (length uri)) (uri ++ [32] ++ version_text v) = version_text v) as ->.
  { rewrite app_assoc. replace (S (length uri)) with (length (uri ++ [32])) by (rewrite length_app; simpl; lia).
    apply drop_app_length. }
  assert (drop (length line + 2) (line ++ CRLF ++ tail) = tail) as ->.
  { rewrite app_assoc. replace (length line + 2)%nat with (length (line ++ CRLF)) by (rewrite length_app; simpl; lia).
    apply drop_app_length. }
  replace (zlen (line ++ CRLF)) with (Z.of_nat (length line) + 2) by (rewrite length_app; simpl; lia).
  destruct v; reflexivity.
Qed.

(** All the header lines, then [tail]. *)
Lemma parse_val_head (m uri : bytes) (v : http_version_t) (hs : list (bytes * bytes)) (tail : bytes) :
  valid_token m -> valid_token uri -> Forall valid_field hs -> zlen hs <= NP_MAX_HEADERS ->
  exists fuel,
  let head := print_request_line m uri v ++ concat (map print_header hs) in
  parse_val init_val (head ++ tail) =
  match headers_val (S fuel) (fold_left apply_header hs (request_line_state m uri v)) (zlen head) tail with
  | Return pr s' => (pr, s')
  | Fallthrough s' cur => parse_finish s' (zlen (head ++ tail)) cur
  end.
Proof.
  intros Hm Hu Hhs Hlen. pose proof (print_headers_length hs).
  set (fuel := (length (print_request_line m uri v ++ concat (map print_header hs) ++ tail) - length hs)%nat).
  exists fuel. intros head. unfold head. rewrite <- app_assoc, parse_val_request_line by done.
  replace (S (length _)) with (length hs + S fuel)%nat
    by (unfold fuel; rewrite !length_app; lia).
  rewrite headers_val_lines by (done || simpl; lia).
  by rewrite <- Nat2Z.inj_add, <- length_app.
Qed.

Lemma init_rel (p : cptr) (n : Z) : state_rel p n http_parse_state_init init_val.
Proof. constructor; simpl; auto; split; [done | by left | done | by left]. Qed.

Lemma headers_val_bound (fuel : nat) (s s' : http_parse_state_t bytes) (off cur : Z) (rest : bytes) :
  headers_val fuel s off rest = Fallthrough s' cur -> off <= cur <= off + zlen rest.
Proof.
  revert s off rest; induction fuel as [| fuel IH]; intros s off rest; [discriminate |].
  cbn [headers_val]. destruct rest as [| x rest]; [intros [= _ <-]; simpl; lia |].
  set (l := x :: rest). destruct (find_crlf_val l) as [k |] eqn:Ek; [| discriminate].
  apply find_crlf_val_Some in Ek. destruct k as [| k]; [intros [= _ <-]; lia |].
  destruct (index_of _ _); [| discriminate]. destruct (_ <=? _); [discriminate |].
  intros Hr. apply IH in Hr. rewrite length_drop in Hr. lia.
Qed.

(** The loop itself never reports a complete request. *)
Lemma headers_val_not_done (fuel : nat) (s s' : http_parse_state_t bytes) (off : Z) (rest : bytes) :
  headers_val fuel s off rest <> Return PARSE_DONE s'.
Proof.
  revert s off rest; induction fuel as [| fuel IH]; intros s off rest; [discriminate |].
  cbn [headers_val]. repeat case_goal; try discriminate. apply IH.
Qed.

Lemma parse_finish_fields {S} (s : http_parse_state_t S) (n cur : Z) :
  let s' := snd (parse_finish s n cur) in
  ps_method s' = ps_method s /\ ps_uri s' = ps_uri s /\ ps_version s' = ps_version s /\
  ps_headers s' = ps_headers s /\ ps_body_offset s' = cur.
Proof. unfold parse_finish. repeat case_goal; done. Qed.

Lemma parse_finish_bounds {S} (s : http_parse_state_t S) (n cur : Z) :
  0 <= cur <= n -> n < 2 ^ 63 -> fst (parse_finish s n cur) = PARSE_DONE ->
  let s' := snd (parse_finish s n cur) in
  cur <= ps_parsed_bytes s' <= n /\ (0 < ps_content_length s' -> cur + u64 (ps_content_length s') <= n).
Proof.
  intros Hc Hn. unfold parse_finish. set (s2 := if _ && _ && _ then _ else _). clearbody s2.
  cbn [ps_content_length ps_body_offset ps_parsed_bytes set_parsed_bytes set_body_offset].
  destruct (0 <? _) eqn:E0; [| bprop; simpl; lia]. rewrite (u64_small (n - cur)) by lia.
  destruct (n - cur <? _) eqn:E2; [simpl; discriminate |]. bprop. intros _. simpl.
  pose proof (u64_range (ps_content_length s2)). rewrite (u64_small (cur + _)) by lia. lia.
Qed.

(** With a known content length the code after the loop waits for that many bytes. *)
Lemma parse_finish_content_length {S} (s : http_parse_state_t S) (n cur cl : Z) :
  ps_content_length s = cl -> 0 <= cl -> 0 <= cur -> cur + cl <= n -> n < 2 ^ 63 ->
  fst (parse_finish s n cur) = PARSE_DONE /\
  ps_content_length (snd (parse_finish s n cur)) = cl /\
  ps_parsed_bytes (snd (parse_finish s n cur)) = cur + cl.
Proof.
  intros Hcl H0 Hc Hn Hb. unfold parse_finish.
  set (s1 := if ps_has_connection_header s then s else _).
  assert (ps_content_length s1 = cl) as H1 by (unfold s1; by destruct (ps_has_connection_header s)).
  clearbody s1. rewrite H1. replace (cl <? 0) with false by lia. rewrite andb_false_r.
  cbn [ps_content_length ps_body_offset ps_parsed_bytes set_parsed_bytes set_body_offset]. rewrite H1.
  rewrite (u64_small cl), (u64_small (n - cur)) by lia. destruct (Z.ltb_spec 0 cl); [| simpl; split_and!; auto; lia].
  replace (n - cur <? cl) with false by lia. simpl. rewrite u64_small by lia. auto.
Qed.

Lemma apply_content_length (s : http_parse_state_t bytes) (k : Z) :
  LLONG_MIN <= k <= LLONG_MAX ->
  ps_content_length (apply_header s (lit "Content-Length", fmt_d k)) = k.
Proof.
  intros Hk. unfold apply_header, effect_val. cbn [fst snd].
  change (name_is (lit "Content-Length") (lit "Content-Length")) with true. cbn match.
  by rewrite to_int_val_fmt_d.
Qed.

Lemma isspace_cr (t : bytes) : Forall (fun c => isdigit c = true \/ c = 45) t -> no_byte CR t.
Proof. intros H. eapply Forall_impl; [exact H |]. unfold isdigit, CR. simpl. intros x Hx. lia. Qed.

Lemma content_length_field (k : Z) : 0 <= k -> valid_field (lit "Content-Length", fmt_d k).
Proof.
  intros Hk. unfold fmt_d. replace (k <? 0) with false by lia. pose proof (fmt_u_digits k Hk) as Hd.
  unfold valid_field. cbn [fst snd]. split_and!.
  - repeat (constructor; [done |]); constructor.
  - repeat (constructor; [done |]); constructor.
  - apply isspace_cr. eapply Forall_impl; [exact Hd |]. auto.
  - split; intros c [= <-]; done.
  - split; intros c Hc; apply isdigit_not_space; rewrite Forall_forall in Hd; apply Hd;
      [destruct (fmt_u k); [discriminate |]; injection Hc as ->; left |].
    apply last_Some in Hc as [l ->]. apply elem_of_app. right. left.
Qed.

(** ** Properties *)

Definition header_repr (h : http_header_t str_t) (f : bytes * bytes) : Prop :=
  str_repr (h_name h) f.1 /\ str_repr (h_value h) f.2.

Lemma headers_rel_repr (p : cptr) (n : Z) (hs : list (http_header_t str_t)) (fs : list (bytes * bytes)) :
  Forall2 (header_in p n) hs (map (fun h => mk_header h.1 h.2) fs) -> Forall2 header_repr hs fs.
Proof.
  revert hs; induction fs as [| f fs IH]; intros hs H; inversion H as [| h ? ? ? [[Hn _] [Hv _]] Ht]; subst;
    constructor; [by split | auto].
Qed.

(** C1 The parser is memory safe and total: on every buffer of [n] readable
    bytes it terminates without an access outside the buffer, its answer and its
    state are those of the reference parser on the buffer's bytes, and every
    string in the state is a slice of the buffer (or unset). *)
Theorem http_parse_request_refines (p : cptr) (n : Z) (v : bytes) :
  readable p n v ->
  exists r s, http_parse_request http_parse_state_init p n = Ret (r, s) /\
    r = fst (parse_val init_val v) /\ state_rel p n s (snd (parse_val init_val v)).
Proof. intros Hp. apply http_parse_request_Ret; [done | apply init_rel]. Qed.

Lemma http_parse_request_refines_witness :
  exists s, http_parse_request http_parse_state_init (cstring (lit "BAD")) 3 = Ret (PARSE_INCOMPLETE, s).
Proof.
  destruct (http_parse_request_refines (cstring (lit "BAD")) 3 (lit "BAD")) as (r & s & H & Hr & _).
  - apply (readable_cstring (lit "BAD")).
  - exists s. rewrite H. rewrite Hr. reflexivity.
Defined.

(** C4 Framing: when the buffer holds a printed request with a Content-Length
    header for its body, followed by any bytes (the start of a pipelined
    request), the parser answers PARSE_DONE, gives back the method, the target,
    the version and the header fields, and counts exactly the head and the body
    as parsed. *)
Theorem http_parse_request_frames (p : cptr) (m uri body rest : bytes) (v : http_version_t)
    (hs : list (bytes * bytes)) :
  let fields := hs ++ [(lit "Content-Length", fmt_d (zlen body))] in
  let head := print_head m uri v fields in
  let data := head ++ body ++ rest in
  valid_token m -> valid_token uri -> Forall valid_field hs -> zlen hs < NP_MAX_HEADERS ->
  zlen data < 2 ^ 63 -> readable p (zlen data) data ->
  exists s, http_parse_request http_parse_state_init p (zlen data) = Ret (PARSE_DONE, s) /\
    ps_method s = method_val m /\ str_repr (ps_uri s) uri /\ ps_version s = Some v /\
    Forall2 header_repr (ps_headers s) fields /\ ps_content_length s = zlen body /\
    ps_body_offset s = zlen head /\ ps_parsed_bytes s = zlen head + zlen body.
Proof.
  intros fields head data Hm Hu Hhs Hlen Hb Hp.
  assert (Forall valid_field fields) as Hf.
  { apply Forall_app. split; [done |]. constructor; [apply content_length_field; lia | constructor]. }
  destruct (parse_val_head m uri v fields (CRLF ++ body ++ rest)) as [fuel Hpv]; auto.
  { unfold fields. rewrite length_app. simpl. lia. }
  set (pre := print_request_line m uri v ++ concat (map print_header fields)) in *.
  assert (pre ++ CRLF ++ body ++ rest = data) as Hd
    by (unfold data, head, print_head, pre; by rewrite <- !app_assoc).
  assert (zlen head = zlen pre + 2) as Hh by (unfold head, print_head, pre; rewrite !length_app; simpl; lia).
  cbn zeta in Hpv. rewrite Hd in Hpv. cbn [headers_val CRLF app find_crlf_val] in Hpv.
  change ((CR =? CR) && (LF =? LF)) with true in Hpv. cbn match in Hpv.
  set (sf := fold_left apply_header fields (request_line_state m uri v)) in *.
  destruct (apply_headers_fields fields (request_line_state m uri v)) as (F1 & F2 & F3 & F4).
  fold sf in F1, F2, F3, F4.
  assert (zlen data = zlen head + zlen body + zlen rest) as Hdl by (unfold data; rewrite !length_app; lia).
  destruct (parse_finish_content_length sf (zlen data) (zlen pre + 2) (zlen body)) as (D1 & D2 & D3); try lia.
  { unfold sf, fields. rewrite fold_left_app. cbn [fold_left]. apply apply_content_length.
    unfold LLONG_MIN, LLONG_MAX. lia. }
  destruct (parse_finish_fields sf (zlen data) (zlen pre + 2)) as (E1 & E2 & E3 & E4 & E5).
  destruct (http_parse_request_Ret p _ _ _ data Hp (init_rel p _)) as (r & s & Hr & -> & Hs).
  rewrite Hpv in Hr, Hs. rewrite D1 in Hr. exists s. destruct Hs as [S1 [S2 _] S3 S4 S5 _ _ _ _ _ S6 S7].
  rewrite E1 in S1. rewrite E2 in S2. rewrite E3 in S3. rewrite E4 in S4.
  rewrite F1 in S1. rewrite F2 in S2. rewrite F3 in S3. rewrite F4 in S4.
  split_and!; auto; try congruence; first [lia | by eapply headers_rel_repr].
Qed.

Lemma http_parse_request_frames_witness :
  exists s, http_parse_request http_parse_state_init
      (Ptr (print_head (lit "POST") (lit "/x") HTTP_11 ([(lit "Host", lit "a")] ++ [(lit "Content-Length", fmt_d 2)])
         ++ lit "hi" ++ lit "GET") 0)
      (zlen (print_head (lit "POST") (lit "/x") HTTP_11 ([(lit "Host", lit "a")] ++ [(lit "Content-Length", fmt_d 2)])
         ++ lit "hi" ++ lit "GET")) = Ret (PARSE_DONE, s) /\ ps_method s = HTTP_METHOD_POST.
Proof.
  destruct (http_parse_request_frames
    (Ptr (print_head (lit "POST") (lit "/x") HTTP_11 ([(lit "Host", lit "a")] ++ [(lit "Content-Length", fmt_d 2)])
         ++ lit "hi" ++ lit "GET") 0) (lit "POST") (lit "/x") (lit "hi") (lit "GET") HTTP_11 [(lit "Host", lit "a")])
    as (s & Hs & Hm & _).
  - split; repeat (constructor; [vm_compute; discriminate |]); constructor.
  - split; repeat (constructor; [vm_compute; discriminate |]); constructor.
  - repeat constructor; try (vm_compute; discriminate); intros c [= <-]; reflexivity.
  - vm_compute. reflexivity.
  - vm_compute. reflexivity.
  - vm_compute. repeat split; discriminate.
  - exists s. split; [exact Hs | exact Hm].
Defined.

(** What a completed parse counts is in the buffer. *)
Lemma parse_done_bounds (p : cptr) (n : Z) (v : bytes) (s : http_parse_state_t str_t) :
  readable p n v -> n < 2 ^ 63 ->
  http_parse_request http_parse_state_init p n = Ret (PARSE_DONE, s) ->
  0 < ps_body_offset s <= ps_parsed_bytes s /\ ps_parsed_bytes s <= n /\
  (0 < ps_content_length s -> ps_body_offset s + u64 (ps_content_length s) <= n).
Proof.
  intros Hp Hn Hr. pose proof (readable_length _ _ _ Hp) as Hl.
  destruct (http_parse_request_Ret p n _ _ v Hp (init_rel p n)) as (r & s' & Hr' & Hd & Hs).
  rewrite Hr in Hr'. injection Hr' as <- <-. destruct Hs as [_ _ _ _ -> _ _ _ _ _ -> ->].
  unfold parse_val in *. destruct (find_crlf_val v) as [k |] eqn:Ek; [| discriminate].
  apply find_crlf_val_Some in Ek. destruct (index_of _ (take k v)); [| discriminate].
  destruct (index_of _ _); [| discriminate]. destruct (_ || _); [| discriminate].
  destruct (headers_val _ _ _ _) as [pr s1 | s1 cur] eqn:E; cbn [fst snd] in *.
  { subst pr. by apply headers_val_not_done in E. }
  apply headers_val_bound in E. rewrite length_drop in E.
  destruct (parse_finish_bounds s1 (zlen v) cur ltac:(lia) ltac:(lia) (eq_sym Hd)) as [Hb1 Hb2].
  destruct (parse_finish_fields s1 (zlen v) cur) as (_ & _ & _ & _ & ->). split; [lia |]. split; [lia |]. intros Hcl. specialize (Hb2 Hcl). lia.
Qed.

(** C5 A completed parse never counts more bytes than the buffer holds: the body
    starts inside the buffer and the bytes to consume end inside it. *)
Theorem http_parse_request_bounds (p : cptr) (n : Z) (v : bytes) (s : http_parse_state_t str_t) :
  readable p n v -> n < 2 ^ 63 ->
  http_parse_request http_parse_state_init p n = Ret (PARSE_DONE, s) ->
  0 < ps_body_offset s <= ps_parsed_bytes s /\ ps_parsed_bytes s <= n.
Proof. intros Hp Hn Hr. destruct (parse_done_bounds p n v s Hp Hn Hr) as (H1 & H2 & _). by split. Qed.

Lemma http_parse_request_bounds_witness :
  exists s, http_parse_request http_parse_state_init (cstring (lit "GET / HTTP/1.0" ++ CRLF ++ CRLF)) 18 = Ret (PARSE_DONE, s)
    /\ ps_parsed_bytes s <= 18.
Proof.
  eexists. split; [vm_compute; reflexivity |].
  refine (proj2 (http_parse_request_bounds (cstring (lit "GET / HTTP/1.0" ++ CRLF ++ CRLF)) 18
    (lit "GET / HTTP/1.0" ++ CRLF ++ CRLF) _ _ _ _)).
  - apply (readable_cstring (lit "GET / HTTP/1.0" ++ CRLF ++ CRLF)).
  - reflexivity.
  - vm_compute. reflexivity.
Defined.

(** A head that stops at a line boundary is taken for a complete request: when
    the bytes received so far are a request line and whole header lines, none a
    Content-Length, but the blank line that ends the head has not arrived, the
    parser answers PARSE_DONE, not PARSE_INCOMPLETE. *)
Theorem http_parse_request_unterminated_head (p : cptr) (m uri : bytes) (v : http_version_t)
    (hs : list (bytes * bytes)) :
  let data := print_request_line m uri v ++ concat (map print_header hs) in
  valid_token m -> valid_token uri -> Forall valid_field hs -> zlen hs <= NP_MAX_HEADERS ->
  Forall (fun h => name_is h.1 (lit "Content-Length") = false) hs ->
  readable p (zlen data) data ->
  exists s, http_parse_request http_parse_state_init p (zlen data) = Ret (PARSE_DONE, s) /\
    ps_parsed_bytes s = zlen data.
Proof.
  intros data Hm Hu Hhs Hlen Hcl Hp.
  destruct (parse_val_head m uri v hs [] Hm Hu Hhs Hlen) as [fuel Hpv]. cbn zeta in Hpv.
  rewrite app_nil_r in Hpv. fold data in Hpv. cbn [headers_val] in Hpv.
  set (sf := fold_left apply_header hs (request_line_state m uri v)) in *.
  assert (ps_content_length sf = -1) as Hsf.
  { unfold sf. assert (ps_content_length (request_line_state m uri v) = -1) as H0 by done. revert H0.
    generalize (request_line_state m uri v). clear -Hcl.
    induction Hcl as [| h hs Hh _ IH]; intros s Hs; [done |]. cbn [fold_left]. apply IH.
    unfold apply_header, effect_val. rewrite Hh. repeat case_goal; done. }
  destruct (http_parse_request_Ret p _ _ _ data Hp (init_rel p _)) as (r & s & Hr & -> & Hs).
  rewrite Hpv in Hr, Hs. exists s. revert Hr Hs. unfold parse_finish.
  set (s1 := if ps_has_connection_header sf then sf else _).
  assert (ps_content_length s1 = -1) as H1 by (unfold s1; by destruct (ps_has_connection_header sf)).
  clearbody s1. set (s2 := if _ && _ && _ then _ else _).
  assert (ps_content_length s2 <= 0) as H2 by (unfold s2; case_goal; simpl; lia).
  clearbody s2. cbn [ps_content_length ps_body_offset ps_parsed_bytes set_parsed_bytes set_body_offset].
  replace (0 <? ps_content_length s2) with false by lia. intros Hr Hs. split; [exact Hr |].
  by rewrite (rel_parsed_bytes _ _ _ _ Hs).
Qed.

Lemma http_parse_request_unterminated_head_witness :
  exists s, http_parse_request http_parse_state_init (Ptr (print_request_line (lit "GET") (lit "/") HTTP_11) 0) 16
    = Ret (PARSE_DONE, s).
Proof.
  destruct (http_parse_request_unterminated_head (Ptr (print_request_line (lit "GET") (lit "/") HTTP_11) 0)
    (lit "GET") (lit "/") HTTP_11 []) as (s & Hs & _).
  - split; repeat (constructor; [vm_compute; discriminate |]); constructor.
  - split; repeat (constructor; [vm_compute; discriminate |]); constructor.
  - constructor.
  - vm_compute. discriminate.
  - constructor.
  - vm_compute. repeat split; discriminate.
  - exists s. exact Hs.
Defined.
