(* ===== verification/Request.v ===== *)
(** * Requests: src/http/request.{h,c}

    [request_populate] copies the parse state into a request and splits the
    target at its first question mark; its strings stay slices of the read
    buffer.  [request_header] looks a field up by name.  The clock read by
    [clock_gettime] is an argument. *)

From Stdlib Require Import ZArith Lia String.
From stdpp Require Import base numbers option list.
From S2P Require Import Prelude CLib StringUtil Memory Parser.

(** ** Data and operations *)

Record http_request_t : Type := mk_req {
  req_method : http_method_t;
  req_path : str_t;
  req_query : str_t;
  req_version : option http_version_t;
  req_headers : list (http_header_t str_t);
  req_content_length : Z;
  req_chunked : bool;
  req_keep_alive : bool;
  req_upgrade : bool;
  req_upgrade_protocol : str_t;
  req_body : str_t;
  req_remote_ip : bytes;
  req_recv_ts_us : Z
}.

Definition sizeof_http_request : Z := 2176.
Definition alignof_http_request : Z := 8.

Definition request_zero : http_request_t :=
  mk_req HTTP_METHOD_GET STR_NULL STR_NULL None [] (-1) false false false STR_NULL STR_NULL [] 0.

(** The address of the new request (null when the arena has no memory) and the
    zeroed request stored there. *)
Definition request_create {A : Allocator} (h : list region) (a : arena_t)
    : cres (option (Z * http_request_t) * arena_t * list region) :=
  r ← arena_alloc_aligned h a sizeof_http_request alignof_http_request;
  match r with
  | (None, a', h') => Ret (None, a', h')
  | (Some p, a', h') => Ret (Some (p, request_zero), a', h')
  end.

(** [ts] is the time read from the monotonic clock, seconds and nanoseconds. *)
Definition request_populate (req : http_request_t) (ps : http_parse_state_t str_t) (raw : cptr) (n : Z)
    (ts : Z * Z) : cres (np_status_t * http_request_t) :=
  let uri := ps_uri ps in
  q ← memchr (ptr uri) 63 (len uri);
  let '(path, query) :=
    match q with
    | Some k => (mk_str (ptr uri) k, mk_str (padd (ptr uri) (k + 1)) (len uri - k - 1))
    | None => (uri, STR_NULL)
    end in
  let body :=
    if (0 <? ps_content_length ps)
       && (u64 (ps_body_offset ps + u64 (ps_content_length ps)) <=? n)
    then mk_str (padd raw (ps_body_offset ps)) (u64 (ps_content_length ps))
    else req_body req in
  Ret (NP_OK,
       mk_req (ps_method ps) path query (ps_version ps) (ps_headers ps) (ps_content_length ps)
         (ps_chunked ps) (ps_keep_alive ps) (ps_upgrade ps) (ps_upgrade_protocol ps) body
         (req_remote_ip req) (u64 (u64 (ts.1 * 1000000) + ts.2 / 1000))).

Fixpoint request_header_loop (hs : list (http_header_t str_t)) (name : str_t) : cres str_t :=
  match hs with
  | [] => Ret STR_NULL
  | h :: hs' =>
      b ← str_ieq (h_name h) name;
      if (b : bool) then Ret (h_value h) else request_header_loop hs' name
  end.

Definition request_header (req : http_request_t) (name : str_t) : cres str_t :=
  request_header_loop (req_headers req) name.

(** ** Reference definitions *)

(** The value of the first field with this name. *)
Definition header_val (fs : list (bytes * bytes)) (name : bytes) : option bytes :=
  snd <$> head (filter (fun f => name_is f.1 name = true) fs).

Definition path_val (uri : bytes) : bytes :=
  match index_of (Z.eqb 63) uri with Some k => take k uri | None => uri end.

Definition query_val (uri : bytes) : option bytes :=
  match index_of (Z.eqb 63) uri with Some k => Some (drop (S k) uri) | None => None end.

(** ** Lemmas *)

Lemma request_header_loop_Ret (hs : list (http_header_t str_t)) (fs : list (bytes * bytes)) (name : str_t) (w : bytes) :
  Forall2 header_repr hs fs -> str_repr name w ->
  exists s, request_header_loop hs name = Ret s /\
    match header_val fs w with
    | Some v => str_repr s v /\ exists h, h ∈ hs /\ s = h_value h
    | None => s = STR_NULL
    end.
Proof.
  intros Hf Hw. unfold header_val.
  induction Hf as [| h f hs fs [Hn Hv] _ IH]; [by exists STR_NULL |].
  cbn [request_header_loop]. rewrite (str_ieq_Ret _ _ _ _ Hn Hw), bind_Ret. rewrite filter_cons.
  fold (name_is f.1 w). destruct (name_is f.1 w) eqn:E; case_decide; try congruence.
  - exists (h_value h). split; [done |]. split; [done |]. exists h. split; [left | done].
  - destruct IH as (s & Hs & Hm). exists s. split; [done |].
    destruct (snd <$> head _); [| done]. destruct Hm as (Hr & h' & Hin & ->). split; [done |].
    exists h'. split; [by right | done].
Qed.

Lemma uri_split (uri : bytes) :
  uri = path_val uri ++ match query_val uri with Some q => 63 :: q | None => [] end.
Proof.
  unfold path_val, query_val. destruct (index_of (Z.eqb 63) uri) as [k |] eqn:E; [| by rewrite app_nil_r].
  apply index_of_Some in E as (a & x & b & -> & <- & Hx & _). bprop. subst x.
  rewrite take_app_length. f_equal.
  replace (S (length a)) with (length (a ++ [63])) by (rewrite length_app; simpl; lia).
  rewrite (cons_middle 63 a b), app_assoc. by rewrite drop_app_length.
Qed.

(** The fields of a state of the reference parser. *)
Definition fields_of (sv : http_parse_state_t bytes) : list (bytes * bytes) :=
  map (fun h => (h_name h, h_value h)) (ps_headers sv).

Lemma fields_of_repr (p : cptr) (n : Z) (ps : http_parse_state_t str_t) (sv : http_parse_state_t bytes) :
  state_rel p n ps sv -> Forall2 header_repr (ps_headers ps) (fields_of sv).
Proof.
  intros Hs. eapply headers_rel_repr. unfold fields_of. rewrite map_map.
  rewrite (map_ext _ (fun h => h)) by (by intros []). rewrite map_id. exact (rel_headers _ _ _ _ Hs).
Qed.

(** A new request from a completed parse. *)
Lemma request_populate_Ret (ps : http_parse_state_t str_t) (sv : http_parse_state_t bytes) (p : cptr) (n : Z) (v : bytes) (ts : Z * Z) :
  readable p n v -> n < 2 ^ 63 -> state_rel p n ps sv -> 0 <= ps_body_offset ps ->
  (0 < ps_content_length ps -> ps_body_offset ps + u64 (ps_content_length ps) <= n) ->
  exists r bv, request_populate request_zero ps p n ts = Ret (NP_OK, r) /\ str_repr (req_path r) (path_val (ps_uri sv)) /\
    str_repr (req_body r) bv /\ req_headers r = ps_headers ps /\ req_method r = ps_method sv /\ req_upgrade r = ps_upgrade sv /\
    req_keep_alive r = ps_keep_alive ps /\ req_version r = ps_version ps.
Proof.
  intros Hp Hn Hs Hb Hfit. pose proof (proj1 (rel_uri _ _ _ _ Hs)) as Hu. pose proof (str_repr_len _ _ Hu) as Hl. unfold request_populate.
  rewrite (memchr_Ret _ 63 _ _ Hu), bind_Ret.
  assert (exists bv, str_repr (if (0 <? ps_content_length ps) && (u64 (ps_body_offset ps + u64 (ps_content_length ps)) <=? n)
    then mk_str (padd p (ps_body_offset ps)) (u64 (ps_content_length ps)) else req_body request_zero) bv) as (bv & Hbody).
  { destruct (0 <? ps_content_length ps) eqn:E; cbn [andb]; bprop; [| by exists []].
    case_match; [| by exists []]. eexists. pose proof (u64_range (ps_content_length ps)). specialize (Hfit E).
    apply readable_sub with (n := n); [exact Hp | cbn [len]; lia..]. }
  unfold path_val. destruct (index_of (Z.eqb 63) (ps_uri sv)) as [k |] eqn:E; simpl fmap; cbn match;
    eexists _, bv; (split; [done |]); cbn [req_path req_body req_headers req_method req_upgrade req_keep_alive req_version];
    (split; [| destruct Hs; by split_and!]); [| done].
  pose proof (index_of_lt _ _ _ E). unfold str_repr. simpl. eapply readable_take; [exact Hu | lia].
Qed.

(** ** Properties *)

(** Populating a request from a parse state over a buffer: the target is the
    path, and after a question mark the query; the path holds no question mark;
    the body, when the parser announced one that fits in the buffer, is the slice
    of that length at the body offset. *)
Theorem request_populate_correct (req : http_request_t) (ps : http_parse_state_t str_t) (p : cptr)
    (n : Z) (v uri : bytes) (ts : Z * Z) :
  readable p n v -> n < 2 ^ 63 -> str_repr (ps_uri ps) uri -> 0 <= ps_body_offset ps ->
  0 < ps_content_length ps < 2 ^ 63 -> ps_body_offset ps + ps_content_length ps <= n ->
  exists r, request_populate req ps p n ts = Ret (NP_OK, r) /\
    str_repr (req_path r) (path_val uri) /\ no_byte 63 (path_val uri) /\
    match query_val uri with
    | Some q => str_repr (req_query r) q /\ uri = path_val uri ++ 63 :: q
    | None => req_query r = STR_NULL /\ uri = path_val uri
    end /\
    req_headers r = ps_headers ps /\ req_keep_alive r = ps_keep_alive ps /\
    str_repr (req_body r) (zsub (ps_body_offset ps) (ps_content_length ps) v).
Proof.
  intros Hp Hn Hu Hb Hc Hfit. pose proof (str_repr_len _ _ Hu) as Hl. unfold request_populate.
  rewrite (memchr_Ret _ 63 _ _ Hu), bind_Ret.
  rewrite (u64_small (ps_content_length ps)), (u64_small (_ + _)) by lia.
  replace (0 <? ps_content_length ps) with true by lia.
  replace (ps_body_offset ps + ps_content_length ps <=? n) with true by lia. cbn [andb].
  assert (str_repr (mk_str (padd p (ps_body_offset ps)) (ps_content_length ps))
    (zsub (ps_body_offset ps) (ps_content_length ps) v)) as Hbody.
  { apply readable_sub with (n := n); auto; lia. }
  pose proof (uri_split uri) as Hs. unfold path_val, query_val in *.
  destruct (index_of (Z.eqb 63) uri) as [k |] eqn:E; simpl fmap; cbn match;
    eexists; (split; [done |]); cbn [req_path req_query req_headers req_keep_alive req_body].
  - pose proof (index_of_lt _ _ _ E). split_and!; auto.
    + unfold str_repr. simpl. eapply readable_take; [exact Hu | lia].
    + apply index_of_Some in E as (a & x & b & -> & <- & _ & Ha). rewrite take_app_length.
      eapply Forall_impl; [exact Ha |]. intros y Hy. apply Z.eqb_neq in Hy. congruence.
    + unfold str_repr. simpl. rewrite <- Z.sub_add_distr. eapply readable_drop; [exact Hu | lia | lia].
  - split_and!; auto. apply index_of_None in E. eapply Forall_impl; [exact E |]. intros y Hy. apply Z.eqb_neq in Hy. congruence.
Qed.

Lemma request_populate_correct_witness :
  exists r, request_populate request_zero
    (mk_ps HTTP_METHOD_GET (STR (lit "/a?x=1")) (Some HTTP_11) [] 2 false true false false STR_NULL 3 5)
    (cstring (lit "...hi")) 5 (1, 0) = Ret (NP_OK, r) /\ str_repr (req_path r) (lit "/a").
Proof.
  destruct (request_populate_correct request_zero
    (mk_ps HTTP_METHOD_GET (STR (lit "/a?x=1")) (Some HTTP_11) [] 2 false true false false STR_NULL 3 5)
    (cstring (lit "...hi")) 5 (lit "...hi") (lit "/a?x=1") (1, 0)) as (r & Hr & Hp & _).
  - apply (readable_cstring (lit "...hi")).
  - reflexivity.
  - apply str_repr_STR.
  - simpl; lia.
  - simpl; lia.
  - simpl; lia.
  - exists r. split; [exact Hr | exact Hp].
Defined.

(** [request_header] returns the value slice of the first field whose name
    equals the argument up to case, and the null string exactly when no field has
    that name; later fields of the same name are not seen. *)
Theorem request_header_first (req : http_request_t) (fs : list (bytes * bytes)) (w : bytes) :
  Forall2 header_repr (req_headers req) fs ->
  exists s, request_header req (STR w) = Ret s /\
    match header_val fs w with
    | Some v => str_repr s v /\ exists h, h ∈ req_headers req /\ s = h_value h
    | None => s = STR_NULL
    end.
Proof. intros Hf. apply request_header_loop_Ret; [done | apply str_repr_STR]. Qed.

Lemma request_header_first_witness :
  exists s, request_header
    (mk_req HTTP_METHOD_GET STR_NULL STR_NULL None
      [mk_header (STR (lit "host")) (STR (lit "a")); mk_header (STR (lit "Host")) (STR (lit "b"))]
      0 false false false STR_NULL STR_NULL [] 0) (STR (lit "Host")) = Ret s /\ str_repr s (lit "a").
Proof.
  destruct (request_header_first
    (mk_req HTTP_METHOD_GET STR_NULL STR_NULL None
      [mk_header (STR (lit "host")) (STR (lit "a")); mk_header (STR (lit "Host")) (STR (lit "b"))]
      0 false false false STR_NULL STR_NULL [] 0)
    [(lit "host", lit "a"); (lit "Host", lit "b")] (lit "Host")) as (s & Hs & Hm).
  - simpl. repeat (apply Forall2_cons; split; [split; apply str_repr_STR |]). apply Forall2_nil. constructor.
  - exists s. split; [exact Hs |]. exact (proj1 Hm).
Defined.
