(* ===== verification/Response.v ===== *)
(** * Responses: src/http/response.{h,c}

    The response object with its header list, the serialiser, and the two
    writers that format a small response straight into the connection's write
    buffer.  The writers use the buffer only through the interface
    [WriteBuffer] of Buffer.v, and their theorems hold for every
    implementation that satisfies its laws; the serialiser also compacts the
    buffer and is stated for [np_buf_t].

    A [char *] is the list of its bytes before the terminator, [None] for a
    null pointer. *)

From Stdlib Require Import ZArith Lia String.
From stdpp Require Import base numbers option list.
From S2P Require Import Prelude CLib StringUtil Memory Buffer Parser.

(** ** Data *)

Record http_response_t : Type := mk_resp {
  resp_status : Z;
  resp_reason : option bytes;
  resp_headers : list (http_header_t str_t);
  resp_body : str_t;
  resp_keep_alive : bool;
  resp_chunked : bool
}.

Definition sizeof_http_response : Z := 2096.
Definition alignof_http_response : Z := 8.

Definition response_init : http_response_t :=
  mk_resp 200 (Some (lit "OK")) [] STR_NULL false false.

Definition response_create {A : Allocator} (h : list region) (a : arena_t)
    : cres (option (Z * http_response_t) * arena_t * list region) :=
  r ← arena_alloc_aligned h a sizeof_http_response alignof_http_response;
  match r with
  | (None, a', h') => Ret (None, a', h')
  | (Some p, a', h') => Ret (Some (p, response_init), a', h')
  end.

(** The copies made in the arena are fresh terminated strings. *)
Definition response_set_header {A : Allocator} (r : http_response_t) (h : list region) (a : arena_t)
    (name value : bytes) : cres (http_response_t * arena_t * list region) :=
  if NP_MAX_HEADERS <=? zlen (resp_headers r) then Ret (r, a, h)
  else
    x ← arena_alloc h a (zlen name + 1);
    let '(n, a1, h1) := x in
    y ← arena_alloc h1 a1 (zlen value + 1);
    let '(v, a2, h2) := y in
    match n, v with
    | Some _, Some _ =>
        Ret (mk_resp (resp_status r) (resp_reason r)
               (resp_headers r ++ [mk_header (STR name) (STR value)])
               (resp_body r) (resp_keep_alive r) (resp_chunked r), a2, h2)
    | _, _ => Ret (r, a2, h2)
    end.

Definition status_reason (status : Z) : bytes :=
  if status =? 200 then lit "OK"
  else if status =? 201 then lit "Created"
  else if status =? 204 then lit "No Content"
  else if status =? 206 then lit "Partial Content"
  else if status =? 301 then lit "Moved Permanently"
  else if status =? 302 then lit "Found"
  else if status =? 304 then lit "Not Modified"
  else if status =? 400 then lit "Bad Request"
  else if status =? 403 then lit "Forbidden"
  else if status =? 404 then lit "Not Found"
  else if status =? 405 then lit "Method Not Allowed"
  else if status =? 413 then lit "Payload Too Large"
  else if status =? 429 then lit "Too Many Requests"
  else if status =? 500 then lit "Internal Server Error"
  else if status =? 502 then lit "Bad Gateway"
  else if status =? 503 then lit "Service Unavailable"
  else if status =? 504 then lit "Gateway Timeout"
  else lit "Unknown".

(** ** Serialiser *)

(** [memcpy] of as many bytes as [snprintf] reported out of the array of [size]
    bytes it formatted [s] into: past the array's end when the text was longer
    than the array. *)
Definition formatted (size : Z) (s : bytes) : cres bytes :=
  if zlen s <? size then Ret s
  else if zlen s =? size then Ret (snprintf size s ++ [0])
  else Stuck.

(** Compact when [bs] does not fit, then copy it without looking again. *)
Definition put_compacting (b : np_buf_t) (bs : bytes) : cres np_buf_t :=
  b1 ← (if buf_writable b <? zlen bs then buf_compact b else Ret b);
  buf_append b1 bs.

Fixpoint serialize_headers (b : np_buf_t) (hs : list (http_header_t str_t)) : cres np_buf_t :=
  match hs with
  | [] => Ret b
  | h :: hs' =>
      name ← load_n (ptr (h_name h)) (len (h_name h));
      value ← load_n (ptr (h_value h)) (len (h_value h));
      b1 ← put_compacting b (name ++ [58; 32] ++ value ++ CRLF);
      serialize_headers b1 hs'
  end.

Definition conn_header (keep_alive : bool) : bytes :=
  if keep_alive then lit "Connection: keep-alive" ++ CRLF ++ CRLF
  else lit "Connection: close" ++ CRLF ++ CRLF.

(** The text of the Content-Length field is formatted into a local array and
    never copied to the buffer. *)
Definition response_serialize (r : http_response_t) (b : np_buf_t) : cres (np_status_t * np_buf_t) :=
  let reason := match resp_reason r with Some t => t | None => status_reason (resp_status r) end in
  line ← formatted 256 (lit "HTTP/1.1 " ++ fmt_d (resp_status r) ++ [32] ++ reason ++ CRLF);
  b ← put_compacting b line;
  b ← serialize_headers b (resp_headers r);
  b ← put_compacting b (conn_header (resp_keep_alive r));
  if 0 <? len (resp_body r) then
    b ← (if buf_writable b <? len (resp_body r) then buf_compact b else Ret b);
    if len (resp_body r) <=? buf_writable b then
      body ← load_n (ptr (resp_body r)) (len (resp_body r));
      b ← buf_append b body;
      Ret (NP_OK, b)
    else Ret (NP_OK, b)
  else Ret (NP_OK, b).

(** ** Writers *)

(** A literal in which a backquote stands for a double quote. *)
Definition litq (s : string) : bytes := map (fun c => if c =? 96 then DQUOTE else c) (lit s).

(** The HTML of an error page. *)
Definition error_page (status : Z) : bytes :=
  let reason := status_reason status in
  lit "<!DOCTYPE html>" ++ [LF] ++ lit "<html>" ++ [LF] ++
  lit "<head><title>" ++ fmt_d status ++ [32] ++ reason ++ lit "</title></head>" ++ [LF] ++
  litq "<body style=`font-family:-apple-system,BlinkMacSystemFont,'Segoe UI',Roboto,sans-serif;" ++
  litq "display:flex;justify-content:center;align-items:center;min-height:100vh;margin:0;" ++
  litq "background:#0f0f0f;color:#e0e0e0`>" ++ [LF] ++
  litq "<div style=`text-align:center;padding:40px`>" ++ [LF] ++
  litq "<h1 style=`font-size:72px;font-weight:200;margin:0;color:#ff6b6b`>" ++ fmt_d status ++
  lit "</h1>" ++ [LF] ++
  litq "<p style=`font-size:20px;color:#888;margin:12px 0 32px`>" ++ reason ++ lit "</p>" ++ [LF] ++
  litq "<hr style=`border:none;border-top:1px solid #333;width:280px;margin:0 auto 16px`>" ++ [LF] ++
  litq "<p style=`font-size:13px;color:#555`>nproxy/1.0</p>" ++ [LF] ++
  lit "</div>" ++ [LF] ++ lit "</body>" ++ [LF] ++ lit "</html>" ++ [LF].

Definition conn_token (keep_alive : bool) : bytes :=
  if keep_alive then lit "keep-alive" else lit "close".

Section writers.
Context {B : Type} {W : WriteBuffer B}.

(** Copy the formatted text [s] if the buffer has room for all of it. *)
Definition put_formatted (size : Z) (s : bytes) (b : B) : cres B :=
  if (0 <? zlen s) && (zlen s <=? wb_writable b) then
    bs ← formatted size s; wb_put b bs
  else Ret b.

Definition response_write_simple (b : B) (status : Z) (reason content_type body : option bytes)
    (keep_alive : bool) : cres B :=
  let body_len := match body with Some t => zlen t | None => 0 end in
  let header :=
    lit "HTTP/1.1 " ++ fmt_d status ++ [32] ++ default (status_reason status) reason ++ CRLF ++
    lit "Content-Type: " ++ default (lit "text/plain") content_type ++ CRLF ++
    lit "Content-Length: " ++ fmt_u body_len ++ CRLF ++
    lit "Connection: " ++ conn_token keep_alive ++ CRLF ++ CRLF in
  b ← put_formatted 512 header b;
  if (0 <? body_len) && (body_len <=? wb_writable b) then wb_put b (default [] body) else Ret b.

Definition response_write_error (b : B) (status : Z) (keep_alive : bool) : cres B :=
  let reason := status_reason status in
  let body := error_page status in
  let header :=
    lit "HTTP/1.1 " ++ fmt_d status ++ [32] ++ reason ++ CRLF ++
    lit "Content-Type: text/html" ++ CRLF ++
    lit "Content-Length: " ++ fmt_d (zlen body) ++ CRLF ++
    lit "Connection: " ++ conn_token keep_alive ++ CRLF ++ CRLF in
  b ← put_formatted 512 header b;
  put_formatted 2048 body b.

End writers.

(** ** Reference definitions *)

(** A response as it is on the wire: status line, fields, blank line. *)
Definition print_response_head (status : Z) (reason : bytes) (fs : list (bytes * bytes)) : bytes :=
  lit "HTTP/1.1 " ++ fmt_d status ++ [32] ++ reason ++ CRLF ++ concat (map print_header fs) ++ CRLF.

Definition error_fields (status : Z) (keep_alive : bool) : list (bytes * bytes) :=
  [(lit "Content-Type", lit "text/html");
   (lit "Content-Length", fmt_d (zlen (error_page status)));
   (lit "Connection", conn_token keep_alive)].

(** What fits in [room] of a head and, after it, a body: all, the head alone, or nothing. *)
Definition fitting (room : Z) (head body : bytes) : bytes :=
  if zlen head + zlen body <=? room then head ++ body
  else if zlen head <=? room then head else [].

(** ** Lemmas *)

(** Replace the lengths of literals by numbers. *)
Ltac lit_len :=
  repeat match goal with
    | |- context [length (lit ?s)] =>
        let n := eval vm_compute in (length (lit s)) in change (length (lit s)) with n
    | |- context [length (litq ?s)] =>
        let n := eval vm_compute in (length (litq s)) in change (length (litq s)) with n
    | |- context [length [?x]] => change (length [x]) with 1%nat
    | |- context [length CRLF] => change (length CRLF) with 2%nat
    end.

Lemma fmt_d_length_int (z : Z) : INT_MIN <= z <= INT_MAX -> 1 <= zlen (fmt_d z) <= 21.
Proof.
  intros Hz. unfold fmt_d. pose proof (fmt_u_nonempty z). pose proof (fmt_u_nonempty (- z)).
  unfold INT_MIN, INT_MAX in Hz. destruct (z <? 0) eqn:E; bprop.
  - pose proof (fmt_u_length_u64 (- z) ltac:(lia)). simpl. lia.
  - pose proof (fmt_u_length_u64 z ltac:(lia)). destruct (fmt_u z); [done | simpl in *; lia].
Qed.

Lemma status_reason_length (status : Z) : 2 <= zlen (status_reason status) <= 21.
Proof. unfold status_reason. repeat case_goal; vm_compute; split; discriminate. Qed.

Lemma error_page_length (status : Z) :
  INT_MIN <= status <= INT_MAX -> 500 <= zlen (error_page status) < 1000.
Proof.
  intros H. pose proof (fmt_d_length_int status H). pose proof (status_reason_length status).
  unfold error_page. rewrite !length_app. lit_len. lia.
Qed.

Lemma error_head_length (status : Z) (ka : bool) :
  INT_MIN <= status <= INT_MAX ->
  80 <= zlen (print_response_head status (status_reason status) (error_fields status ka)) < 300.
Proof.
  intros H. pose proof (fmt_d_length_int status H). pose proof (status_reason_length status).
  pose proof (error_page_length status H).
  pose proof (fmt_d_length_int (zlen (error_page status)) ltac:(unfold INT_MIN, INT_MAX; lia)).
  unfold print_response_head, error_fields, print_header. cbn [map concat fst snd].
  rewrite !length_app. lit_len. unfold conn_token. destruct ka; lit_len; cbn [length]; lia.
Qed.

Lemma formatted_fits (size : Z) (s : bytes) : zlen s < size -> formatted size s = Ret s.
Proof. intros. unfold formatted. by replace (zlen s <? size) with true by lia. Qed.

Section writer_lemmas.
Context {B : Type} {W : WriteBuffer B} {OK : WriteBufferOK B W}.

Lemma put_formatted_Ret (size : Z) (s : bytes) (b : B) :
  wb_ok b -> zlen s < size ->
  exists b', put_formatted size s b = Ret b' /\ wb_ok b' /\
    if zlen s <=? wb_writable b
    then wb_contents b' = wb_contents b ++ s /\ wb_writable b' = wb_writable b - zlen s
    else b' = b.
Proof.
  intros Hok Hs. unfold put_formatted. destruct (Z.leb_spec (zlen s) (wb_writable b)) as [E | E].
  - destruct (Z.ltb_spec 0 (zlen s)) as [P | P]; cbn [andb].
    + rewrite formatted_fits, bind_Ret by done. destruct (wb_put_Ret b s Hok E) as (b' & ? & ? & ? & ?). eauto.
    + assert (s = []) as -> by (destruct s; simpl in P; [done | lia]).
      exists b. rewrite app_nil_r. simpl. split_and!; auto. lia.
  - rewrite andb_false_r. eauto.
Qed.

(** A head then a body that is at least as long, each copied only if it fits. *)
Lemma put_head_body (hs bs : Z) (head body : bytes) (b : B) :
  wb_ok b -> zlen head < hs -> zlen body < bs -> zlen head <= zlen body ->
  exists b', (b1 ← put_formatted hs head b; put_formatted bs body b1) = Ret b' /\ wb_ok b' /\
    wb_contents b' = wb_contents b ++ fitting (wb_writable b) head body.
Proof.
  intros Hok Hh Hb Hle. unfold fitting.
  destruct (put_formatted_Ret hs head b Hok Hh) as (b1 & -> & Hok1 & H1). rewrite bind_Ret.
  destruct (put_formatted_Ret bs body b1 Hok1 Hb) as (b2 & -> & Hok2 & H2).
  exists b2. split_and!; auto. destruct (Z.leb_spec (zlen head) (wb_writable b)) as [E | E].
  - destruct H1 as [Hc1 Hw1]. rewrite Hw1 in H2.
    destruct (Z.leb_spec (zlen body) (wb_writable b - zlen head)) as [F | F].
    + destruct H2 as [-> _]. rewrite Hc1.
      replace (zlen head + zlen body <=? wb_writable b) with true by lia. by rewrite app_assoc.
    + subst b2. replace (zlen head + zlen body <=? wb_writable b) with false by lia. done.
  - subst b1. replace (zlen body <=? wb_writable b) with false in H2 by lia. subst b2.
    replace (zlen head + zlen body <=? wb_writable b) with false by lia. by rewrite app_nil_r.
Qed.

Lemma response_write_error_Ret (b : B) (status : Z) (ka : bool) :
  wb_ok b -> INT_MIN <= status <= INT_MAX ->
  exists b', response_write_error b status ka = Ret b' /\ wb_ok b' /\
    wb_contents b' = wb_contents b ++
      fitting (wb_writable b)
        (print_response_head status (status_reason status) (error_fields status ka))
        (error_page status).
Proof.
  intros Hok Hs. pose proof (error_page_length status Hs). pose proof (error_head_length status ka Hs).
  edestruct (put_head_body 512 2048 (print_response_head status (status_reason status) (error_fields status ka))
    (error_page status) b Hok) as (b' & Hr & Hok' & Hc); [lia.. |].
  exists b'. split_and!; auto. rewrite <- Hr. unfold response_write_error. cbn zeta. do 2 f_equal.
  unfold print_response_head, error_fields, print_header. cbn [map concat fst snd].
  rewrite <- !app_assoc. reflexivity.
Qed.

Lemma response_write_simple_Ret (b : B) (status : Z) (reason ctype body : bytes) (ka : bool) :
  wb_ok b -> INT_MIN <= status <= INT_MAX -> 0 < zlen body < 2 ^ 63 ->
  zlen reason + zlen ctype <= 256 ->
  let head := print_response_head status reason
    [(lit "Content-Type", ctype); (lit "Content-Length", fmt_u (zlen body)); (lit "Connection", conn_token ka)] in
  zlen head + zlen body <= wb_writable b ->
  exists b', response_write_simple b status (Some reason) (Some ctype) (Some body) ka = Ret b' /\
    wb_ok b' /\ wb_contents b' = wb_contents b ++ head ++ body.
Proof.
  intros Hok Hs Hb Hl head Hroom.
  assert (zlen head < 512) as Hh.
  { pose proof (fmt_d_length_int status Hs). pose proof (fmt_u_length_u64 (zlen body) ltac:(lia)).
    unfold head, print_response_head, print_header. cbn [map concat fst snd].
    rewrite !length_app. lit_len. unfold conn_token. destruct ka; lit_len; cbn [length]; lia. }
  destruct (put_formatted_Ret 512 head b Hok Hh) as (b1 & Hr1 & Hok1 & H1).
  replace (zlen head <=? wb_writable b) with true in H1 by lia. destruct H1 as [Hc1 Hw1].
  destruct (wb_put_Ret b1 body Hok1) as (b2 & Hr2 & Hok2 & Hc2 & _); [lia |].
  exists b2. split_and!; auto; [| by rewrite Hc2, Hc1, app_assoc].
  transitivity (b1' ← put_formatted 512 head b;
    if (0 <? zlen body) && (zlen body <=? wb_writable b1') then wb_put b1' body else Ret b1').
  - unfold response_write_simple. cbn zeta. cbn [default from_option]. do 2 f_equal.
    unfold head, print_response_head, print_header. cbn [map concat fst snd].
    rewrite <- !app_assoc. reflexivity.
  - rewrite Hr1, bind_Ret. replace (0 <? zlen body) with true by lia.
    by replace (zlen body <=? wb_writable b1) with true by lia.
Qed.

(** With or without room, the writer returns a well-formed buffer. *)
Lemma response_write_simple_ok (b : B) (status : Z) (reason ctype : bytes) (body : bytes) (ka : bool) :
  wb_ok b -> INT_MIN <= status <= INT_MAX -> zlen body < 2 ^ 63 -> zlen reason + zlen ctype <= 256 ->
  exists b', response_write_simple b status (Some reason) (Some ctype) (Some body) ka = Ret b' /\ wb_ok b'.
Proof.
  intros Hok Hs Hb Hl. unfold response_write_simple. cbn zeta. cbn [default from_option id].
  match goal with |- context [put_formatted 512 ?x b] => destruct (put_formatted_Ret 512 x b Hok) as (b1 & -> & Hok1 & _) end.
  { pose proof (fmt_d_length_int status Hs). pose proof (fmt_u_length_u64 (zlen body) ltac:(lia)).
    rewrite !length_app. lit_len. unfold conn_token. destruct ka; lit_len; cbn [length]; lia. }
  rewrite bind_Ret. destruct (_ && _) eqn:E; bprop; [| eauto].
  destruct (wb_put_Ret b1 body Hok1) as (b2 & ? & ? & _); [done | eauto].
Qed.

End writer_lemmas.

Lemma put_compacting_Ret (b : np_buf_t) (bs : bytes) :
  buf_ok b -> zlen bs <= b_cap b - zlen (contents b) ->
  exists b', put_compacting b bs = Ret b' /\ buf_ok b' /\ contents b' = contents b ++ bs /\ b_cap b' = b_cap b.
Proof.
  intros Hok Hl. unfold put_compacting. destruct (Z.ltb_spec (buf_writable b) (zlen bs)).
  - destruct (buf_compact_Ret b Hok) as (b1 & -> & Hok1 & Hc1 & _ & Hcap & Hw). rewrite bind_Ret.
    destruct (buf_append_Ret b1 bs Hok1) as (b2 & -> & Hok2 & Hc2 & Hcap2 & _); [lia |].
    exists b2. split_and!; auto; congruence.
  - rewrite bind_Ret. destruct (buf_append_Ret b bs Hok) as (b2 & -> & Hok2 & Hc2 & Hcap2 & _); [lia |].
    exists b2. split_and!; auto.
Qed.

Lemma serialize_headers_Ret (hs : list (http_header_t str_t)) (fs : list (bytes * bytes)) (b : np_buf_t) :
  Forall2 header_repr hs fs -> buf_ok b ->
  zlen (concat (map print_header fs)) <= b_cap b - zlen (contents b) ->
  exists b', serialize_headers b hs = Ret b' /\ buf_ok b' /\
    contents b' = contents b ++ concat (map print_header fs) /\ b_cap b' = b_cap b.
Proof.
  intros Hf. revert b. induction Hf as [| h f hs fs [Hn Hv] _ IH]; intros b Hok Hl.
  - exists b. by rewrite app_nil_r.
  - cbn [map concat] in *. rewrite length_app in Hl. cbn [serialize_headers].
    apply load_n_Ret in Hn as ->. rewrite bind_Ret. apply load_n_Ret in Hv as ->. rewrite bind_Ret.
    change (f.1 ++ [58; 32] ++ f.2 ++ CRLF) with (print_header f).
    destruct (put_compacting_Ret b (print_header f) Hok) as (b1 & -> & Hok1 & Hc1 & Hcap1); [lia |].
    rewrite bind_Ret. destruct (IH b1 Hok1) as (b2 & -> & Hok2 & Hc2 & Hcap2).
    { rewrite Hc1, Hcap1, length_app. lia. }
    exists b2. split_and!; auto; [| congruence]. by rewrite Hc2, Hc1, app_assoc.
Qed.

Lemma serialize_body_Ret (s : str_t) (body : bytes) (b : np_buf_t) :
  str_repr s body -> buf_ok b -> zlen body <= b_cap b - zlen (contents b) ->
  exists b', (if 0 <? len s then
      b1 ← (if buf_writable b <? len s then buf_compact b else Ret b);
      if len s <=? buf_writable b1 then
        x ← load_n (ptr s) (len s); b2 ← buf_append b1 x; Ret (NP_OK, b2)
      else Ret (NP_OK, b1)
    else Ret (NP_OK, b)) = Ret (NP_OK, b') /\ buf_ok b' /\ contents b' = contents b ++ body.
Proof.
  intros Hs Hok Hl. rewrite (str_repr_len _ _ Hs) in *. destruct (Z.ltb_spec 0 (zlen body)) as [P | P].
  - assert (exists b1, (if buf_writable b <? zlen body then buf_compact b else Ret b) = Ret b1 /\
      buf_ok b1 /\ contents b1 = contents b /\ zlen body <= buf_writable b1) as (b1 & -> & Hok1 & Hc1 & Hw1).
    { destruct (Z.ltb_spec (buf_writable b) (zlen body)); [| by exists b].
      destruct (buf_compact_Ret b Hok) as (b1 & ? & ? & ? & _ & ? & ?). exists b1. split_and!; auto. lia. }
    rewrite bind_Ret. replace (zlen body <=? buf_writable b1) with true by lia.
    pose proof (str_repr_len _ _ Hs) as Hlen. apply load_n_Ret in Hs. rewrite Hlen in Hs.
    rewrite Hs, bind_Ret. destruct (buf_append_Ret b1 body Hok1 Hw1) as (b2 & -> & Hok2 & Hc2 & _).
    exists b2. rewrite bind_Ret. split_and!; auto. congruence.
  - exists b. destruct body; [| simpl in P; lia]. by rewrite app_nil_r.
Qed.

(** ** Properties *)

(** C17 An error response, for every status and every buffer that implements the
    interface: the writer is defined, and appends the head followed by the page
    when both fit.  The head's Content-Length is the page's length, so the
    response is framed correctly.  When only the head fits it is written without
    the page it announces, and when the head does not fit nothing is. *)
Theorem response_write_error_framed {B : Type} {W : WriteBuffer B} {OK : WriteBufferOK B W}
    (b : B) (status : Z) (ka : bool) :
  wb_ok b -> INT_MIN <= status <= INT_MAX ->
  exists b' head, response_write_error b status ka = Ret b' /\ wb_ok b' /\
    head = print_response_head status (status_reason status)
      [(lit "Content-Type", lit "text/html");
       (lit "Content-Length", fmt_d (zlen (error_page status)));
       (lit "Connection", conn_token ka)] /\
    (zlen head + zlen (error_page status) <= wb_writable b ->
     wb_contents b' = wb_contents b ++ head ++ error_page status) /\
    (zlen head <= wb_writable b < zlen head + zlen (error_page status) ->
     wb_contents b' = wb_contents b ++ head) /\
    (wb_writable b < zlen head -> wb_contents b' = wb_contents b).
Proof.
  intros Hok Hs. destruct (response_write_error_Ret b status ka Hok Hs) as (b' & Hr & Hok' & Hc).
  eexists b', _. split_and!; [exact Hr | exact Hok' | reflexivity | | |];
    fold (error_fields status ka); rewrite Hc; unfold fitting; intros Hw.
  - case_goal; [done | lia].
  - case_goal; [lia |]. case_goal; [done | lia].
  - pose proof (error_page_length status Hs). case_goal; [lia |]. case_goal; [lia |]. apply app_nil_r.
Qed.

Lemma response_write_error_framed_witness :
  exists b' head, response_write_error (mk_buf (Some (replicate 1000 0)) 1000 0 0) 404 false = Ret b' /\
    contents b' = head ++ error_page 404.
Proof.
  destruct (response_write_error_framed (mk_buf (Some (replicate 1000 0)) 1000 0 0) 404 false)
    as (b' & head & Hr & _ & Hh & Hc & _).
  - constructor; simpl; [eexists; split; [reflexivity | reflexivity] | lia | lia].
  - unfold INT_MIN, INT_MAX; lia.
  - exists b', head. split; [exact Hr |]. apply Hc. rewrite Hh. vm_compute. discriminate.
Defined.

(** [response_serialize], given room for the whole response after the bytes
    already buffered: the output is the status line, the fields in the order they
    were set, a Connection field, and the body; compaction loses nothing.  The
    fields hold a Content-Length only if the caller set one. *)
Theorem response_serialize_correct (r : http_response_t) (b : np_buf_t) (reason body : bytes)
    (fs : list (bytes * bytes)) :
  let fs' := fs ++ [(lit "Connection", conn_token (resp_keep_alive r))] in
  let head := print_response_head (resp_status r) reason fs' in
  buf_ok b -> INT_MIN <= resp_status r <= INT_MAX ->
  reason = default (status_reason (resp_status r)) (resp_reason r) -> zlen reason <= 200 ->
  Forall2 header_repr (resp_headers r) fs -> str_repr (resp_body r) body ->
  zlen head + zlen body <= b_cap b - zlen (contents b) ->
  exists b', response_serialize r b = Ret (NP_OK, b') /\ buf_ok b' /\
    contents b' = contents b ++ head ++ body.
Proof.
  intros fs' head Hok Hst Hre Hrl Hf Hb Hroom.
  set (line := lit "HTTP/1.1 " ++ fmt_d (resp_status r) ++ [32] ++ reason ++ CRLF).
  assert (head = line ++ concat (map print_header fs) ++ conn_header (resp_keep_alive r)) as Hhead.
  { unfold head, fs', print_response_head, line. rewrite map_app, concat_app, <- !app_assoc.
    do 5 f_equal. unfold conn_token, conn_header. by destruct (resp_keep_alive r). }
  rewrite Hhead, !length_app in Hroom.
  unfold response_serialize.
  replace (match resp_reason r with Some t => t | None => status_reason (resp_status r) end) with reason
    by (rewrite Hre; by destruct (resp_reason r)).
  fold line. rewrite formatted_fits, bind_Ret.
  2: { pose proof (fmt_d_length_int _ Hst). unfold line. rewrite !length_app. lit_len. lia. }
  destruct (put_compacting_Ret b line Hok) as (b1 & -> & Hok1 & Hc1 & Hcap1); [lia |]. rewrite bind_Ret.
  destruct (serialize_headers_Ret _ _ b1 Hf Hok1) as (b2 & -> & Hok2 & Hc2 & Hcap2).
  { rewrite Hc1, Hcap1, length_app. lia. }
  rewrite bind_Ret. destruct (put_compacting_Ret b2 (conn_header (resp_keep_alive r)) Hok2) as (b3 & -> & Hok3 & Hc3 & Hcap3).
  { rewrite Hc2, Hc1, Hcap2, Hcap1, !length_app. lia. }
  rewrite bind_Ret. destruct (serialize_body_Ret (resp_body r) body b3 Hb Hok3) as (b4 & Hr & Hok4 & Hc4).
  { rewrite Hc3, Hc2, Hc1, Hcap3, Hcap2, Hcap1, !length_app. lia. }
  exists b4. split_and!; auto. by rewrite Hc4, Hc3, Hc2, Hc1, Hhead, <- !app_assoc.
Qed.

Lemma response_serialize_correct_witness :
  exists b', response_serialize
    (mk_resp 200 None [mk_header (STR (lit "A")) (STR (lit "b"))] (STR (lit "hi")) false false)
    (mk_buf (Some (replicate 100 0)) 100 3 5) = Ret (NP_OK, b') /\ zlen (contents b') = 48.
Proof.
  destruct (response_serialize_correct
    (mk_resp 200 None [mk_header (STR (lit "A")) (STR (lit "b"))] (STR (lit "hi")) false false)
    (mk_buf (Some (replicate 100 0)) 100 3 5) (lit "OK") (lit "hi") [(lit "A", lit "b")])
    as (b' & Hr & _ & Hc).
  - constructor; simpl; [eexists; split; [reflexivity | reflexivity] | lia | lia].
  - unfold INT_MIN, INT_MAX; simpl; lia.
  - reflexivity.
  - vm_compute. discriminate.
  - apply Forall2_cons. split; [split; apply str_repr_STR | constructor].
  - apply str_repr_STR.
  - vm_compute. discriminate.
  - exists b'. split; [exact Hr |]. rewrite Hc. reflexivity.
Defined.
