(* ===== verification/Config.v ===== *)
(** * Configuration: src/core/config.{h,c}

    The configuration record, and [config_load]: the defaults, the line reader
    ([fgets] with its 512-byte line), comments, sections and key/value lines,
    and the assignment each known key makes.  The server table is a list whose
    length is [server_count]; the code's fixed arrays appear as the limits the
    code tests.  The file is its bytes, [None] when it cannot be opened.

    POSIX regular expressions are a parameter ([Regex]): [regcomp] compiles a
    pattern, [regexec] matches a string.  Log messages are not modelled. *)

From Stdlib Require Import ZArith Lia String.
From stdpp Require Import base numbers option list.
From S2P Require Import Prelude CLib.

(** ** Data *)

Definition CONFIG_MAX_BACKENDS : Z := 64.
Definition CONFIG_MAX_STR : Z := 512.
Definition CONFIG_MAX_MODULES : Z := 16.
Definition CONFIG_MAX_REWRITES : Z := 32.
Definition CONFIG_MAX_TRY_FILES : Z := 8.
Definition CONFIG_MAX_SERVERS : Z := 16.

Inductive balance_mode_t : Type := BALANCE_ROUND_ROBIN | BALANCE_LEAST_CONN.

Inductive log_level_t : Type := LOG_ERROR | LOG_WARN | LOG_INFO | LOG_DEBUG.

#[global] Instance balance_mode_eq_dec : EqDecision balance_mode_t.
Proof. solve_decision. Defined.

(** The regular expressions of <regex.h>.  A match is the list of the start and
    end offsets of the whole match and of the groups, -1 for a group that took no
    part. *)
Class Regex : Type := {
  regex_t : Type;
  regcomp : bytes -> option regex_t;
  regexec : regex_t -> bytes -> option (list (Z * Z))
}.

(** Patterns without special characters, anchored at both ends: an instance for
    examples. *)
Definition literal_regex : Regex := {|
  regex_t := bytes;
  regcomp := Some;
  regexec := fun re s => if eqb_bytes re s then Some [(0, zlen s)] else None
|}.

Record backend_entry_t : Type := mk_backend {
  be_host : bytes;
  be_port : Z;
  be_enabled : bool
}.

Record tls_config_t : Type := mk_tls {
  tls_enabled : bool;
  tls_listen_port : Z;
  tls_cert_file : bytes;
  tls_key_file : bytes
}.

Record proxy_config_t : Type := mk_proxy {
  px_enabled : bool;
  px_mode : balance_mode_t;
  px_connect_timeout : Z;
  px_upstream_timeout : Z;
  px_keepalive_conns : Z;
  px_backends : list backend_entry_t
}.

Record cache_config_t : Type := mk_cache {
  ca_enabled : bool;
  ca_root : bytes;
  ca_default_ttl : Z;
  ca_max_entries : Z
}.

Record gzip_config_t : Type := mk_gzip {
  gz_enabled : bool;
  gz_min_length : Z
}.

Record rate_limit_config_t : Type := mk_rate_limit {
  rl_enabled : bool;
  rl_requests_per_second : Z;
  rl_burst : Z
}.

Record log_config_t : Type := mk_log {
  lg_level : log_level_t;
  lg_access_log : bytes;
  lg_error_log : bytes
}.

Record metrics_config_t : Type := mk_metrics {
  mt_enabled : bool;
  mt_path : bytes
}.

Record process_config_t : Type := mk_process {
  pr_daemon : bool;
  pr_pid_file : bytes
}.

Section config.
Context {RX : Regex}.

Record rewrite_rule_t : Type := mk_rule {
  rw_pattern : bytes;
  rw_replacement : bytes;
  rw_re : regex_t
}.

Record np_server_config_t : Type := mk_server {
  listen_port : Z;
  server_name : bytes;
  static_root : bytes;
  modules : list bytes;
  rewrite_rules : list rewrite_rule_t;
  try_files : list bytes;
  tls : tls_config_t;
  proxy : proxy_config_t;
  cache : cache_config_t;
  gzip : gzip_config_t
}.

Record np_config_t : Type := mk_config {
  listen_addr : bytes;
  worker_processes : Z;
  backlog : Z;
  max_connections : Z;
  keepalive_timeout : Z;
  read_timeout : Z;
  write_timeout : Z;
  servers : list np_server_config_t;
  rate_limit : rate_limit_config_t;
  log : log_config_t;
  metrics : metrics_config_t;
  process : process_config_t;
  shutdown_timeout : Z
}.

(** *** Assignments to one member *)

Definition set_tls_enabled (v : bool) (x : tls_config_t) : tls_config_t :=
  mk_tls v (tls_listen_port x) (tls_cert_file x) (tls_key_file x).
Definition set_tls_listen_port (v : Z) (x : tls_config_t) : tls_config_t :=
  mk_tls (tls_enabled x) v (tls_cert_file x) (tls_key_file x).
Definition set_tls_cert_file (v : bytes) (x : tls_config_t) : tls_config_t :=
  mk_tls (tls_enabled x) (tls_listen_port x) v (tls_key_file x).
Definition set_tls_key_file (v : bytes) (x : tls_config_t) : tls_config_t :=
  mk_tls (tls_enabled x) (tls_listen_port x) (tls_cert_file x) v.

Definition set_px_enabled (v : bool) (x : proxy_config_t) : proxy_config_t :=
  mk_proxy v (px_mode x) (px_connect_timeout x) (px_upstream_timeout x) (px_keepalive_conns x)
    (px_backends x).
Definition set_px_mode (v : balance_mode_t) (x : proxy_config_t) : proxy_config_t :=
  mk_proxy (px_enabled x) v (px_connect_timeout x) (px_upstream_timeout x) (px_keepalive_conns x)
    (px_backends x).
Definition set_px_connect_timeout (v : Z) (x : proxy_config_t) : proxy_config_t :=
  mk_proxy (px_enabled x) (px_mode x) v (px_upstream_timeout x) (px_keepalive_conns x)
    (px_backends x).
Definition set_px_upstream_timeout (v : Z) (x : proxy_config_t) : proxy_config_t :=
  mk_proxy (px_enabled x) (px_mode x) (px_connect_timeout x) v (px_keepalive_conns x)
    (px_backends x).
Definition set_px_keepalive_conns (v : Z) (x : proxy_config_t) : proxy_config_t :=
  mk_proxy (px_enabled x) (px_mode x) (px_connect_timeout x) (px_upstream_timeout x) v
    (px_backends x).
Definition set_px_backends (v : list backend_entry_t) (x : proxy_config_t) : proxy_config_t :=
  mk_proxy (px_enabled x) (px_mode x) (px_connect_timeout x) (px_upstream_timeout x)
    (px_keepalive_conns x) v.

Definition set_ca_enabled (v : bool) (x : cache_config_t) : cache_config_t :=
  mk_cache v (ca_root x) (ca_default_ttl x) (ca_max_entries x).
Definition set_ca_root (v : bytes) (x : cache_config_t) : cache_config_t :=
  mk_cache (ca_enabled x) v (ca_default_ttl x) (ca_max_entries x).
Definition set_ca_default_ttl (v : Z) (x : cache_config_t) : cache_config_t :=
  mk_cache (ca_enabled x) (ca_root x) v (ca_max_entries x).
Definition set_ca_max_entries (v : Z) (x : cache_config_t) : cache_config_t :=
  mk_cache (ca_enabled x) (ca_root x) (ca_default_ttl x) v.

Definition set_gz_enabled (v : bool) (x : gzip_config_t) : gzip_config_t :=
  mk_gzip v (gz_min_length x).
Definition set_gz_min_length (v : Z) (x : gzip_config_t) : gzip_config_t :=
  mk_gzip (gz_enabled x) v.

Definition set_rl_enabled (v : bool) (x : rate_limit_config_t) : rate_limit_config_t :=
  mk_rate_limit v (rl_requests_per_second x) (rl_burst x).
Definition set_rl_requests_per_second (v : Z) (x : rate_limit_config_t) : rate_limit_config_t :=
  mk_rate_limit (rl_enabled x) v (rl_burst x).
Definition set_rl_burst (v : Z) (x : rate_limit_config_t) : rate_limit_config_t :=
  mk_rate_limit (rl_enabled x) (rl_requests_per_second x) v.

Definition set_lg_level (v : log_level_t) (x : log_config_t) : log_config_t :=
  mk_log v (lg_access_log x) (lg_error_log x).
Definition set_lg_access_log (v : bytes) (x : log_config_t) : log_config_t :=
  mk_log (lg_level x) v (lg_error_log x).
Definition set_lg_error_log (v : bytes) (x : log_config_t) : log_config_t :=
  mk_log (lg_level x) (lg_access_log x) v.

Definition set_mt_enabled (v : bool) (x : metrics_config_t) : metrics_config_t :=
  mk_metrics v (mt_path x).
Definition set_mt_path (v : bytes) (x : metrics_config_t) : metrics_config_t :=
  mk_metrics (mt_enabled x) v.

Definition set_pr_daemon (v : bool) (x : process_config_t) : process_config_t :=
  mk_process v (pr_pid_file x).
Definition set_pr_pid_file (v : bytes) (x : process_config_t) : process_config_t :=
  mk_process (pr_daemon x) v.

Definition set_listen_port (v : Z) (x : np_server_config_t) : np_server_config_t :=
  mk_server v (server_name x) (static_root x) (modules x) (rewrite_rules x) (try_files x) (tls x)
    (proxy x) (cache x) (gzip x).
Definition set_server_name (v : bytes) (x : np_server_config_t) : np_server_config_t :=
  mk_server (listen_port x) v (static_root x) (modules x) (rewrite_rules x) (try_files x) (tls x)
    (proxy x) (cache x) (gzip x).
Definition set_static_root (v : bytes) (x : np_server_config_t) : np_server_config_t :=
  mk_server (listen_port x) (server_name x) v (modules x) (rewrite_rules x) (try_files x) (tls x)
    (proxy x) (cache x) (gzip x).
Definition set_modules (v : list bytes) (x : np_server_config_t) : np_server_config_t :=
  mk_server (listen_port x) (server_name x) (static_root x) v (rewrite_rules x) (try_files x)
    (tls x) (proxy x) (cache x) (gzip x).
Definition set_rewrite_rules (v : list rewrite_rule_t) (x : np_server_config_t) : np_server_config_t :=
  mk_server (listen_port x) (server_name x) (static_root x) (modules x) v (try_files x) (tls x)
    (proxy x) (cache x) (gzip x).
Definition set_try_files (v : list bytes) (x : np_server_config_t) : np_server_config_t :=
  mk_server (listen_port x) (server_name x) (static_root x) (modules x) (rewrite_rules x) v
    (tls x) (proxy x) (cache x) (gzip x).
Definition set_tls (v : tls_config_t) (x : np_server_config_t) : np_server_config_t :=
  mk_server (listen_port x) (server_name x) (static_root x) (modules x) (rewrite_rules x)
    (try_files x) v (proxy x) (cache x) (gzip x).
Definition set_proxy (v : proxy_config_t) (x : np_server_config_t) : np_server_config_t :=
  mk_server (listen_port x) (server_name x) (static_root x) (modules x) (rewrite_rules x)
    (try_files x) (tls x) v (cache x) (gzip x).
Definition set_cache (v : cache_config_t) (x : np_server_config_t) : np_server_config_t :=
  mk_server (listen_port x) (server_name x) (static_root x) (modules x) (rewrite_rules x)
    (try_files x) (tls x) (proxy x) v (gzip x).
Definition set_gzip (v : gzip_config_t) (x : np_server_config_t) : np_server_config_t :=
  mk_server (listen_port x) (server_name x) (static_root x) (modules x) (rewrite_rules x)
    (try_files x) (tls x) (proxy x) (cache x) v.

Definition set_listen_addr (v : bytes) (x : np_config_t) : np_config_t :=
  mk_config v (worker_processes x) (backlog x) (max_connections x) (keepalive_timeout x)
    (read_timeout x) (write_timeout x) (servers x) (rate_limit x) (log x) (metrics x) (process x)
    (shutdown_timeout x).
Definition set_worker_processes (v : Z) (x : np_config_t) : np_config_t :=
  mk_config (listen_addr x) v (backlog x) (max_connections x) (keepalive_timeout x)
    (read_timeout x) (write_timeout x) (servers x) (rate_limit x) (log x) (metrics x) (process x)
    (shutdown_timeout x).
Definition set_backlog (v : Z) (x : np_config_t) : np_config_t :=
  mk_config (listen_addr x) (worker_processes x) v (max_connections x) (keepalive_timeout x)
    (read_timeout x) (write_timeout x) (servers x) (rate_limit x) (log x) (metrics x) (process x)
    (shutdown_timeout x).
Definition set_max_connections (v : Z) (x : np_config_t) : np_config_t :=
  mk_config (listen_addr x) (worker_processes x) (backlog x) v (keepalive_timeout x)
    (read_timeout x) (write_timeout x) (servers x) (rate_limit x) (log x) (metrics x) (process x)
    (shutdown_timeout x).
Definition set_keepalive_timeout (v : Z) (x : np_config_t) : np_config_t :=
  mk_config (listen_addr x) (worker_processes x) (backlog x) (max_connections x) v
    (read_timeout x) (write_timeout x) (servers x) (rate_limit x) (log x) (metrics x) (process x)
    (shutdown_timeout x).
Definition set_read_timeout (v : Z) (x : np_config_t) : np_config_t :=
  mk_config (listen_addr x) (worker_processes x) (backlog x) (max_connections x)
    (keepalive_timeout x) v (write_timeout x) (servers x) (rate_limit x) (log x) (metrics x)
    (process x) (shutdown_timeout x).
Definition set_write_timeout (v : Z) (x : np_config_t) : np_config_t :=
  mk_config (listen_addr x) (worker_processes x) (backlog x) (max_connections x)
    (keepalive_timeout x) (read_timeout x) v (servers x) (rate_limit x) (log x) (metrics x)
    (process x) (shutdown_timeout x).
Definition set_servers (v : list np_server_config_t) (x : np_config_t) : np_config_t :=
  mk_config (listen_addr x) (worker_processes x) (backlog x) (max_connections x)
    (keepalive_timeout x) (read_timeout x) (write_timeout x) v (rate_limit x) (log x) (metrics x)
    (process x) (shutdown_timeout x).
Definition set_rate_limit (v : rate_limit_config_t) (x : np_config_t) : np_config_t :=
  mk_config (listen_addr x) (worker_processes x) (backlog x) (max_connections x)
    (keepalive_timeout x) (read_timeout x) (write_timeout x) (servers x) v (log x) (metrics x)
    (process x) (shutdown_timeout x).
Definition set_log (v : log_config_t) (x : np_config_t) : np_config_t :=
  mk_config (listen_addr x) (worker_processes x) (backlog x) (max_connections x)
    (keepalive_timeout x) (read_timeout x) (write_timeout x) (servers x) (rate_limit x) v
    (metrics x) (process x) (shutdown_timeout x).
Definition set_metrics (v : metrics_config_t) (x : np_config_t) : np_config_t :=
  mk_config (listen_addr x) (worker_processes x) (backlog x) (max_connections x)
    (keepalive_timeout x) (read_timeout x) (write_timeout x) (servers x) (rate_limit x) (log x) v
    (process x) (shutdown_timeout x).
Definition set_process (v : process_config_t) (x : np_config_t) : np_config_t :=
  mk_config (listen_addr x) (worker_processes x) (backlog x) (max_connections x)
    (keepalive_timeout x) (read_timeout x) (write_timeout x) (servers x) (rate_limit x) (log x)
    (metrics x) v (shutdown_timeout x).
Definition set_shutdown_timeout (v : Z) (x : np_config_t) : np_config_t :=
  mk_config (listen_addr x) (worker_processes x) (backlog x) (max_connections x)
    (keepalive_timeout x) (read_timeout x) (write_timeout x) (servers x) (rate_limit x) (log x)
    (metrics x) (process x) v.
(** ** Defaults *)

(** A server slot as [memset] leaves it. *)
Definition server_zero : np_server_config_t :=
  mk_server 0 [] [] [] [] [] (mk_tls false 0 [] []) (mk_proxy false BALANCE_ROUND_ROBIN 0 0 0 [])
    (mk_cache false [] 0 0) (mk_gzip false 0).

Definition server_default : np_server_config_t :=
  mk_server 8080 [] (strncpy (lit "./www") 511) [] [] []
    (mk_tls false 8443 [] []) (mk_proxy false BALANCE_ROUND_ROBIN 5 30 16 [])
    (mk_cache false [] 0 0) (mk_gzip false 0).

(** A further server block gets only a port and a root. *)
Definition server_next : np_server_config_t :=
  set_static_root (strncpy (lit "./www") 511) (set_listen_port 8080 server_zero).

Definition config_default : np_config_t :=
  mk_config (strncpy (lit "0.0.0.0") 63) 4 4096 100000 75 60 60 [server_default]
    (mk_rate_limit false 1000 200)
    (mk_log LOG_INFO (strncpy (lit "./logs/access.log") 511) (strncpy (lit "./logs/error.log") 511))
    (mk_metrics false (strncpy (lit "/metrics") 511))
    (mk_process false []) 0.

(** ** Lines *)

(** Trailing white space. *)
Definition rstrip (s : bytes) : bytes := rev (drop_while isspace (rev s)).

Definition strip_comment (line : bytes) : bytes :=
  rstrip (match strchr line 35 with Some i => take i line | None => line end).

Definition parse_bool (v : bytes) : bool :=
  strcmp_eq v (lit "true") || strcmp_eq v (lit "1") || strcmp_eq v (lit "yes").

(** The calls of [fgets(line, sizeof(line), fp)] until the end of the file: each
    reads through the next newline, or [size - 1] bytes; [cur] holds the bytes of
    the current call, [room] how many more it may take. *)
Fixpoint fgets_lines (size : nat) (cur : bytes) (room : nat) (s : bytes) : list bytes :=
  match s with
  | [] => match cur with [] => [] | _ => [cur] end
  | c :: s' =>
      if (c =? LF) || (room <=? 1)%nat
      then (cur ++ [c]) :: fgets_lines size [] (size - 1) s'
      else fgets_lines size (cur ++ [c]) (room - 1) s'
  end.

(** The tokens of [strtok(val, " ")]. *)
Fixpoint strtok_loop (sep : Z) (cur : bytes) (s : bytes) : list bytes :=
  match s with
  | [] => match cur with [] => [] | _ => [cur] end
  | c :: s' =>
      if c =? sep then match cur with [] => strtok_loop sep [] s' | _ => cur :: strtok_loop sep [] s' end
      else strtok_loop sep (cur ++ [c]) s'
  end.

Definition strtok (val : bytes) : list bytes := strtok_loop 32 [] val.

(** ** Keys *)

(** The assignment through [srv], the last server of the table. *)
Definition on_server (f : np_server_config_t -> np_server_config_t) (c : np_config_t) : np_config_t :=
  set_servers (alter f (length (servers c) - 1)%nat (servers c)) c.

Definition on_tls (f : tls_config_t -> tls_config_t) : np_config_t -> np_config_t :=
  on_server (fun s => set_tls (f (tls s)) s).
Definition on_proxy (f : proxy_config_t -> proxy_config_t) : np_config_t -> np_config_t :=
  on_server (fun s => set_proxy (f (proxy s)) s).
Definition on_cache (f : cache_config_t -> cache_config_t) : np_config_t -> np_config_t :=
  on_server (fun s => set_cache (f (cache s)) s).
Definition on_gzip (f : gzip_config_t -> gzip_config_t) : np_config_t -> np_config_t :=
  on_server (fun s => set_gzip (f (gzip s)) s).

Definition add_module (val : bytes) (s : np_server_config_t) : np_server_config_t :=
  set_modules (modules s ++ [strncpy val (CONFIG_MAX_STR - 1)]) s.

Definition add_rewrite (val : bytes) (s : np_server_config_t) : np_server_config_t :=
  match strchr val 32 with
  | Some i =>
      let pattern := strncpy (take i val) (CONFIG_MAX_STR - 1) in
      let replacement := strncpy (drop_while isspace (drop (S i) val)) (CONFIG_MAX_STR - 1) in
      match regcomp pattern with
      | Some re => set_rewrite_rules (rewrite_rules s ++ [mk_rule pattern replacement re]) s
      | None => s
      end
  | None => s
  end.

Definition add_try_files (val : bytes) (s : np_server_config_t) : np_server_config_t :=
  set_try_files
    (try_files s ++
     map (fun t => strncpy t (CONFIG_MAX_STR - 1))
       (take (Z.to_nat (CONFIG_MAX_TRY_FILES - zlen (try_files s))) (strtok val))) s.

Definition server_key (key val : bytes) (c : np_config_t) : np_config_t :=
  let key_is k := strcmp_eq key (lit k) in
  if key_is "listen_port"%string then on_server (set_listen_port (u16 (atoi val))) c
  else if key_is "server_name"%string then on_server (set_server_name (strncpy val 511)) c
  else if key_is "listen_addr"%string then set_listen_addr (strncpy val 63) c
  else if key_is "worker_processes"%string then set_worker_processes (atoi val) c
  else if key_is "backlog"%string then set_backlog (atoi val) c
  else if key_is "max_connections"%string then set_max_connections (atoi val) c
  else if key_is "keepalive_timeout"%string then set_keepalive_timeout (atoi val) c
  else if key_is "read_timeout"%string then set_read_timeout (atoi val) c
  else if key_is "write_timeout"%string then set_write_timeout (atoi val) c
  else if key_is "static_root"%string then on_server (set_static_root (strncpy val 511)) c
  else if key_is "load_module"%string then
    on_server (fun s => if zlen (modules s) <? CONFIG_MAX_MODULES then add_module val s else s) c
  else if key_is "rewrite"%string then
    on_server (fun s => if zlen (rewrite_rules s) <? CONFIG_MAX_REWRITES then add_rewrite val s else s) c
  else if key_is "try_files"%string then on_server (add_try_files val) c
  else c.

Definition tls_key (key val : bytes) (c : np_config_t) : np_config_t :=
  let key_is k := strcmp_eq key (lit k) in
  if key_is "enabled"%string then on_tls (set_tls_enabled (parse_bool val)) c
  else if key_is "listen_port"%string then on_tls (set_tls_listen_port (u16 (atoi val))) c
  else if key_is "cert_file"%string then on_tls (set_tls_cert_file (strncpy val 511)) c
  else if key_is "key_file"%string then on_tls (set_tls_key_file (strncpy val 511)) c
  else c.

Definition proxy_key (key val : bytes) (c : np_config_t) : np_config_t :=
  let key_is k := strcmp_eq key (lit k) in
  if key_is "enabled"%string then on_proxy (set_px_enabled (parse_bool val)) c
  else if key_is "mode"%string then
    on_proxy (set_px_mode
      (if strcmp_eq val (lit "least_conn") then BALANCE_LEAST_CONN else BALANCE_ROUND_ROBIN)) c
  else if key_is "connect_timeout"%string then on_proxy (set_px_connect_timeout (atoi val)) c
  else if key_is "upstream_timeout"%string then on_proxy (set_px_upstream_timeout (atoi val)) c
  else if key_is "keepalive_conns"%string then on_proxy (set_px_keepalive_conns (atoi val)) c
  else c.

(** A backend, [host:port] split at the last colon, port 80 without one. *)
Definition parse_backend (val : bytes) : backend_entry_t :=
  match strrchr val 58 with
  | Some i => mk_backend (take (Nat.min i 255) val) (u16 (atoi (drop (S i) val))) true
  | None => mk_backend (strncpy val 255) 80 true
  end.

Definition upstream_key (key val : bytes) (c : np_config_t) : np_config_t :=
  if strcmp_eq key (lit "backend") then
    on_proxy (fun p =>
      if zlen (px_backends p) <? CONFIG_MAX_BACKENDS
      then set_px_backends (px_backends p ++ [parse_backend val]) p else p) c
  else c.

Definition rate_limit_key (key val : bytes) (c : np_config_t) : np_config_t :=
  let key_is k := strcmp_eq key (lit k) in
  if key_is "enabled"%string then set_rate_limit (set_rl_enabled (parse_bool val) (rate_limit c)) c
  else if key_is "requests_per_second"%string then
    set_rate_limit (set_rl_requests_per_second (atoi val) (rate_limit c)) c
  else if key_is "burst"%string then set_rate_limit (set_rl_burst (atoi val) (rate_limit c)) c
  else c.

Definition log_key (key val : bytes) (c : np_config_t) : np_config_t :=
  let key_is k := strcmp_eq key (lit k) in
  let level l := set_log (set_lg_level l (log c)) c in
  if key_is "level"%string then
    if strcmp_eq val (lit "debug") then level LOG_DEBUG
    else if strcmp_eq val (lit "info") then level LOG_INFO
    else if strcmp_eq val (lit "warn") then level LOG_WARN
    else if strcmp_eq val (lit "error") then level LOG_ERROR
    else c
  else if key_is "access_log"%string then set_log (set_lg_access_log (strncpy val 511) (log c)) c
  else if key_is "error_log"%string then set_log (set_lg_error_log (strncpy val 511) (log c)) c
  else c.

Definition metrics_key (key val : bytes) (c : np_config_t) : np_config_t :=
  let key_is k := strcmp_eq key (lit k) in
  if key_is "enabled"%string then set_metrics (set_mt_enabled (parse_bool val) (metrics c)) c
  else if key_is "path"%string then set_metrics (set_mt_path (strncpy val 511) (metrics c)) c
  else c.

Definition cache_key (key val : bytes) (c : np_config_t) : np_config_t :=
  let key_is k := strcmp_eq key (lit k) in
  if key_is "enabled"%string then on_cache (set_ca_enabled (parse_bool val)) c
  else if key_is "root"%string then on_cache (set_ca_root (strncpy val 511)) c
  else if key_is "default_ttl"%string then on_cache (set_ca_default_ttl (atoi val)) c
  else if key_is "max_entries"%string then on_cache (set_ca_max_entries (atoi val)) c
  else c.

Definition process_key (key val : bytes) (c : np_config_t) : np_config_t :=
  let key_is k := strcmp_eq key (lit k) in
  if key_is "daemon"%string then set_process (set_pr_daemon (parse_bool val) (process c)) c
  else if key_is "pid_file"%string then set_process (set_pr_pid_file (strncpy val 511) (process c)) c
  else c.

Definition gzip_key (key val : bytes) (c : np_config_t) : np_config_t :=
  let key_is k := strcmp_eq key (lit k) in
  if key_is "enabled"%string then on_gzip (set_gz_enabled (parse_bool val)) c
  else if key_is "min_length"%string then on_gzip (set_gz_min_length (atoi val)) c
  else c.

(** The chain of tests on the section name, then the separate test for the only
    key of [global]. *)
Definition config_key (section key val : bytes) (c : np_config_t) : np_config_t :=
  let in_section s := strcmp_eq section (lit s) in
  let c :=
    if in_section "server"%string then server_key key val c
    else if in_section "tls"%string then tls_key key val c
    else if in_section "proxy"%string then proxy_key key val c
    else if in_section "upstream"%string then upstream_key key val c
    else if in_section "rate_limit"%string then rate_limit_key key val c
    else if in_section "log"%string then log_key key val c
    else if in_section "metrics"%string then metrics_key key val c
    else if in_section "cache"%string then cache_key key val c
    else if in_section "process"%string then process_key key val c
    else if in_section "gzip"%string then gzip_key key val c
    else c in
  if in_section "global"%string && strcmp_eq key (lit "shutdown_timeout")
  then set_shutdown_timeout (atoi val) c else c.

(** ** The loader *)

Record load_state : Type := mk_load {
  ld_cfg : np_config_t;
  ld_section : bytes;
  ld_seen_server : bool
}.

Definition load_init : load_state := mk_load config_default [] false.

(** A section line: [p] is the text after the opening bracket, [i] the position
    of the closing one. *)
Definition config_section (st : load_state) (p : bytes) (i : nat) : load_state :=
  let is_server := strncmp_eq p (lit "server") 6 in
  let c := ld_cfg st in
  let c :=
    if is_server && ld_seen_server st && (zlen (servers c) <? CONFIG_MAX_SERVERS)
    then set_servers (servers c ++ [server_next]) c else c in
  mk_load c (take (Nat.min i 63) p) (is_server || ld_seen_server st).

(** One turn of the loop, on the string [fgets] stored. *)
Definition config_line (st : load_state) (line : bytes) : load_state :=
  match drop_while isspace (strip_comment (cstr line)) with
  | [] => st
  | c :: p =>
      if c =? 91 then
        match strchr p 93 with Some i => config_section st p i | None => st end
      else
        match strchr (c :: p) 61 with
        | None => st
        | Some i =>
            let key := rstrip (take i (c :: p)) in
            let val := rstrip (drop_while isspace (drop (S i) (c :: p))) in
            mk_load (config_key (ld_section st) key val (ld_cfg st)) (ld_section st) (ld_seen_server st)
        end
  end.

Definition config_lines (st : load_state) (lines : list bytes) : load_state :=
  fold_left config_line lines st.

Definition config_load (file : option bytes) : np_status_t * np_config_t :=
  match file with
  | None => (NP_ERR_CONFIG, config_default)
  | Some text => (NP_OK, ld_cfg (config_lines load_init (fgets_lines 512 [] 511 text)))
  end.

(** ** Destruction *)

(** The inner loop of [config_destroy] for server [s]: it tests [s], not [i],
    against the number of rules, and [rules] has 32 elements. *)
Fixpoint destroy_rules (fuel : nat) (s count i : Z) : cres unit :=
  match fuel with
  | O => Stuck
  | S f =>
      if s <? count
      then if i <? CONFIG_MAX_REWRITES then destroy_rules f s count (i + 1) else Stuck
      else Ret tt
  end.

Fixpoint destroy_servers (s : Z) (l : list np_server_config_t) : cres unit :=
  match l with
  | [] => Ret tt
  | srv :: l' =>
      _ ← destroy_rules 34 s (zlen (rewrite_rules srv)) 0;
      destroy_servers (s + 1) l'
  end.

Definition config_destroy (c : np_config_t) : cres unit := destroy_servers 0 (servers c).

End config.

(** ** Well-formed configurations *)

Definition str_ok (size : Z) (s : bytes) : Prop := no_nul s /\ zlen s < size.
Definition int_ok (z : Z) : Prop := INT_MIN <= z <= INT_MAX.
Definition port_ok (z : Z) : Prop := 0 <= z < 2 ^ 16.

Record backend_ok (b : backend_entry_t) : Prop := {
  bk_host : str_ok 256 (be_host b);
  bk_port : port_ok (be_port b)
}.

Record tls_ok (t : tls_config_t) : Prop := {
  to_port : port_ok (tls_listen_port t);
  to_cert : str_ok CONFIG_MAX_STR (tls_cert_file t);
  to_key : str_ok CONFIG_MAX_STR (tls_key_file t)
}.

Record proxy_ok (p : proxy_config_t) : Prop := {
  po_connect : int_ok (px_connect_timeout p);
  po_timeout : int_ok (px_upstream_timeout p);
  po_keepalive : int_ok (px_keepalive_conns p);
  po_backends : Forall backend_ok (px_backends p);
  po_count : zlen (px_backends p) <= CONFIG_MAX_BACKENDS
}.

Record cache_ok (k : cache_config_t) : Prop := {
  co_root : str_ok CONFIG_MAX_STR (ca_root k);
  co_ttl : int_ok (ca_default_ttl k);
  co_max : int_ok (ca_max_entries k)
}.

(** The invariant of a record given in full. *)
Ltac concrete_ok :=
  repeat match goal with
    | |- _ /\ _ => split
    | |- Forall _ _ => constructor
    | |- port_ok _ => split
    | |- int_ok _ => split
    | |- str_ok _ _ => split
    | |- no_nul _ => unfold no_nul
    | |- (_ < _)%Z => reflexivity
    | |- (_ <= _)%Z => discriminate
    | |- _ <> _ => discriminate
    | |- _ => constructor
    end.

Section ok.
Context {RX : Regex}.

(** A rule is stored only with the program its own pattern compiles to. *)
Record rule_ok (r : rewrite_rule_t) : Prop := {
  ro_pattern : str_ok CONFIG_MAX_STR (rw_pattern r);
  ro_replacement : str_ok CONFIG_MAX_STR (rw_replacement r);
  ro_re : regcomp (rw_pattern r) = Some (rw_re r)
}.

Record server_ok (s : np_server_config_t) : Prop := {
  so_port : port_ok (listen_port s);
  so_name : str_ok CONFIG_MAX_STR (server_name s);
  so_root : str_ok CONFIG_MAX_STR (static_root s);
  so_modules : Forall (str_ok CONFIG_MAX_STR) (modules s);
  so_modules_count : zlen (modules s) <= CONFIG_MAX_MODULES;
  so_rules : Forall rule_ok (rewrite_rules s);
  so_rules_count : zlen (rewrite_rules s) <= CONFIG_MAX_REWRITES;
  so_try : Forall (str_ok CONFIG_MAX_STR) (try_files s);
  so_try_count : zlen (try_files s) <= CONFIG_MAX_TRY_FILES;
  so_tls : tls_ok (tls s);
  so_proxy : proxy_ok (proxy s);
  so_cache : cache_ok (cache s);
  so_gzip : int_ok (gz_min_length (gzip s))
}.

Record config_ok (c : np_config_t) : Prop := {
  cf_addr : str_ok 64 (listen_addr c);
  cf_ints : Forall int_ok
    [worker_processes c; backlog c; max_connections c; keepalive_timeout c; read_timeout c;
     write_timeout c; shutdown_timeout c; rl_requests_per_second (rate_limit c); rl_burst (rate_limit c)];
  cf_servers : Forall server_ok (servers c);
  cf_count : 1 <= zlen (servers c) <= CONFIG_MAX_SERVERS;
  cf_log : str_ok CONFIG_MAX_STR (lg_access_log (log c)) /\ str_ok CONFIG_MAX_STR (lg_error_log (log c));
  cf_metrics : str_ok CONFIG_MAX_STR (mt_path (metrics c));
  cf_process : str_ok CONFIG_MAX_STR (pr_pid_file (process c))
}.

(** ** Lemmas on the invariant *)

Lemma to_i32_ok (z : Z) : int_ok (to_i32 z).
Proof.
  unfold to_i32, int_ok, INT_MIN, INT_MAX. pose proof (Z.mod_pos_bound z (2 ^ 32) ltac:(lia)).
  cbn zeta. destruct (Z.ltb_spec (z mod 2 ^ 32) (2 ^ 31)); lia.
Qed.

Lemma atoi_ok (s : bytes) : int_ok (atoi s).
Proof. apply to_i32_ok. Qed.

Lemma u16_ok (z : Z) : port_ok (u16 z).
Proof. apply u16_range. Qed.

Lemma strncpy_ok (size n : Z) (s : bytes) : no_nul s -> 0 <= n < size -> str_ok size (strncpy s n).
Proof. intros. split; [by apply no_nul_take |]. unfold strncpy. rewrite length_take. lia. Qed.

Lemma no_nul_drop_while (P : Z -> bool) (s : bytes) : no_nul s -> no_nul (drop_while P s).
Proof. intros. rewrite drop_while_zsub. by apply no_nul_drop. Qed.

Lemma no_nul_rstrip (s : bytes) : no_nul s -> no_nul (rstrip s).
Proof. intros H. apply Forall_rev, no_nul_drop_while. by apply Forall_rev. Qed.

#[local] Hint Resolve atoi_ok u16_ok strncpy_ok no_nul_drop_while no_nul_rstrip : nproxy.

(** Show the invariant of an updated record member by member. *)
Ltac member_ok :=
  intros; repeat match goal with H : config_ok _ |- _ => destruct H | H : server_ok _ |- _ => destruct H
    | H : tls_ok _ |- _ => destruct H | H : proxy_ok _ |- _ => destruct H | H : cache_ok _ |- _ => destruct H
    | H : Forall int_ok (_ :: _) |- _ => inversion H; subst; clear H | H : Forall int_ok [] |- _ => clear H end;
  constructor; cbn; repeat (apply Forall_cons; split); unfold CONFIG_MAX_STR, port_ok, int_ok in *;
  try done; try (apply strncpy_ok; [done | lia]); try apply atoi_ok; try apply u16_ok; auto with nproxy; try lia.

Lemma on_server_ok (f : np_server_config_t -> np_server_config_t) (c : np_config_t) :
  (forall s, server_ok s -> server_ok (f s)) -> config_ok c -> config_ok (on_server f c).
Proof.
  intros Hf Hc. pose proof (cf_servers _ Hc). pose proof (cf_count _ Hc). member_ok.
  - apply Forall_alter; auto.
  - by rewrite length_alter.
Qed.

Lemma on_proxy_ok (f : proxy_config_t -> proxy_config_t) (c : np_config_t) :
  (forall p, proxy_ok p -> proxy_ok (f p)) -> config_ok c -> config_ok (on_proxy f c).
Proof. intros Hf. apply on_server_ok. intros s Hs. pose proof (Hf _ (so_proxy _ Hs)). member_ok. Qed.

Lemma on_tls_ok (f : tls_config_t -> tls_config_t) (c : np_config_t) :
  (forall p, tls_ok p -> tls_ok (f p)) -> config_ok c -> config_ok (on_tls f c).
Proof. intros Hf. apply on_server_ok. intros s Hs. pose proof (Hf _ (so_tls _ Hs)). member_ok. Qed.

Lemma on_cache_ok (f : cache_config_t -> cache_config_t) (c : np_config_t) :
  (forall p, cache_ok p -> cache_ok (f p)) -> config_ok c -> config_ok (on_cache f c).
Proof. intros Hf. apply on_server_ok. intros s Hs. pose proof (Hf _ (so_cache _ Hs)). member_ok. Qed.

Lemma strtok_loop_no_nul (sep : Z) (s cur : bytes) :
  no_nul cur -> no_nul s -> Forall no_nul (strtok_loop sep cur s).
Proof.
  revert cur; induction s as [| c s IH]; intros cur Hcur Hs; simpl.
  - destruct cur; auto.
  - inversion Hs; subst. case_goal.
    + destruct cur; [apply IH; auto; constructor |]. constructor; [done |]. apply IH; [constructor | done].
    + apply IH; [| done]. apply Forall_app. auto.
Qed.

Lemma add_module_ok (val : bytes) (s : np_server_config_t) :
  no_nul val -> server_ok s -> zlen (modules s) < CONFIG_MAX_MODULES -> server_ok (add_module val s).
Proof.
  intros Hv Hs Hl. member_ok.
  - apply Forall_app; split; [done |]. repeat constructor; [by apply no_nul_take | apply (strncpy_ok 512); [done | lia]].
  - rewrite length_app. simpl. lia.
Qed.

Lemma add_rewrite_ok (val : bytes) (s : np_server_config_t) :
  no_nul val -> server_ok s -> zlen (rewrite_rules s) < CONFIG_MAX_REWRITES -> server_ok (add_rewrite val s).
Proof.
  intros Hv Hs Hl. unfold add_rewrite. destruct (strchr val 32) as [i |]; [| done].
  destruct (regcomp _) as [re |] eqn:Hre; [| done]. member_ok.
  - apply Forall_app; split; [done |]. apply Forall_cons; split; [| constructor]. constructor; cbn.
    + apply strncpy_ok; [by apply no_nul_take | unfold CONFIG_MAX_STR; lia].
    + apply strncpy_ok; [by apply no_nul_drop_while, no_nul_drop | unfold CONFIG_MAX_STR; lia].
    + done.
  - rewrite length_app. simpl. lia.
Qed.

Lemma add_try_files_ok (val : bytes) (s : np_server_config_t) :
  no_nul val -> server_ok s -> server_ok (add_try_files val s).
Proof.
  intros Hv Hs. assert (Forall no_nul (strtok val)) by (by apply strtok_loop_no_nul; [constructor |]). member_ok.
  - apply Forall_app; split; [done |]. apply Forall_map, Forall_take.
    eapply Forall_impl; [eassumption |]. intros t Ht. apply strncpy_ok; [done | lia].
  - rewrite length_app, length_map, length_take. lia.
Qed.

Lemma parse_backend_ok (val : bytes) : no_nul val -> backend_ok (parse_backend val).
Proof.
  intros Hv. unfold parse_backend. destruct (strrchr val 58) as [i |]; constructor; cbn.
  - split; [by apply no_nul_take |]. rewrite length_take. lia.
  - apply u16_ok.
  - apply strncpy_ok; [done | lia].
  - unfold port_ok. lia.
Qed.

#[local] Hint Resolve on_server_ok on_proxy_ok on_tls_ok on_cache_ok : nproxy.

Lemma server_key_ok (key val : bytes) (c : np_config_t) :
  no_nul val -> config_ok c -> config_ok (server_key key val c).
Proof.
  intros Hv Hc. unfold server_key. cbn zeta.
  repeat case_goal; try (apply on_server_ok; [| done]); try done; try solve [member_ok].
  - intros s Hs. case_goal; [by apply add_module_ok | done].
  - intros s Hs. case_goal; [by apply add_rewrite_ok | done].
  - intros s Hs. by apply add_try_files_ok.
Qed.

Lemma upstream_key_ok (key val : bytes) (c : np_config_t) :
  no_nul val -> config_ok c -> config_ok (upstream_key key val c).
Proof.
  intros Hv Hc. unfold upstream_key. case_goal; [| done]. apply on_proxy_ok; [| done].
  intros p Hp. case_goal; [| done]. pose proof (parse_backend_ok val Hv). member_ok.
  - apply Forall_app; auto.
  - rewrite length_app. simpl. lia.
Qed.

(** The remaining sections only assign members. *)
Ltac key_ok :=
  intros; cbn zeta; repeat case_goal;
  try (first [apply on_tls_ok | apply on_proxy_ok | apply on_cache_ok | apply on_server_ok]; [| done]);
  try done; solve [member_ok].

Lemma tls_key_ok (key val : bytes) (c : np_config_t) :
  no_nul val -> config_ok c -> config_ok (tls_key key val c).
Proof. unfold tls_key. key_ok. Qed.

Lemma proxy_key_ok (key val : bytes) (c : np_config_t) :
  no_nul val -> config_ok c -> config_ok (proxy_key key val c).
Proof. unfold proxy_key. key_ok. Qed.

Lemma rate_limit_key_ok (key val : bytes) (c : np_config_t) :
  no_nul val -> config_ok c -> config_ok (rate_limit_key key val c).
Proof. unfold rate_limit_key. key_ok. Qed.

Lemma log_key_ok (key val : bytes) (c : np_config_t) :
  no_nul val -> config_ok c -> config_ok (log_key key val c).
Proof.
  intros Hv [? ? ? ? [Ha He] ? ?]. unfold log_key. cbn zeta.
  repeat case_goal; constructor; cbn; auto; split; auto; apply strncpy_ok; (done || unfold CONFIG_MAX_STR; lia).
Qed.

Lemma metrics_key_ok (key val : bytes) (c : np_config_t) :
  no_nul val -> config_ok c -> config_ok (metrics_key key val c).
Proof. unfold metrics_key. key_ok. Qed.

Lemma cache_key_ok (key val : bytes) (c : np_config_t) :
  no_nul val -> config_ok c -> config_ok (cache_key key val c).
Proof. unfold cache_key. key_ok. Qed.

Lemma process_key_ok (key val : bytes) (c : np_config_t) :
  no_nul val -> config_ok c -> config_ok (process_key key val c).
Proof. unfold process_key. key_ok. Qed.

Lemma gzip_key_ok (key val : bytes) (c : np_config_t) :
  no_nul val -> config_ok c -> config_ok (gzip_key key val c).
Proof. unfold gzip_key. key_ok. Qed.

Lemma config_key_ok (section key val : bytes) (c : np_config_t) :
  no_nul val -> config_ok c -> config_ok (config_key section key val c).
Proof.
  intros Hv Hc. unfold config_key. cbn zeta.
  match goal with |- config_ok (if _ then set_shutdown_timeout _ ?x else _) => assert (config_ok x) as H end.
  - repeat (case_goal; [eauto using server_key_ok, tls_key_ok, proxy_key_ok, upstream_key_ok,
      rate_limit_key_ok, log_key_ok, metrics_key_ok, cache_key_ok, process_key_ok, gzip_key_ok |]). done.
  - destruct (strcmp_eq section (lit "global") && _); [| done]. member_ok.
Qed.

Lemma server_next_ok : server_ok server_next.
Proof. concrete_ok. Qed.

Lemma config_default_ok : config_ok config_default.
Proof. concrete_ok. Qed.

Lemma config_section_ok (st : load_state) (p : bytes) (i : nat) :
  config_ok (ld_cfg st) -> config_ok (ld_cfg (config_section st p i)).
Proof.
  intros Hc. unfold config_section. cbn zeta. cbn [ld_cfg].
  match goal with |- config_ok (if ?b then _ else _) => destruct b eqn:E end; [| done]. bprop.
  member_ok.
  - apply Forall_app; auto using server_next_ok.
  - rewrite length_app. simpl. lia.
Qed.

Lemma config_line_ok (st : load_state) (line : bytes) :
  config_ok (ld_cfg st) -> config_ok (ld_cfg (config_line st line)).
Proof.
  intros Hc. unfold config_line.
  destruct (drop_while isspace (strip_comment (cstr line))) as [| c p] eqn:E; [done |].
  assert (no_nul (c :: p)) as Hn.
  { rewrite <- E. apply no_nul_drop_while. unfold strip_comment. apply no_nul_rstrip.
    destruct (strchr _ _); auto with nproxy. }
  destruct (c =? 91); [destruct (strchr p 93); [by apply config_section_ok | done] |].
  destruct (strchr (c :: p) 61) as [i |]; [| done]. cbn [ld_cfg].
  apply config_key_ok; [| done]. by apply no_nul_rstrip, no_nul_drop_while, no_nul_drop.
Qed.

Lemma config_lines_ok (lines : list bytes) (st : load_state) :
  config_ok (ld_cfg st) -> config_ok (ld_cfg (config_lines st lines)).
Proof.
  revert st; induction lines as [| l ls IH]; intros st Hc; [done |]. apply IH. by apply config_line_ok.
Qed.

End ok.

(** ** Lemmas on destruction *)

Section destroy.
Context {RX : Regex}.

Lemma destroy_rules_stuck (fuel : nat) (s count i : Z) :
  s < count -> destroy_rules fuel s count i = Stuck.
Proof.
  intros H. revert i; induction fuel as [| f IH]; intros i; simpl; [done |].
  replace (s <? count) with true by lia. case_goal; auto.
Qed.

Lemma destroy_servers_spec (l : list np_server_config_t) (s : Z) :
  destroy_servers s l = Ret tt <->
  forall j srv, l !! j = Some srv -> zlen (rewrite_rules srv) <= s + Z.of_nat j.
Proof.
  revert s; induction l as [| srv l IH]; intros s; cbn [destroy_servers]; [by split |].
  destruct (Z.ltb_spec s (zlen (rewrite_rules srv))) as [E | E].
  - rewrite destroy_rules_stuck by done. split; [discriminate |]. intros H.
    specialize (H 0%nat srv eq_refl). lia.
  - assert (destroy_rules 34 s (zlen (rewrite_rules srv)) 0 = Ret tt) as ->.
    { simpl. by replace (s <? zlen (rewrite_rules srv)) with false by lia. }
    rewrite bind_Ret, IH. split; intros H.
    + intros [| j] srv' Hj; [injection Hj as ->; lia |]. specialize (H j srv' Hj). lia.
    + intros j srv' Hj. specialize (H (S j) srv' Hj). lia.
Qed.

End destroy.

(** ** Properties *)

(** C10 Loading any file, whatever its bytes, gives a well-formed configuration:
    between 1 and 16 servers, every table within its limit, every string
    terminated inside its array, ports of 16 bits, every stored rewrite rule with
    the program its pattern compiles to.  A file that cannot be opened is a
    configuration error and leaves the defaults. *)
Theorem config_load_ok {RX : Regex} (file : option bytes) :
  config_ok (config_load file).2 /\
  (config_load file).1 = match file with Some _ => NP_OK | None => NP_ERR_CONFIG end.
Proof.
  destruct file as [text |]; cbn; (split; [| done]).
  - apply config_lines_ok, config_default_ok.
  - apply config_default_ok.
Qed.

(** [config_destroy] is defined only when server number [j] has at most [j]
    rewrite rules: its inner loop compares the server index with the number of
    rules, so a rule in the first server sends it past the end of the rule
    array. *)
Theorem config_destroy_defined {RX : Regex} (c : np_config_t) :
  config_destroy c = Ret tt <->
  forall j srv, servers c !! j = Some srv -> zlen (rewrite_rules srv) <= Z.of_nat j.
Proof. apply destroy_servers_spec. Qed.
