(* ===== verification/ConfigText.v ===== *)
(** * Configuration files as text: round trips for src/core/config.c

    A configuration is printed as a list of section lines and key lines;
    [config_load] reads the printed text back as the same list, line by line.
    The last theorem reads back a printed list of backends. *)

From Stdlib Require Import ZArith Lia String.
From stdpp Require Import base numbers option list.
From S2P Require Import Prelude CLib Config.

(** ** Items *)

Inductive item : Type :=
| Sect (name : bytes)
| Entry (key val : bytes).

Definition print_item (i : item) : bytes :=
  match i with
  | Sect name => [91] ++ name ++ [93] ++ [LF]
  | Entry key val => key ++ lit " = " ++ val ++ [LF]
  end.

Definition print_config (its : list item) : bytes := concat (map print_item its).

(** Bytes that do not end the line or start a comment. *)
Definition plain (s : bytes) : Prop := Forall (fun b => b <> 0 /\ b <> LF /\ b <> 35) s.

Definition trimmed_text (s : bytes) : Prop := rstrip s = s /\ drop_while isspace s = s.

Record item_ok (i : item) : Prop := {
  it_length : zlen (print_item i) <= 511;
  it_text : match i with
    | Sect name => plain name /\ Forall (fun b => b <> 93) name /\ zlen name <= 63
    | Entry key val =>
        plain key /\ plain val /\ trimmed_text key /\ trimmed_text val /\ key <> [] /\ val <> [] /\
        Forall (fun b => b <> 61) key /\ head key <> Some 91
    end
}.

Section text.
Context {RX : Regex}.

(** What an item means. *)
Definition apply_item (st : load_state) (i : item) : load_state :=
  match i with
  | Sect name =>
      let is_server := is_prefix (lit "server") name in
      let c := ld_cfg st in
      mk_load
        (if is_server && ld_seen_server st && (zlen (servers c) <? CONFIG_MAX_SERVERS)
         then set_servers (servers c ++ [server_next]) c else c)
        name (is_server || ld_seen_server st)
  | Entry key val =>
      mk_load (config_key (ld_section st) key val (ld_cfg st)) (ld_section st) (ld_seen_server st)
  end.

(** ** Lemmas on lines *)

Lemma fgets_line (size room : nat) (l cur rest : bytes) :
  Forall (fun b => b <> LF) l -> (length l < room)%nat ->
  fgets_lines size cur room (l ++ LF :: rest) = (cur ++ l ++ [LF]) :: fgets_lines size [] (size - 1) rest.
Proof.
  revert cur room; induction l as [| c l IH]; intros cur room Hl Hr.
  - done.
  - inversion Hl; subst. cbn [app fgets_lines].
    replace (c =? LF) with false by (symmetry; by apply Z.eqb_neq).
    replace (room <=? 1)%nat with false by (symmetry; apply Nat.leb_gt; cbn [length] in Hr; lia). cbn [orb].
    rewrite IH by (auto; cbn [length] in Hr; lia). by rewrite <- app_assoc.
Qed.

Lemma drop_while_head_false {A} (P : A -> bool) (x : A) (l : list A) :
  P x = false -> drop_while P (x :: l) = x :: l.
Proof. simpl. by intros ->. Qed.

(** The last byte of a trimmed text is not a space. *)
Lemma rstrip_app_trimmed (a s : bytes) : rstrip s = s -> s <> [] -> rstrip (a ++ s) = a ++ s.
Proof.
  unfold rstrip. intros Hs Hne. rewrite rev_app_distr.
  destruct (rev s) as [| x t] eqn:E; [apply (f_equal (@rev Z)) in E; rewrite rev_involutive in E; done |].
  assert (isspace x = false) as Hx.
  { destruct (isspace x) eqn:Hx; [| done]. simpl in Hs. rewrite Hx in Hs.
    apply (f_equal (@rev Z)) in Hs. rewrite rev_involutive, E in Hs.
    pose proof (drop_while_length isspace t) as Hl. rewrite Hs in Hl. simpl in Hl. lia. }
  simpl. rewrite Hx. simpl. rewrite rev_app_distr, rev_involutive, <- app_assoc.
  f_equal. apply (f_equal (@rev Z)) in E. rewrite rev_involutive in E. done.
Qed.

Lemma rstrip_snoc_space (s : bytes) (c : Z) : isspace c = true -> rstrip (s ++ [c]) = rstrip s.
Proof. intros Hc. unfold rstrip. rewrite rev_app_distr. simpl. by rewrite Hc. Qed.

Lemma rstrip_snoc (s : bytes) (c : Z) : isspace c = false -> rstrip (s ++ [c]) = s ++ [c].
Proof. intros Hc. apply rstrip_app_trimmed; [| done]. unfold rstrip. simpl. by rewrite Hc. Qed.

Lemma plain_no_nul (s : bytes) : plain s -> no_nul s.
Proof. intros H. eapply Forall_impl; [exact H |]. intros b Hb. apply Hb. Qed.

Lemma plain_line (s : bytes) : plain s -> strip_comment (cstr (s ++ [LF])) = rstrip s.
Proof.
  intros H. rewrite cstr_id.
  2: { apply Forall_app; split; [by apply plain_no_nul | repeat constructor; done]. }
  unfold strip_comment, strchr. rewrite (proj2 (index_of_None (Z.eqb 35) (s ++ [LF]))); [by apply rstrip_snoc_space |].
  apply Forall_app; split; [| by repeat constructor].
  eapply Forall_impl; [exact H |]. intros b Hb. apply Z.eqb_neq. intros <-. by apply Hb.
Qed.

Lemma strchr_first (a b : bytes) (c : Z) :
  Forall (fun x => x <> c) a -> strchr (a ++ c :: b) c = Some (length a).
Proof.
  intros H. apply index_of_app_free; [| apply Z.eqb_refl].
  eapply Forall_impl; [exact H |]. intros x Hx. apply Z.eqb_neq. congruence.
Qed.

(** The test of the first six bytes, on a name followed by its bracket. *)
Lemma strncmp_prefix (name : bytes) :
  strncmp_eq (name ++ [93]) (lit "server") 6 = is_prefix (lit "server") name.
Proof.
  unfold strncmp_eq. change (take 6 (lit "server")) with (lit "server").
  destruct (is_prefix (lit "server") name) eqn:E.
  - apply is_prefix_spec in E as [t ->]. by apply eqb_bytes_true.
  - apply eqb_bytes_false. intros H. apply not_true_iff_false in E. apply E, is_prefix_spec.
    exists (drop 6 name). destruct (Nat.le_gt_cases 6 (length name)).
    + rewrite take_app_le in H by lia. by rewrite <- H, take_drop.
    + assert (In 93 (lit "server")) as Hin.
      { rewrite <- H. rewrite take_app_ge by lia. apply in_or_app. right.
        replace (6 - length name)%nat with (S (5 - length name)) by lia. by left. }
      vm_compute in Hin. intuition discriminate.
Qed.

Lemma config_line_section (st : load_state) (name : bytes) :
  item_ok (Sect name) -> config_line st (print_item (Sect name)) = apply_item st (Sect name).
Proof.
  intros [_ (Hp & Hb & Hl)]. unfold config_line, print_item.
  rewrite !app_assoc, plain_line.
  2: { repeat (apply Forall_app; split); [| done |]; repeat constructor; done. }
  rewrite rstrip_snoc by done. cbn [app]. rewrite drop_while_head_false by done. cbn match.
  change (91 =? 91) with true. cbn match. rewrite strchr_first by done.
  unfold config_section, apply_item. rewrite strncmp_prefix. f_equal.
  rewrite Nat.min_l by lia. by rewrite take_app_length.
Qed.

Lemma config_line_entry (st : load_state) (key val : bytes) :
  item_ok (Entry key val) -> config_line st (print_item (Entry key val)) = apply_item st (Entry key val).
Proof.
  intros [_ (Hk & Hv & [Hkr Hkl] & [Hvr Hvl] & Hkn & Hvn & Heq & Hh)].
  unfold config_line, print_item. rewrite !app_assoc, plain_line.
  2: { repeat (apply Forall_app; split); [done | repeat constructor; done | done]. }
  rewrite rstrip_app_trimmed by done.
  destruct key as [| k key']; [done |]. set (key := k :: key') in *.
  assert (isspace k = false) as Hks by (apply (drop_while_head _ key); by rewrite Hkl).
  assert (drop_while isspace ((key ++ lit " = ") ++ val) = key ++ 32 :: 61 :: 32 :: val) as ->.
  { rewrite <- app_assoc. unfold key. cbn [app]. by rewrite drop_while_head_false. }
  unfold key at 1. cbn [app]. replace (k =? 91) with false.
  2: { symmetry. apply Z.eqb_neq. intros ->. by apply Hh. }
  change (k :: key' ++ 32 :: 61 :: 32 :: val) with (key ++ 32 :: 61 :: 32 :: val).
  replace (key ++ 32 :: 61 :: 32 :: val) with ((key ++ [32]) ++ 61 :: 32 :: val) by (by rewrite <- app_assoc).
  rewrite strchr_first by (apply Forall_app; split; [done | repeat constructor; done]).
  rewrite take_app_length, rstrip_snoc_space, Hkr by done.
  rewrite (app_assoc _ [61] (32 :: val) : (key ++ [32]) ++ 61 :: 32 :: val = _).
  replace (S (length (key ++ [32]))) with (length ((key ++ [32]) ++ [61])) by (rewrite !length_app; simpl; lia).
  rewrite drop_app_length. cbn [drop_while]. change (isspace 32) with true. cbn match.
  by rewrite Hvl, Hvr.
Qed.

Lemma print_item_line (i : item) :
  item_ok i -> exists l, print_item i = l ++ [LF] /\ Forall (fun b => b <> LF) l.
Proof.
  intros [_ Hi]. assert (forall s, plain s -> Forall (fun b => b <> LF) s) as Hp.
  { intros s Hs. eapply Forall_impl; [exact Hs |]. intros b Hb. apply Hb. }
  destruct i as [name | key val]; simpl in Hi.
  - exists ([91] ++ name ++ [93]). split; [by rewrite <- !app_assoc |].
    repeat (apply Forall_app; split); [repeat constructor; done | apply Hp, Hi | repeat constructor; done].
  - exists (key ++ lit " = " ++ val). split; [by rewrite <- !app_assoc |].
    repeat (apply Forall_app; split); [apply Hp, Hi | repeat constructor; done | apply Hp, Hi].
Qed.

Lemma fgets_print (its : list item) :
  Forall item_ok its -> fgets_lines 512 [] 511 (print_config its) = map print_item its.
Proof.
  unfold print_config. induction 1 as [| i its Hi _ IH]; [done |]. cbn [map concat].
  destruct (print_item_line i Hi) as (l & Hl & Hn). pose proof (it_length i Hi) as Hlen. rewrite Hl in *.
  rewrite <- app_assoc. cbn [app]. rewrite fgets_line; [| done | rewrite length_app in Hlen; simpl in Hlen; lia].
  change (512 - 1)%nat with 511%nat. by rewrite IH.
Qed.

Lemma config_lines_print (its : list item) (st : load_state) :
  Forall item_ok its -> config_lines st (map print_item its) = fold_left apply_item its st.
Proof.
  intros H. revert st. induction H as [| i its Hi _ IH]; intros st; [done |].
  cbn [map fold_left config_lines]. unfold config_lines in *. cbn [fold_left]. rewrite <- IH. f_equal.
  destruct i; [by apply config_line_section | by apply config_line_entry].
Qed.

Lemma config_load_items (its : list item) :
  Forall item_ok its ->
  config_load (Some (print_config its)) = (NP_OK, ld_cfg (fold_left apply_item its load_init)).
Proof. intros H. unfold config_load. by rewrite fgets_print, config_lines_print. Qed.

(** ** Lemmas on backends *)

Definition backend_item (b : bytes * Z) : item := Entry (lit "backend") (b.1 ++ 58 :: fmt_u b.2).
Definition backend_of (b : bytes * Z) : backend_entry_t := mk_backend b.1 b.2 true.

Definition backend_text_ok (b : bytes * Z) : Prop :=
  plain b.1 /\ drop_while isspace b.1 = b.1 /\ zlen b.1 <= 255 /\ port_ok b.2.

Lemma atoi_fmt_u (p : Z) : 0 <= p <= INT_MAX -> atoi (fmt_u p) = p.
Proof.
  unfold INT_MAX. intros Hp. pose proof (strtoll_fmt_d p) as H. unfold fmt_d in H.
  replace (p <? 0) with false in H by lia. unfold atoi. rewrite H by (unfold LLONG_MIN, LLONG_MAX; lia).
  unfold to_i32. cbn [fst]. rewrite Z.mod_small by lia. cbn zeta. by replace (p <? 2 ^ 31) with true by lia.
Qed.

Lemma parse_backend_text (b : bytes * Z) :
  backend_text_ok b -> parse_backend (b.1 ++ 58 :: fmt_u b.2) = backend_of b.
Proof.
  intros (_ & _ & Hl & Hp). unfold parse_backend, strrchr, port_ok in *.
  rewrite last_index_of_app_free; [| done |].
  - rewrite Nat.min_l by lia. rewrite take_app_length. unfold backend_of. f_equal.
    replace (S (length b.1)) with (length (b.1 ++ [58])) by (rewrite length_app; simpl; lia).
    rewrite (app_assoc b.1 [58] (fmt_u b.2) : b.1 ++ 58 :: fmt_u b.2 = _), drop_app_length.
    rewrite atoi_fmt_u by (unfold INT_MAX; lia). by apply Z.mod_small.
  - eapply Forall_impl; [apply fmt_u_digits; lia |]. intros c Hc. unfold isdigit in Hc. bprop. apply Z.eqb_neq. lia.
Qed.

Lemma digits_plain (p : Z) : 0 <= p -> plain (fmt_u p).
Proof.
  intros Hp. eapply Forall_impl; [by apply fmt_u_digits |]. intros c Hc. unfold isdigit in Hc. bprop.
  unfold LF. lia.
Qed.

Lemma digits_rstrip (p : Z) : 0 <= p -> rstrip (fmt_u p) = fmt_u p.
Proof.
  intros Hp. pose proof (fmt_u_digits p Hp) as Hd. pose proof (fmt_u_nonempty p) as Hn.
  destruct (exists_last Hn) as (l & c & E). rewrite E in *. apply rstrip_snoc.
  apply Forall_app in Hd as [_ Hd]. apply isdigit_not_space. by inversion Hd.
Qed.

Lemma backend_item_ok (b : bytes * Z) : backend_text_ok b -> item_ok (backend_item b).
Proof.
  intros (Hpl & Hsp & Hl & Hp). unfold port_ok in Hp. constructor.
  - cbn [backend_item print_item]. rewrite !length_app. cbn [length]. rewrite ?length_app. cbn [length].
    pose proof (fmt_u_length_u64 b.2 ltac:(lia)). change (length (lit "backend")) with 7%nat.
    change (length (lit " = ")) with 3%nat. lia.
  - cbn [backend_item]. split_and!; try done.
    + repeat constructor; done.
    + apply Forall_app; split; [done |]. constructor; [done | apply digits_plain; lia].
    + split.
      * rewrite (app_assoc b.1 [58] (fmt_u b.2) : b.1 ++ 58 :: fmt_u b.2 = _).
        apply rstrip_app_trimmed; [apply digits_rstrip; lia | apply fmt_u_nonempty].
      * destruct b.1 as [| x t]; [done |]. cbn [app drop_while] in *. destruct (isspace x); [| done].
        pose proof (drop_while_length isspace t) as Hlt. rewrite Hsp in Hlt. simpl in Hlt. lia.
    + by destruct b.1.
    + repeat constructor; done.
Qed.

Definition with_backends (l : list backend_entry_t) (s : np_server_config_t) : np_server_config_t :=
  set_proxy (set_px_backends l (proxy s)) s.

Lemma apply_backend (st : load_state) (s : np_server_config_t) (b : bytes * Z) (l : list backend_entry_t) :
  backend_text_ok b -> ld_section st = lit "upstream" -> servers (ld_cfg st) = [with_backends l s] ->
  let st' := apply_item st (backend_item b) in
  ld_section st' = lit "upstream" /\
  servers (ld_cfg st') =
    [with_backends (if zlen l <? CONFIG_MAX_BACKENDS then l ++ [backend_of b] else l) s].
Proof.
  intros Hb Hs Hl. cbn zeta. unfold apply_item, backend_item. cbn [ld_section ld_cfg]. rewrite Hs.
  split; [done |]. rewrite <- (parse_backend_text b Hb). generalize (b.1 ++ 58 :: fmt_u b.2). intros val.
  change (config_key (lit "upstream") (lit "backend") val (ld_cfg st)) with
    (on_proxy (fun p =>
      if zlen (px_backends p) <? CONFIG_MAX_BACKENDS
      then set_px_backends (px_backends p ++ [parse_backend val]) p else p) (ld_cfg st)).
  unfold on_proxy, on_server. cbn [servers set_servers]. rewrite Hl. cbn [length Nat.sub]. cbn.
  f_equal. unfold with_backends. destruct (zlen l <? CONFIG_MAX_BACKENDS); reflexivity.
Qed.

Lemma apply_backends (bs : list (bytes * Z)) (st : load_state) (s : np_server_config_t) (l : list backend_entry_t) :
  Forall backend_text_ok bs -> ld_section st = lit "upstream" -> servers (ld_cfg st) = [with_backends l s] ->
  zlen l <= CONFIG_MAX_BACKENDS ->
  servers (ld_cfg (fold_left apply_item (map backend_item bs) st)) =
    [with_backends (take 64 (l ++ map backend_of bs)) s].
Proof.
  intros Hbs. revert st l. unfold CONFIG_MAX_BACKENDS. induction Hbs as [| b bs Hb _ IH]; intros st l Hsec Hs Hl.
  - cbn. rewrite app_nil_r, take_ge by lia. done.
  - cbn [map fold_left]. destruct (apply_backend st s b l Hb Hsec Hs) as [Hsec' Hs'].
    rewrite (IH _ _ Hsec' Hs'); unfold CONFIG_MAX_BACKENDS.
    + destruct (Z.ltb_spec (zlen l) 64); [by rewrite <- app_assoc |]. by rewrite !take_app_le, !take_ge by lia.
    + destruct (Z.ltb_spec (zlen l) 64); rewrite ?length_app; cbn [length]; lia.
Qed.

End text.

(** ** Properties *)

(** C31 Reading back a printed configuration: for every list of well-formed section
    and key lines, [config_load] of the printed text succeeds and applies exactly
    those items, in order; nothing is lost to comments, spacing, the line buffer
    or the splitting at brackets and equals signs. *)
Theorem config_load_print {RX : Regex} (items : list item) :
  Forall item_ok items ->
  config_load (Some (print_config items)) = (NP_OK, ld_cfg (fold_left apply_item items load_init)).
Proof. apply config_load_items. Qed.

Lemma config_load_print_witness :
  exists RX : Regex, exists c,
    config_load (Some (print_config [Sect (lit "server"); Entry (lit "listen_port") (lit "81")])) = (NP_OK, c) /\
    map listen_port (servers c) = [81].
Proof.
  exists literal_regex. eexists. split.
  - apply config_load_print. repeat (apply Forall_cons; split); [| | constructor]; constructor;
      [discriminate | | discriminate |].
    + split_and!; [| | discriminate]; repeat constructor; discriminate.
    + split_and!; try done; repeat constructor; discriminate.
  - reflexivity.
Defined.

(** Backends: the printed list of hosts and ports is read back as the backend
    table of the server, in order, up to the limit of 64; a host may hold colons,
    since the port follows the last one. *)
Theorem config_backends_roundtrip {RX : Regex} (bs : list (bytes * Z)) :
  Forall backend_text_ok bs ->
  exists c srv,
    config_load (Some (print_config (Sect (lit "upstream") :: map backend_item bs))) = (NP_OK, c) /\
    servers c = [srv] /\
    px_backends (proxy srv) = take 64 (map (fun b => mk_backend b.1 b.2 true) bs).
Proof.
  intros Hbs. rewrite config_load_items.
  - eexists _, _. split; [done |]. split.
    + cbn [fold_left]. rewrite (apply_backends bs _ server_default []); [reflexivity | done | reflexivity | reflexivity |].
      discriminate.
    + done.
  - constructor.
    + constructor; [discriminate |]. split_and!; [| | discriminate]; repeat constructor; discriminate.
    + apply Forall_map. eapply Forall_impl; [exact Hbs |]. apply backend_item_ok.
Qed.

Lemma config_backends_roundtrip_witness :
  exists RX : Regex, exists c srv,
    config_load (Some (print_config (Sect (lit "upstream") :: map backend_item [(lit "10.0.0.1", 9000); (lit "::1", 80)]))) =
      (NP_OK, c) /\ servers c = [srv] /\
    px_backends (proxy srv) = [mk_backend (lit "10.0.0.1") 9000 true; mk_backend (lit "::1") 80 true].
Proof.
  exists literal_regex.
  apply (config_backends_roundtrip [(lit "10.0.0.1", 9000); (lit "::1", 80)]).
  repeat (apply Forall_cons; split); [| | constructor]; (split_and!;
    [repeat constructor; discriminate | reflexivity | discriminate | split; [discriminate | reflexivity]]).
Defined.
