(* ===== verification/Upstream.v ===== *)
(** * Upstream pool and balancers: src/proxy/upstream.{h,c}, src/proxy/balancer.c

    A pool is a table of backends with their counters and idle connections, and
    the position of the round-robin balancer.  A backend pointer is its index in
    the table ([None] for null).  [int] counters are kept with [i32]: an overflow
    is undefined.  [idle_fds] lists the stored descriptors, the last one pushed
    last, so that its length is [idle_count].  Descriptors the code closes are
    returned.  [socket_connect_nonblock] is the argument [connect] of
    [upstream_get_connection]: the new descriptor, or [None]. *)

From Stdlib Require Import ZArith Lia String.
From stdpp Require Import base numbers option list.
From S2P Require Import Prelude CLib Config.

(** ** Data *)

Record upstream_backend_t : Type := mk_ub {
  ub_host : bytes;
  ub_port : Z;
  active_conns : Z;
  total_requests : Z;
  error_count : Z;
  healthy : bool;
  idle_fds : list Z
}.

Record upstream_pool_t : Type := mk_pool {
  up_backends : list upstream_backend_t;
  rr_index : Z;
  up_mode : balance_mode_t;
  up_keepalive_conns : Z
}.

Definition up_count (p : upstream_pool_t) : Z := zlen (up_backends p).

Definition set_backends (l : list upstream_backend_t) (p : upstream_pool_t) : upstream_pool_t :=
  mk_pool l (rr_index p) (up_mode p) (up_keepalive_conns p).

Definition set_rr_index (i : Z) (p : upstream_pool_t) : upstream_pool_t :=
  mk_pool (up_backends p) i (up_mode p) (up_keepalive_conns p).

(** ** Operations *)

Definition backend_create (b : backend_entry_t) : upstream_backend_t :=
  mk_ub (strncpy (be_host b) 255) (be_port b) 0 0 0 true [].

(** [mem]: whether [malloc] succeeds. *)
Definition upstream_pool_create {RX : Regex} (mem : bool) (cfg : np_server_config_t)
    : option upstream_pool_t :=
  if mem then
    Some (mk_pool (map backend_create (px_backends (proxy cfg))) 0 (px_mode (proxy cfg))
            (px_keepalive_conns (proxy cfg)))
  else None.

(** [n] turns of the round-robin loop are left, the next one is turn [i]. *)
Fixpoint round_robin_loop (n : nat) (p : upstream_pool_t) (start i : Z)
    : cres (option nat * upstream_pool_t) :=
  match n with
  | O => Ret (None, p)
  | S n' =>
      s ← i32 (start + i);
      let idx := Z.rem s (up_count p) in
      match up_backends p !! Z.to_nat idx with
      | None => Stuck
      | Some b =>
          if healthy b then Ret (Some (Z.to_nat idx), set_rr_index (Z.rem (idx + 1) (up_count p)) p)
          else round_robin_loop n' p start (i + 1)
      end
  end.

Definition balancer_round_robin (p : upstream_pool_t) : cres (option nat * upstream_pool_t) :=
  round_robin_loop (length (up_backends p)) p (rr_index p) 0.

Fixpoint least_conn_loop (l : list upstream_backend_t) (i : nat) (best : option nat) (min_conns : Z)
    : option nat :=
  match l with
  | [] => best
  | b :: l' =>
      if negb (healthy b) then least_conn_loop l' (S i) best min_conns
      else if active_conns b <? min_conns then least_conn_loop l' (S i) (Some i) (active_conns b)
      else least_conn_loop l' (S i) best min_conns
  end.

Definition balancer_least_conn (p : upstream_pool_t) : option nat :=
  least_conn_loop (up_backends p) 0 None INT_MAX.

(** [be->active_conns++]. *)
Definition select_count (p : upstream_pool_t) (k : nat) : cres (option nat * upstream_pool_t) :=
  match up_backends p !! k with
  | None => Stuck
  | Some b =>
      a ← i32 (active_conns b + 1);
      Ret (Some k, set_backends (<[k := mk_ub (ub_host b) (ub_port b) a (total_requests b)
                                          (error_count b) (healthy b) (idle_fds b)]> (up_backends p)) p)
  end.

Definition upstream_select (p : upstream_pool_t) : cres (option nat * upstream_pool_t) :=
  if up_count p =? 0 then Ret (None, p)
  else
    r ← match up_mode p with
        | BALANCE_LEAST_CONN => Ret (balancer_least_conn p, p)
        | BALANCE_ROUND_ROBIN => balancer_round_robin p
        end;
    let '(be, p) := r in
    match be with
    | None => Ret (None, p)
    | Some k => select_count p k
    end.

Definition backend_release (b : upstream_backend_t) (error : bool) : cres upstream_backend_t :=
  let a := if 0 <? active_conns b then active_conns b - 1 else active_conns b in
  if error then
    e ← i32 (error_count b + 1);
    Ret (mk_ub (ub_host b) (ub_port b) a (total_requests b) e
           (if 5 <? e then false else healthy b) (idle_fds b))
  else
    t ← i32 (total_requests b + 1);
    Ret (mk_ub (ub_host b) (ub_port b) a t (error_count b)
           (if negb (healthy b) && (error_count b =? 0) then true else healthy b) (idle_fds b)).

Definition upstream_release (p : upstream_pool_t) (be : option nat) (error : bool) : cres upstream_pool_t :=
  match be with
  | None => Ret p
  | Some k =>
      match up_backends p !! k with
      | None => Stuck
      | Some b => b' ← backend_release b error; Ret (set_backends (<[k := b']> (up_backends p)) p)
      end
  end.

Definition set_idle (fds : list Z) (b : upstream_backend_t) : upstream_backend_t :=
  mk_ub (ub_host b) (ub_port b) (active_conns b) (total_requests b) (error_count b) (healthy b) fds.

(** The descriptor, -1 when there is neither an idle nor a new one. *)
Definition upstream_get_connection (p : upstream_pool_t) (k : nat) (connect : option Z)
    : cres (Z * upstream_pool_t) :=
  match up_backends p !! k with
  | None => Stuck
  | Some b =>
      match last (idle_fds b) with
      | Some fd =>
          Ret (fd, set_backends (<[k := set_idle (removelast (idle_fds b)) b]> (up_backends p)) p)
      | None => Ret (default (-1) connect, p)
      end
  end.

(** The pool and the descriptors closed. *)
Definition upstream_put_connection (p : upstream_pool_t) (be : option nat) (fd : Z)
    : cres (upstream_pool_t * list Z) :=
  match be with
  | None => Ret (p, [fd])
  | Some k =>
      match up_backends p !! k with
      | None => Stuck
      | Some b =>
          if (zlen (idle_fds b) <? up_keepalive_conns p) && (zlen (idle_fds b) <? 64)
          then Ret (set_backends (<[k := set_idle (idle_fds b ++ [fd]) b]> (up_backends p)) p, [])
          else Ret (p, [fd])
      end
  end.

(** ** Invariant *)

Record backend_inv (b : upstream_backend_t) : Prop := {
  bi_active : 0 <= active_conns b <= INT_MAX;
  bi_errors : 0 <= error_count b <= INT_MAX;
  bi_total : 0 <= total_requests b <= INT_MAX;
  bi_health : healthy b = (error_count b <=? 5);
  bi_idle : zlen (idle_fds b) <= 64
}.

Record pool_inv (p : upstream_pool_t) : Prop := {
  pi_backends : Forall backend_inv (up_backends p);
  pi_count : up_count p <= CONFIG_MAX_BACKENDS;
  pi_rr : 0 <= rr_index p < Z.max 1 (up_count p);
  pi_idle : Forall (fun b => zlen (idle_fds b) <= Z.max 0 (up_keepalive_conns p)) (up_backends p)
}.

(** ** The rotation the round-robin balancer implements *)

(** The indices of the table in the order the loop visits them. *)
Definition visit_order (p : upstream_pool_t) : list nat :=
  map (fun i => ((Z.to_nat (rr_index p) + i) mod length (up_backends p))%nat) (seq 0 (length (up_backends p))).

Definition is_healthy (p : upstream_pool_t) (k : nat) : bool :=
  match up_backends p !! k with Some b => healthy b | None => false end.

(** The healthy backends as a queue, the next one to be used first. *)
Definition ring (p : upstream_pool_t) : list nat := filter (fun k => is_healthy p k = true) (visit_order p).

(** ** Lemmas on the balancers *)

Lemma rr_position (p : upstream_pool_t) (i : nat) :
  pool_inv p -> (i < length (up_backends p))%nat ->
  i32 (rr_index p + Z.of_nat i) = Ret (rr_index p + Z.of_nat i) /\
  Z.rem (rr_index p + Z.of_nat i) (up_count p) =
    Z.of_nat ((Z.to_nat (rr_index p) + i) mod length (up_backends p)).
Proof.
  intros [_ Hc Hrr _] Hi. unfold up_count, CONFIG_MAX_BACKENDS in *. split.
  - apply i32_Ret. unfold INT_MIN, INT_MAX. lia.
  - rewrite Z.rem_mod_nonneg by lia. rewrite Nat2Z.inj_mod. f_equal. lia.
Qed.

(** The loop stops at the first healthy backend it visits. *)
Lemma round_robin_loop_spec (p : upstream_pool_t) (n i : nat) :
  pool_inv p -> (i + n = length (up_backends p))%nat ->
  round_robin_loop n p (rr_index p) (Z.of_nat i) =
  Ret match filter (fun k => is_healthy p k = true)
              (map (fun j => (Z.to_nat (rr_index p) + j) mod length (up_backends p)) (seq i n)%nat)%nat with
      | [] => (None, p)
      | k :: _ => (Some k, set_rr_index (Z.of_nat ((k + 1) mod length (up_backends p))) p)
      end.
Proof.
  intros Hp. revert i; induction n as [| n IH]; intros i Hi; [done |].
  destruct (rr_position p i Hp ltac:(lia)) as [Hr1 Hr2].
  cbn [round_robin_loop seq map]. rewrite Hr1, bind_Ret, Hr2, Nat2Z.id. rewrite filter_cons.
  set (k := ((Z.to_nat (rr_index p) + i) mod length (up_backends p))%nat) in *.
  assert (k < length (up_backends p))%nat as Hk by (apply Nat.mod_upper_bound; lia).
  destruct (lookup_lt_is_Some_2 _ _ Hk) as [b Hb]. rewrite Hb.
  assert (is_healthy p k = healthy b) as Hhk by (unfold is_healthy; by rewrite Hb).
  destruct (healthy b) eqn:Hh; case_decide; try congruence.
  - do 3 f_equal. unfold up_count. rewrite Z.rem_mod_nonneg by lia. rewrite Nat2Z.inj_mod. f_equal. lia.
  - rewrite <- (IH (S i)) by lia. f_equal. lia.
Qed.

Lemma round_robin_Ret (p : upstream_pool_t) :
  pool_inv p ->
  balancer_round_robin p =
  Ret match ring p with
      | [] => (None, p)
      | k :: _ => (Some k, set_rr_index (Z.of_nat ((k + 1) mod length (up_backends p))) p)
      end.
Proof. intros Hp. unfold balancer_round_robin. by apply (round_robin_loop_spec p _ 0). Qed.

Lemma map_seq_shift {A} (f : nat -> A) (a b n : nat) :
  map (fun j => f (a + j)%nat) (seq b n) = map f (seq (a + b) n).
Proof.
  revert b; induction n as [| n IH]; intros b; [done |]. cbn [seq map]. f_equal. rewrite IH. do 2 f_equal. lia.
Qed.

(** Starting after the [i]-th visited backend, the loop visits the rest first. *)
Lemma visit_order_rotate (n rr i : nat) :
  (i < n)%nat ->
  map (fun j => (((rr + i) mod n + 1) mod n + j) mod n)%nat (seq 0 n) =
  (map (fun j => (rr + j) mod n) (seq (S i) (n - S i)) ++
   map (fun j => (rr + j) mod n) (seq 0 i) ++ [(rr + i) mod n])%nat.
Proof.
  intros Hi.
  assert (forall j, (((rr + i) mod n + 1) mod n + j) mod n = (rr + (S i + j)) mod n)%nat as Hstep.
  { intros j. rewrite Nat.Div0.add_mod_idemp_l. rewrite <- Nat.add_assoc, Nat.Div0.add_mod_idemp_l. f_equal. lia. }
  rewrite (map_ext _ _ Hstep), (map_seq_shift (fun j => (rr + j) mod n)%nat).
  replace (seq (S i + 0) n) with (seq (S i) (n - S i) ++ seq n (S i)).
  2: { replace n with ((n - S i) + S i)%nat at 3 by lia. rewrite seq_app. do 2 f_equal; lia. }
  rewrite map_app. f_equal. replace (seq n (S i)) with (seq (n + 0) (S i)) by (f_equal; lia).
  rewrite <- (map_seq_shift (fun j => (rr + j) mod n)%nat).
  rewrite (map_ext _ (fun j => (rr + j) mod n)%nat).
  2: { intros j. rewrite Nat.add_assoc, (Nat.add_comm rr n), <- Nat.add_assoc.
       rewrite Nat.Div0.add_mod, Nat.Div0.mod_same, Nat.add_0_l. apply Nat.Div0.mod_mod. }
  replace (S i) with (i + 1)%nat by lia. by rewrite seq_app, map_app.
Qed.

(** The first element a filter keeps, and what it skips and leaves. *)
Lemma filter_seq_head (P : nat -> Prop) `{forall x, Decision (P x)} (f : nat -> nat) (m a k : nat) (q : list nat) :
  filter P (map f (seq a m)) = k :: q ->
  exists i, (i < m)%nat /\ k = f (a + i)%nat /\ P k /\
    filter P (map f (seq a i)) = [] /\ q = filter P (map f (seq (S (a + i)) (m - S i))).
Proof.
  revert a; induction m as [| m IH]; intros a Hf; [done |]. cbn [seq map] in Hf. rewrite filter_cons in Hf.
  case_decide.
  - injection Hf as <- <-. exists 0%nat. rewrite Nat.add_0_r, Nat.sub_succ, Nat.sub_0_r. split_and!; auto. lia.
  - destruct (IH _ Hf) as (i & Hi & -> & Hk & Hpre & ->). exists (S i).
    rewrite Nat.add_succ_r. cbn [seq map]. rewrite filter_cons. rewrite decide_False by done.
    split_and!; auto; lia.
Qed.

(** After a selection the chosen backend is the last of the queue. *)
Lemma ring_rotate (p : upstream_pool_t) (k : nat) (q : list nat) :
  pool_inv p -> ring p = k :: q ->
  ring (set_rr_index (Z.of_nat ((k + 1) mod length (up_backends p))) p) = q ++ [k].
Proof.
  intros Hp Hq. change (ring (set_rr_index ?x p)) with
    (filter (fun k => is_healthy p k = true) (visit_order (set_rr_index x p))).
  unfold ring, visit_order in *. set (n := length (up_backends p)) in *. set (rr := Z.to_nat (rr_index p)) in *.
  apply filter_seq_head in Hq as (i & Hi & Hk & Hh & Hpre & Hpost). rewrite Nat.add_0_l in *.
  cbn [rr_index up_backends set_rr_index]. rewrite Nat2Z.id. fold n. rewrite Hk in *.
  rewrite visit_order_rotate by done. rewrite !filter_app.
  rewrite Hpre, <- Hpost. cbn [app]. f_equal. rewrite filter_cons, decide_True by done. done.
Qed.

(** The queue holds each healthy backend once. *)
Lemma visit_order_perm (p : upstream_pool_t) :
  pool_inv p -> visit_order p ≡ₚ seq 0 (length (up_backends p)).
Proof.
  intros [_ _ Hrr _]. unfold visit_order, up_count in *. set (n := length (up_backends p)) in *.
  destruct (Nat.eq_dec n 0%nat) as [-> | Hn]; [done |].
  set (rr := Z.to_nat (rr_index p)). assert (rr < n)%nat as Hr by (unfold rr; lia). clearbody rr n.
  assert (map (fun i => (rr + i) mod n)%nat (seq 0 n) = seq rr (n - rr) ++ seq 0 rr) as ->.
  { replace (seq 0 n) with (seq 0 (n - rr) ++ seq (n - rr) rr) by (symmetry; rewrite <- (seq_app (n - rr) rr 0 : _ = _ ++ seq (n - rr) rr); f_equal; lia).
    rewrite map_app. f_equal.
    - transitivity (map (fun i => rr + i)%nat (seq 0 (n - rr))).
      + apply map_ext_in. intros i Hi%in_seq. apply Nat.mod_small. lia.
      + rewrite (map_seq_shift (fun i => i)), map_id. f_equal. lia.
    - replace (seq (n - rr) rr) with (seq ((n - rr) + 0) rr) by (f_equal; lia).
      rewrite <- (map_seq_shift (fun j => (rr + j) mod n)%nat).
      transitivity (map (fun i : nat => i) (seq 0 rr)); [| apply map_id].
      apply map_ext_in. intros i Hi%in_seq. replace (rr + (n - rr + i))%nat with (i + 1 * n)%nat by lia.
      rewrite Nat.Div0.mod_add. apply Nat.mod_small. lia. }
  rewrite Permutation_app_comm. rewrite <- (seq_app rr (n - rr) 0 : _ = _ ++ seq rr (n - rr)). by replace (rr + (n - rr))%nat with n by lia.
Qed.

Lemma ring_perm (p : upstream_pool_t) :
  pool_inv p -> ring p ≡ₚ filter (fun k => is_healthy p k = true) (seq 0 (length (up_backends p))).
Proof. intros Hp. unfold ring. by rewrite visit_order_perm. Qed.

Lemma ring_healthy (p : upstream_pool_t) (k : nat) : k ∈ ring p -> exists b, up_backends p !! k = Some b /\ healthy b = true.
Proof.
  unfold ring. rewrite list_elem_of_filter. intros [Hh _]. unfold is_healthy in Hh.
  destruct (up_backends p !! k); [eauto | done].
Qed.

(** Changing a backend's counters does not move the queue. *)
Lemma ring_insert (p : upstream_pool_t) (k : nat) (b b' : upstream_backend_t) :
  up_backends p !! k = Some b -> healthy b' = healthy b ->
  ring (set_backends (<[k := b']> (up_backends p)) p) = ring p.
Proof.
  intros Hb Hh. unfold ring, visit_order. cbn [rr_index up_backends set_backends]. rewrite length_insert.
  apply list_filter_iff. intros j. unfold is_healthy. cbn [up_backends set_backends].
  destruct (decide (j = k)) as [-> | Hj].
  - rewrite list_lookup_insert_eq by (eapply lookup_lt_Some; eauto). by rewrite Hb, Hh.
  - by rewrite list_lookup_insert_ne.
Qed.

Lemma pool_inv_insert (p : upstream_pool_t) (k : nat) (b' : upstream_backend_t) :
  pool_inv p -> backend_inv b' -> zlen (idle_fds b') <= Z.max 0 (up_keepalive_conns p) ->
  pool_inv (set_backends (<[k := b']> (up_backends p)) p).
Proof.
  intros [H1 H2 H3 H4] Hb Hi. unfold up_count in *.
  constructor; unfold up_count; cbn; rewrite ?length_insert; auto; by apply Forall_insert.
Qed.

Lemma pool_inv_rr (p : upstream_pool_t) (k : nat) :
  pool_inv p -> (0 < length (up_backends p))%nat ->
  pool_inv (set_rr_index (Z.of_nat (k mod length (up_backends p))) p).
Proof.
  intros [H1 H2 H3 H4] Hn. unfold up_count in *. constructor; unfold up_count; cbn; auto.
  pose proof (Nat.mod_upper_bound k (length (up_backends p)) ltac:(lia)). lia.
Qed.

Definition bump_active (b : upstream_backend_t) : upstream_backend_t :=
  mk_ub (ub_host b) (ub_port b) (active_conns b + 1) (total_requests b) (error_count b) (healthy b) (idle_fds b).

(** Room for [n] more connections on every backend. *)
Definition room_for (n : Z) (p : upstream_pool_t) : Prop :=
  Forall (fun b => active_conns b + n <= INT_MAX) (up_backends p).

(** The common end of the two selection modes. *)
Lemma select_bump (p : upstream_pool_t) (k : nat) (b : upstream_backend_t) :
  pool_inv p -> up_backends p !! k = Some b -> active_conns b + 1 <= INT_MAX ->
  i32 (active_conns b + 1) = Ret (active_conns b + 1) /\
  pool_inv (set_backends (<[k := bump_active b]> (up_backends p)) p).
Proof.
  intros Hp Hb Ha. pose proof (Forall_lookup_1 _ _ _ _ (pi_backends _ Hp) Hb) as [[Ha1 Ha2] He Ht Hh Hi].
  pose proof (Forall_lookup_1 _ _ _ _ (pi_idle _ Hp) Hb). split.
  - apply i32_Ret. unfold INT_MIN, INT_MAX in *. lia.
  - apply pool_inv_insert; auto. constructor; cbn; auto. lia.
Qed.

Lemma room_for_insert (p : upstream_pool_t) (k : nat) (b : upstream_backend_t) (n : Z) :
  up_backends p !! k = Some b -> room_for (n + 1) p ->
  room_for n (set_backends (<[k := bump_active b]> (up_backends p)) p).
Proof.
  intros Hb Hr. unfold room_for in *. cbn. apply Forall_insert.
  - eapply Forall_impl; [exact Hr |]. intros x Hx. simpl in Hx. lia.
  - pose proof (Forall_lookup_1 _ _ _ _ Hr Hb) as Hx. simpl in *. lia.
Qed.

(** Round robin: the head of the queue is chosen and goes to its end. *)
Lemma select_round_robin (p : upstream_pool_t) (n : Z) :
  pool_inv p -> up_mode p = BALANCE_ROUND_ROBIN -> 0 <= n -> room_for (n + 1) p ->
  match ring p with
  | [] => upstream_select p = Ret (None, p)
  | k :: q => exists p', upstream_select p = Ret (Some k, p') /\ pool_inv p' /\
      up_mode p' = BALANCE_ROUND_ROBIN /\ ring p' = q ++ [k] /\ room_for n p'
  end.
Proof.
  intros Hp Hm Hn Hroom. unfold upstream_select. rewrite Hm, round_robin_Ret by done.
  destruct (ring p) as [| k q] eqn:Hring; [by destruct (_ =? 0) |].
  destruct (ring_healthy p k) as (b & Hb & Hh); [rewrite Hring; left |].
  pose proof (lookup_lt_Some _ _ _ Hb) as Hlt.
  destruct (Z.eqb_spec (up_count p) 0) as [E | E]; [unfold up_count in E; lia |].
  rewrite bind_Ret. set (p1 := set_rr_index _ p). assert (pool_inv p1) as Hp1 by (apply pool_inv_rr; [done | lia]).
  cbn match. unfold select_count. change (up_backends p1) with (up_backends p). rewrite Hb.
  pose proof (Forall_lookup_1 _ _ _ _ Hroom Hb) as Ha. simpl in Ha.
  destruct (select_bump p1 k b Hp1 Hb ltac:(lia)) as [-> Hinv]. rewrite bind_Ret.
  eexists. split; [done |]. split; [exact Hinv |]. split; [done |]. split.
  - change (up_backends p) with (up_backends p1). etransitivity; [by apply (ring_insert p1 k b) |].
    by apply ring_rotate.
  - by apply (room_for_insert p1 k b).
Qed.

(** Least connections: the scan keeps the first backend with the fewest. *)
Lemma least_conn_loop_spec (l : list upstream_backend_t) (i : nat) (best : option nat) (m : Z) :
  let r := least_conn_loop l i best m in
  (r = best /\ forall j b, l !! j = Some b -> healthy b = true -> m <= active_conns b) \/
  (exists j b, r = Some (i + j)%nat /\ l !! j = Some b /\ healthy b = true /\ active_conns b < m /\
    forall j' b', l !! j' = Some b' -> healthy b' = true ->
      active_conns b <= active_conns b' /\ (active_conns b' = active_conns b -> (j <= j')%nat)).
Proof.
  cbn zeta. revert i best m; induction l as [| b l IH]; intros i best m; cbn [least_conn_loop]; [by left |].
  assert (forall m', (healthy b = true -> m' <= active_conns b) ->
    (forall j b', l !! j = Some b' -> healthy b' = true -> m' <= active_conns b') ->
    forall j b', (b :: l) !! j = Some b' -> healthy b' = true -> m' <= active_conns b') as Hcons.
  { intros m' Hb Hl [| j] b' Hj Hh; [injection Hj as ->; auto | eauto]. }
  destruct (healthy b) eqn:Hh; cbn [negb]; [destruct (Z.ltb_spec (active_conns b) m) as [Hlt | Hge] |].
  - right. destruct (IH (S i) (Some i) (active_conns b)) as [[-> Hall] | (j & b' & -> & Hj & Hh' & Hlt' & Hall)].
    + exists 0%nat, b. split_and!; auto; try (f_equal; lia). intros j' b' Hj' Hh'. split; [| lia]. eapply Hcons; eauto. lia.
    + exists (S j), b'. split_and!; auto; try (f_equal; lia); try lia.
      intros [| j'] b'' Hj' Hh''; [injection Hj' as <-; lia |].
      destruct (Hall j' b'' Hj' Hh''). split; [done |]. intros ?. enough (j <= j')%nat by lia. auto.
  - destruct (IH (S i) best m) as [[-> Hall] | (j & b' & -> & Hj & Hh' & Hlt' & Hall)]; [left; eauto |].
    right. exists (S j), b'. split_and!; auto; try (f_equal; lia).
    intros [| j'] b'' Hj' Hh''; [injection Hj' as <-; lia |].
    destruct (Hall j' b'' Hj' Hh''). split; [done |]. intros ?. enough (j <= j')%nat by lia. auto.
  - destruct (IH (S i) best m) as [[-> Hall] | (j & b' & -> & Hj & Hh' & Hlt' & Hall)];
      [left; split; [done |]; by apply Hcons |].
    right. exists (S j), b'. split_and!; auto; try (f_equal; lia).
    intros [| j'] b'' Hj' Hh''; [injection Hj' as <-; congruence |].
    destruct (Hall j' b'' Hj' Hh''). split; [done |]. intros ?. enough (j <= j')%nat by lia. auto.
Qed.

(** ** Histories *)

Inductive pool_op : Type :=
| OpSelect
| OpRelease (be : option nat) (error : bool)
| OpGet (k : nat) (connect : option Z)
| OpPut (be : option nat) (fd : Z).

Definition pool_step (p : upstream_pool_t) (o : pool_op) : cres upstream_pool_t :=
  match o with
  | OpSelect => r ← upstream_select p; Ret r.2
  | OpRelease be error => upstream_release p be error
  | OpGet k connect => r ← upstream_get_connection p k connect; Ret r.2
  | OpPut be fd => r ← upstream_put_connection p be fd; Ret r.1
  end.

Fixpoint pool_run (p : upstream_pool_t) (os : list pool_op) : cres upstream_pool_t :=
  match os with
  | [] => Ret p
  | o :: os' => p' ← pool_step p o; pool_run p' os'
  end.

(** The backend pointers of the history point into a table of [n] backends. *)
Definition op_ok (n : nat) (o : pool_op) : bool :=
  match o with
  | OpSelect => true
  | OpRelease be _ | OpPut be _ => match be with Some k => (k <? n)%nat | None => true end
  | OpGet k _ => (k <? n)%nat
  end.

#[global] Instance pool_op_eq_dec : EqDecision pool_op.
Proof. solve_decision. Defined.

(** How often backend [k] was released with an error. *)
Definition errors_of (k : nat) (os : list pool_op) : Z :=
  zlen (filter (fun o => o = OpRelease (Some k) true) os).

(** No counter is above [m]. *)
Definition counts_le (m : Z) (p : upstream_pool_t) : Prop :=
  Forall (fun b => active_conns b <= m /\ total_requests b <= m /\ error_count b <= m) (up_backends p).

Definition errors (p : upstream_pool_t) (k : nat) : Z := default 0 (error_count <$> up_backends p !! k).

(** What every step keeps, with the counters bounded by [m] before it and the
    errors of backend [k] growing by [d k]. *)
Definition step_ok (p : upstream_pool_t) (m : Z) (d : nat -> Z) (p' : upstream_pool_t) : Prop :=
  pool_inv p' /\ counts_le (m + 1) p' /\ length (up_backends p') = length (up_backends p) /\
  forall k, (k < length (up_backends p))%nat -> errors p' k = errors p k + d k.

Lemma counts_le_mono (m m' : Z) (p : upstream_pool_t) : counts_le m p -> m <= m' -> counts_le m' p.
Proof. unfold counts_le. intros H Hm. eapply Forall_impl; [exact H |]. cbn. lia. Qed.

Lemma step_ok_same (p : upstream_pool_t) (m : Z) (d : nat -> Z) :
  pool_inv p -> counts_le m p -> (forall k, (k < length (up_backends p))%nat -> d k = 0) -> step_ok p m d p.
Proof.
  intros Hp Hc Hd. split_and!; auto.
  - eapply Forall_impl; [exact Hc |]. intros b Hb. simpl in Hb. lia.
  - intros k Hk. rewrite Hd by done. lia.
Qed.

Lemma step_ok_insert (p : upstream_pool_t) (m : Z) (d : nat -> Z) (k : nat) (b b' : upstream_backend_t) :
  pool_inv p -> counts_le m p -> up_backends p !! k = Some b -> backend_inv b' ->
  zlen (idle_fds b') <= Z.max 0 (up_keepalive_conns p) ->
  active_conns b' <= m + 1 -> total_requests b' <= m + 1 -> error_count b' <= m + 1 ->
  (forall j, d j = if decide (j = k) then error_count b' - error_count b else 0) ->
  step_ok p m d (set_backends (<[k := b']> (up_backends p)) p).
Proof.
  intros Hp Hc Hb Hb' Hi Ha Ht He Hd. split_and!.
  - by apply pool_inv_insert.
  - unfold counts_le. cbn. apply Forall_insert; [| done].
    eapply Forall_impl; [exact Hc |]. intros x Hx. simpl in Hx. lia.
  - cbn. apply length_insert.
  - intros j Hj. unfold errors. cbn. rewrite Hd. case_decide as E.
    + subst j. rewrite list_lookup_insert_eq by done. rewrite Hb. cbn. lia.
    + rewrite list_lookup_insert_ne by done. lia.
Qed.

Definition error_step (o : pool_op) (k : nat) : Z := if decide (o = OpRelease (Some k) true) then 1 else 0.

Lemma select_step_ok (p : upstream_pool_t) (m : Z) :
  pool_inv p -> counts_le m p -> m < INT_MAX ->
  exists r p', upstream_select p = Ret (r, p') /\ step_ok p m (error_step OpSelect) p'.
Proof.
  intros Hp Hc Hm.
  assert (forall k (p1 : upstream_pool_t), (exists b, up_backends p1 !! k = Some b) -> pool_inv p1 ->
    up_backends p1 = up_backends p ->
    exists r p', select_count p1 k = Ret (r, p') /\ step_ok p m (error_step OpSelect) p') as Hbump.
  { intros k p1 [b Hb] Hp1 Heq. unfold select_count. rewrite Hb. assert (counts_le m p1) as Hc1 by (unfold counts_le; by rewrite Heq).
    pose proof (Forall_lookup_1 _ _ _ _ Hc1 Hb) as (Ha & Ht & He). pose proof (Forall_lookup_1 _ _ _ _ (pi_backends _ Hp1) Hb) as Hbi.
    destruct (select_bump p1 k b Hp1 Hb ltac:(lia)) as [-> _]. rewrite bind_Ret. eexists _, _. split; [done |].
    pose proof (Forall_lookup_1 _ _ _ _ (pi_idle _ Hp1) Hb).
    assert (step_ok p1 m (error_step OpSelect) (set_backends (<[k := bump_active b]> (up_backends p1)) p1)) as Hst.
    { eapply step_ok_insert; eauto; cbn; try lia; [| intros; unfold error_step; repeat case_decide; (congruence || (cbn; lia))].
      destruct Hbi as [Ha1 ? ? ? ?]. constructor; cbn; auto. lia. }
    unfold step_ok, errors in *. rewrite Heq in *. exact Hst. }
  assert (step_ok p m (error_step OpSelect) p) as Hsame by (by apply step_ok_same).
  unfold upstream_select. destruct (Z.eqb_spec (up_count p) 0) as [E | E]; [by eexists _, _ |].
  destruct (up_mode p).
  - rewrite round_robin_Ret, bind_Ret by done. destruct (ring p) as [| k q] eqn:Hr; [by eexists _, _ |].
    apply Hbump; [| | done].
    + destruct (ring_healthy p k) as (b & Hb & _); [rewrite Hr; left | eauto].
    + apply pool_inv_rr; [done |]. unfold up_count in E. lia.
  - rewrite bind_Ret. unfold balancer_least_conn.
    destruct (least_conn_loop_spec (up_backends p) 0 None INT_MAX) as [[-> _] | (j & b & -> & Hj & _)];
      [by eexists _, _ |]. apply Hbump; eauto.
Qed.

Lemma backend_release_Ret (b : upstream_backend_t) (error : bool) :
  backend_inv b -> error_count b < INT_MAX -> total_requests b < INT_MAX ->
  exists b', backend_release b error = Ret b' /\ backend_inv b' /\ idle_fds b' = idle_fds b /\
    active_conns b' = Z.max 0 (active_conns b - 1) /\
    error_count b' = error_count b + (if error then 1 else 0) /\
    total_requests b' = total_requests b + (if error then 0 else 1).
Proof.
  intros [Ha He Ht Hh Hi] Hem Htm. unfold backend_release. unfold INT_MAX in *.
  assert ((if 0 <? active_conns b then active_conns b - 1 else active_conns b) = Z.max 0 (active_conns b - 1)) as ->
    by (destruct (Z.ltb_spec 0 (active_conns b)); lia).
  destruct error; rewrite i32_Ret, bind_Ret by (unfold INT_MIN, INT_MAX; lia); eexists; (split; [done |]); cbn;
    (split; [| by (split_and!; auto; lia)]); constructor; cbn; auto; unfold INT_MAX; try lia.
  - rewrite Hh. destruct (Z.ltb_spec 5 (error_count b + 1)); lia.
  - rewrite Hh. destruct (Z.leb_spec (error_count b) 5); cbn [negb andb]; [done |].
    by replace (error_count b =? 0) with false by lia.
Qed.

Lemma pool_step_Ret (p : upstream_pool_t) (o : pool_op) (m : Z) :
  pool_inv p -> counts_le m p -> m < INT_MAX -> op_ok (length (up_backends p)) o = true ->
  exists p', pool_step p o = Ret p' /\ step_ok p m (error_step o) p'.
Proof.
  intros Hp Hc Hm Ho.
  assert (forall k, (k <? length (up_backends p))%nat = true -> exists b, up_backends p !! k = Some b /\
    backend_inv b /\ zlen (idle_fds b) <= Z.max 0 (up_keepalive_conns p) /\
    active_conns b <= m /\ total_requests b <= m /\ error_count b <= m) as Hget.
  { intros k Hk%Nat.ltb_lt. destruct (lookup_lt_is_Some_2 _ _ Hk) as [b Hb]. exists b.
    pose proof (Forall_lookup_1 _ _ _ _ Hc Hb) as (? & ? & ?). pose proof (Forall_lookup_1 _ _ _ _ (pi_idle _ Hp) Hb).
    pose proof (Forall_lookup_1 _ _ _ _ (pi_backends _ Hp) Hb). split_and!; auto. }
  destruct o as [| be error | k connect | be fd]; cbn [pool_step op_ok] in *.
  - destruct (select_step_ok p m Hp Hc Hm) as (r & p' & -> & Hst). rewrite bind_Ret. eauto.
  - destruct be as [k |]; cbn [upstream_release]; [| eexists; split; [done |]; apply step_ok_same; auto].
    destruct (Hget k Ho) as (b & Hb & Hbi & Hid & Ha & Ht & He). rewrite Hb.
    destruct (backend_release_Ret b error Hbi ltac:(lia) ltac:(lia)) as (b' & -> & Hbi' & Hid' & Ha' & He' & Ht').
    rewrite bind_Ret. eexists. split; [done |].
    eapply step_ok_insert; eauto; try lia; try (rewrite Hid'; done); try (destruct error; lia).
    + pose proof (bi_active _ Hbi). lia.
    + intros j. unfold error_step. destruct error; repeat case_decide; try congruence; lia.
  - destruct (Hget k Ho) as (b & Hb & Hbi & Hid & Ha & Ht & He).
    unfold upstream_get_connection. rewrite Hb. destruct (last (idle_fds b)) eqn:El; rewrite bind_Ret; eexists;
      (split; [done |]); [| by apply step_ok_same].
    assert (zlen (removelast (idle_fds b)) <= zlen (idle_fds b)) as Hlen by (rewrite removelast_firstn_len, length_take; lia).
    eapply step_ok_insert; eauto; cbn; try lia; [| intros; unfold error_step; repeat case_decide; (congruence || (cbn; lia))].
    destruct Hbi. constructor; cbn; auto. lia.
  - destruct be as [k |]; cbn [upstream_put_connection]; [| eexists; split; [done |]; apply step_ok_same; auto].
    destruct (Hget k Ho) as (b & Hb & Hbi & Hid & Ha & Ht & He). rewrite Hb.
    destruct ((zlen (idle_fds b) <? up_keepalive_conns p) && (zlen (idle_fds b) <? 64)) eqn:E; rewrite bind_Ret;
      eexists; (split; [done |]); [| by apply step_ok_same].
    bprop. eapply step_ok_insert; eauto; cbn; try lia;
      [| rewrite length_app; cbn [length]; lia | intros; unfold error_step; repeat case_decide; (congruence || (cbn; lia))].
    destruct Hbi. constructor; cbn; auto. rewrite length_app. cbn [length]. lia.
Qed.

(** A backend that was selected is one of the pool. *)
Lemma upstream_select_valid (p p' : upstream_pool_t) (k : nat) :
  upstream_select p = Ret (Some k, p') -> (k < length (up_backends p'))%nat.
Proof.
  unfold upstream_select. case_match; [discriminate |]. destruct (match up_mode p with BALANCE_ROUND_ROBIN => _ | _ => _ end) as [[[j |] q] |];
    cbn [mbind cres_mbind]; try discriminate.
  unfold select_count. destruct (up_backends q !! j) as [b |] eqn:Hb; [| discriminate]. destruct (i32 _) as [a |]; [| discriminate].
  cbn [mbind cres_mbind]. intros [= <- <-]. cbn. rewrite length_insert. by apply lookup_lt_is_Some_1.
Qed.

(** No operation changes the number of backends. *)
Lemma round_robin_backends (n : nat) (p p' : upstream_pool_t) (start i : Z) (r : option nat) :
  round_robin_loop n p start i = Ret (r, p') -> up_backends p' = up_backends p.
Proof.
  revert i. induction n as [| n IH]; intros i; cbn [round_robin_loop]; [by intros [= <- <-] |].
  intros H. apply bind_inv in H as (x & _ & H). repeat case_match; [by injection H as <- <- | by eapply IH | discriminate].
Qed.

Lemma upstream_select_length (p p' : upstream_pool_t) (r : option nat) :
  upstream_select p = Ret (r, p') -> length (up_backends p') = length (up_backends p).
Proof.
  unfold upstream_select. intros H. case_match; [by injection H as <- <- |]. apply bind_inv in H as ([be q] & Hq & H).
  assert (up_backends q = up_backends p) as <- by (clear H; destruct (up_mode p); [by eapply round_robin_backends; exact Hq | by injection Hq as <- <-]).
  destruct be as [k |]; [| by injection H as <- <-]. unfold select_count in H. destruct (up_backends q !! k); [| discriminate].
  apply bind_inv in H as (x & _ & H). injection H as <- <-. cbn. by rewrite length_insert.
Qed.

Lemma upstream_get_length (p p' : upstream_pool_t) (k : nat) (connect : option Z) (fd : Z) :
  upstream_get_connection p k connect = Ret (fd, p') -> length (up_backends p') = length (up_backends p).
Proof. unfold upstream_get_connection. repeat case_match; intros [= <- <-]; cbn; by rewrite ?length_insert. Qed.

Lemma upstream_release_length (p p' : upstream_pool_t) (be : option nat) (error : bool) :
  upstream_release p be error = Ret p' -> length (up_backends p') = length (up_backends p).
Proof.
  unfold upstream_release. intros H. repeat case_match; [| discriminate | by injection H as <-].
  apply bind_inv in H as (x & _ & H). injection H as <-. cbn. by rewrite length_insert.
Qed.

Lemma upstream_put_length (p p' : upstream_pool_t) (be : option nat) (fd : Z) (closed : list Z) :
  upstream_put_connection p be fd = Ret (p', closed) -> length (up_backends p') = length (up_backends p).
Proof. unfold upstream_put_connection. repeat case_match; intros [= <- <-]; cbn; by rewrite ?length_insert. Qed.

(** The connection to a selected backend, and its release when there is none. *)
Lemma select_get_Ret (p : upstream_pool_t) (k : nat) (m : Z) (connect : option Z) :
  pool_inv p -> counts_le m p -> m < INT_MAX - 1 -> (k < length (up_backends p))%nat ->
  exists fd p', upstream_get_connection p k connect = Ret (fd, p') /\ pool_inv p' /\ counts_le (m + 1) p' /\
    (exists p'', upstream_release p' (Some k) true = Ret p'' /\ pool_inv p'' /\ counts_le (m + 2) p'').
Proof.
  intros Hp Hc Hm Hk.
  destruct (pool_step_Ret p (OpGet k connect) m Hp Hc ltac:(lia) (proj2 (Nat.ltb_lt _ _) Hk)) as (p' & Hget & Hp' & Hc' & Hlen & _).
  cbn [pool_step] in Hget. destruct (upstream_get_connection p k connect) as [[fd q] |]; [| discriminate].
  rewrite bind_Ret in Hget. injection Hget as ->. exists fd, p'. split_and!; [done.. |].
  destruct (pool_step_Ret p' (OpRelease (Some k) true) (m + 1) Hp' Hc' ltac:(lia)) as (p'' & Hr & Hp'' & Hc'' & _);
    [apply Nat.ltb_lt; lia |]. exists p''. split_and!; [done.. |]. by replace (m + 2) with (m + 1 + 1) by lia.
Qed.

Lemma errors_of_cons (k : nat) (o : pool_op) (os : list pool_op) :
  errors_of k (o :: os) = error_step o k + errors_of k os.
Proof. unfold errors_of, error_step. rewrite filter_cons. case_decide; cbn [length]; lia. Qed.

Lemma pool_run_Ret (os : list pool_op) (p : upstream_pool_t) (m : Z) :
  pool_inv p -> counts_le m p -> m + zlen os <= INT_MAX ->
  Forall (fun o => op_ok (length (up_backends p)) o = true) os ->
  exists p', pool_run p os = Ret p' /\ pool_inv p' /\ length (up_backends p') = length (up_backends p) /\
    forall k, (k < length (up_backends p))%nat -> errors p' k = errors p k + errors_of k os.
Proof.
  revert p m; induction os as [| o os IH]; intros p m Hp Hc Hm Ho.
  - exists p. split_and!; auto. intros k _. unfold errors_of. cbn. lia.
  - apply Forall_cons in Ho as [Ho Hos]. cbn [length] in Hm.
    destruct (pool_step_Ret p o m Hp Hc ltac:(lia) Ho) as (p1 & Hs & Hp1 & Hc1 & Hl1 & He1).
    rewrite <- Hl1 in Hos. destruct (IH p1 (m + 1) Hp1 Hc1 ltac:(lia) Hos) as (p2 & Hr & Hp2 & Hl2 & He2).
    exists p2. cbn [pool_run]. rewrite Hs, bind_Ret. split_and!; auto; [congruence |].
    intros k Hk. rewrite He2, He1, errors_of_cons by lia. lia.
Qed.

Lemma pool_create_inv {RX : Regex} (cfg : np_server_config_t) (p : upstream_pool_t) :
  server_ok cfg -> upstream_pool_create true cfg = Some p ->
  pool_inv p /\ counts_le 0 p /\ forall k, errors p k = 0.
Proof.
  intros Hs [= <-]. pose proof (po_count _ (so_proxy _ Hs)) as Hc. unfold CONFIG_MAX_BACKENDS in Hc. split_and!.
  - constructor; unfold up_count; cbn; rewrite ?length_map; try (unfold CONFIG_MAX_BACKENDS; lia).
    + apply Forall_map, Forall_true. intros b. constructor; cbn; unfold INT_MAX; (lia || done).
    + apply Forall_map, Forall_true. intros b. cbn. lia.
  - apply Forall_map, Forall_true. intros b. cbn. lia.
  - intros k. unfold errors. cbn. rewrite list_lookup_fmap || rewrite lookup_map.
    by destruct (px_backends (proxy cfg) !! k).
Qed.

(** [n] selections in a row. *)
Fixpoint select_n (n : nat) (p : upstream_pool_t) : cres (list (option nat) * upstream_pool_t) :=
  match n with
  | O => Ret ([], p)
  | S n' =>
      r ← upstream_select p;
      rs ← select_n n' r.2;
      Ret (r.1 :: rs.1, rs.2)
  end.

(** Selections take the queue from its front. *)
Lemma select_n_ring (q1 q2 : list nat) (p : upstream_pool_t) (n : Z) :
  pool_inv p -> up_mode p = BALANCE_ROUND_ROBIN -> 0 <= n -> room_for (n + zlen q1) p -> ring p = q1 ++ q2 ->
  exists p', select_n (length q1) p = Ret (map Some q1, p') /\ pool_inv p' /\
    up_mode p' = BALANCE_ROUND_ROBIN /\ ring p' = q2 ++ q1 /\ room_for n p'.
Proof.
  revert q2 p; induction q1 as [| k q1 IH]; intros q2 p Hp Hm Hn Hroom Hr.
  - exists p. cbn in Hroom. rewrite Z.add_0_r in Hroom. rewrite app_nil_r. by split_and!.
  - pose proof (select_round_robin p (n + zlen q1) Hp Hm ltac:(lia)) as Hsel.
    replace (n + zlen (k :: q1)) with (n + zlen q1 + 1) in Hroom by (cbn [length]; lia).
    specialize (Hsel Hroom). rewrite Hr in Hsel. cbn [app] in Hsel.
    destruct Hsel as (p1 & Hs1 & Hp1 & Hm1 & Hr1 & Hroom1).
    destruct (IH (q2 ++ [k]) p1 Hp1 Hm1 Hn Hroom1) as (p2 & Hs2 & Hp2 & Hm2 & Hr2 & Hroom2); [by rewrite Hr1, app_assoc |].
    exists p2. cbn [length select_n]. rewrite Hs1, bind_Ret. cbn [snd fst]. rewrite Hs2, bind_Ret.
    split_and!; auto. by rewrite Hr2, <- app_assoc.
Qed.

Lemma select_n_app (n m : nat) (p p1 p2 : upstream_pool_t) (r1 r2 : list (option nat)) :
  select_n n p = Ret (r1, p1) -> select_n m p1 = Ret (r2, p2) -> select_n (n + m) p = Ret (r1 ++ r2, p2).
Proof.
  revert p r1; induction n as [| n IH]; intros p r1 H1 H2.
  - injection H1 as <- <-. done.
  - cbn [select_n Nat.add] in *. apply bind_inv in H1 as ([k p'] & -> & H1). rewrite bind_Ret. cbn [fst snd] in *.
    apply bind_inv in H1 as ([rs p''] & Hrs & H1). injection H1 as <- <-.
    by rewrite (IH _ _ Hrs H2), bind_Ret.
Qed.

(** Whole rounds repeat the same order. *)
Lemma select_rounds (c : nat) (p : upstream_pool_t) :
  pool_inv p -> up_mode p = BALANCE_ROUND_ROBIN -> room_for (Z.of_nat (c * length (ring p))) p ->
  exists p', select_n (c * length (ring p)) p = Ret (concat (replicate c (map Some (ring p))), p') /\ pool_inv p'.
Proof.
  revert p; induction c as [| c IH]; intros p Hp Hm Hroom; [by exists p |].
  destruct (select_n_ring (ring p) [] p (Z.of_nat (c * length (ring p))) Hp Hm ltac:(lia))
    as (p1 & Hs1 & Hp1 & Hm1 & Hr1 & Hroom1).
  { eapply Forall_impl; [exact Hroom |]. intros b Hb. cbn beta in *. lia. }
  { by rewrite app_nil_r. }
  cbn [app] in Hr1. rewrite <- Hr1 in Hroom1 at 1.
  destruct (IH p1 Hp1 Hm1 Hroom1) as (p2 & Hs2 & Hp2). rewrite Hr1 in Hs2.
  exists p2. split; [| done]. exact (select_n_app _ _ _ _ _ _ _ Hs1 Hs2).
Qed.

(** ** Properties *)

(** C7 Round robin is even: with a fixed set of healthy backends, [c] rounds of as
    many selections as there are healthy backends choose each of them exactly [c]
    times, always in the same cyclic order, and never an unhealthy one.  The
    balancer refines a queue of the healthy backends whose head is chosen and goes
    to the end. *)
Theorem round_robin_even (p : upstream_pool_t) (c : nat) :
  pool_inv p -> up_mode p = BALANCE_ROUND_ROBIN ->
  Forall (fun b => active_conns b + Z.of_nat (c * length (ring p)) <= INT_MAX) (up_backends p) ->
  exists p' order,
    select_n (c * length order) p = Ret (concat (replicate c (map Some order)), p') /\
    order ≡ₚ filter (fun k => is_healthy p k = true) (seq 0 (length (up_backends p))) /\
    pool_inv p'.
Proof.
  intros Hp Hm Hroom. destruct (select_rounds c p Hp Hm Hroom) as (p' & Hs & Hp').
  exists p', (ring p). split_and!; auto. by apply ring_perm.
Qed.

Definition witness_backend (h : bool) (errs : Z) : upstream_backend_t := mk_ub (lit "h") 80 0 0 errs h [].

Lemma round_robin_even_witness :
  exists p' order,
    select_n (3 * length order)
      (mk_pool [witness_backend true 0; witness_backend false 6; witness_backend true 1] 1 BALANCE_ROUND_ROBIN 4) =
      Ret (concat (replicate 3 (map Some order)), p') /\ order ≡ₚ [0; 2]%nat /\ pool_inv p'.
Proof.
  apply (round_robin_even
    (mk_pool [witness_backend true 0; witness_backend false 6; witness_backend true 1] 1 BALANCE_ROUND_ROBIN 4) 3).
  - constructor; cbn; try done; repeat (apply Forall_cons; split); try constructor; cbn; unfold INT_MAX; (lia || done).
  - reflexivity.
  - repeat constructor; vm_compute; discriminate.
Defined.

(** C36 Least connections: the choice is a healthy backend with the fewest active
    connections, the first such in the table; nothing is chosen exactly when every
    healthy backend has its counter at the largest [int], in particular when no
    backend is healthy. *)
Theorem least_conn_correct (p : upstream_pool_t) :
  match balancer_least_conn p with
  | Some k => exists b, up_backends p !! k = Some b /\ healthy b = true /\
      forall j b', up_backends p !! j = Some b' -> healthy b' = true ->
        active_conns b <= active_conns b' /\ (active_conns b' = active_conns b -> (k <= j)%nat)
  | None => forall j b', up_backends p !! j = Some b' -> healthy b' = true -> INT_MAX <= active_conns b'
  end.
Proof.
  unfold balancer_least_conn.
  destruct (least_conn_loop_spec (up_backends p) 0 None INT_MAX) as [[-> H] | (j & b & -> & Hj & Hh & _ & H)]; [done |].
  exists b. auto.
Qed.

(** C8 A pool over any history of selections, releases and connection reuse (with
    fewer operations than the largest [int]): no operation is undefined, the table
    and its invariant stay intact - the round-robin position inside the table, at
    most 64 and at most [keepalive_conns] idle connections per backend - and a
    backend is healthy exactly while at most five releases over the whole history
    reported an error: successes in between do not reset the count, and a backend
    once taken out never comes back. *)
Theorem upstream_history {RX : Regex} (cfg : np_server_config_t) (p : upstream_pool_t) (os : list pool_op) :
  server_ok cfg -> upstream_pool_create true cfg = Some p -> zlen os <= INT_MAX ->
  Forall (fun o => op_ok (length (px_backends (proxy cfg))) o = true) os ->
  exists p', pool_run p os = Ret p' /\ pool_inv p' /\
    length (up_backends p') = length (px_backends (proxy cfg)) /\
    forall k b, up_backends p' !! k = Some b ->
      error_count b = errors_of k os /\ (healthy b = true <-> errors_of k os <= 5).
Proof.
  intros Hs Hc Hl Ho. destruct (pool_create_inv cfg p Hs Hc) as (Hp & Hc0 & He0).
  assert (length (up_backends p) = length (px_backends (proxy cfg))) as Hlen.
  { injection Hc as <-. cbn. apply length_map. }
  rewrite <- Hlen in *. destruct (pool_run_Ret os p 0 Hp Hc0 Hl Ho) as (p' & Hr & Hp' & Hl' & He').
  exists p'. split_and!; auto. intros k b Hb. pose proof (lookup_lt_Some _ _ _ Hb) as Hk. rewrite Hl' in Hk.
  specialize (He' k Hk). rewrite He0 in He'. unfold errors in He'. rewrite Hb in He'. cbn in He'.
  rewrite He'. split; [done |]. rewrite (bi_health b (Forall_lookup_1 _ _ _ _ (pi_backends _ Hp') Hb)), He'.
  cbn. apply Z.leb_le.
Qed.

Lemma upstream_history_witness :
  exists p p',
    upstream_pool_create (RX := literal_regex) true
      (set_proxy (mk_proxy true BALANCE_ROUND_ROBIN 5 30 16 [mk_backend (lit "a") 1 true]) server_default) = Some p /\
    pool_run p [OpSelect; OpGet 0 (Some 7); OpPut (Some 0%nat) 7; OpRelease (Some 0%nat) true] = Ret p' /\ pool_inv p'.
Proof.
  exists (mk_pool [mk_ub (lit "a") 1 0 0 0 true []] 0 BALANCE_ROUND_ROBIN 16).
  destruct (upstream_history (RX := literal_regex)
    (set_proxy (mk_proxy true BALANCE_ROUND_ROBIN 5 30 16 [mk_backend (lit "a") 1 true]) server_default)
    (mk_pool [mk_ub (lit "a") 1 0 0 0 true []] 0 BALANCE_ROUND_ROBIN 16)
    [OpSelect; OpGet 0 (Some 7); OpPut (Some 0%nat) 7; OpRelease (Some 0%nat) true])
    as (p' & Hr & Hp & _).
  - repeat (first [discriminate | split | constructor]).
  - reflexivity.
  - discriminate.
  - repeat constructor.
  - exists p'. split; [reflexivity | split; [exact Hr | exact Hp]].
Defined.

(** Idle connections: a descriptor handed back is either stored - when the
    backend has fewer than [keepalive_conns] and fewer than 64 - and is then the
    next one handed out, leaving the pool as it was, or it is closed and the pool
    is unchanged; it is never both and never lost. *)
Theorem put_get_connection (p : upstream_pool_t) (k : nat) (b : upstream_backend_t) (fd : Z) (connect : option Z) :
  up_backends p !! k = Some b ->
  exists p1 closed, upstream_put_connection p (Some k) fd = Ret (p1, closed) /\
    if (zlen (idle_fds b) <? Z.min 64 (up_keepalive_conns p))
    then closed = [] /\ upstream_get_connection p1 k connect = Ret (fd, p)
    else closed = [fd] /\ p1 = p.
Proof.
  intros Hb. cbn [upstream_put_connection]. rewrite Hb.
  destruct (Z.ltb_spec (zlen (idle_fds b)) (Z.min 64 (up_keepalive_conns p))) as [E | E].
  - replace (zlen (idle_fds b) <? up_keepalive_conns p) with true by lia.
    replace (zlen (idle_fds b) <? 64) with true by lia. eexists _, _. split; [done |]. split; [done |].
    unfold upstream_get_connection. cbn [up_backends set_backends].
    rewrite list_lookup_insert_eq by (eapply lookup_lt_Some; eauto). cbn [idle_fds set_idle].
    rewrite last_snoc, removelast_last. do 2 f_equal. destruct p as [l rr md ka]. unfold set_backends. cbn in *. f_equal.
    rewrite list_insert_insert_eq. destruct b. cbn. by apply list_insert_id.
  - replace ((zlen (idle_fds b) <? up_keepalive_conns p) && (zlen (idle_fds b) <? 64)) with false by lia.
    eexists _, _. done.
Qed.

Lemma put_get_connection_witness :
  exists p1, upstream_put_connection (mk_pool [witness_backend true 0] 0 BALANCE_ROUND_ROBIN 2) (Some 0%nat) 9 =
      Ret (p1, []) /\
    upstream_get_connection p1 0 None = Ret (9, mk_pool [witness_backend true 0] 0 BALANCE_ROUND_ROBIN 2).
Proof.
  destruct (put_get_connection (mk_pool [witness_backend true 0] 0 BALANCE_ROUND_ROBIN 2) 0
    (witness_backend true 0) 9 None eq_refl) as (p1 & closed & Hp & Hc & Hg).
  exists p1. subst closed. split; [exact Hp | exact Hg].
Defined.
