(* ===== verification/RateLimit.v ===== *)
(** * Rate limiter: src/features/rate_limit.c

    A token bucket per client address in a table of 4096 slots indexed by a
    32-bit FNV-1a hash.  The code keeps tokens in [double]s; every value it
    computes is an integer rounded to 53 significant bits, so the model computes
    on [Z] with that rounding written out ([dround]).  [time(NULL)] is an
    argument. *)

From Stdlib Require Import ZArith Lia String.
From stdpp Require Import base numbers option list.
From S2P Require Import Prelude CLib Config.

(** ** Integers held in a double *)

(** Round to the nearest multiple of [2 ^ e], ties to the even multiple. *)
Definition round_even (z e : Z) : Z :=
  let q := z / 2 ^ e in
  let r := z mod 2 ^ e in
  let half := 2 ^ (e - 1) in
  (if (r <? half) || ((r =? half) && Z.even q) then q else q + 1) * 2 ^ e.

(** The double nearest to an integer (of far less than 2 ^ 1024). *)
Definition dround (z : Z) : Z :=
  if Z.abs z <=? 2 ^ 53 then z
  else
    let e := Z.log2 (Z.abs z) - 52 in
    if 0 <? z then round_even z e else - round_even (- z) e.

(** ** Data and operations *)

Definition RL_TABLE_SIZE : Z := 4096.

Record rl_bucket_t : Type := mk_rlb {
  rb_ip : bytes;
  rb_tokens : Z;
  rb_last_refill : Z;
  rb_used : bool
}.

Record rate_limiter_t : Type := mk_rl {
  rlm_table : list rl_bucket_t;
  rlm_rate : Z;
  rlm_burst : Z
}.

Definition ip_hash (ip : bytes) : Z :=
  fold_left (fun h c => u32 (Z.lxor h (u8 c) * 16777619)) ip 2166136261.

(** [mem]: whether [calloc] succeeds. *)
Definition rate_limiter_create {RX : Regex} (mem : bool) (cfg : np_config_t) : option rate_limiter_t :=
  if mem then
    Some (mk_rl (replicate (Z.to_nat RL_TABLE_SIZE) (mk_rlb [] 0 0 false))
            (rl_requests_per_second (rate_limit cfg)) (rl_burst (rate_limit cfg)))
  else None.

Definition slot (ip : bytes) : nat := Z.to_nat (ip_hash ip mod RL_TABLE_SIZE).

Definition rate_limit_check (rl : rate_limiter_t) (ip : bytes) (now : Z) : cres (np_status_t * rate_limiter_t) :=
  match rlm_table rl !! slot ip with
  | None => Stuck
  | Some b =>
      let b := if negb (rb_used b) || negb (strcmp_eq (rb_ip b) ip)
               then mk_rlb (strncpy ip 15) (rlm_burst rl) now true else b in
      d ← i64 (now - rb_last_refill b);
      let elapsed := dround d in
      let tokens := dround (rb_tokens b + dround (elapsed * rlm_rate rl)) in
      let tokens := if rlm_burst rl <? tokens then rlm_burst rl else tokens in
      let store t := mk_rl (<[slot ip := mk_rlb (rb_ip b) t now (rb_used b)]> (rlm_table rl))
                       (rlm_rate rl) (rlm_burst rl) in
      if tokens <? 1 then Ret (NP_ERR, store tokens)
      else Ret (NP_OK, store (dround (tokens - 1)))
  end.

(** Requests from addresses at given times, with the answers. *)
Fixpoint rate_limit_run (rl : rate_limiter_t) (evs : list (bytes * Z)) : cres (list np_status_t * rate_limiter_t) :=
  match evs with
  | [] => Ret ([], rl)
  | (ip, now) :: evs' =>
      r ← rate_limit_check rl ip now;
      rs ← rate_limit_run r.2 evs';
      Ret (r.1 :: rs.1, rs.2)
  end.

(** ** The exact token bucket *)

(** Whether a request is admitted, and the tokens left: [None] for a client that
    has no bucket yet. *)
Definition level (rate burst : Z) (st : option (Z * Z)) (now : Z) : Z :=
  match st with
  | None => burst
  | Some (t, last) => Z.min burst (t + (now - last) * rate)
  end.

Definition take_token (rate burst : Z) (st : option (Z * Z)) (now : Z) : np_status_t * (Z * Z) :=
  let t := level rate burst st now in
  if t <? 1 then (NP_ERR, (t, now)) else (NP_OK, (t - 1, now)).

(** The bucket the table holds for an address. *)
Definition bucket_of (rl : rate_limiter_t) (ip : bytes) : option (Z * Z) :=
  match rlm_table rl !! slot ip with
  | Some b => if rb_used b && strcmp_eq (rb_ip b) ip then Some (rb_tokens b, rb_last_refill b) else None
  | None => None
  end.

(** Addresses fit their array; levels are between 0 and the burst; no bucket is
    from the future. *)
Record limiter_ok (rl : rate_limiter_t) (now : Z) : Prop := {
  lo_size : zlen (rlm_table rl) = RL_TABLE_SIZE;
  lo_rate : 0 <= rlm_rate rl <= INT_MAX;
  lo_burst : 0 <= rlm_burst rl <= INT_MAX;
  lo_now : 0 <= now <= 2 ^ 62;
  lo_buckets : Forall (fun b => rb_used b = true ->
    0 <= rb_tokens b <= rlm_burst rl /\ 0 <= rb_last_refill b <= now) (rlm_table rl)
}.

(** ** Lemmas on rounding *)

Lemma dround_small (z : Z) : Z.abs z <= 2 ^ 53 -> dround z = z.
Proof. intros. unfold dround. by replace (Z.abs z <=? 2 ^ 53) with true by lia. Qed.

Lemma round_even_ge (z e k : Z) : 0 <= e -> k * 2 ^ e <= z -> k * 2 ^ e <= round_even z e.
Proof.
  intros He Hk. unfold round_even. cbn zeta.
  assert (k <= z / 2 ^ e) by (apply Z.div_le_lower_bound; lia).
  case_goal; apply Z.mul_le_mono_nonneg_r; lia.
Qed.

(** Rounding does not bring a large value below 2 ^ 53. *)
Lemma dround_large (z : Z) : 2 ^ 53 <= z -> 2 ^ 53 <= dround z.
Proof.
  intros Hz. unfold dround. destruct (Z.leb_spec (Z.abs z) (2 ^ 53)); [done |].
  replace (0 <? z) with true by lia. rewrite Z.abs_eq by lia.
  assert (53 <= Z.log2 z) as Hl by (apply Z.log2_le_pow2; lia).
  transitivity (2 ^ Z.log2 z); [apply Z.pow_le_mono_r; lia |].
  replace (2 ^ Z.log2 z) with (2 ^ 52 * 2 ^ (Z.log2 z - 52)) by (rewrite <- Z.pow_add_r by lia; f_equal; lia).
  apply round_even_ge; [lia |]. rewrite <- Z.pow_add_r by lia.
  replace (52 + (Z.log2 z - 52)) with (Z.log2 z) by lia. apply Z.log2_spec. lia.
Qed.

(** Refilling in doubles and capping at the burst is exact. *)
Lemma refill_exact (t d rate burst : Z) :
  0 <= t <= burst -> burst <= INT_MAX -> 0 <= rate <= INT_MAX -> 0 <= d ->
  let tokens := dround (t + dround (dround d * rate)) in
  (if burst <? tokens then burst else tokens) = Z.min burst (t + d * rate).
Proof.
  unfold INT_MAX. intros Ht Hb Hr Hd. cbn zeta.
  assert (burst < 2 ^ 53) by lia.
  destruct (Z.leb_spec d (2 ^ 53)) as [Ed | Ed].
  - rewrite (dround_small d) by lia. destruct (Z.leb_spec (d * rate) (2 ^ 52)) as [Ep | Ep].
    + rewrite (dround_small (d * rate)) by lia. rewrite dround_small by lia.
      destruct (Z.ltb_spec burst (t + d * rate)); lia.
    + assert (2 ^ 52 <= dround (d * rate)).
      { destruct (Z.leb_spec (d * rate) (2 ^ 53)); [rewrite dround_small; lia |].
        pose proof (dround_large (d * rate)). lia. }
      assert (2 ^ 52 <= dround (t + dround (d * rate))).
      { destruct (Z.leb_spec (t + dround (d * rate)) (2 ^ 53)); [rewrite dround_small; lia |].
        pose proof (dround_large (t + dround (d * rate))). lia. }
      destruct (Z.ltb_spec burst (dround (t + dround (d * rate)))); lia.
  - destruct (Z.eq_dec rate 0) as [-> | Hr0].
    { rewrite !Z.mul_0_r. rewrite (dround_small 0), Z.add_0_r, dround_small by lia.
      destruct (Z.ltb_spec burst t); lia. }
    pose proof (dround_large d ltac:(lia)).
    assert (2 ^ 53 <= dround d * rate) by nia. assert (2 ^ 53 <= d * rate) by nia.
    pose proof (dround_large (dround d * rate) ltac:(lia)).
    pose proof (dround_large (t + dround (dround d * rate)) ltac:(lia)).
    destruct (Z.ltb_spec burst (dround (t + dround (dround d * rate)))); lia.
Qed.

(** ** Refinement *)

Lemma slot_lt (rl : rate_limiter_t) (now : Z) (ip : bytes) :
  limiter_ok rl now -> (slot ip < length (rlm_table rl))%nat.
Proof.
  intros H. pose proof (lo_size _ _ H) as Hs. unfold slot, RL_TABLE_SIZE in *.
  pose proof (Z.mod_pos_bound (ip_hash ip) 4096 ltac:(lia)). lia.
Qed.

Lemma level_range (rate burst : Z) (st : option (Z * Z)) (now : Z) :
  0 <= rate -> 0 <= burst ->
  match st with Some (t, last) => 0 <= t <= burst /\ last <= now | None => True end ->
  0 <= level rate burst st now <= burst.
Proof. intros. destruct st as [[t last] |]; cbn [level]; [nia | lia]. Qed.

Lemma bucket_of_range (rl : rate_limiter_t) (now : Z) (ip : bytes) :
  limiter_ok rl now ->
  match bucket_of rl ip with Some (t, last) => 0 <= t <= rlm_burst rl /\ 0 <= last <= now | None => True end.
Proof.
  intros H. unfold bucket_of. destruct (rlm_table rl !! slot ip) as [b |] eqn:Hb; [| done].
  destruct (rb_used b && _) eqn:E; [| done]. bprop. exact (Forall_lookup_1 _ _ _ _ (lo_buckets _ _ H) Hb H0).
Qed.

Lemma limiter_ok_later (rl : rate_limiter_t) (now now' : Z) :
  limiter_ok rl now -> now <= now' <= 2 ^ 62 -> limiter_ok rl now'.
Proof.
  intros [H1 H2 H3 H4 H5] Hn. constructor; auto; [lia |].
  eapply Forall_impl; [exact H5 |]. intros b Hb Hu. specialize (Hb Hu). lia.
Qed.

(** A new limiter. *)
Lemma rate_limiter_create_ok {RX : Regex} (mem : bool) (cfg : np_config_t) (rl : rate_limiter_t) (now : Z) :
  0 <= rl_requests_per_second (rate_limit cfg) <= INT_MAX -> 0 <= rl_burst (rate_limit cfg) <= INT_MAX -> 0 <= now <= 2 ^ 62 ->
  rate_limiter_create mem cfg = Some rl -> limiter_ok rl now.
Proof.
  intros Hr Hb Hn. unfold rate_limiter_create. destruct mem; [| discriminate]. set (t := replicate _ _). intros Heq.
  assert (rl = mk_rl t (rl_requests_per_second (rate_limit cfg)) (rl_burst (rate_limit cfg))) as -> by congruence.
  constructor; cbn [rlm_table rlm_rate rlm_burst]; [unfold t; by rewrite length_replicate, Z2Nat.id | done | done | done |].
  unfold t. apply Forall_replicate. discriminate.
Qed.

(** One request: the answer and the client's new bucket are those of the exact
    token bucket; a client in another slot is not affected; any other client of
    the slot loses its bucket. *)
Lemma rate_limit_check_spec (rl : rate_limiter_t) (ip : bytes) (now : Z) :
  limiter_ok rl now -> zlen ip <= 15 ->
  exists rl', rate_limit_check rl ip now =
      Ret ((take_token (rlm_rate rl) (rlm_burst rl) (bucket_of rl ip) now).1, rl') /\
    limiter_ok rl' now /\ rlm_rate rl' = rlm_rate rl /\ rlm_burst rl' = rlm_burst rl /\
    bucket_of rl' ip = Some (take_token (rlm_rate rl) (rlm_burst rl) (bucket_of rl ip) now).2 /\
    forall ip', ip' <> ip ->
      bucket_of rl' ip' = if decide (slot ip' = slot ip) then None else bucket_of rl ip'.
Proof.
  intros Hok Hip. pose proof (slot_lt rl now ip Hok) as Hlt.
  pose proof (lo_rate _ _ Hok) as Hr. pose proof (lo_burst _ _ Hok) as Hbu. pose proof (lo_now _ _ Hok) as Hn.
  destruct (lookup_lt_is_Some_2 _ _ Hlt) as [b Hb]. unfold rate_limit_check. rewrite Hb.
  set (b1 := if negb (rb_used b) || _ then _ else b).
  assert (rb_ip b1 = ip /\ rb_used b1 = true /\ 0 <= rb_tokens b1 <= rlm_burst rl /\ 0 <= rb_last_refill b1 <= now /\
    Z.min (rlm_burst rl) (rb_tokens b1 + (now - rb_last_refill b1) * rlm_rate rl) =
      level (rlm_rate rl) (rlm_burst rl) (bucket_of rl ip) now) as (Hbip & Hbu1 & Ht & Hl & Hlev).
  { unfold b1, bucket_of. rewrite Hb. destruct (rb_used b) eqn:Hu; cbn [negb orb andb];
      [destruct (strcmp_eq (rb_ip b) ip) eqn:Hs; cbn [negb] |].
    - pose proof (Forall_lookup_1 _ _ _ _ (lo_buckets _ _ Hok) Hb Hu) as [? ?]. cbn [level].
      apply eqb_bytes_true in Hs. split_and!; auto; lia.
    - cbn. unfold strncpy. rewrite take_ge by lia. split_and!; auto; lia.
    - cbn. unfold strncpy. rewrite take_ge by lia. split_and!; auto; lia. }
  rewrite i64_Ret, bind_Ret by (unfold LLONG_MIN, LLONG_MAX; lia).
  rewrite (refill_exact (rb_tokens b1) (now - rb_last_refill b1) (rlm_rate rl) (rlm_burst rl)), Hlev by lia.
  unfold take_token. set (t := level _ _ _ _) in *.
  assert (0 <= t <= rlm_burst rl) as Htr by (rewrite <- Hlev; nia).
  assert (forall t', 0 <= t' <= rlm_burst rl ->
    let rl' := mk_rl (<[slot ip := mk_rlb (rb_ip b1) t' now (rb_used b1)]> (rlm_table rl)) (rlm_rate rl) (rlm_burst rl) in
    limiter_ok rl' now /\ rlm_rate rl' = rlm_rate rl /\ rlm_burst rl' = rlm_burst rl /\
    bucket_of rl' ip = Some (t', now) /\
    forall ip', ip' <> ip -> bucket_of rl' ip' = if decide (slot ip' = slot ip) then None else bucket_of rl ip') as Hst.
  { intros t' Ht'. cbn zeta. rewrite Hbip, Hbu1. destruct Hok. split_and!; auto.
    - constructor; cbn; auto; [by rewrite length_insert |]. apply Forall_insert; [done |]. cbn. lia.
    - unfold bucket_of. cbn. rewrite list_lookup_insert_eq by done. cbn. unfold strcmp_eq. by rewrite eqb_bytes_refl.
    - intros ip' Hne. unfold bucket_of at 1. cbn. case_decide as E.
      + rewrite E, list_lookup_insert_eq by done. cbn. unfold strcmp_eq.
        by rewrite (proj2 (eqb_bytes_false ip ip')) by congruence.
      + by rewrite list_lookup_insert_ne by congruence. }
  destruct (Z.ltb_spec t 1).
  - eexists. split; [reflexivity |]. apply Hst. lia.
  - rewrite dround_small by (unfold INT_MAX in *; lia). eexists. split; [reflexivity |]. apply Hst. lia.
Qed.

(** ** Histories *)

(** The requests come in the order of their times, between [t0] and [t1]. *)
Fixpoint timed (t0 : Z) (evs : list (bytes * Z)) (t1 : Z) : Prop :=
  match evs with
  | [] => t0 <= t1
  | (_, t) :: evs' => t0 <= t /\ timed t evs' t1
  end.

(** How many requests from [ip] were admitted. *)
Fixpoint admitted (ip : bytes) (evs : list (bytes * Z)) (rs : list np_status_t) : Z :=
  match evs, rs with
  | (ip', _) :: evs', r :: rs' =>
      (if decide (ip' = ip /\ r = NP_OK) then 1 else 0) + admitted ip evs' rs'
  | _, _ => 0
  end.

Lemma timed_le (evs : list (bytes * Z)) (t0 t1 : Z) : timed t0 evs t1 -> t0 <= t1.
Proof. revert t0; induction evs as [| [ip t] evs IH]; cbn; [done |]. intros t0 [H1 H2%IH]. lia. Qed.

(** Waiting adds at most the rate to the level. *)
Lemma level_wait (rate burst : Z) (st : option (Z * Z)) (t t' : Z) :
  0 <= rate -> t <= t' -> level rate burst st t' <= level rate burst st t + rate * (t' - t).
Proof. intros. destruct st as [[u last] |]; cbn [level]; nia. Qed.

Lemma rate_limit_run_bound (ip : bytes) (evs : list (bytes * Z)) (rl : rate_limiter_t) (t0 t1 : Z) :
  limiter_ok rl t0 -> timed t0 evs t1 -> t1 <= 2 ^ 62 ->
  Forall (fun e => zlen e.1 <= 15 /\ (e.1 = ip \/ slot e.1 <> slot ip)) evs ->
  exists rs rl', rate_limit_run rl evs = Ret (rs, rl') /\ length rs = length evs /\
    admitted ip evs rs <=
      level (rlm_rate rl) (rlm_burst rl) (bucket_of rl ip) t0 + rlm_rate rl * (t1 - t0).
Proof.
  revert rl t0; induction evs as [| [ip' t] evs IH]; intros rl t0 Hok Ht Hmax Hev.
  - exists [], rl. cbn in Ht. split_and!; auto. cbn. pose proof (bucket_of_range rl t0 ip Hok).
    destruct Hok. enough (0 <= level (rlm_rate rl) (rlm_burst rl) (bucket_of rl ip) t0) by nia.
    apply level_range; try lia. destruct (bucket_of rl ip) as [[] |]; [lia | done].
  - cbn [timed] in Ht. destruct Ht as [Ht Hts]. apply Forall_cons in Hev as [[Hlen Hslot] Hev]. cbn [fst] in *.
    pose proof (timed_le _ _ _ Hts). pose proof (limiter_ok_later rl t0 t Hok ltac:(lia)) as Hokt.
    destruct (rate_limit_check_spec rl ip' t Hokt Hlen) as (rl1 & Hc & Hok1 & Hr1 & Hb1 & Hself & Hother).
    destruct (IH rl1 t Hok1 Hts Hmax Hev) as (rs & rl2 & Hrun & Hl & Hadm).
    cbn [rate_limit_run]. rewrite Hc, bind_Ret. cbn [fst snd]. rewrite Hrun, bind_Ret. eexists _, _. split; [done |].
    cbn [fst snd length admitted]. split; [by rewrite Hl |]. rewrite Hr1, Hb1 in Hadm.
    pose proof (level_wait (rlm_rate rl) (rlm_burst rl) (bucket_of rl ip) t0 t ltac:(destruct Hok; lia) Ht) as Hwait.
    destruct (decide (ip' = ip)) as [-> | Hne].
    + rewrite Hself in Hadm. unfold take_token in *. destruct (level _ _ (bucket_of rl ip) t <? 1); cbn [fst snd level] in *;
        rewrite Z.sub_diag, Z.mul_0_l, Z.add_0_r in Hadm; case_decide as E; lia || (destruct E; discriminate).
    + rewrite Hother in Hadm by done. destruct Hslot as [-> | Hslot]; [done |].
      rewrite decide_False in Hadm by done. rewrite decide_False by tauto. lia.
Qed.

(** ** Properties *)

(** C9 The limit: over any stretch of requests in time order between [t0] and
    [t1], from any clients, a client whose slot no other client of the stretch
    hashes to is admitted at most [burst + rate * (t1 - t0)] times, and the check
    is defined for every request.  The doubles the code computes with never round
    a decision. *)
Theorem rate_limit_bound (rl : rate_limiter_t) (ip : bytes) (evs : list (bytes * Z)) (t0 t1 : Z) :
  limiter_ok rl t0 -> timed t0 evs t1 -> t1 <= 2 ^ 62 ->
  Forall (fun e => zlen e.1 <= 15 /\ (e.1 = ip \/ slot e.1 <> slot ip)) evs ->
  exists rs rl', rate_limit_run rl evs = Ret (rs, rl') /\ length rs = length evs /\
    admitted ip evs rs <= rlm_burst rl + rlm_rate rl * (t1 - t0).
Proof.
  intros Hok Ht Hmax Hev. destruct (rate_limit_run_bound ip evs rl t0 t1 Hok Ht Hmax Hev) as (rs & rl' & Hr & Hl & Ha).
  exists rs, rl'. split_and!; auto.
  enough (level (rlm_rate rl) (rlm_burst rl) (bucket_of rl ip) t0 <= rlm_burst rl) by lia.
  apply level_range; try (destruct Hok; lia). pose proof (bucket_of_range rl t0 ip Hok).
  destruct (bucket_of rl ip) as [[] |]; [lia | done].
Qed.

Definition witness_limiter : rate_limiter_t := mk_rl (replicate 4096 (mk_rlb [] 0 0 false)) 1 2.

Lemma witness_limiter_ok (now : Z) : 0 <= now <= 2 ^ 62 -> limiter_ok witness_limiter now.
Proof.
  intros Hn. constructor; cbn [rlm_table rlm_rate rlm_burst witness_limiter]; try done; try (unfold INT_MAX; lia).
  apply Forall_replicate. done.
Qed.

Lemma rate_limit_bound_witness :
  exists rs rl', rate_limit_run witness_limiter
    [(lit "10.0.0.1", 100); (lit "10.0.0.1", 100); (lit "10.0.0.1", 100); (lit "10.0.0.1", 101)] = Ret (rs, rl') /\
    admitted (lit "10.0.0.1") [(lit "10.0.0.1", 100); (lit "10.0.0.1", 100); (lit "10.0.0.1", 100); (lit "10.0.0.1", 101)] rs <= 3.
Proof.
  destruct (rate_limit_bound witness_limiter (lit "10.0.0.1")
    [(lit "10.0.0.1", 100); (lit "10.0.0.1", 100); (lit "10.0.0.1", 100); (lit "10.0.0.1", 101)] 100 101)
    as (rs & rl' & Hr & _ & Ha).
  - apply witness_limiter_ok. lia.
  - cbn. lia.
  - discriminate.
  - repeat constructor; try (left; reflexivity); discriminate.
  - exists rs, rl'. split; [exact Hr | exact Ha].
Defined.

(** C24 One request refines the exact token bucket of its client: the answer is the
    one computed on integers, the client's bucket holds the exact level, clients
    in other slots keep their buckets, and another client that hashes to the same
    slot loses its bucket - so its next request starts again with a full burst. *)
Theorem rate_limit_check_refines (rl : rate_limiter_t) (ip ip' : bytes) (now : Z) :
  limiter_ok rl now -> zlen ip <= 15 -> ip' <> ip ->
  exists rl', rate_limit_check rl ip now =
      Ret ((take_token (rlm_rate rl) (rlm_burst rl) (bucket_of rl ip) now).1, rl') /\
    limiter_ok rl' now /\
    bucket_of rl' ip = Some (take_token (rlm_rate rl) (rlm_burst rl) (bucket_of rl ip) now).2 /\
    bucket_of rl' ip' = if decide (slot ip' = slot ip) then None else bucket_of rl ip'.
Proof.
  intros Hok Hl Hne. destruct (rate_limit_check_spec rl ip now Hok Hl) as (rl' & Hc & Hok' & _ & _ & Hs & Ho).
  exists rl'. split_and!; auto.
Qed.

Lemma rate_limit_check_refines_witness :
  exists rl', rate_limit_check witness_limiter (lit "10.0.0.1") 100 = Ret (NP_OK, rl') /\
    bucket_of rl' (lit "10.0.0.1") = Some (1, 100) /\ bucket_of rl' (lit "10.0.0.2") = None.
Proof.
  destruct (rate_limit_check_refines witness_limiter (lit "10.0.0.1") (lit "10.0.0.2") 100)
    as (rl' & Hc & _ & Hs & Ho).
  - apply witness_limiter_ok. lia.
  - discriminate.
  - discriminate.
  - exists rl'. split; [exact Hc |]. split; [exact Hs |]. rewrite Ho. reflexivity.
Defined.
