(* ===== verification/EventLoop.v ===== *)
(** * Event loop: src/net/event_loop.{h,c}

    The loop keeps, for every descriptor, the address of a handler structure it
    has allocated; epoll keeps that address with the descriptor and hands it back
    with each event.  The model has the heap of handler structures, the table, and
    the kernel's interest list; following the address of a freed structure is
    undefined.  A handler function is identified by a number; what it does is the
    argument [call] of the dispatch.  The answers of [malloc] and [epoll_ctl] are
    arguments. *)

From Stdlib Require Import ZArith Lia String.
From stdpp Require Import base numbers option list gmap.
From S2P Require Import Prelude.

(** ** Data *)

Definition EV_READ : Z := 0x001.
Definition EV_WRITE : Z := 0x004.
Definition EV_EDGE : Z := 0x80000000.
Definition EV_HUP : Z := 0x2000.

Record ev_handler_t : Type := mk_handler {
  h_fn : nat;
  h_ctx : Z;
  h_fd : Z
}.

Record event_loop_t : Type := mk_loop {
  el_heap : gmap Z ev_handler_t;
  el_handlers : gmap Z Z;
  el_interest : gmap Z (Z * Z);
  el_max_fd : Z
}.

(** [ok]: the allocations and [epoll_create1] succeed. *)
Definition event_loop_create (ok : bool) : option event_loop_t :=
  if ok then Some (mk_loop ∅ ∅ ∅ 65536) else None.

(** The loop that frees the handler structures of the given slots; freeing one
    twice is undefined. *)
Fixpoint free_handlers (handlers : gmap Z Z) (slots : list Z) (heap : gmap Z ev_handler_t)
    : cres (gmap Z ev_handler_t) :=
  match slots with
  | [] => Ret heap
  | i :: slots' =>
      match handlers !! i with
      | None => free_handlers handlers slots' heap
      | Some h => if bool_decide (is_Some (heap !! h)) then free_handlers handlers slots' (delete h heap) else Stuck
      end
  end.

(** What is left of the heap of handler structures. *)
Definition event_loop_destroy (l : event_loop_t) : cres (gmap Z ev_handler_t) :=
  free_handlers (el_handlers l) (seqZ 0 (el_max_fd l)) (el_heap l).

Inductive ctl_op : Type := EPOLL_CTL_ADD | EPOLL_CTL_MOD.

(** [epoll_ctl] itself: adding a descriptor that is there, or changing one that
    is not, fails; [ok = false] stands for its other failures. *)
Definition epoll_ctl (op : ctl_op) (fd events ptr : Z) (ok : bool) (m : gmap Z (Z * Z)) : option (gmap Z (Z * Z)) :=
  if negb ok then None
  else
    match op, m !! fd with
    | EPOLL_CTL_ADD, Some _ => None
    | EPOLL_CTL_MOD, None => None
    | _, _ => Some (<[fd := (events, ptr)]> m)
    end.

(** ** Operations *)

(** [mem] is the address [malloc] returns if it is asked. *)
Definition loop_ctl (l : event_loop_t) (op : ctl_op) (fd events : Z) (fn : nat) (ctx : Z)
    (mem : option Z) (ok : bool) : cres (np_status_t * event_loop_t) :=
  if el_max_fd l <=? fd then Ret (NP_ERR, l)
  else if fd <? 0 then Stuck
  else
    let slot := match el_handlers l !! fd with Some h => Some h | None => mem end in
    match slot with
    | None => Ret (NP_ERR_NOMEM, l)
    | Some h =>
        let heap := <[h := mk_handler fn ctx fd]> (el_heap l) in
        let handlers := <[fd := h]> (el_handlers l) in
        match epoll_ctl op fd events h ok (el_interest l) with
        | Some m => Ret (NP_OK, mk_loop heap handlers m (el_max_fd l))
        | None => Ret (NP_ERR, mk_loop heap handlers (el_interest l) (el_max_fd l))
        end
    end.

Definition event_loop_add (l : event_loop_t) (fd events : Z) (fn : nat) (ctx : Z) (mem : option Z) (ok : bool) :=
  loop_ctl l EPOLL_CTL_ADD fd events fn ctx mem ok.

Definition event_loop_mod (l : event_loop_t) (fd events : Z) (fn : nat) (ctx : Z) (mem : option Z) (ok : bool) :=
  loop_ctl l EPOLL_CTL_MOD fd events fn ctx mem ok.

(** The descriptor leaves the interest list whether or not it was there; the
    structure is freed. *)
Definition event_loop_del (l : event_loop_t) (fd : Z) : cres (np_status_t * event_loop_t) :=
  if el_max_fd l <=? fd then Ret (NP_ERR, l)
  else if fd <? 0 then Stuck
  else
    Ret (NP_OK,
         mk_loop (match el_handlers l !! fd with Some h => delete h (el_heap l) | None => el_heap l end)
           (delete fd (el_handlers l)) (delete fd (el_interest l)) (el_max_fd l)).

(** What a handler function does: to the loop, and to the flag that keeps it
    running. *)
Abbreviation handler_call := (nat -> Z -> Z -> Z -> event_loop_t * bool -> cres (event_loop_t * bool)).

(** The events of one [epoll_wait], in order: the stored address and the event
    bits. *)
Fixpoint dispatch (call : handler_call) (s : event_loop_t * bool) (events : list (Z * Z))
    : cres (event_loop_t * bool) :=
  match events with
  | [] => Ret s
  | (ptr, ev) :: events' =>
      if ptr =? 0 then dispatch call s events'
      else
        match el_heap s.1 !! ptr with
        | None => Stuck
        | Some h => s' ← call (h_fn h) (h_fd h) ev (h_ctx h) s; dispatch call s' events'
        end
  end.

(** The answers of [epoll_wait]. *)
Inductive wait_result : Type :=
| Events (events : list (Z * Z))
| Interrupted
| Failed.

(** The turns of the loop for as many answers as are given; [None] is a loop
    still waiting for the next one. *)
Fixpoint event_loop_run (call : handler_call) (s : event_loop_t * bool) (waits : list wait_result)
    : cres (option (event_loop_t * bool)) :=
  if negb s.2 then Ret (Some s)
  else
    match waits with
    | [] => Ret None
    | Interrupted :: waits' => event_loop_run call s waits'
    | Failed :: _ => Ret (Some s)
    | Events events :: waits' => s' ← dispatch call s events; event_loop_run call s' waits'
    end.

(** ** Invariant *)

(** Every registered descriptor has its own live structure, what epoll holds for a
    descriptor is that structure, and no structure is without its descriptor. *)
Record loop_inv (l : event_loop_t) : Prop := {
  li_live : forall fd h, el_handlers l !! fd = Some h -> exists x, el_heap l !! h = Some x /\ h_fd x = fd;
  li_interest : forall fd ev ptr, el_interest l !! fd = Some (ev, ptr) -> el_handlers l !! fd = Some ptr;
  li_owned : forall h x, el_heap l !! h = Some x -> el_handlers l !! h_fd x = Some h;
  li_range : forall fd h, el_handlers l !! fd = Some h -> 0 <= fd < el_max_fd l
}.

(** A batch [epoll_wait] can report: one event per descriptor, each with the
    address kept for it. *)
Definition reported (l : event_loop_t) (events : list (Z * Z)) : Prop :=
  NoDup events.*1 /\ Forall (fun ptr => exists fd, el_handlers l !! fd = Some ptr /\ is_Some (el_interest l !! fd)) events.*1.

(** A handler function that keeps to its own descriptor: it returns, and leaves
    the registration of every other descriptor alone. *)
Definition own_descriptor (call : handler_call) : Prop :=
  forall fn fd ev ctx s, loop_inv s.1 ->
    exists s', call fn fd ev ctx s = Ret s' /\ loop_inv s'.1 /\
      (forall fd', fd' <> fd -> el_handlers s'.1 !! fd' = el_handlers s.1 !! fd').

Inductive loop_op : Type :=
| OpAdd (fd events : Z) (fn : nat) (ctx : Z) (mem : option Z) (ok : bool)
| OpMod (fd events : Z) (fn : nat) (ctx : Z) (mem : option Z) (ok : bool)
| OpDel (fd : Z).

Definition loop_op_fd (o : loop_op) : Z :=
  match o with OpAdd fd _ _ _ _ _ | OpMod fd _ _ _ _ _ | OpDel fd => fd end.

Definition loop_exec1 (l : event_loop_t) (o : loop_op) : cres (np_status_t * event_loop_t) :=
  match o with
  | OpAdd fd events fn ctx mem ok => event_loop_add l fd events fn ctx mem ok
  | OpMod fd events fn ctx mem ok => event_loop_mod l fd events fn ctx mem ok
  | OpDel fd => event_loop_del l fd
  end.

(** [malloc] gives an address that is not in use. *)
Definition fresh_op (l : event_loop_t) (o : loop_op) : Prop :=
  match o with
  | OpAdd _ _ _ _ (Some a) _ | OpMod _ _ _ _ (Some a) _ => el_heap l !! a = None
  | _ => True
  end.

(** The loops that can arise from a new one. *)
Inductive loop_reachable : event_loop_t -> Prop :=
| loop_new l : event_loop_create true = Some l -> loop_reachable l
| loop_step l o r l' : loop_reachable l -> fresh_op l o -> loop_exec1 l o = Ret (r, l') -> loop_reachable l'.

(** ** Lemmas *)

Lemma handlers_inj (l : event_loop_t) (fd fd' h : Z) :
  loop_inv l -> el_handlers l !! fd = Some h -> el_handlers l !! fd' = Some h -> fd = fd'.
Proof.
  intros Hi H1 H2. destruct (li_live l Hi fd h H1) as (x & Hx & <-).
  destruct (li_live l Hi fd' h H2) as (y & Hy & <-). congruence.
Qed.

Lemma loop_ctl_inv (l l' : event_loop_t) (op : ctl_op) (fd events : Z) (fn : nat) (ctx : Z) (mem : option Z)
    (ok : bool) (r : np_status_t) :
  loop_inv l -> (forall a, mem = Some a -> el_heap l !! a = None) ->
  loop_ctl l op fd events fn ctx mem ok = Ret (r, l') -> loop_inv l'.
Proof.
  intros Hi Hm. unfold loop_ctl. destruct (el_max_fd l <=? fd) eqn:Hmax; [by intros [= <- <-] |].
  destruct (fd <? 0) eqn:Hneg; [discriminate |]. cbn zeta.
  assert (forall h, match el_handlers l !! fd with Some h => Some h | None => mem end = Some h ->
    forall fd' h', fd' <> fd -> el_handlers l !! fd' = Some h' -> h' <> h) as Hfresh.
  { intros h Hh fd' h' Hne Hf ->. destruct (el_handlers l !! fd) as [h0 |] eqn:E.
    - injection Hh as ->. apply Hne. by eapply handlers_inj.
    - destruct (li_live l Hi fd' h Hf) as (x & Hx & _). rewrite (Hm h Hh) in Hx. done. }
  destruct (match el_handlers l !! fd with Some h => Some h | None => mem end) as [h |] eqn:Hs; [| by intros [= <- <-]].
  assert (forall m', (forall fd' ev ptr, fd' <> fd -> m' !! fd' = Some (ev, ptr) -> el_handlers l !! fd' = Some ptr) ->
    (forall ev ptr, m' !! fd = Some (ev, ptr) -> ptr = h) ->
    loop_inv (mk_loop (<[h := mk_handler fn ctx fd]> (el_heap l)) (<[fd := h]> (el_handlers l)) m' (el_max_fd l))) as Hinv.
  { intros m' Hm1 Hm2. constructor; cbn.
    - intros fd' h'. destruct (decide (fd' = fd)) as [-> | Hne].
      + rewrite lookup_insert_eq. intros [= <-]. rewrite lookup_insert_eq. eauto.
      + rewrite lookup_insert_ne by done. intros Hf. rewrite lookup_insert_ne by (intros ->; by eapply Hfresh).
        by apply (li_live l Hi).
    - intros fd' ev ptr Hp. destruct (decide (fd' = fd)) as [-> | Hne].
      + rewrite lookup_insert_eq. f_equal. symmetry. by eapply Hm2.
      + rewrite lookup_insert_ne by done. by eapply Hm1.
    - intros h' x. destruct (decide (h' = h)) as [-> | Hne].
      + rewrite lookup_insert_eq. intros [= <-]. cbn. by rewrite lookup_insert_eq.
      + rewrite lookup_insert_ne by done. intros Hx. pose proof (li_owned l Hi _ _ Hx) as Ho.
        rewrite lookup_insert_ne; [done |]. intros ->. rewrite Ho in Hs. congruence.
    - intros fd' h'. destruct (decide (fd' = fd)) as [-> | Hne]; [intros _; lia |].
      rewrite lookup_insert_ne by done. apply (li_range l Hi). }
  destruct (epoll_ctl op fd events h ok (el_interest l)) as [m' |] eqn:Ec; intros [= <- <-]; apply Hinv.
  - intros fd' ev ptr Hne Hp. apply (li_interest l Hi fd' ev). unfold epoll_ctl in Ec.
    repeat case_hyp Ec; try discriminate; injection Ec as <-; by rewrite lookup_insert_ne in Hp.
  - intros ev ptr Hp. unfold epoll_ctl in Ec.
    repeat case_hyp Ec; try discriminate; injection Ec as <-; rewrite lookup_insert_eq in Hp; congruence.
  - intros fd' ev ptr _. apply (li_interest l Hi).
  - intros ev ptr Hp. pose proof (li_interest l Hi _ _ _ Hp) as Hh. rewrite Hh in Hs. congruence.
Qed.

Lemma event_loop_del_inv (l l' : event_loop_t) (fd : Z) (r : np_status_t) :
  loop_inv l -> event_loop_del l fd = Ret (r, l') -> loop_inv l'.
Proof.
  intros Hi. unfold event_loop_del. destruct (el_max_fd l <=? fd); [by intros [= <- <-] |].
  destruct (fd <? 0); [discriminate |]. intros [= <- <-]. constructor; cbn.
  - intros fd' h'. destruct (decide (fd' = fd)) as [-> | Hne]; [by rewrite lookup_delete_eq |].
    rewrite lookup_delete_ne by done. intros Hf. destruct (li_live l Hi fd' h' Hf) as (x & Hx & Hfd). exists x. split; [| done].
    destruct (el_handlers l !! fd) as [h |] eqn:E; [| done]. rewrite lookup_delete_ne; [done |].
    intros ->. apply Hne. by eapply handlers_inj.
  - intros fd' ev ptr. destruct (decide (fd' = fd)) as [-> | Hne]; [by rewrite lookup_delete_eq |].
    rewrite !lookup_delete_ne by done. apply (li_interest l Hi).
  - intros h' x Hx. assert (el_heap l !! h' = Some x) as Hx'.
    { destruct (el_handlers l !! fd); [by apply lookup_delete_Some in Hx as [_ Hx] | done]. }
    pose proof (li_owned l Hi _ _ Hx') as Ho. rewrite lookup_delete_ne; [done |]. intros ->. rewrite Ho in Hx.
    by rewrite lookup_delete_eq in Hx.
  - intros fd' h' Hf. apply lookup_delete_Some in Hf as [_ Hf]. by eapply (li_range l Hi).
Qed.

(** Freeing a list of distinct slots frees exactly their structures. *)
Lemma free_handlers_spec (l : event_loop_t) (slots : list Z) (heap : gmap Z ev_handler_t) :
  loop_inv l -> NoDup slots -> heap ⊆ el_heap l ->
  (forall i h, i ∈ slots -> el_handlers l !! i = Some h -> is_Some (heap !! h)) ->
  exists heap', free_handlers (el_handlers l) slots heap = Ret heap' /\ heap' ⊆ heap /\
    forall i h, i ∈ slots -> el_handlers l !! i = Some h -> heap' !! h = None.
Proof.
  intros Hi. revert heap. induction slots as [| i slots IH]; intros heap Hnd Hsub Hlive.
  { exists heap. split_and!; [done.. |]. set_solver. }
  apply NoDup_cons in Hnd as [Hn Hnd]. cbn. destruct (el_handlers l !! i) as [h |] eqn:E.
  - rewrite bool_decide_true by (eapply Hlive; [left | done]).
    destruct (IH (delete h heap)) as (heap' & Hf & Hs & Hgone); [done | | |].
    + etrans; [apply delete_subseteq | done].
    + intros j h' Hj Hh'. rewrite lookup_delete_ne; [eapply Hlive; [by right | done] |].
      intros ->. rewrite (handlers_inj l j i h') in Hj; done.
    + exists heap'. split; [done |]. split; [etrans; [exact Hs | apply delete_subseteq] |].
      intros j h' [-> | Hj]%elem_of_cons Hh'; [| by eapply Hgone]. rewrite E in Hh'. injection Hh' as <-.
      eapply lookup_weaken_None; [apply lookup_delete_eq | exact Hs].
  - destruct (IH heap) as (heap' & Hf & Hs & Hgone); [done | done | |].
    + intros j h' Hj. apply Hlive. by right.
    + exists heap'. split_and!; [done.. |]. intros j h' [-> | Hj]%elem_of_cons Hh'; [congruence | by eapply Hgone].
Qed.

Lemma event_loop_destroy_spec (l : event_loop_t) : loop_inv l -> event_loop_destroy l = Ret ∅.
Proof.
  intros Hi. unfold event_loop_destroy.
  destruct (free_handlers_spec l (seqZ 0 (el_max_fd l)) (el_heap l)) as (heap' & -> & Hs & Hgone);
    [done | apply NoDup_seqZ | done | |].
  - intros i h _ Hh. destruct (li_live l Hi i h Hh) as (x & Hx & _). by exists x.
  - f_equal. apply map_empty. intros h. destruct (heap' !! h) as [x |] eqn:E; [| done].
    assert (el_handlers l !! h_fd x = Some h) as Ho by (apply (li_owned l Hi); by eapply lookup_weaken).
    rewrite (Hgone (h_fd x) h) in E; [done | | done]. apply elem_of_seqZ. pose proof (li_range l Hi _ _ Ho). lia.
Qed.

Lemma loop_reachable_inv (l : event_loop_t) : loop_reachable l -> loop_inv l.
Proof.
  induction 1 as [l [= <-] | l o r l' _ IH Hf He]; [by constructor |].
  destruct o as [fd events fn ctx mem ok | fd events fn ctx mem ok | fd]; cbn in He.
  - eapply loop_ctl_inv, He; [done |]. by intros a ->.
  - eapply loop_ctl_inv, He; [done |]. by intros a ->.
  - by eapply event_loop_del_inv.
Qed.

Lemma loop_exec1_Ret (l : event_loop_t) (o : loop_op) :
  0 <= loop_op_fd o -> exists r l', loop_exec1 l o = Ret (r, l').
Proof.
  intros Hfd. destruct o; cbn in *;
    unfold event_loop_add, event_loop_mod, event_loop_del, loop_ctl; rewrite ?(proj2 (Z.ltb_ge _ 0)) by done;
    repeat case_match; eauto.
Qed.

(** Adding or changing a descriptor that succeeds stores the handler given. *)
Lemma loop_ctl_registers (l l' : event_loop_t) (op : ctl_op) (fd events : Z) (fn : nat) (ctx : Z)
    (mem : option Z) (ok : bool) :
  loop_ctl l op fd events fn ctx mem ok = Ret (NP_OK, l') ->
  exists ptr, el_interest l' !! fd = Some (events, ptr) /\ el_heap l' !! ptr = Some (mk_handler fn ctx fd).
Proof.
  unfold loop_ctl. destruct (el_max_fd l <=? fd); [discriminate |]. destruct (fd <? 0); [discriminate |]. cbn zeta.
  destruct (match el_handlers l !! fd with Some h => Some h | None => mem end) as [h |]; [| discriminate].
  destruct (epoll_ctl op fd events h ok (el_interest l)) as [m' |] eqn:Ec; intros [= <-].
  exists h. cbn. rewrite lookup_insert_eq. split; [| done]. unfold epoll_ctl in Ec.
  repeat case_hyp Ec; try discriminate; injection Ec as <-; by rewrite lookup_insert_eq.
Qed.

Lemma dispatch_own (call : handler_call) (s : event_loop_t * bool) (events : list (Z * Z)) :
  own_descriptor call -> loop_inv s.1 -> NoDup events.*1 ->
  Forall (fun ptr => exists fd, el_handlers s.1 !! fd = Some ptr) events.*1 ->
  exists s', dispatch call s events = Ret s' /\ loop_inv s'.1.
Proof.
  intros Hc. revert s. induction events as [| [ptr ev] events IH]; intros s Hi Hnd Hall; [by eexists |].
  rewrite fmap_cons in Hnd, Hall. apply NoDup_cons in Hnd as [Hn Hnd]. apply Forall_cons in Hall as [[fd Hfd] Hall].
  cbn in *. destruct (ptr =? 0); [by apply IH |].
  destruct (li_live _ Hi _ _ Hfd) as (h & Hh & Hhf). rewrite Hh.
  destruct (Hc (h_fn h) (h_fd h) ev (h_ctx h) s Hi) as (s' & Hs & Hi' & Hkeep). rewrite Hs. cbn.
  apply IH; [done.. |]. rewrite Forall_forall in Hall |- *. intros p Hin. destruct (Hall p Hin) as [fd' Hf'].
  exists fd'. rewrite Hkeep; [done |]. intros ->. congruence.
Qed.

(** ** Properties *)

(** Two handler functions and a loop for the witnesses: one waits for its own
    descriptor to be writable, the other closes descriptor 8. *)
Definition sample_own : handler_call := fun fn fd ev ctx s =>
  if fd <? 0 then Ret s else rl ← event_loop_mod s.1 fd EV_WRITE fn ctx None true; Ret (rl.2, s.2).

Definition sample_close : handler_call := fun fn fd ev ctx s => rl ← event_loop_del s.1 8; Ret (rl.2, s.2).

Definition sample_loop : event_loop_t :=
  mk_loop {[ 100 := mk_handler 2 0 7; 116 := mk_handler 1 0 8 ]} {[ 7 := 100; 8 := 116 ]}
    {[ 7 := (EV_READ, 100); 8 := (EV_READ, 116) ]} 65536.

Lemma sample_loop_inv : loop_inv sample_loop.
Proof.
  constructor; unfold sample_loop; cbn [el_handlers el_heap el_interest].
  - intros fd h Hh. apply lookup_insert_Some in Hh as [[<- <-] | [_ Hh]]; [eexists; split; vm_compute; reflexivity |].
    apply lookup_singleton_Some in Hh as [<- <-]. eexists; split; vm_compute; reflexivity.
  - intros fd ev ptr Hh. apply lookup_insert_Some in Hh as [[<- [= <- <-]] | [_ Hh]]; [vm_compute; reflexivity |].
    apply lookup_singleton_Some in Hh as [<- [= <- <-]]. vm_compute; reflexivity.
  - intros h x Hh. apply lookup_insert_Some in Hh as [[<- <-] | [_ Hh]]; [vm_compute; reflexivity |].
    apply lookup_singleton_Some in Hh as [<- <-]. vm_compute; reflexivity.
  - intros fd h Hh. cbn. apply lookup_insert_Some in Hh as [[<- _] | [_ Hh]]; [lia |].
    apply lookup_singleton_Some in Hh as [<- _]. lia.
Qed.

Lemma sample_own_descriptor : own_descriptor sample_own.
Proof.
  intros fn fd ev ctx s Hi. unfold sample_own. destruct (fd <? 0) eqn:Hneg; [by exists s |].
  destruct (loop_exec1_Ret s.1 (OpMod fd EV_WRITE fn ctx None true)) as (r & l' & He); [cbn; lia |]. cbn in He.
  rewrite He. exists (l', s.2). split; [done |]. cbn. split; [by eapply loop_ctl_inv in He |].
  intros fd' Hne. unfold event_loop_mod, loop_ctl in He. repeat case_hyp He; try discriminate; injection He as <- <-; cbn;
    by rewrite ?lookup_insert_ne.
Qed.

(** C16 In every loop that can arise by adding, changing and deleting descriptors,
    whatever [malloc] and [epoll_ctl] answer: the operations are defined on all
    descriptors; the address epoll keeps for a descriptor is that of a live handler
    structure of this descriptor; an addition or change that succeeds leaves the
    given function, context and events with the descriptor; and after a deletion
    the descriptor is in none of the tables.  Destroying the loop frees every
    handler structure, once. *)
Theorem event_loop_registration (l : event_loop_t) (o : loop_op) :
  loop_reachable l -> fresh_op l o -> 0 <= loop_op_fd o ->
  (forall fd ev ptr, el_interest l !! fd = Some (ev, ptr) -> exists h, el_heap l !! ptr = Some h /\ h_fd h = fd) /\
  event_loop_destroy l = Ret ∅ /\
  exists r l', loop_exec1 l o = Ret (r, l') /\ loop_reachable l' /\
    (r = NP_OK ->
     match o with
     | OpAdd fd events fn ctx _ _ | OpMod fd events fn ctx _ _ =>
         exists ptr, el_interest l' !! fd = Some (events, ptr) /\ el_heap l' !! ptr = Some (mk_handler fn ctx fd)
     | OpDel fd => el_interest l' !! fd = None /\ el_handlers l' !! fd = None
     end).
Proof.
  intros Hr Hf Hfd. pose proof (loop_reachable_inv l Hr) as Hi. split.
  - intros fd ev ptr He. apply (li_live l Hi), (li_interest l Hi fd ev ptr He).
  - split; [by apply event_loop_destroy_spec |]. destruct (loop_exec1_Ret l o Hfd) as (r & l' & He). exists r, l'.
    split; [done |]. split; [by eapply loop_step |]. intros ->. destruct o; cbn in He.
    + by eapply loop_ctl_registers.
    + by eapply loop_ctl_registers.
    + unfold event_loop_del in He. repeat case_hyp He; try discriminate; injection He as <-; cbn;
        by rewrite !lookup_delete_eq.
Qed.

Lemma event_loop_registration_witness :
  exists l, loop_reachable l /\ exists r l', loop_exec1 l (OpAdd 7 EV_READ 2 0 (Some 100) true) = Ret (r, l') /\
    r = NP_OK /\ exists ptr, el_interest l' !! 7 = Some (EV_READ, ptr) /\ el_heap l' !! ptr = Some (mk_handler 2 0 7).
Proof.
  exists (mk_loop ∅ ∅ ∅ 65536). split; [by apply loop_new |].
  destruct (event_loop_registration (mk_loop ∅ ∅ ∅ 65536) (OpAdd 7 EV_READ 2 0 (Some 100) true))
    as (_ & _ & r & l' & He & _ & Hok); [by apply loop_new | reflexivity | cbn; lia |].
  exists r, l'. split; [exact He |]. assert (r = NP_OK) as -> by (clear -He; vm_compute in He; by injection He). split; [reflexivity |].
  exact (Hok eq_refl).
Defined.

(** Handlers that change no registration but their own are safe: in a loop
    whose invariant holds, every batch that [epoll_wait] can report is dispatched
    without following a dead handler, and the invariant holds again. *)
Theorem event_loop_dispatch_safe (call : handler_call) (l : event_loop_t) (running : bool) (events : list (Z * Z)) :
  own_descriptor call -> loop_inv l -> reported l events ->
  exists l' running', dispatch call (l, running) events = Ret (l', running') /\ loop_inv l'.
Proof.
  intros Hc Hi [Hnd Hall].
  destruct (dispatch_own call (l, running) events) as ([l' running'] & Hd & Hi'); [done.. | | by exists l', running'].
  eapply Forall_impl; [exact Hall |]. intros ptr (fd & Hfd & _). by exists fd.
Qed.

Lemma event_loop_dispatch_safe_witness :
  exists l' running', dispatch sample_own (sample_loop, true) [(100, EV_READ); (116, EV_READ)] = Ret (l', running') /\ loop_inv l'.
Proof.
  apply (event_loop_dispatch_safe sample_own sample_loop true [(100, EV_READ); (116, EV_READ)]).
  - apply sample_own_descriptor.
  - apply sample_loop_inv.
  - split; [cbn; repeat constructor; set_solver |]. repeat constructor; [exists 7 | exists 8]; split; vm_compute; eauto.
Defined.

(** A handler that deletes another descriptor of its batch is not: when the
    first of two reported events has a handler that deletes the second's
    descriptor, as closing a connection deletes its upstream's, the loop follows
    the freed handler structure for the second. *)
Theorem dispatch_stale_handler (call : handler_call) (l l' : event_loop_t) (running : bool) (fd1 fd2 ev1 ev2 ptr1 ptr2 : Z)
    (h1 : ev_handler_t) (rest : list (Z * Z)) :
  loop_inv l -> fd1 <> fd2 -> 0 < ptr1 -> 0 < ptr2 ->
  el_handlers l !! fd1 = Some ptr1 -> el_handlers l !! fd2 = Some ptr2 -> el_heap l !! ptr1 = Some h1 ->
  event_loop_del l fd2 = Ret (NP_OK, l') ->
  call (h_fn h1) (h_fd h1) ev1 (h_ctx h1) (l, running) = Ret (l', running) ->
  dispatch call (l, running) ((ptr1, ev1) :: (ptr2, ev2) :: rest) = Stuck.
Proof.
  intros Hi Hne H1 H2 Hp1 Hp2 Hh1 Hdel Hcall. cbn. rewrite !(proj2 (Z.eqb_neq _ _)) by lia. rewrite Hh1, Hcall. cbn.
  unfold event_loop_del in Hdel. rewrite Hp2 in Hdel. repeat case_hyp Hdel; try discriminate.
  injection Hdel as <-. cbn. by rewrite lookup_delete_eq.
Qed.

Lemma dispatch_stale_handler_witness :
  exists l', event_loop_del sample_loop 8 = Ret (NP_OK, l') /\
    dispatch sample_close (sample_loop, true) [(100, EV_HUP); (116, EV_READ)] = Stuck.
Proof.
  eexists. split; [reflexivity |].
  eapply (dispatch_stale_handler sample_close sample_loop _ true 7 8 EV_HUP EV_READ 100 116 (mk_handler 2 0 7) []);
    [apply sample_loop_inv | lia | lia | lia | vm_compute; reflexivity.. | reflexivity | reflexivity].
Defined.
