(* ===== verification/Timeout.v ===== *)
(** * Timeout wheel: src/net/timeout.{h,c}

    Entries are structures on the heap, linked in both directions from an array of
    buckets; the model keeps the links, so that following the address of a freed
    entry is undefined.  The specification is a list of entries per bucket.  The
    callbacks are recorded in the order they are called: the only one in the
    program, the worker's [on_conn_timeout], does not touch the wheel.  [now] is
    what [time] returns, [mem] what [malloc] does. *)

From Stdlib Require Import ZArith Lia String.
From stdpp Require Import base numbers option list gmap.
From S2P Require Import Prelude.

(** ** Data *)

Record timeout_entry_t : Type := mk_entry {
  te_cb : nat;
  te_ctx : Z;
  te_deadline : Z;
  te_next : option Z;
  te_prev : option Z;
  te_bucket : Z;
  te_active : bool
}.

Record timeout_wheel_t : Type := mk_wheel {
  tw_heap : gmap Z timeout_entry_t;
  tw_buckets : list (option Z);
  tw_nbuckets : Z;
  tw_resolution : Z;
  tw_current : Z
}.

Definition set_te_next (v : option Z) (e : timeout_entry_t) : timeout_entry_t :=
  mk_entry (te_cb e) (te_ctx e) (te_deadline e) v (te_prev e) (te_bucket e) (te_active e).
Definition set_te_prev (v : option Z) (e : timeout_entry_t) : timeout_entry_t :=
  mk_entry (te_cb e) (te_ctx e) (te_deadline e) (te_next e) v (te_bucket e) (te_active e).

Definition set_heap (v : gmap Z timeout_entry_t) (tw : timeout_wheel_t) : timeout_wheel_t :=
  mk_wheel v (tw_buckets tw) (tw_nbuckets tw) (tw_resolution tw) (tw_current tw).
Definition set_buckets (v : list (option Z)) (tw : timeout_wheel_t) : timeout_wheel_t :=
  mk_wheel (tw_heap tw) v (tw_nbuckets tw) (tw_resolution tw) (tw_current tw).
Definition set_current (v : Z) (tw : timeout_wheel_t) : timeout_wheel_t :=
  mk_wheel (tw_heap tw) (tw_buckets tw) (tw_nbuckets tw) (tw_resolution tw) v.

(** ** Operations *)

Definition timeout_wheel_create (nbuckets resolution_sec : Z) (mem : bool) : option timeout_wheel_t :=
  if mem && (0 <=? nbuckets) then Some (mk_wheel ∅ (replicate (Z.to_nat nbuckets) None) nbuckets resolution_sec 0) else None.

(** [buckets[slot]], and a store to it. *)
Definition bucket (tw : timeout_wheel_t) (slot : Z) : cres (option Z) :=
  if slot <? 0 then Stuck
  else match tw_buckets tw !! Z.to_nat slot with Some head => Ret head | None => Stuck end.

Definition put_bucket (slot : Z) (head : option Z) (tw : timeout_wheel_t) : timeout_wheel_t :=
  set_buckets (<[Z.to_nat slot := head]> (tw_buckets tw)) tw.

(** A change to the entry behind a pointer. *)
Definition with_entry (a : Z) (f : timeout_entry_t -> timeout_entry_t) (tw : timeout_wheel_t)
    : cres timeout_wheel_t :=
  match tw_heap tw !! a with
  | Some e => Ret (set_heap (<[a := f e]> (tw_heap tw)) tw)
  | None => Stuck
  end.

(** [free]. *)
Definition free_entry (a : Z) (tw : timeout_wheel_t) : cres timeout_wheel_t :=
  match tw_heap tw !! a with
  | Some _ => Ret (set_heap (delete a (tw_heap tw)) tw)
  | None => Stuck
  end.

(** The lines that put an entry at the front of a bucket. *)
Definition link_front (slot a : Z) (tw : timeout_wheel_t) : cres timeout_wheel_t :=
  head ← bucket tw slot;
  tw ← with_entry a (fun e => mk_entry (te_cb e) (te_ctx e) (te_deadline e) head None slot (te_active e)) tw;
  tw ← match head with Some b => with_entry b (set_te_prev (Some a)) tw | None => Ret tw end;
  Ret (put_bucket slot (Some a) tw).

Definition timeout_add (tw : timeout_wheel_t) (seconds : Z) (cb : nat) (ctx : Z) (now : Z) (mem : option Z)
    : cres (option Z * timeout_wheel_t) :=
  match mem with
  | None => Ret (None, tw)
  | Some a =>
      deadline ← i64 (now + seconds);
      if (tw_resolution tw =? 0) || (tw_nbuckets tw =? 0) then Stuck
      else
        sum ← i32 (tw_current tw + Z.quot seconds (tw_resolution tw));
        tw' ← link_front (Z.rem sum (tw_nbuckets tw)) a
                (set_heap (<[a := mk_entry cb ctx deadline None None 0 true]> (tw_heap tw)) tw);
        Ret (Some a, tw')
  end.

Definition timeout_remove (tw : timeout_wheel_t) (entry : option Z) : cres timeout_wheel_t :=
  match entry with
  | None => Ret tw
  | Some a =>
      match tw_heap tw !! a with
      | None => Stuck
      | Some e =>
          if negb (te_active e) then Ret tw
          else
            tw ← match te_prev e with
                 | Some p => with_entry p (set_te_next (te_next e)) tw
                 | None => _ ← bucket tw (te_bucket e); Ret (put_bucket (te_bucket e) (te_next e) tw)
                 end;
            tw ← match te_next e with Some n => with_entry n (set_te_prev (te_prev e)) tw | None => Ret tw end;
            free_entry a tw
      end
  end.

(** The loop of [timeout_tick] over the entries taken out of the bucket; the
    result has the callbacks made. *)
Fixpoint tick_loop (fuel : nat) (now : Z) (e : option Z) (tw : timeout_wheel_t)
    : cres (list (nat * Z) * timeout_wheel_t) :=
  match e with
  | None => Ret ([], tw)
  | Some a =>
      match fuel with
      | O => Stuck
      | S f =>
          match tw_heap tw !! a with
          | None => Stuck
          | Some x =>
              if te_active x && (te_deadline x <=? now) then
                tw ← free_entry a tw;
                r ← tick_loop f now (te_next x) tw;
                Ret ((te_cb x, te_ctx x) :: r.1, r.2)
              else if te_active x then
                tw ← link_front (Z.rem (tw_current tw + 1) (tw_nbuckets tw)) a tw;
                tick_loop f now (te_next x) tw
              else
                tw ← free_entry a tw;
                tick_loop f now (te_next x) tw
          end
      end
  end.

Definition timeout_tick (tw : timeout_wheel_t) (now : Z) : cres (list (nat * Z) * timeout_wheel_t) :=
  if tw_nbuckets tw =? 0 then Stuck
  else
    let current := Z.rem (tw_current tw + 1) (tw_nbuckets tw) in
    head ← bucket tw current;
    tick_loop (size (tw_heap tw)) now head (put_bucket current None (set_current current tw)).

(** Freeing one chain, then all. *)
Fixpoint free_chain (fuel : nat) (e : option Z) (tw : timeout_wheel_t) : cres timeout_wheel_t :=
  match e with
  | None => Ret tw
  | Some a =>
      match fuel with
      | O => Stuck
      | S f =>
          match tw_heap tw !! a with
          | None => Stuck
          | Some x => tw ← free_entry a tw; free_chain f (te_next x) tw
          end
      end
  end.

Fixpoint free_buckets (heads : list (option Z)) (tw : timeout_wheel_t) : cres timeout_wheel_t :=
  match heads with
  | [] => Ret tw
  | e :: heads' => tw ← free_chain (size (tw_heap tw)) e tw; free_buckets heads' tw
  end.

(** What is left of the entries. *)
Definition timeout_wheel_destroy (tw : timeout_wheel_t) : cres (gmap Z timeout_entry_t) :=
  tw' ← free_buckets (tw_buckets tw) tw; Ret (tw_heap tw').

(** ** Specification: a list of timers per bucket *)

Record timer : Type := mk_timer {
  t_addr : Z;
  t_cb : nat;
  t_ctx : Z;
  t_deadline : Z
}.

Definition due (now : Z) (t : timer) : bool := t_deadline t <=? now.

Abbreviation addrs l := (t_addr <$> l).

(** The new front bucket: what is due is called, the rest waits in the next. *)
Definition spec_tick (current : nat) (now : Z) (B : list (list timer)) : list (nat * Z) * list (list timer) :=
  let next := ((current + 1) mod length B)%nat in
  let l := default [] (B !! current) in
  let B1 := <[current := []]> B in
  ((fun t => (t_cb t, t_ctx t)) <$> filter (fun t => due now t) l,
   <[next := rev (filter (fun t => negb (due now t)) l) ++ default [] (B1 !! next)]> B1).

(** A chain of live entries that is the list [l], in bucket [b]. *)
Fixpoint dll (h : gmap Z timeout_entry_t) (prev head : option Z) (b : Z) (l : list timer) : Prop :=
  match l with
  | [] => head = None
  | t :: l' =>
      head = Some (t_addr t) /\
      exists next, h !! t_addr t = Some (mk_entry (t_cb t) (t_ctx t) (t_deadline t) next prev b true) /\
        dll h (Some (t_addr t)) next b l'
  end.

(** The wheel holds the lists [B]; [D] are entries on the heap that are in no
    bucket. *)
Record wheel_rep (tw : timeout_wheel_t) (B : list (list timer)) (D : list timer) : Prop := {
  wr_length : length (tw_buckets tw) = length B;
  wr_nbuckets : tw_nbuckets tw = zlen B;
  wr_current : 0 <= tw_current tw < zlen B;
  wr_resolution : 0 < tw_resolution tw;
  wr_lists : forall i l, B !! i = Some l ->
    exists head, tw_buckets tw !! i = Some head /\ dll (tw_heap tw) None head (Z.of_nat i) l;
  wr_nodup : NoDup (addrs (D ++ concat B));
  wr_heap : forall a, is_Some (tw_heap tw !! a) <-> a ∈ addrs (D ++ concat B)
}.

(** ** Lemmas *)

(** *** Chains *)

Lemma dll_frame (h h' : gmap Z timeout_entry_t) (prev head : option Z) (b : Z) (l : list timer) :
  (forall a, a ∈ addrs l -> h' !! a = h !! a) -> dll h prev head b l -> dll h' prev head b l.
Proof.
  revert prev head. induction l as [| t l IH]; intros prev head Hf; [done |].
  intros (-> & next & Ht & Hl). split; [done |]. exists next. split.
  - rewrite Hf; [done |]. rewrite fmap_cons. by left.
  - apply IH; [| done]. intros a Ha. apply Hf. rewrite fmap_cons. by right.
Qed.

(** Every entry of a chain carries its bucket's number. *)
Lemma dll_bucket (h : gmap Z timeout_entry_t) (prev head : option Z) (b a : Z) (l : list timer) :
  dll h prev head b l -> a ∈ addrs l -> exists e, h !! a = Some e /\ te_bucket e = b.
Proof.
  revert prev head. induction l as [| t l IH]; intros prev head; [set_solver |].
  intros (-> & next & Ht & Hl). rewrite fmap_cons. intros [-> | Ha]%elem_of_cons; [| by eapply IH]. eauto.
Qed.

Lemma dll_set_prev (h : gmap Z timeout_entry_t) (p q : option Z) (a b : Z) (l : list timer) :
  NoDup (addrs l) -> dll h p (Some a) b l ->
  exists e, h !! a = Some e /\ dll (<[a := set_te_prev q e]> h) q (Some a) b l.
Proof.
  destruct l as [| t l]; [done |]. rewrite fmap_cons. intros [Hn Hnd]%NoDup_cons ([= ->] & next & Ht & Hl).
  eexists. split; [exact Ht |]. split; [done |]. exists next. split; [by rewrite lookup_insert_eq |].
  eapply dll_frame, Hl. intros x Hx. rewrite lookup_insert_ne; [done |]. intros <-. done.
Qed.

(** A new first entry. *)
Lemma dll_push (h : gmap Z timeout_entry_t) (head : option Z) (b : Z) (t : timer) (l : list timer) :
  NoDup (addrs l) -> (t_addr t ∉ addrs l) -> dll h None head b l ->
  let h1 := <[t_addr t := mk_entry (t_cb t) (t_ctx t) (t_deadline t) head None b true]> h in
  exists h2,
    (match head with Some a => e ← h1 !! a; Some (<[a := set_te_prev (Some (t_addr t)) e]> h1) | None => Some h1 end) = Some h2 /\
    dll h2 None (Some (t_addr t)) b (t :: l) /\
    (forall a, a <> t_addr t -> (a ∉ addrs l) -> h2 !! a = h !! a) /\
    (forall a, is_Some (h2 !! a) <-> a = t_addr t \/ is_Some (h !! a)).
Proof.
  intros Hnd Hn Hl h1.
  assert (forall a, is_Some (h1 !! a) <-> a = t_addr t \/ is_Some (h !! a)) as Hd1.
  { intros a. subst h1. destruct (decide (a = t_addr t)) as [-> | Hne];
      [rewrite lookup_insert_eq | rewrite lookup_insert_ne by done]; naive_solver. }
  assert (dll h1 None head b l) as Hl1.
  { eapply dll_frame, Hl. intros a Ha. subst h1. rewrite lookup_insert_ne; [done |]. by intros <-. }
  destruct head as [a |].
  - destruct (dll_set_prev h1 None (Some (t_addr t)) a b l Hnd Hl1) as (e & He & Hl2).
    rewrite He. eexists. split; [reflexivity |].
    assert (a ∈ addrs l) as Ha by (destruct l; [done |]; destruct Hl as [Heq _]; injection Heq as ->; rewrite fmap_cons; by left).
    assert (a <> t_addr t) as Hat by congruence. split_and!.
    + split; [done |]. exists (Some a). rewrite lookup_insert_ne by done. subst h1. rewrite lookup_insert_eq. done.
    + intros x Hx Hxl. rewrite lookup_insert_ne by congruence. subst h1. by rewrite lookup_insert_ne by done.
    + intros x. rewrite <- Hd1. destruct (decide (x = a)) as [-> | Hne];
        [rewrite lookup_insert_eq, He | rewrite lookup_insert_ne by done]; naive_solver.
  - eexists. split; [reflexivity |]. split_and!; [| | exact Hd1].
    + split; [done |]. exists None. subst h1. rewrite lookup_insert_eq. split; [done |].
      destruct l; [done |]. by destruct Hl as [[=] _].
    + intros x Hx _. subst h1. by rewrite lookup_insert_ne by done.
Qed.

(** *** The lists of all buckets *)

Lemma concat_insert_perm {A} (B : list (list A)) (i : nat) (l l' : list A) :
  B !! i = Some l -> concat (<[i := l']> B) ++ l ≡ₚ l' ++ concat B.
Proof.
  revert i. induction B as [| x B IH]; intros [| i] Hi; [done | done | |].
  - injection Hi as ->. cbn. solve_Permutation.
  - cbn in *. rewrite <- app_assoc. rewrite (IH i Hi). solve_Permutation.
Qed.

Lemma concat_NoDup {A} (B : list (list A)) (i : nat) (l : list A) : NoDup (concat B) -> B !! i = Some l -> NoDup l.
Proof. intros Hnd Hi. rewrite <- (concat_insert_perm B i l []) in Hnd by done. by apply NoDup_app in Hnd as (_ & _ & ?). Qed.

Lemma elem_of_concat_lookup {A} (B : list (list A)) (i : nat) (l : list A) (x : A) :
  B !! i = Some l -> x ∈ l -> x ∈ concat B.
Proof. intros Hi Hx. pose proof (concat_insert_perm B i l [] Hi) as <-. apply elem_of_app. by right. Qed.

Lemma rep_list_NoDup (tw : timeout_wheel_t) (B : list (list timer)) (D l : list timer) (i : nat) :
  wheel_rep tw B D -> B !! i = Some l -> NoDup (addrs l).
Proof.
  intros Hr Hi. pose proof (wr_nodup _ _ _ Hr) as Hnd. rewrite fmap_app in Hnd. apply NoDup_app in Hnd as (_ & _ & Hnd).
  rewrite <- (concat_insert_perm B i l [] Hi), fmap_app in Hnd. by apply NoDup_app in Hnd as (_ & _ & ?).
Qed.

Lemma rep_detached (tw : timeout_wheel_t) (B : list (list timer)) (D l : list timer) (i : nat) (a : Z) :
  wheel_rep tw B D -> B !! i = Some l -> a ∈ addrs D -> (a ∉ addrs l).
Proof.
  intros Hr Hi Ha Hl. pose proof (wr_nodup _ _ _ Hr) as Hnd. rewrite fmap_app in Hnd.
  apply NoDup_app in Hnd as (_ & Hn & _). apply (Hn a Ha). apply list_elem_of_fmap in Hl as (t & -> & Ht).
  apply list_elem_of_fmap_2. by eapply elem_of_concat_lookup.
Qed.

(** A store that changes only entries of bucket [i] and entries outside the
    buckets leaves the other buckets' chains. *)
Lemma rep_other_lists (tw : timeout_wheel_t) (h : gmap Z timeout_entry_t) (B : list (list timer)) (D l l' : list timer)
    (i j : nat) (head : option Z) :
  wheel_rep tw B D -> B !! i = Some l -> B !! j = Some l' -> i <> j ->
  (forall a, (a ∉ addrs D) -> (a ∉ addrs l) -> h !! a = tw_heap tw !! a) ->
  dll (tw_heap tw) None head (Z.of_nat j) l' -> dll h None head (Z.of_nat j) l'.
Proof.
  intros Hr Hi Hj Hij Hh Hl. eapply dll_frame, Hl. intros a Ha. apply Hh.
  - intros HD. by eapply rep_detached in HD.
  - intros Hal. destruct (wr_lists _ _ _ Hr i l Hi) as (hd & _ & Hd).
    destruct (dll_bucket _ _ _ _ _ _ Hd Hal) as (e & He & Hb). destruct (dll_bucket _ _ _ _ _ _ Hl Ha) as (e' & He' & Hb').
    rewrite He in He'. injection He' as <-. lia.
Qed.

Lemma bucket_Ret (tw : timeout_wheel_t) (B : list (list timer)) (D l : list timer) (i : nat) :
  wheel_rep tw B D -> B !! i = Some l ->
  exists head, bucket tw (Z.of_nat i) = Ret head /\ dll (tw_heap tw) None head (Z.of_nat i) l.
Proof.
  intros Hr Hi. destruct (wr_lists _ _ _ Hr i l Hi) as (head & Hb & Hd). exists head. split; [| done].
  unfold bucket. rewrite (proj2 (Z.ltb_ge _ 0)) by lia. by rewrite Nat2Z.id, Hb.
Qed.

(** Replacing the list of one bucket. *)
Lemma rep_update (tw : timeout_wheel_t) (h : gmap Z timeout_entry_t) (B : list (list timer)) (D D' l l' : list timer)
    (i : nat) (head : option Z) :
  wheel_rep tw B D -> B !! i = Some l -> D' ++ l' ≡ₚ D ++ l ->
  dll h None head (Z.of_nat i) l' ->
  (forall a, (a ∉ addrs D) -> (a ∉ addrs l) -> h !! a = tw_heap tw !! a) ->
  (forall a, is_Some (h !! a) <-> is_Some (tw_heap tw !! a)) ->
  wheel_rep (put_bucket (Z.of_nat i) head (set_heap h tw)) (<[i := l']> B) D'.
Proof.
  intros Hr Hi Hp Hd Hf Hdom.
  assert (D' ++ concat (<[i := l']> B) ≡ₚ D ++ concat B) as Hperm.
  { apply (Permutation_app_inv_r l). rewrite <- !app_assoc, (concat_insert_perm B i l l' Hi).
    rewrite !app_assoc, Hp. solve_Permutation. }
  pose proof Hr as [Hlen Hn Hc Hres Hlists Hnd Hheap].
  constructor; cbn; rewrite ?length_insert, ?Hperm, ?Nat2Z.id; [done.. | | done |].
  - intros j x Hj. destruct (decide (i = j)) as [<- | Hne].
    + rewrite list_lookup_insert_eq in Hj by (by eapply lookup_lt_Some). injection Hj as <-. exists head.
      rewrite list_lookup_insert_eq by (rewrite Hlen; by eapply lookup_lt_Some). done.
    + rewrite list_lookup_insert_ne in Hj by done. destruct (Hlists j x Hj) as (hd & Hb & Hx). exists hd.
      rewrite list_lookup_insert_ne by done. split; [done |]. by eapply rep_other_lists with (i := i).
  - intros a. rewrite Hdom, Hperm. apply Hheap.
Qed.

(** *** Linking and freeing *)

Definition entry_is (t : timer) (e : timeout_entry_t) : Prop :=
  te_cb e = t_cb t /\ te_ctx e = t_ctx t /\ te_deadline e = t_deadline t /\ te_active e = true.

Lemma with_entry_Ret (tw : timeout_wheel_t) (a : Z) (f : timeout_entry_t -> timeout_entry_t) (e : timeout_entry_t) :
  tw_heap tw !! a = Some e -> with_entry a f tw = Ret (set_heap (<[a := f e]> (tw_heap tw)) tw).
Proof. unfold with_entry. by intros ->. Qed.

(** What the operations never change. *)
Definition same_frame (tw tw' : timeout_wheel_t) : Prop :=
  tw_current tw' = tw_current tw /\ tw_nbuckets tw' = tw_nbuckets tw /\ tw_resolution tw' = tw_resolution tw.

Lemma link_front_rep (tw : timeout_wheel_t) (B : list (list timer)) (D l : list timer) (i : nat) (t : timer) (e : timeout_entry_t) :
  wheel_rep tw B (t :: D) -> B !! i = Some l -> tw_heap tw !! t_addr t = Some e -> entry_is t e ->
  exists tw', link_front (Z.of_nat i) (t_addr t) tw = Ret tw' /\ wheel_rep tw' (<[i := t :: l]> B) D /\ same_frame tw tw' /\
    (forall a, a ∈ addrs D -> tw_heap tw' !! a = tw_heap tw !! a).
Proof.
  intros Hr Hi He (H1 & H2 & H3 & H4). destruct (bucket_Ret tw B _ l i Hr Hi) as (head & Hb & Hd).
  pose proof (rep_list_NoDup tw B _ l i Hr Hi) as Hnd.
  assert (t_addr t ∉ addrs l) as Hn by (eapply rep_detached; [exact Hr | exact Hi |]; rewrite fmap_cons; by left).
  destruct (dll_push (tw_heap tw) head (Z.of_nat i) t l Hnd Hn Hd) as (h2 & Hh2 & Hd2 & Hf & Hdom).
  exists (put_bucket (Z.of_nat i) (Some (t_addr t)) (set_heap h2 tw)). split_and!; [| | done |].
  - unfold link_front. rewrite Hb. cbn. rewrite (with_entry_Ret _ _ _ _ He). cbn. rewrite H1, H2, H3, H4.
    destruct head as [a |]; cbn in *.
    + unfold with_entry. cbn.
      destruct (<[t_addr t := mk_entry (t_cb t) (t_ctx t) (t_deadline t) (Some a) None (Z.of_nat i) true]> (tw_heap tw) !! a);
        [| discriminate]. by injection Hh2 as <-.
    + by injection Hh2 as <-.
  - eapply rep_update; [exact Hr | exact Hi | solve_Permutation | exact Hd2 | |].
    + intros a Ha. rewrite fmap_cons in Ha. apply not_elem_of_cons in Ha as [Ha _]. by apply Hf.
    + intros a. rewrite Hdom. split; [intros [-> | ?]; [by exists e | done] | by right].
  - intros a Ha. cbn. apply Hf.
    + intros ->. pose proof (wr_nodup _ _ _ Hr) as Hx. cbn in Hx. rewrite fmap_app in Hx.
      apply NoDup_cons in Hx as [Hx _]. apply Hx, elem_of_app. by left.
    + eapply rep_detached; [exact Hr | exact Hi |]. rewrite fmap_cons. by right.
Qed.

Lemma free_entry_rep (tw : timeout_wheel_t) (B : list (list timer)) (D : list timer) (t : timer) :
  wheel_rep tw B (t :: D) ->
  free_entry (t_addr t) tw = Ret (set_heap (delete (t_addr t) (tw_heap tw)) tw) /\
  wheel_rep (set_heap (delete (t_addr t) (tw_heap tw)) tw) B D.
Proof.
  intros Hr. assert (is_Some (tw_heap tw !! t_addr t)) as [e He] by (apply (wr_heap _ _ _ Hr); cbn; by left).
  split; [by unfold free_entry; rewrite He |]. pose proof (wr_nodup _ _ _ Hr) as Hnd. cbn in Hnd.
  apply NoDup_cons in Hnd as [Hn Hnd]. pose proof Hr as [Hlen Hnb Hc Hres Hlists _ Hheap].
  constructor; cbn; [done.. | | done |].
  - intros i l Hi. destruct (Hlists i l Hi) as (head & Hb & Hd). exists head. split; [done |].
    eapply dll_frame, Hd. intros a Ha. rewrite lookup_delete_ne; [done |]. intros <-.
    by apply (rep_detached tw B (t :: D) l i (t_addr t) Hr Hi); [cbn; left |].
  - intros a. destruct (decide (a = t_addr t)) as [-> | Hne].
    + rewrite lookup_delete_eq. split; [by intros [? [=]] | intros Ha; by destruct Hn].
    + rewrite lookup_delete_ne by done. rewrite Hheap. cbn. rewrite elem_of_cons. naive_solver.
Qed.

(** *** The tick *)

Lemma tick_loop_rep (fuel : nat) (now : Z) (l l0 : list timer) (tw : timeout_wheel_t) (B : list (list timer))
    (prev head : option Z) (b : Z) (nxt : nat) :
  wheel_rep tw B l -> dll (tw_heap tw) prev head b l -> (length l <= fuel)%nat ->
  Z.rem (tw_current tw + 1) (tw_nbuckets tw) = Z.of_nat nxt -> B !! nxt = Some l0 ->
  exists tw', tick_loop fuel now head tw = Ret ((fun t => (t_cb t, t_ctx t)) <$> filter (fun t => due now t) l, tw') /\
    wheel_rep tw' (<[nxt := rev (filter (fun t => negb (due now t)) l) ++ l0]> B) [] /\ same_frame tw tw'.
Proof.
  revert l l0 tw B prev head. induction fuel as [| fuel IH]; intros [| t l] l0 tw B prev head Hr Hd Hf Hn Hl0; cbn in Hf; try lia.
  - cbn in Hd. subst head. exists tw. cbn. rewrite list_insert_id by done. done.
  - cbn in Hd. subst head. exists tw. cbn. rewrite list_insert_id by done. done.
  - destruct Hd as (-> & next & He & Hd). cbn [tick_loop]. rewrite He. cbn [te_active te_deadline te_cb te_ctx te_next andb].
    rewrite !filter_cons. change (t_deadline t <=? now) with (due now t).
    destruct (due now t) eqn:Hdue.
    + destruct (free_entry_rep tw B l t Hr) as [Hfree Hr']. rewrite Hfree. cbn [mbind cres_mbind].
      destruct (IH l l0 _ B (Some (t_addr t)) next Hr') as (tw' & Ht & Hrep & Hfr); [| lia | done | done |].
      { cbn. eapply dll_frame, Hd. intros a Ha. apply lookup_delete_ne. intros <-.
        pose proof (wr_nodup _ _ _ Hr) as Hx. cbn in Hx. rewrite fmap_app in Hx. apply NoDup_cons in Hx as [Hx _].
        apply Hx, elem_of_app. by left. }
      rewrite Ht. exists tw'. cbn. done.
    + rewrite Hn. destruct (link_front_rep tw B l l0 nxt t _ Hr Hl0 He) as (tw1 & Hlf & Hr1 & Hfr1 & Hkeep); [done |].
      rewrite Hlf. cbn [mbind cres_mbind]. destruct Hfr1 as (Hc1 & Hn1 & Hres1).
      destruct (IH l (t :: l0) tw1 (<[nxt := t :: l0]> B) (Some (t_addr t)) next Hr1) as (tw' & Ht & Hrep & Hfr).
      * eapply dll_frame, Hd. exact Hkeep.
      * lia.
      * by rewrite Hc1, Hn1.
      * apply list_lookup_insert_eq. by eapply lookup_lt_Some.
      * exists tw'. split; [done |]. split; [| destruct Hfr as (? & ? & ?); split_and!; congruence].
        rewrite list_insert_insert_eq in Hrep. rewrite decide_True by done. cbn [rev]. by rewrite <- app_assoc.
Qed.

Lemma rep_chain_length (tw : timeout_wheel_t) (B : list (list timer)) (l : list timer) (i : nat) :
  wheel_rep tw B [] -> B !! i = Some l -> (length l <= size (tw_heap tw))%nat.
Proof.
  intros Hr Hi. pose proof (rep_list_NoDup _ _ _ _ _ Hr Hi) as Hnd.
  rewrite <- (length_fmap t_addr), <- (size_list_to_set (C := gset Z)) by done. rewrite <- size_dom. apply subseteq_size.
  intros a Ha%elem_of_list_to_set. apply elem_of_dom, (wr_heap _ _ _ Hr). cbn.
  apply list_elem_of_fmap in Ha as (t & -> & Ht). apply list_elem_of_fmap_2. by eapply elem_of_concat_lookup.
Qed.

Lemma set_current_rep (tw : timeout_wheel_t) (B : list (list timer)) (D : list timer) (c : Z) :
  wheel_rep tw B D -> 0 <= c < zlen B -> wheel_rep (set_current c tw) B D.
Proof. intros [] Hc. by constructor. Qed.

Lemma rem_to_nat (x n : Z) : 0 <= x -> 0 < n -> Z.rem x n = Z.of_nat (Z.to_nat x mod Z.to_nat n).
Proof. intros Hx Hn. rewrite Z.rem_mod_nonneg, Nat2Z.inj_mod, !Z2Nat.id by lia. done. Qed.

Lemma next_slot (tw : timeout_wheel_t) (B : list (list timer)) (D : list timer) :
  wheel_rep tw B D ->
  Z.rem (tw_current tw + 1) (tw_nbuckets tw) = Z.of_nat ((Z.to_nat (tw_current tw) + 1) mod length B).
Proof.
  intros Hr. pose proof (wr_current _ _ _ Hr). rewrite (wr_nbuckets _ _ _ Hr), rem_to_nat by lia.
  by rewrite Nat2Z.id, Z2Nat.inj_add by lia.
Qed.

Lemma timeout_tick_rep (tw : timeout_wheel_t) (B : list (list timer)) (now : Z) :
  wheel_rep tw B [] ->
  let c := ((Z.to_nat (tw_current tw) + 1) mod length B)%nat in
  exists tw', timeout_tick tw now = Ret ((spec_tick c now B).1, tw') /\ wheel_rep tw' (spec_tick c now B).2 [] /\
    tw_current tw' = Z.of_nat c.
Proof.
  intros Hr c. pose proof (wr_current _ _ _ Hr) as Hc. pose proof (wr_nbuckets _ _ _ Hr) as Hn.
  assert (c < length B)%nat as Hlt by (apply Nat.mod_upper_bound; lia).
  destruct (lookup_lt_is_Some_2 B c Hlt) as [l Hl].
  unfold timeout_tick. rewrite Hn, (proj2 (Z.eqb_neq _ 0)) by lia. rewrite <- Hn, (next_slot tw B [] Hr). fold c. cbn zeta.
  destruct (bucket_Ret tw B [] l c Hr Hl) as (head & Hb & Hd). rewrite Hb. cbn [mbind cres_mbind].
  assert (wheel_rep (put_bucket (Z.of_nat c) None (set_current (Z.of_nat c) tw)) (<[c := []]> B) l) as Hr1.
  { apply (rep_update (set_current (Z.of_nat c) tw) (tw_heap tw) B [] l l [] c None);
      [apply set_current_rep; [done | lia] | done | by rewrite app_nil_r | done..]. }
  set (nxt := ((c + 1) mod length B)%nat).
  assert (nxt < length (<[c := []]> B))%nat as Hlt' by (rewrite length_insert; apply Nat.mod_upper_bound; lia).
  destruct (lookup_lt_is_Some_2 _ _ Hlt') as [l0 Hl0].
  destruct (tick_loop_rep (size (tw_heap tw)) now l l0 _ _ None head (Z.of_nat c) nxt Hr1) as (tw' & Ht & Hrep & Hfr).
  - exact Hd.
  - by eapply rep_chain_length.
  - rewrite (next_slot _ _ _ Hr1). cbn. by rewrite Nat2Z.id, length_insert.
  - done.
  - exists tw'. rewrite Ht. unfold spec_tick. rewrite Hl. fold nxt. cbn [fst snd default]. rewrite Hl0. cbn [default].
    split_and!; [done.. |]. by destruct Hfr as (-> & _).
Qed.

(** *** Adding and removing *)

Lemma timeout_add_rep (tw : timeout_wheel_t) (B : list (list timer)) (seconds ctx now a : Z) (cb : nat) (l : list timer) :
  wheel_rep tw B [] -> 0 <= seconds -> tw_current tw + seconds <= INT_MAX ->
  LLONG_MIN <= now -> now + seconds <= LLONG_MAX -> tw_heap tw !! a = None ->
  let slot := (Z.to_nat (tw_current tw + seconds / tw_resolution tw) mod length B)%nat in
  B !! slot = Some l ->
  exists tw', timeout_add tw seconds cb ctx now (Some a) = Ret (Some a, tw') /\
    wheel_rep tw' (<[slot := mk_timer a cb ctx (now + seconds) :: l]> B) [] /\ same_frame tw tw'.
Proof.
  intros Hr Hs Hmax Hnow Hnow' Ha slot Hl. pose proof (wr_current _ _ _ Hr) as Hc.
  pose proof (wr_resolution _ _ _ Hr) as Hres. pose proof (wr_nbuckets _ _ _ Hr) as Hn.
  assert (0 <= seconds / tw_resolution tw <= seconds) as Hq.
  { split; [by apply Z.div_pos; lia |]. apply Z.div_le_upper_bound; nia. }
  set (t := mk_timer a cb ctx (now + seconds)).
  set (tw1 := set_heap (<[a := mk_entry cb ctx (now + seconds) None None 0 true]> (tw_heap tw)) tw).
  assert (a ∉ addrs (concat B)) as Hfresh.
  { intros Hin. assert (is_Some (tw_heap tw !! a)) as [? He] by (apply (wr_heap _ _ _ Hr); done). congruence. }
  assert (wheel_rep tw1 B [t]) as Hr1.
  { pose proof Hr as [Hlen _ _ _ Hlists Hnd Hheap]. constructor; cbn; [done.. | | |].
    - intros i x Hi. destruct (Hlists i x Hi) as (head & Hb & Hd). exists head. split; [done |]. eapply dll_frame, Hd.
      intros y Hy. apply lookup_insert_ne. intros <-. apply Hfresh.
      apply list_elem_of_fmap in Hy as (u & -> & Hu). apply list_elem_of_fmap_2. by eapply elem_of_concat_lookup.
    - by apply NoDup_cons.
    - intros y. rewrite elem_of_cons. change (addrs (concat B)) with (addrs ([] ++ concat B)). rewrite <- Hheap.
      destruct (decide (y = a)) as [-> | Hne]; [rewrite lookup_insert_eq | rewrite lookup_insert_ne by done]; naive_solver. }
  destruct (link_front_rep tw1 B [] l slot t (mk_entry cb ctx (now + seconds) None None 0 true) Hr1 Hl) as (tw' & Hlf & Hr' & Hfr & _);
    [apply lookup_insert_eq | done |].
  exists tw'. split_and!; [| exact Hr' | exact Hfr].
  unfold timeout_add. rewrite i64_Ret by (unfold LLONG_MIN in *; lia). cbn [mbind cres_mbind].
  rewrite !(proj2 (Z.eqb_neq _ 0)) by lia. cbn [orb]. rewrite Z.quot_div_nonneg by lia.
  rewrite i32_Ret by (unfold INT_MIN; lia). cbn [mbind cres_mbind]. rewrite Hn at 1. rewrite rem_to_nat by lia.
  rewrite Nat2Z.id. fold slot. fold tw1. change (t_addr t) with a in Hlf. rewrite Hlf. done.
Qed.

(** The heap after the entry between [p] and [n] is unlinked. *)
Definition bypassed (h : gmap Z timeout_entry_t) (p n : option Z) : gmap Z timeout_entry_t :=
  let h1 := match p with Some x => alter (set_te_next n) x h | None => h end in
  match n with Some x => alter (set_te_prev p) x h1 | None => h1 end.

Definition unlinked (h : gmap Z timeout_entry_t) (p n : option Z) (a : Z) : gmap Z timeout_entry_t :=
  delete a (bypassed h p n).

Lemma unlinked_other (h : gmap Z timeout_entry_t) (p n : option Z) (a x : Z) :
  Some x <> p -> Some x <> n -> x <> a -> unlinked h p n a !! x = h !! x.
Proof.
  intros Hp Hn Ha. unfold unlinked, bypassed. rewrite lookup_delete_ne by done.
  destruct n as [n |]; [rewrite lookup_alter_ne by congruence |];
    (destruct p as [p |]; [rewrite lookup_alter_ne by congruence |]); done.
Qed.

Lemma dll_head_Some (h : gmap Z timeout_entry_t) (prev : option Z) (a b : Z) (l : list timer) :
  dll h prev (Some a) b l -> a ∈ addrs l.
Proof. destruct l as [| t l]; [done |]. intros [Heq _]. injection Heq as ->. rewrite fmap_cons. by left. Qed.

(** Unlinking the entry of [t] from a chain; [q] precedes the chain. *)
Lemma dll_unlink (h : gmap Z timeout_entry_t) (q head : option Z) (b : Z) (l1 l2 : list timer) (t : timer) :
  NoDup (addrs (l1 ++ t :: l2)) -> (forall x, q = Some x -> x ∉ addrs (l1 ++ t :: l2)) ->
  dll h q head b (l1 ++ t :: l2) ->
  exists p n, h !! t_addr t = Some (mk_entry (t_cb t) (t_ctx t) (t_deadline t) n p b true) /\
    p = match last l1 with Some u => Some (t_addr u) | None => q end /\
    (forall x, n = Some x -> x ∈ addrs l2) /\
    dll (unlinked h p n (t_addr t)) q (match l1 with [] => n | _ => head end) b (l1 ++ l2).
Proof.
  revert q head. induction l1 as [| u l1 IH]; intros q head Hnd Hq Hd.
  - cbn in Hnd, Hd. destruct Hd as (-> & n & Ht & Hd). apply NoDup_cons in Hnd as [Hn Hnd]. exists q, n.
    split; [done |]. split; [done |]. split; [intros x ->; by eapply dll_head_Some |]. cbn [app].
    destruct l2 as [| v l2]; [done |]. destruct Hd as (-> & m & Hv & Hd).
    rewrite fmap_cons in Hn, Hnd. apply not_elem_of_cons in Hn as [Hne Hn]. apply NoDup_cons in Hnd as [Hnv Hnd].
    assert (forall x, x = t_addr v \/ x ∈ addrs l2 -> Some x <> q) as Hqx.
    { intros x Hx <-. apply (Hq x eq_refl). cbn. right. apply elem_of_cons. naive_solver. }
    split; [done |]. exists m. split.
    + unfold unlinked, bypassed. rewrite lookup_delete_ne by done. rewrite lookup_alter_eq.
      assert ((match q with Some x => alter (set_te_next (Some (t_addr v))) x h | None => h end) !! t_addr v = h !! t_addr v) as ->.
      { destruct q as [x |]; [| done]. rewrite lookup_alter_ne; [done |]. intros ->. by destruct (Hqx (t_addr v)); [left |]. }
      by rewrite Hv.
    + eapply dll_frame, Hd. intros x Hx. apply unlinked_other; [apply Hqx; by right | congruence | congruence].
  - cbn in Hnd. apply NoDup_cons in Hnd as [Hu Hnd]. cbn in Hd. destruct Hd as (-> & m & Hm & Hd).
    destruct (IH (Some (t_addr u)) m Hnd) as (p & n & Ht & Hp & Hn & Hrest); [by intros x [= <-] | done |].
    exists p, n. split; [done |].
    assert (p = match last (u :: l1) with Some w => Some (t_addr w) | None => q end) as Hp'.
    { rewrite Hp. destruct l1 as [| w l1]; [done |]. rewrite last_cons_cons.
      destruct (last (w :: l1)) eqn:E; [done | by apply last_None in E]. }
    split; [done |]. split; [done |]. cbn [app]. split; [done |].
    assert (t_addr u <> t_addr t /\ Some (t_addr u) <> n) as [Hut Hun].
    { split.
      - intros E. apply Hu. rewrite fmap_app, fmap_cons, E. apply elem_of_app. right. by left.
      - intros E. apply Hu. rewrite fmap_app, fmap_cons. apply elem_of_app. right. right. by apply Hn. }
    destruct l1 as [| w l1].
    + exists n. cbn in Hp. subst p. split; [| done]. unfold unlinked, bypassed. rewrite lookup_delete_ne by done.
      destruct n as [n |]; [rewrite lookup_alter_ne by congruence |]; rewrite lookup_alter_eq, Hm; done.
    + exists m. split; [| done]. rewrite unlinked_other; [done | | done | done]. rewrite Hp.
      destruct (last (w :: l1)) as [z |] eqn:El; [| by apply last_None in El].
      intros [= E]. apply Hu. apply last_Some in El as [l' El]. rewrite El, E, !fmap_app. apply elem_of_app. left.
      apply elem_of_app. right. by left.
Qed.

Lemma bypassed_dom (h : gmap Z timeout_entry_t) (p n : option Z) (x : Z) :
  is_Some (bypassed h p n !! x) <-> is_Some (h !! x).
Proof. unfold bypassed. destruct p, n; rewrite ?lookup_alter_is_Some; done. Qed.

Lemma with_entry_alter (tw : timeout_wheel_t) (a : Z) (f : timeout_entry_t -> timeout_entry_t) :
  is_Some (tw_heap tw !! a) -> with_entry a f tw = Ret (set_heap (alter f a (tw_heap tw)) tw).
Proof.
  intros [e He]. rewrite (with_entry_Ret _ _ _ _ He). do 2 f_equal. apply map_eq. intros x.
  destruct (decide (x = a)) as [-> | Hne]; [by rewrite lookup_insert_eq, lookup_alter_eq, He |].
  by rewrite lookup_insert_ne, lookup_alter_ne by done.
Qed.

(** The two links of [timeout_remove]. *)
Lemma bypass_ops (tw : timeout_wheel_t) (p n : option Z) (slot : Z) (head : option Z) :
  (forall x, p = Some x -> is_Some (tw_heap tw !! x)) -> (forall x, n = Some x -> is_Some (tw_heap tw !! x)) ->
  bucket tw slot = Ret head ->
  (tw ← match p with
        | Some x => with_entry x (set_te_next n) tw
        | None => _ ← bucket tw slot; Ret (put_bucket slot n tw)
        end;
   match n with Some x => with_entry x (set_te_prev p) tw | None => Ret tw end)
  = Ret (put_bucket slot (match p with Some _ => head | None => n end) (set_heap (bypassed (tw_heap tw) p n) tw)).
Proof.
  intros Hp Hn Hb. assert (put_bucket slot head tw = tw) as Hsame.
  { unfold bucket in Hb. destruct (slot <? 0); [discriminate |].
    destruct (tw_buckets tw !! Z.to_nat slot) as [hd |] eqn:E; [| discriminate]. injection Hb as ->.
    unfold put_bucket. rewrite list_insert_id by done. by destruct tw. }
  destruct p as [p |].
  - rewrite with_entry_alter by auto. cbn [mbind cres_mbind].
    assert (forall h, put_bucket slot head (set_heap h tw) = set_heap h tw) as Hs.
    { intros h. rewrite <- Hsame at 2. done. }
    destruct n as [n |]; rewrite Hs; [| done]. rewrite with_entry_alter; [done |]. cbn. rewrite lookup_alter_is_Some. auto.
  - rewrite Hb. cbn [mbind cres_mbind]. destruct n as [n |]; [| by destruct tw].
    rewrite with_entry_alter by (cbn; auto). done.
Qed.

Lemma timeout_remove_rep (tw : timeout_wheel_t) (B : list (list timer)) (i : nat) (l1 l2 : list timer) (t : timer) :
  wheel_rep tw B [] -> B !! i = Some (l1 ++ t :: l2) ->
  exists tw', timeout_remove tw (Some (t_addr t)) = Ret tw' /\ wheel_rep tw' (<[i := l1 ++ l2]> B) [] /\ same_frame tw tw'.
Proof.
  intros Hr Hi. destruct (bucket_Ret tw B _ _ i Hr Hi) as (head & Hb & Hd).
  pose proof (rep_list_NoDup tw B _ _ i Hr Hi) as Hnd.
  destruct (dll_unlink (tw_heap tw) None head (Z.of_nat i) l1 l2 t Hnd) as (p & n & Ht & Hp & Hn & Hun); [done | done |].
  assert (forall x, x ∈ addrs (l1 ++ t :: l2) -> is_Some (tw_heap tw !! x)) as Hlive.
  { intros x Hx. destruct (dll_bucket _ _ _ _ _ _ Hd Hx) as (e & He & _). by exists e. }
  assert (forall x, n = Some x -> x ∈ addrs (l1 ++ t :: l2)) as Hn'.
  { intros x Hx. rewrite fmap_app, fmap_cons. apply elem_of_app. right. right. by apply Hn. }
  assert (forall x, p = Some x -> x ∈ addrs (l1 ++ t :: l2)) as Hp'.
  { intros x Hx. rewrite Hp in Hx. destruct (last l1) as [u |] eqn:El; [| discriminate]. injection Hx as <-.
    apply last_Some in El as [l' ->]. rewrite !fmap_app. apply elem_of_app. left. apply elem_of_app. right. by left. }
  set (tw2 := put_bucket (Z.of_nat i) (match p with Some _ => head | None => n end)
                (set_heap (bypassed (tw_heap tw) p n) tw)).
  assert (match p with Some _ => head | None => n end = match l1 with [] => n | _ => head end) as Hhd.
  { rewrite Hp. destruct l1 as [| u l1]; [done |]. destruct (last (u :: l1)) eqn:E; [done | by apply last_None in E]. }
  assert (wheel_rep tw2 (<[i := l1 ++ l2]> B) [t]) as Hr2.
  { subst tw2. rewrite Hhd. apply (rep_update tw _ B [] [t] (l1 ++ t :: l2)); [done | done | solve_Permutation | | |].
    - eapply dll_frame, Hun. intros x Hx. unfold unlinked. rewrite lookup_delete_ne; [done |]. intros <-.
      rewrite fmap_app, fmap_cons in Hnd. apply NoDup_app in Hnd as (_ & H1 & H2). apply NoDup_cons in H2 as [H2 _].
      rewrite fmap_app in Hx. apply elem_of_app in Hx as [Hx | Hx]; [| done]. apply (H1 _ Hx). by left.
    - intros x _ Hx. unfold bypassed. destruct n as [n |]; [rewrite lookup_alter_ne by (intros <-; by apply Hx, Hn') |];
        (destruct p as [p |]; [rewrite lookup_alter_ne by (intros <-; by apply Hx, Hp') |]); done.
    - intros x. apply bypassed_dom. }
  destruct (free_entry_rep tw2 _ [] t Hr2) as [Hfree Hr3]. eexists. split_and!; [| exact Hr3 | done].
  unfold timeout_remove. rewrite Ht. cbn [te_active negb te_prev te_next te_bucket]. rewrite <- Hfree. subst tw2.
  pose proof (bypass_ops tw p n (Z.of_nat i) head (fun x Hx => Hlive x (Hp' x Hx)) (fun x Hx => Hlive x (Hn' x Hx)) Hb) as Hops.
  destruct (match p with Some x => with_entry x (set_te_next n) tw | None => _ ← bucket tw (Z.of_nat i); Ret (put_bucket (Z.of_nat i) n tw) end)
    as [tw1 |]; cbn [mbind cres_mbind] in Hops |- *; [| discriminate]. by rewrite Hops.
Qed.

(** *** Destruction *)

Lemma dll_fuel (h : gmap Z timeout_entry_t) (prev head : option Z) (b : Z) (l : list timer) :
  NoDup (addrs l) -> dll h prev head b l -> (length l <= size h)%nat.
Proof.
  intros Hnd Hd. rewrite <- (length_fmap t_addr), <- (size_list_to_set (C := gset Z)) by done.
  rewrite <- size_dom. apply subseteq_size. intros a Ha%elem_of_list_to_set.
  destruct (dll_bucket _ _ _ _ _ _ Hd Ha) as (e & He & _). apply elem_of_dom. by exists e.
Qed.

Lemma free_chain_spec (fuel : nat) (tw : timeout_wheel_t) (prev head : option Z) (b : Z) (l : list timer) :
  NoDup (addrs l) -> dll (tw_heap tw) prev head b l -> (length l <= fuel)%nat ->
  exists h, free_chain fuel head tw = Ret (set_heap h tw) /\ h ⊆ tw_heap tw /\
    (forall a, a ∈ addrs l -> h !! a = None) /\ (forall a, (a ∉ addrs l) -> h !! a = tw_heap tw !! a).
Proof.
  revert tw prev head l. induction fuel as [| fuel IH]; intros tw prev head [| t l] Hnd Hd Hf; cbn in Hf; try lia.
  - cbn in Hd. subst head. exists (tw_heap tw). split_and!; [by destruct tw | done | set_solver | done].
  - cbn in Hd. subst head. exists (tw_heap tw). split_and!; [by destruct tw | done | set_solver | done].
  - destruct Hd as (-> & next & Ht & Hd). cbn [free_chain]. rewrite Ht. unfold free_entry. rewrite Ht. cbn [mbind cres_mbind te_next].
    rewrite fmap_cons in Hnd. apply NoDup_cons in Hnd as [Hn Hnd].
    destruct (IH (set_heap (delete (t_addr t) (tw_heap tw)) tw) (Some (t_addr t)) next l) as (h & Hfree & Hsub & Hin & Hout); [done | | lia |].
    { eapply dll_frame, Hd. intros a Ha. cbn. apply lookup_delete_ne. by intros <-. }
    exists h. cbn in *. split; [exact Hfree |]. split; [etrans; [exact Hsub | apply delete_subseteq] |]. split.
    + intros a [-> | Ha]%elem_of_cons; [| auto]. rewrite Hout by done. apply lookup_delete_eq.
    + intros a [Hne Ha]%not_elem_of_cons. rewrite Hout by done. by rewrite lookup_delete_ne.
Qed.

Lemma free_buckets_spec (B : list (list timer)) (heads : list (option Z)) (k : nat) (tw : timeout_wheel_t) :
  NoDup (addrs (concat B)) -> length heads = length B ->
  (forall i l, B !! i = Some l -> exists head, heads !! i = Some head /\ dll (tw_heap tw) None head (Z.of_nat (k + i)) l) ->
  exists h, free_buckets heads tw = Ret (set_heap h tw) /\ h ⊆ tw_heap tw /\ (forall a, a ∈ addrs (concat B) -> h !! a = None).
Proof.
  revert heads k tw. induction B as [| l B IH]; intros [| head heads] k tw Hnd Hlen Hl; try discriminate.
  - exists (tw_heap tw). split_and!; [by destruct tw | done | set_solver].
  - cbn in Hnd. rewrite fmap_app in Hnd. apply NoDup_app in Hnd as (Hnl & Hdis & Hnd).
    destruct (Hl 0%nat l eq_refl) as (hd & [= <-] & Hd).
    destruct (free_chain_spec (size (tw_heap tw)) tw None head _ l Hnl Hd) as (h & Hf & Hsub & Hin & Hout); [by eapply dll_fuel |].
    destruct (IH heads (S k) (set_heap h tw)) as (h' & Hf' & Hsub' & Hin'); [done | by injection Hlen | |].
    { intros i l' Hi. destruct (Hl (S i) l' Hi) as (hd' & Hh & Hd'). exists hd'. split; [done |].
      replace (S k + i)%nat with (k + S i)%nat by lia. eapply dll_frame, Hd'. intros a Ha. cbn. apply Hout. intros Hal.
      apply (Hdis a Hal). apply list_elem_of_fmap in Ha as (t & -> & Ht). apply list_elem_of_fmap_2. by eapply elem_of_concat_lookup. }
    exists h'. cbn [free_buckets]. rewrite Hf. cbn [mbind cres_mbind]. rewrite Hf'. cbn in *.
    split; [done |]. split; [by etrans |]. intros a. rewrite fmap_app. intros [Ha | Ha]%elem_of_app; [| auto].
    eapply lookup_weaken_None; [| exact Hsub']. auto.
Qed.

Lemma timeout_wheel_destroy_rep (tw : timeout_wheel_t) (B : list (list timer)) :
  wheel_rep tw B [] -> timeout_wheel_destroy tw = Ret ∅.
Proof.
  intros [Hlen _ _ _ Hlists Hnd Hheap]. cbn in *. unfold timeout_wheel_destroy.
  destruct (free_buckets_spec B (tw_buckets tw) 0 tw Hnd Hlen Hlists) as (h & -> & Hsub & Hgone). cbn. f_equal.
  apply map_empty. intros a. destruct (h !! a) as [e |] eqn:E; [| done]. rewrite (Hgone a) in E; [done |].
  apply Hheap. exists e. by eapply lookup_weaken.
Qed.

(** *** When a timer is called *)

Lemma mod_small2 (x n : nat) : (x < 2 * n)%nat -> (x mod n = if decide (x < n) then x else x - n)%nat.
Proof.
  intros Hx. destruct (decide (x < n)%nat) as [Hlt | Hge]; [by apply Nat.mod_small |].
  replace x with (x - n + 1 * n)%nat at 1 by lia. rewrite Nat.Div0.mod_add. apply Nat.mod_small. lia.
Qed.

(** The timer [t] is [d] buckets ahead and due in [r] seconds. *)
Definition pending (B : list (list timer)) (current : nat) (t : timer) (d : nat) (now r : Z) : Prop :=
  (exists l, B !! ((current + d) mod length B)%nat = Some l /\ t ∈ l) /\
  (1 <= d <= length B)%nat /\ (current < length B)%nat /\ t_deadline t = now + r /\ Z.of_nat d <= r.

Lemma pending_step (B : list (list timer)) (current : nat) (t : timer) (d : nat) (now r : Z) :
  pending B current t d now r -> 1 < r ->
  let c := ((current + 1) mod length B)%nat in
  exists d', pending (spec_tick c (now + 1) B).2 c t d' (now + 1) (r - 1).
Proof.
  intros ((l & Hl & Ht) & Hd & Hcur & Hdl & Hr) Hr1 c. assert (c < length B)%nat as Hc by (apply Nat.mod_upper_bound; lia).
  assert (((c + 1) mod length B) < length B)%nat as Hnx by (apply Nat.mod_upper_bound; lia).
  unfold pending, spec_tick. cbn [snd]. rewrite !length_insert. destruct (decide (d = 1%nat)) as [-> | Hd1].
  - exists 1%nat. split_and!; [| lia..]. rewrite list_lookup_insert_eq by (by rewrite length_insert).
    eexists. split; [reflexivity |]. apply elem_of_app. left. apply list_elem_of_In, (proj1 (in_rev _ _)), list_elem_of_In. fold c in Hl. rewrite Hl.
    cbn. apply list_elem_of_filter. split; [| done]. unfold due. rewrite (proj2 (Z.leb_gt _ _)) by lia. done.
  - exists (d - 1)%nat. split_and!; [| lia..].
    assert (((c + (d - 1)) mod length B) = ((current + d) mod length B))%nat as ->.
    { unfold c. rewrite Nat.Div0.add_mod_idemp_l. f_equal. lia. }
    assert (((current + d) mod length B) <> c)%nat as Hne.
    { unfold c. rewrite !mod_small2 by lia. repeat case_decide; lia. }
    destruct (decide (((c + 1) mod length B) = ((current + d) mod length B))%nat) as [-> | Hne'].
    + rewrite list_lookup_insert_eq by (rewrite length_insert; apply Nat.mod_upper_bound; lia). eexists. split; [reflexivity |].
      apply elem_of_app. right. rewrite list_lookup_insert_ne by done. by rewrite Hl.
    + rewrite !list_lookup_insert_ne by done. eauto.
Qed.

Lemma filter_split_perm {A} (f : A -> bool) (l : list A) :
  l ≡ₚ filter (fun x => f x) l ++ filter (fun x => negb (f x)) l.
Proof.
  induction l as [| x l IH]; [done |]. rewrite !filter_cons. destruct (f x); cbn [negb].
  - rewrite decide_True, decide_False by (cbn; auto). cbn. by constructor.
  - rewrite decide_False, decide_True by (cbn; auto). rewrite <- Permutation_middle. by constructor.
Qed.

Lemma perm_retire {A} (X Y W l l0 called kept : list A) :
  X ++ l0 ≡ₚ (rev kept ++ l0) ++ Y -> Y ++ l ≡ₚ W -> l ≡ₚ called ++ kept -> X ++ called ≡ₚ W.
Proof.
  intros H1 H2 H3. apply (Permutation_app_inv_r l0). rewrite <- H2, H3, <- (app_assoc X).
  rewrite (Permutation_app_comm called l0), app_assoc, H1, <- Permutation_rev. solve_Permutation.
Qed.

Lemma spec_tick_perm (c : nat) (now : Z) (B : list (list timer)) :
  (c < length B)%nat ->
  concat (spec_tick c now B).2 ++ filter (fun t => due now t) (default [] (B !! c)) ≡ₚ concat B.
Proof.
  intros Hc. unfold spec_tick. cbn [snd]. destruct (lookup_lt_is_Some_2 B c Hc) as [l Hl]. rewrite Hl. cbn [default].
  set (nxt := ((c + 1) mod length B)%nat). assert (nxt < length (<[c := []]> B))%nat as Hlt by (rewrite length_insert; apply Nat.mod_upper_bound; lia).
  destruct (lookup_lt_is_Some_2 _ _ Hlt) as [l0 Hl0]. rewrite Hl0. cbn [default].
  set (kept := filter (fun t => negb (due now t)) l). set (called := filter (fun t => due now t) l).
  pose proof (concat_insert_perm (<[c := []]> B) nxt l0 (rev kept ++ l0) Hl0) as H1.
  pose proof (concat_insert_perm B c l [] Hl) as H2. cbn in H2.
  pose proof (filter_split_perm (due now) l) as H3. fold kept in H3. fold called in H3.
  eapply perm_retire; [exact H1 | exact H2 | exact H3].
Qed.

(** The callback of a timer. *)
Definition callback (t : timer) : nat * Z := (t_cb t, t_ctx t).

(** The tick at which it is due calls it, among other timers of its bucket. *)
Lemma pending_call (B : list (list timer)) (current : nat) (t : timer) (d : nat) (now : Z) :
  pending B current t d now 1 ->
  let c := ((current + 1) mod length B)%nat in
  exists l1 l2, (spec_tick c (now + 1) B).1 = map callback (l1 ++ t :: l2) /\
    concat (spec_tick c (now + 1) B).2 ++ (l1 ++ t :: l2) ≡ₚ concat B.
Proof.
  intros ((l & Hl & Ht) & Hd & Hcur & Hdl & Hr) c. assert (d = 1%nat) as -> by lia. fold c in Hl.
  assert (c < length B)%nat as Hc by (apply Nat.mod_upper_bound; lia).
  assert (t ∈ filter (fun t => due (now + 1) t) l) as Hin.
  { apply list_elem_of_filter. split; [| done]. unfold due. rewrite Hdl, (proj2 (Z.leb_le _ _)) by lia. done. }
  apply list_elem_of_split in Hin as (l1 & l2 & Hin). exists l1, l2. split.
  - unfold spec_tick. cbn [fst]. rewrite Hl. exact (f_equal (map callback) Hin).
  - rewrite <- Hin. pose proof (spec_tick_perm c (now + 1) B Hc) as Hp. by rewrite Hl in Hp.
Qed.

(** Ticks at [now + 1], [now + 2], ...: the callbacks of each, and the wheel
    after them. *)
Fixpoint ticks (tw : timeout_wheel_t) (now : Z) (k : nat) : cres (list (list (nat * Z)) * timeout_wheel_t) :=
  match k with
  | O => Ret ([], tw)
  | S k' => r ← timeout_tick tw (now + 1); rs ← ticks r.2 (now + 1) k'; Ret (r.1 :: rs.1, rs.2)
  end.

(** While the timer is pending: the calls of each tick are those of timers that
    were in the wheel, and together with those still in it they are all. *)
Lemma ticks_pending (k : nat) (tw : timeout_wheel_t) (B : list (list timer)) (t : timer) (d : nat) (now r : Z) :
  wheel_rep tw B [] -> pending B (Z.to_nat (tw_current tw)) t d now r -> Z.of_nat k < r ->
  exists called tw' B' d', ticks tw now k = Ret (map (map callback) called, tw') /\ length called = k /\ wheel_rep tw' B' [] /\
    pending B' (Z.to_nat (tw_current tw')) t d' (now + Z.of_nat k) (r - Z.of_nat k) /\
    concat B' ++ concat called ≡ₚ concat B.
Proof.
  revert tw B d now r. induction k as [| k IH]; intros tw B d now r Hr Hp Hk.
  - exists [], tw, B, d. split_and!; [done.. | |]; [by rewrite Z.add_0_r, Z.sub_0_r | cbn; by rewrite app_nil_r].
  - destruct (timeout_tick_rep tw B (now + 1) Hr) as (tw1 & Ht1 & Hr1 & Hc1).
    destruct (pending_step B _ t d now r Hp) as [d1 Hp1]; [lia |].
    destruct (IH tw1 _ d1 (now + 1) (r - 1) Hr1) as (called & tw' & B' & d' & Ht & Hlen & Hr' & Hp' & Hperm); [| lia |].
    { by rewrite Hc1, Nat2Z.id. }
    assert (((Z.to_nat (tw_current tw) + 1) mod length B) < length B)%nat as Hc by (destruct Hp as (_ & ? & _); apply Nat.mod_upper_bound; lia).
    eexists (_ :: called), tw', B', d'. cbn [ticks]. rewrite Ht1. cbn [mbind cres_mbind fst snd]. rewrite Ht. cbn [mbind cres_mbind fst snd map].
    split; [reflexivity |]. split; [cbn; by rewrite Hlen |]. split; [done |]. split.
    + replace (now + Z.of_nat (S k)) with (now + 1 + Z.of_nat k) by lia.
      by replace (r - Z.of_nat (S k)) with (r - 1 - Z.of_nat k) by lia.
    + rewrite <- (spec_tick_perm _ (now + 1) B Hc), <- Hperm. cbn [concat]. solve_Permutation.
Qed.

Lemma ticks_snoc (k : nat) (tw tw' : timeout_wheel_t) (now : Z) (fs : list (list (nat * Z))) :
  ticks tw now k = Ret (fs, tw') ->
  ticks tw now (S k) = (r ← timeout_tick tw' (now + Z.of_nat k + 1); Ret (fs ++ [r.1], r.2)).
Proof.
  revert tw now fs. induction k as [| k IH]; intros tw now fs Hk.
  - injection Hk as <- <-. cbn. rewrite Z.add_0_r. by destruct (timeout_tick tw (now + 1)).
  - remember (S k) as m eqn:Hm. cbn [ticks] in Hk |- *. rewrite Hm in Hk. cbn [ticks] in Hk.
    destruct (timeout_tick tw (now + 1)) as [[f tw1] |]; [| discriminate]. cbn [mbind cres_mbind fst snd] in Hk |- *.
    destruct (ticks tw1 (now + 1) k) as [[fs1 tw2] |] eqn:E; [| discriminate]. cbn in Hk. injection Hk as <- <-.
    rewrite (IH tw1 (now + 1) fs1 E), Hm. replace (now + Z.of_nat (S k) + 1) with (now + 1 + Z.of_nat k + 1) by lia.
    by destruct (timeout_tick tw2 (now + 1 + Z.of_nat k + 1)).
Qed.

Lemma pending_heap (tw : timeout_wheel_t) (B : list (list timer)) (t : timer) (d c : nat) (now r : Z) :
  wheel_rep tw B [] -> pending B c t d now r -> is_Some (tw_heap tw !! t_addr t).
Proof.
  intros Hr ((l & Hl & Ht) & _). apply (wr_heap _ _ _ Hr). cbn. apply list_elem_of_fmap_2. by eapply elem_of_concat_lookup.
Qed.

(** The timer just added is pending. *)
Lemma pending_new (B : list (list timer)) (c : nat) (l : list timer) (t : timer) (now s : Z) :
  (c < length B)%nat -> 1 <= s -> t_deadline t = now + s ->
  B !! ((c + Z.to_nat s) mod length B)%nat = Some l ->
  exists d, pending (<[((c + Z.to_nat s) mod length B)%nat := t :: l]> B) c t d now s.
Proof.
  intros Hc Hs Hd Hl. set (r := (Z.to_nat s mod length B)%nat).
  assert (r < length B /\ r <= Z.to_nat s)%nat as [Hr Hrs].
  { split; [apply Nat.mod_upper_bound; lia | apply Nat.Div0.mod_le]. }
  exists (if decide (r = 0)%nat then length B else r). unfold pending. rewrite length_insert.
  assert (((c + (if decide (r = 0)%nat then length B else r)) mod length B) = (c + Z.to_nat s) mod length B)%nat as ->.
  { rewrite <- (Nat.Div0.add_mod_idemp_r c (Z.to_nat s)). fold r. case_decide as H0; [| done]. rewrite H0, Nat.add_0_r.
    rewrite <- Nat.Div0.add_mod_idemp_r, Nat.Div0.mod_same, Nat.add_0_r. done. }
  split_and!; [| case_decide; lia | case_decide; lia | done | done |].
  - rewrite list_lookup_insert_eq by (by eapply lookup_lt_Some). eexists. split; [reflexivity | by left].
  - case_decide as H0; [| lia]. pose proof (Nat.div_mod_eq (Z.to_nat s) (length B)) as Hdm. fold r in Hdm.
    enough (length B <= Z.to_nat s)%nat by lia. destruct (Z.to_nat s / length B)%nat as [| q]; nia.
Qed.

Lemma timeout_wheel_create_rep (nbuckets resolution : Z) (tw : timeout_wheel_t) :
  0 < nbuckets -> 0 < resolution -> timeout_wheel_create nbuckets resolution true = Some tw ->
  wheel_rep tw (replicate (Z.to_nat nbuckets) []) [].
Proof.
  intros Hn Hres. unfold timeout_wheel_create. rewrite (proj2 (Z.leb_le 0 _)) by lia. cbn. intros [= <-].
  assert (forall n, concat (replicate n []) = ([] : list timer)) as Hnil by (induction n; done).
  constructor; cbn; rewrite ?length_replicate, ?Hnil; [done | lia | lia | done | | by constructor |].
  - intros i l [-> Hi]%lookup_replicate. exists None. by rewrite lookup_replicate_2.
  - intros a. rewrite lookup_empty. cbn. split; [by intros [? [=]] | set_solver].
Qed.

(** ** Properties *)

(** C25 The wheel refines a list of timers per bucket, whatever its links are: a
    new wheel is empty; adding a timer puts it at the front of the bucket
    [seconds / resolution] ahead; removing one takes it out of the middle of its
    list; a tick calls the due timers of the next bucket in order, frees them, and
    moves the others on by one bucket; destroying the wheel frees every entry.
    None of them follows a link to an entry that is not there. *)
Theorem timeout_wheel_refines :
  (forall n res tw, 0 < n -> 0 < res -> timeout_wheel_create n res true = Some tw ->
     wheel_rep tw (replicate (Z.to_nat n) []) []) /\
  (forall tw B seconds cb ctx now a l, wheel_rep tw B [] ->
     0 <= seconds -> tw_current tw + seconds <= INT_MAX -> LLONG_MIN <= now -> now + seconds <= LLONG_MAX ->
     tw_heap tw !! a = None ->
     let slot := (Z.to_nat (tw_current tw + seconds / tw_resolution tw) mod length B)%nat in
     B !! slot = Some l ->
     exists tw', timeout_add tw seconds cb ctx now (Some a) = Ret (Some a, tw') /\
       wheel_rep tw' (<[slot := mk_timer a cb ctx (now + seconds) :: l]> B) []) /\
  (forall tw B i l1 l2 t, wheel_rep tw B [] -> B !! i = Some (l1 ++ t :: l2) ->
     exists tw', timeout_remove tw (Some (t_addr t)) = Ret tw' /\ wheel_rep tw' (<[i := l1 ++ l2]> B) []) /\
  (forall tw B now, wheel_rep tw B [] ->
     let c := ((Z.to_nat (tw_current tw) + 1) mod length B)%nat in
     exists tw', timeout_tick tw now = Ret ((spec_tick c now B).1, tw') /\ wheel_rep tw' (spec_tick c now B).2 [] /\
       tw_current tw' = Z.of_nat c) /\
  (forall tw B, wheel_rep tw B [] -> timeout_wheel_destroy tw = Ret ∅).
Proof.
  split_and!.
  - intros n res tw. apply timeout_wheel_create_rep.
  - intros tw B seconds cb ctx now a l Hr H1 H2 H3 H4 H5 slot Hl.
    destruct (timeout_add_rep tw B seconds ctx now a cb l Hr H1 H2 H3 H4 H5 Hl) as (tw' & Ha & Hr' & _). eauto.
  - intros tw B i l1 l2 t Hr Hi. destruct (timeout_remove_rep tw B i l1 l2 t Hr Hi) as (tw' & Ha & Hr' & _). eauto.
  - intros tw B now. apply timeout_tick_rep.
  - intros tw B. apply timeout_wheel_destroy_rep.
Qed.

Lemma timeout_wheel_refines_witness :
  exists tw tw1 tw2, timeout_wheel_create 4 1 true = Some tw /\ timeout_add tw 1 9 5 0 (Some 64) = Ret (Some 64, tw1) /\
    timeout_tick tw1 1 = Ret ([(9%nat, 5)], tw2) /\ timeout_wheel_destroy tw2 = Ret ∅.
Proof.
  destruct timeout_wheel_refines as (Hnew & Hadd & _ & Htick & Hdestroy).
  eexists (mk_wheel ∅ _ 4 1 0). pose proof (Hnew 4 1 _ eq_refl eq_refl eq_refl) as Hr0.
  destruct (Hadd _ _ 1 9%nat 5 0 64 [] Hr0) as (tw1 & Ha & Hr1);
    [lia | vm_compute; congruence | vm_compute; congruence | vm_compute; congruence | reflexivity | reflexivity |].
  destruct (Htick tw1 _ 1 Hr1) as (tw2 & Ht & Hr2 & _). exists tw1, tw2. split; [reflexivity |]. split; [exact Ha |].
  assert (tw_current tw1 = 0) as Hc by (clear -Ha; vm_compute in Ha; by injection Ha as <-). rewrite Hc in Ht.
  split; [exact Ht | exact (Hdestroy tw2 _ Hr2)].
Defined.

Lemma perm_called {A} (x : A) (l l1 l2 X1 X2 X3 before Y : list A) :
  X1 ++ l ≡ₚ (x :: l) ++ Y -> X2 ++ before ≡ₚ X1 -> X3 ++ (l1 ++ x :: l2) ≡ₚ X2 -> X3 ++ (before ++ l1 ++ l2) ≡ₚ Y.
Proof.
  intros H1 H2 H3. apply (Permutation_cons_inv (a := x)), (Permutation_app_inv_r l).
  transitivity (X1 ++ l); [| rewrite H1; solve_Permutation]. rewrite <- H2, <- H3. solve_Permutation.
Qed.

(** C27 A timer of a wheel with a resolution of one second is on time: added for
    [s >= 1] seconds and with one tick per second, its entry is there after each of
    the first [s - 1] ticks, and tick [s] calls its callback with its context, once,
    and frees the entry.  It is not called before: all calls of the first [s - 1]
    ticks, and the others of tick [s], are those of the timers that were in the
    wheel when it was added, each at most once; so when none of these has the same
    callback and context, there is no such call before and exactly one at [s].  It
    does not matter how [s] compares with the number of buckets. *)
Theorem timeout_fires_on_time (tw : timeout_wheel_t) (B : list (list timer)) (s ctx now a : Z) (cb : nat) :
  wheel_rep tw B [] -> tw_resolution tw = 1 -> 1 <= s -> tw_current tw + s <= INT_MAX ->
  LLONG_MIN <= now -> now + s <= LLONG_MAX -> tw_heap tw !! a = None ->
  exists tw1, timeout_add tw s cb ctx now (Some a) = Ret (Some a, tw1) /\
    (forall k, Z.of_nat k < s ->
       exists fs tw', ticks tw1 now k = Ret (fs, tw') /\ is_Some (tw_heap tw' !! a)) /\
    exists before others1 others2 tw',
      ticks tw1 now (Z.to_nat s) = Ret (map (map callback) before ++ [map callback others1 ++ (cb, ctx) :: map callback others2], tw') /\
      zlen before = s - 1 /\ tw_heap tw' !! a = None /\
      concat before ++ others1 ++ others2 ⊆+ concat B /\
      ((cb, ctx) ∉ map callback (concat B) ->
       (cb, ctx) ∉ concat (map (map callback) before) /\ (cb, ctx) ∉ map callback others1 ++ map callback others2).
Proof.
  intros Hr Hres Hs Hmax Hn1 Hn2 Ha. pose proof (wr_current _ _ _ Hr) as Hc.
  destruct (lookup_lt_is_Some_2 B (Z.to_nat (tw_current tw + s / tw_resolution tw) mod length B)%nat) as [l Hl];
    [apply Nat.mod_upper_bound; lia |].
  destruct (timeout_add_rep tw B s ctx now a cb l Hr ltac:(lia) Hmax Hn1 Hn2 Ha Hl) as (tw1 & Hadd & Hr1 & Hfr & _).
  exists tw1. split; [done |]. set (t := mk_timer a cb ctx (now + s)) in *.
  rewrite Hres, Z.div_1_r, Z2Nat.inj_add in Hl, Hr1 by lia.
  destruct (pending_new B (Z.to_nat (tw_current tw)) l t now s ltac:(lia) Hs eq_refl Hl) as [d Hp].
  pose proof (concat_insert_perm B _ l (t :: l) Hl) as Hnew.
  rewrite <- Hfr in Hp, Hr1, Hnew. split.
  - intros k Hk. destruct (ticks_pending k tw1 _ t d now s Hr1 Hp Hk) as (fs & tw' & B' & d' & Ht & _ & Hr' & Hp' & _).
    eexists _, tw'. split; [done |]. by apply (pending_heap tw' B' t _ _ _ _ Hr' Hp').
  - destruct (ticks_pending (Z.to_nat (s - 1)) tw1 _ t d now s Hr1 Hp ltac:(lia)) as (before & tw' & B' & d' & Ht & Hlen & Hr' & Hp' & Hperm).
    replace (s - Z.of_nat (Z.to_nat (s - 1))) with 1 in Hp' by lia.
    destruct (timeout_tick_rep tw' B' (now + Z.of_nat (Z.to_nat (s - 1)) + 1) Hr') as (tw2 & Htick & Hr2 & _).
    destruct (pending_call B' _ t d' _ Hp') as (l1 & l2 & Hcall & Hlast).
    exists before, l1, l2, tw2. replace (Z.to_nat s) with (S (Z.to_nat (s - 1))) by lia. rewrite (ticks_snoc _ _ _ _ _ Ht), Htick, Hcall.
    cbn [mbind cres_mbind fst snd]. split; [by rewrite map_app |]. split; [lia |].
    assert (concat (spec_tick ((Z.to_nat (tw_current tw') + 1) mod length B') (now + Z.of_nat (Z.to_nat (s - 1)) + 1) B').2 ++
      (concat before ++ l1 ++ l2) ≡ₚ concat B) as Hall by (eapply perm_called; [exact Hnew | exact Hperm | exact Hlast]).
    split; [| split; [rewrite <- Hall; apply submseteq_inserts_l; done |]].
    + apply eq_None_not_Some. intros Hin. apply (wr_heap _ _ _ Hr2) in Hin. cbn [app] in Hin.
      pose proof (wr_nodup _ _ _ Hr') as Hnd. cbn [app] in Hnd. rewrite <- Hlast, fmap_app in Hnd. apply NoDup_app in Hnd as (_ & Hn & _).
      apply (Hn _ Hin), (list_elem_of_fmap_2 t_addr _ t), elem_of_app. right. left.
    + intros Hno. split; intros Hin; apply Hno; [rewrite <- concat_map in Hin | rewrite <- map_app in Hin];
        apply list_elem_of_fmap in Hin as (x & -> & Hx); apply (list_elem_of_fmap_2 callback); rewrite <- Hall; set_solver.
Qed.

Lemma timeout_fires_on_time_witness :
  exists tw tw1, timeout_wheel_create 512 1 true = Some tw /\ timeout_add tw 600 1 77 1000 (Some 64) = Ret (Some 64, tw1) /\
    exists fs f1 f2 tw', ticks tw1 1000 600 = Ret (fs ++ [f1 ++ (1%nat, 77) :: f2], tw').
Proof.
  eexists (mk_wheel ∅ _ 512 1 0).
  destruct (timeout_fires_on_time (mk_wheel ∅ (replicate (Z.to_nat 512) None) 512 1 0) (replicate (Z.to_nat 512) []) 600 77 1000 64 1)
    as (tw1 & Ha & _ & before & o1 & o2 & tw' & Ht & _);
    [by eapply (timeout_wheel_create_rep 512 1) | reflexivity | lia | vm_compute; congruence | vm_compute; congruence | vm_compute; congruence | reflexivity |].
  exists tw1. split; [reflexivity |]. split; [exact Ha |]. eexists _, _, _, tw'. exact Ht.
Defined.
