(* ===== verification/Conn.v ===== *)
(** * Connections and their pool: src/net/conn.{h,c}

    A connection is a record in a store indexed by its address; the pool links
    free connections through their [next] member, so that releasing a connection
    twice, or using a freed one, shows in the model as it does in memory: an
    access to an address that is not in the store is undefined.

    The arena of a connection uses the allocator of Memory.v.  What [malloc]
    returns for the structure and for the four buffers is the argument
    [conn_mem]; buffer contents are arbitrary.  System calls made when closing
    are recorded.  [proxy_pool], [tls_conn] (which the proxy uses for the backend)
    and [cache_store] are indices.  The pointers to the event loop and to the
    worker, which are the same for all connections of a process, are left out. *)

From Stdlib Require Import ZArith Lia String.
From stdpp Require Import base numbers option list gmap.
From S2P Require Import Prelude CLib StringUtil Memory Buffer Parser Request Response.

(** ** Data *)

Inductive conn_state_t : Type :=
| CONN_READING_REQUEST
| CONN_WRITING_RESPONSE
| CONN_PROXYING
| CONN_TUNNEL
| CONN_CLOSING
| CONN_SENDFILE.

#[global] Instance conn_state_eq_dec : EqDecision conn_state_t.
Proof. solve_decision. Defined.

(** The members a proxied response is collected in. *)
Record conn_cache_t : Type := mk_ccache {
  cc_store : option nat;
  cc_key : bytes;
  cc_buf : option bytes;
  cc_len : Z;
  cc_cap : Z
}.

Record conn_t : Type := mk_conn {
  c_fd : Z;
  c_upstream_fd : Z;
  c_state : conn_state_t;
  c_arena : Z * arena_t;
  c_rbuf : np_buf_t;
  c_wbuf : np_buf_t;
  c_upstream_rbuf : np_buf_t;
  c_upstream_wbuf : np_buf_t;
  c_peer : Z;
  c_last_active : Z;
  c_file_fd : Z;
  c_file_offset : Z;
  c_file_remaining : Z;
  c_keep_alive : bool;
  c_tls : bool;
  c_proxy_pool : option nat;
  c_tls_conn : option nat;
  c_request : option http_request_t;
  c_response : option http_response_t;
  c_cache : conn_cache_t;
  c_proxy_status : Z;
  c_next : option Z;
  c_prev : option Z
}.

Definition set_c_fd (v : Z) (c : conn_t) : conn_t :=
  mk_conn v (c_upstream_fd c) (c_state c) (c_arena c) (c_rbuf c) (c_wbuf c) (c_upstream_rbuf c)
    (c_upstream_wbuf c) (c_peer c) (c_last_active c) (c_file_fd c) (c_file_offset c)
    (c_file_remaining c) (c_keep_alive c) (c_tls c) (c_proxy_pool c) (c_tls_conn c) (c_request c)
    (c_response c) (c_cache c) (c_proxy_status c) (c_next c) (c_prev c).
Definition set_c_upstream_fd (v : Z) (c : conn_t) : conn_t :=
  mk_conn (c_fd c) v (c_state c) (c_arena c) (c_rbuf c) (c_wbuf c) (c_upstream_rbuf c)
    (c_upstream_wbuf c) (c_peer c) (c_last_active c) (c_file_fd c) (c_file_offset c)
    (c_file_remaining c) (c_keep_alive c) (c_tls c) (c_proxy_pool c) (c_tls_conn c) (c_request c)
    (c_response c) (c_cache c) (c_proxy_status c) (c_next c) (c_prev c).
Definition set_c_state (v : conn_state_t) (c : conn_t) : conn_t :=
  mk_conn (c_fd c) (c_upstream_fd c) v (c_arena c) (c_rbuf c) (c_wbuf c) (c_upstream_rbuf c)
    (c_upstream_wbuf c) (c_peer c) (c_last_active c) (c_file_fd c) (c_file_offset c)
    (c_file_remaining c) (c_keep_alive c) (c_tls c) (c_proxy_pool c) (c_tls_conn c) (c_request c)
    (c_response c) (c_cache c) (c_proxy_status c) (c_next c) (c_prev c).
Definition set_c_arena (v : Z * arena_t) (c : conn_t) : conn_t :=
  mk_conn (c_fd c) (c_upstream_fd c) (c_state c) v (c_rbuf c) (c_wbuf c) (c_upstream_rbuf c)
    (c_upstream_wbuf c) (c_peer c) (c_last_active c) (c_file_fd c) (c_file_offset c)
    (c_file_remaining c) (c_keep_alive c) (c_tls c) (c_proxy_pool c) (c_tls_conn c) (c_request c)
    (c_response c) (c_cache c) (c_proxy_status c) (c_next c) (c_prev c).
Definition set_c_rbuf (v : np_buf_t) (c : conn_t) : conn_t :=
  mk_conn (c_fd c) (c_upstream_fd c) (c_state c) (c_arena c) v (c_wbuf c) (c_upstream_rbuf c)
    (c_upstream_wbuf c) (c_peer c) (c_last_active c) (c_file_fd c) (c_file_offset c)
    (c_file_remaining c) (c_keep_alive c) (c_tls c) (c_proxy_pool c) (c_tls_conn c) (c_request c)
    (c_response c) (c_cache c) (c_proxy_status c) (c_next c) (c_prev c).
Definition set_c_wbuf (v : np_buf_t) (c : conn_t) : conn_t :=
  mk_conn (c_fd c) (c_upstream_fd c) (c_state c) (c_arena c) (c_rbuf c) v (c_upstream_rbuf c)
    (c_upstream_wbuf c) (c_peer c) (c_last_active c) (c_file_fd c) (c_file_offset c)
    (c_file_remaining c) (c_keep_alive c) (c_tls c) (c_proxy_pool c) (c_tls_conn c) (c_request c)
    (c_response c) (c_cache c) (c_proxy_status c) (c_next c) (c_prev c).
Definition set_c_upstream_rbuf (v : np_buf_t) (c : conn_t) : conn_t :=
  mk_conn (c_fd c) (c_upstream_fd c) (c_state c) (c_arena c) (c_rbuf c) (c_wbuf c) v
    (c_upstream_wbuf c) (c_peer c) (c_last_active c) (c_file_fd c) (c_file_offset c)
    (c_file_remaining c) (c_keep_alive c) (c_tls c) (c_proxy_pool c) (c_tls_conn c) (c_request c)
    (c_response c) (c_cache c) (c_proxy_status c) (c_next c) (c_prev c).
Definition set_c_upstream_wbuf (v : np_buf_t) (c : conn_t) : conn_t :=
  mk_conn (c_fd c) (c_upstream_fd c) (c_state c) (c_arena c) (c_rbuf c) (c_wbuf c)
    (c_upstream_rbuf c) v (c_peer c) (c_last_active c) (c_file_fd c) (c_file_offset c)
    (c_file_remaining c) (c_keep_alive c) (c_tls c) (c_proxy_pool c) (c_tls_conn c) (c_request c)
    (c_response c) (c_cache c) (c_proxy_status c) (c_next c) (c_prev c).
Definition set_c_file_fd (v : Z) (c : conn_t) : conn_t :=
  mk_conn (c_fd c) (c_upstream_fd c) (c_state c) (c_arena c) (c_rbuf c) (c_wbuf c)
    (c_upstream_rbuf c) (c_upstream_wbuf c) (c_peer c) (c_last_active c) v (c_file_offset c)
    (c_file_remaining c) (c_keep_alive c) (c_tls c) (c_proxy_pool c) (c_tls_conn c) (c_request c)
    (c_response c) (c_cache c) (c_proxy_status c) (c_next c) (c_prev c).
Definition set_c_next (v : option Z) (c : conn_t) : conn_t :=
  mk_conn (c_fd c) (c_upstream_fd c) (c_state c) (c_arena c) (c_rbuf c) (c_wbuf c)
    (c_upstream_rbuf c) (c_upstream_wbuf c) (c_peer c) (c_last_active c) (c_file_fd c)
    (c_file_offset c) (c_file_remaining c) (c_keep_alive c) (c_tls c) (c_proxy_pool c)
    (c_tls_conn c) (c_request c) (c_response c) (c_cache c) (c_proxy_status c) v (c_prev c).
Definition set_c_last_active (v : Z) (c : conn_t) : conn_t :=
  mk_conn (c_fd c) (c_upstream_fd c) (c_state c) (c_arena c) (c_rbuf c) (c_wbuf c)
    (c_upstream_rbuf c) (c_upstream_wbuf c) (c_peer c) v (c_file_fd c) (c_file_offset c)
    (c_file_remaining c) (c_keep_alive c) (c_tls c) (c_proxy_pool c) (c_tls_conn c) (c_request c)
    (c_response c) (c_cache c) (c_proxy_status c) (c_next c) (c_prev c).
Definition set_c_file_offset (v : Z) (c : conn_t) : conn_t :=
  mk_conn (c_fd c) (c_upstream_fd c) (c_state c) (c_arena c) (c_rbuf c) (c_wbuf c)
    (c_upstream_rbuf c) (c_upstream_wbuf c) (c_peer c) (c_last_active c) (c_file_fd c) v
    (c_file_remaining c) (c_keep_alive c) (c_tls c) (c_proxy_pool c) (c_tls_conn c) (c_request c)
    (c_response c) (c_cache c) (c_proxy_status c) (c_next c) (c_prev c).
Definition set_c_file_remaining (v : Z) (c : conn_t) : conn_t :=
  mk_conn (c_fd c) (c_upstream_fd c) (c_state c) (c_arena c) (c_rbuf c) (c_wbuf c)
    (c_upstream_rbuf c) (c_upstream_wbuf c) (c_peer c) (c_last_active c) (c_file_fd c)
    (c_file_offset c) v (c_keep_alive c) (c_tls c) (c_proxy_pool c) (c_tls_conn c) (c_request c)
    (c_response c) (c_cache c) (c_proxy_status c) (c_next c) (c_prev c).
Definition set_c_keep_alive (v : bool) (c : conn_t) : conn_t :=
  mk_conn (c_fd c) (c_upstream_fd c) (c_state c) (c_arena c) (c_rbuf c) (c_wbuf c)
    (c_upstream_rbuf c) (c_upstream_wbuf c) (c_peer c) (c_last_active c) (c_file_fd c)
    (c_file_offset c) (c_file_remaining c) v (c_tls c) (c_proxy_pool c) (c_tls_conn c)
    (c_request c) (c_response c) (c_cache c) (c_proxy_status c) (c_next c) (c_prev c).
Definition set_c_proxy_pool (v : option nat) (c : conn_t) : conn_t :=
  mk_conn (c_fd c) (c_upstream_fd c) (c_state c) (c_arena c) (c_rbuf c) (c_wbuf c)
    (c_upstream_rbuf c) (c_upstream_wbuf c) (c_peer c) (c_last_active c) (c_file_fd c)
    (c_file_offset c) (c_file_remaining c) (c_keep_alive c) (c_tls c) v (c_tls_conn c)
    (c_request c) (c_response c) (c_cache c) (c_proxy_status c) (c_next c) (c_prev c).
Definition set_c_tls_conn (v : option nat) (c : conn_t) : conn_t :=
  mk_conn (c_fd c) (c_upstream_fd c) (c_state c) (c_arena c) (c_rbuf c) (c_wbuf c)
    (c_upstream_rbuf c) (c_upstream_wbuf c) (c_peer c) (c_last_active c) (c_file_fd c)
    (c_file_offset c) (c_file_remaining c) (c_keep_alive c) (c_tls c) (c_proxy_pool c) v
    (c_request c) (c_response c) (c_cache c) (c_proxy_status c) (c_next c) (c_prev c).
Definition set_c_request (v : option http_request_t) (c : conn_t) : conn_t :=
  mk_conn (c_fd c) (c_upstream_fd c) (c_state c) (c_arena c) (c_rbuf c) (c_wbuf c)
    (c_upstream_rbuf c) (c_upstream_wbuf c) (c_peer c) (c_last_active c) (c_file_fd c)
    (c_file_offset c) (c_file_remaining c) (c_keep_alive c) (c_tls c) (c_proxy_pool c)
    (c_tls_conn c) v (c_response c) (c_cache c) (c_proxy_status c) (c_next c) (c_prev c).
Definition set_c_response (v : option http_response_t) (c : conn_t) : conn_t :=
  mk_conn (c_fd c) (c_upstream_fd c) (c_state c) (c_arena c) (c_rbuf c) (c_wbuf c)
    (c_upstream_rbuf c) (c_upstream_wbuf c) (c_peer c) (c_last_active c) (c_file_fd c)
    (c_file_offset c) (c_file_remaining c) (c_keep_alive c) (c_tls c) (c_proxy_pool c)
    (c_tls_conn c) (c_request c) v (c_cache c) (c_proxy_status c) (c_next c) (c_prev c).
Definition set_c_cache (v : conn_cache_t) (c : conn_t) : conn_t :=
  mk_conn (c_fd c) (c_upstream_fd c) (c_state c) (c_arena c) (c_rbuf c) (c_wbuf c)
    (c_upstream_rbuf c) (c_upstream_wbuf c) (c_peer c) (c_last_active c) (c_file_fd c)
    (c_file_offset c) (c_file_remaining c) (c_keep_alive c) (c_tls c) (c_proxy_pool c)
    (c_tls_conn c) (c_request c) (c_response c) v (c_proxy_status c) (c_next c) (c_prev c).
Definition set_c_proxy_status (v : Z) (c : conn_t) : conn_t :=
  mk_conn (c_fd c) (c_upstream_fd c) (c_state c) (c_arena c) (c_rbuf c) (c_wbuf c)
    (c_upstream_rbuf c) (c_upstream_wbuf c) (c_peer c) (c_last_active c) (c_file_fd c)
    (c_file_offset c) (c_file_remaining c) (c_keep_alive c) (c_tls c) (c_proxy_pool c)
    (c_tls_conn c) (c_request c) (c_response c) (c_cache c) v (c_next c) (c_prev c).

(** System calls on descriptors. *)
Inductive sys_call : Type :=
| SysEpollAdd (fd events : Z)
| SysEpollMod (fd events : Z)
| SysEpollDel (fd : Z)
| SysClose (fd : Z).

(** The memory of the process and the pool. *)
Record pool_world : Type := mk_world {
  w_conns : gmap Z conn_t;
  w_heap : list region;
  w_free_head : option Z;
  w_free_count : Z;
  w_max_free : Z;
  w_calls : list sys_call
}.

(** What [malloc] answers in [conn_alloc]: the structure, then the buffers. *)
Record conn_mem : Type := mk_mem {
  cm_conn : option Z;
  cm_rbuf : option bytes;
  cm_wbuf : option bytes;
  cm_upstream_rbuf : option bytes;
  cm_upstream_wbuf : option bytes
}.

Definition set_conns (m : gmap Z conn_t) (w : pool_world) : pool_world :=
  mk_world m (w_heap w) (w_free_head w) (w_free_count w) (w_max_free w) (w_calls w).
Definition set_heap (h : list region) (w : pool_world) : pool_world :=
  mk_world (w_conns w) h (w_free_head w) (w_free_count w) (w_max_free w) (w_calls w).
Definition set_free (hd : option Z) (n : Z) (w : pool_world) : pool_world :=
  mk_world (w_conns w) (w_heap w) hd n (w_max_free w) (w_calls w).
Definition add_calls (l : list sys_call) (w : pool_world) : pool_world :=
  mk_world (w_conns w) (w_heap w) (w_free_head w) (w_free_count w) (w_max_free w) (w_calls w ++ l).

(** ** Operations *)

Section operations.
Context {A : Allocator}.

Definition conn_init_bufs (c : conn_t) : conn_t :=
  set_c_upstream_wbuf (buf_reset (c_upstream_wbuf c))
    (set_c_upstream_rbuf (buf_reset (c_upstream_rbuf c))
       (set_c_wbuf (buf_reset (c_wbuf c)) (set_c_rbuf (buf_reset (c_rbuf c)) c))).

(** A zeroed buffer, as [memset] leaves it. *)
Definition buf_zero : np_buf_t := mk_buf None 0 0 0.

(** The new connection is in the store only when every allocation succeeded; a
    failure frees the arena and the structure (buffers already allocated are
    lost). *)
Definition conn_alloc (w : pool_world) (mem : conn_mem) : option Z * pool_world :=
  match cm_conn mem with
  | None => (None, w)
  | Some addr =>
      let '(r, h) := arena_create (w_heap w) NP_ARENA_SIZE in
      match r with
      | None => (None, set_heap h w)
      | Some (pa, a) =>
          let '(s1, b1) := buf_init buf_zero (cm_rbuf mem) NP_READ_BUF_SIZE in
          let '(s2, b2) := buf_init buf_zero (cm_wbuf mem) NP_WRITE_BUF_SIZE in
          let '(s3, b3) := buf_init buf_zero (cm_upstream_rbuf mem) NP_READ_BUF_SIZE in
          let '(s4, b4) := buf_init buf_zero (cm_upstream_wbuf mem) NP_WRITE_BUF_SIZE in
          if decide (s1 = NP_OK /\ s2 = NP_OK /\ s3 = NP_OK /\ s4 = NP_OK) then
            let c := mk_conn 0 0 CONN_READING_REQUEST (pa, a) b1 b2 b3 b4 0 0 0 0 0 false false
                       None None None None (mk_ccache None [] None 0 0) 0 None None in
            (Some addr, set_conns (<[addr := c]> (w_conns w)) (set_heap h w))
          else (None, set_heap (arena_destroy h pa a) w)
      end
  end.

(** [peer] is [None] for a null pointer. *)
Definition conn_reset (c : conn_t) (h : list region) (fd : Z) (peer : option Z)
    : cres (conn_t * list region) :=
  r ← arena_reset h (c_arena c).2;
  let '(a, h') := r in
  Ret (conn_init_bufs
         (mk_conn fd (-1) CONN_READING_REQUEST ((c_arena c).1, a) (c_rbuf c) (c_wbuf c)
            (c_upstream_rbuf c) (c_upstream_wbuf c) (default (c_peer c) peer) 0 (-1) 0 0
            false false (c_proxy_pool c) None None None (c_cache c) (c_proxy_status c) None None), h').

Definition conn_pool_create (mem : bool) (h : list region) (max_free : Z) : option pool_world :=
  if mem then Some (mk_world ∅ h None 0 max_free []) else None.

(** The rest of [conn_pool_get] and [conn_create]. *)
Definition reset_at (w : pool_world) (addr : Z) (fd : Z) (peer : option Z) : cres (option Z * pool_world) :=
  match w_conns w !! addr with
  | None => Stuck
  | Some c =>
      r ← conn_reset c (w_heap w) fd peer;
      let '(c', h') := r in
      Ret (Some addr, set_conns (<[addr := c']> (w_conns w)) (set_heap h' w))
  end.

Definition conn_pool_get (w : pool_world) (mem : conn_mem) (fd : Z) (peer : option Z)
    : cres (option Z * pool_world) :=
  match w_free_head w with
  | Some addr =>
      match w_conns w !! addr with
      | None => Stuck
      | Some c => reset_at (set_free (c_next c) (w_free_count w - 1) w) addr fd peer
      end
  | None =>
      match conn_alloc w mem with
      | (None, w') => Ret (None, w')
      | (Some addr, w') => reset_at w' addr fd peer
      end
  end.

Definition conn_create (w : pool_world) (mem : conn_mem) (fd : Z) (peer : option Z)
    : cres (option Z * pool_world) :=
  match conn_alloc w mem with
  | (None, w') => Ret (None, w')
  | (Some addr, w') => reset_at w' addr fd peer
  end.

Definition conn_set_upstream (c : conn_t) (upstream_fd : Z) : np_status_t * conn_t :=
  (NP_OK, set_c_upstream_fd upstream_fd c).

(** Close one descriptor of a connection if it is open; [del]: remove it from
    the event loop first. *)
Definition close_fd (del : bool) (fd : Z) : list sys_call :=
  if 0 <=? fd then (if del then [SysEpollDel fd; SysClose fd] else [SysClose fd]) else [].

Definition closed_fd (fd : Z) : Z := if 0 <=? fd then -1 else fd.

Definition conn_close (c : conn_t) : conn_t * list sys_call :=
  (set_c_state CONN_CLOSING
     (set_c_file_fd (closed_fd (c_file_fd c))
        (set_c_upstream_fd (closed_fd (c_upstream_fd c)) (set_c_fd (closed_fd (c_fd c)) c))),
   close_fd true (c_fd c) ++ close_fd true (c_upstream_fd c) ++ close_fd false (c_file_fd c)).

(** Free the buffers, the arena and the structure. *)
Definition free_conn (w : pool_world) (addr : Z) (c : conn_t) : pool_world :=
  set_heap (arena_destroy (w_heap w) (c_arena c).1 (c_arena c).2) (set_conns (delete addr (w_conns w)) w).

Definition conn_pool_put (w : pool_world) (addr : Z) : cres pool_world :=
  match w_conns w !! addr with
  | None => Stuck
  | Some c =>
      let '(c1, calls) := conn_close c in
      let w := add_calls calls w in
      if w_max_free w <=? w_free_count w then Ret (free_conn w addr c1)
      else
        r ← arena_reset (w_heap w) (c_arena c1).2;
        let '(a, h) := r in
        let c2 := set_c_next (w_free_head w) (conn_init_bufs (set_c_arena ((c_arena c1).1, a) c1)) in
        Ret (set_free (Some addr) (w_free_count w + 1)
               (set_heap h (set_conns (<[addr := c2]> (w_conns w)) w)))
  end.

Definition conn_destroy (w : pool_world) (addr : Z) : cres pool_world :=
  match w_conns w !! addr with
  | None => Stuck
  | Some c => let '(c1, calls) := conn_close c in Ret (free_conn (add_calls calls w) addr c1)
  end.

(** The walk of [conn_pool_destroy]; the fuel is the number of connections, so
    running out of it means the list has a cycle. *)
Fixpoint pool_destroy_loop (fuel : nat) (w : pool_world) (cur : option Z) : cres pool_world :=
  match cur with
  | None => Ret w
  | Some addr =>
      match fuel with
      | O => Stuck
      | S f =>
          match w_conns w !! addr with
          | None => Stuck
          | Some c => pool_destroy_loop f (free_conn w addr c) (c_next c)
          end
      end
  end.

Definition conn_pool_destroy (w : pool_world) : cres pool_world :=
  pool_destroy_loop (size (w_conns w)) w (w_free_head w).

End operations.

(** ** Invariant *)

Record conn_ok (c : conn_t) : Prop := {
  ck_rbuf : buf_ok (c_rbuf c);
  ck_wbuf : buf_ok (c_wbuf c);
  ck_upstream_rbuf : buf_ok (c_upstream_rbuf c);
  ck_upstream_wbuf : buf_ok (c_upstream_wbuf c);
  ck_arena : a_head (c_arena c).2 <> []
}.

(** What answering a request leaves alone. *)
Record kept (c c' : conn_t) : Prop := {
  kp_fd : c_fd c' = c_fd c;
  kp_rbuf : c_rbuf c' = c_rbuf c;
  kp_upstream_rbuf : c_upstream_rbuf c' = c_upstream_rbuf c;
  kp_upstream_wbuf : c_upstream_wbuf c' = c_upstream_wbuf c;
  kp_arena : c_arena c' = c_arena c;
  kp_keep_alive : c_keep_alive c' = c_keep_alive c;
  kp_upstream_fd : c_upstream_fd c' = c_upstream_fd c
}.

Lemma kept_refl (c : conn_t) : kept c c.
Proof. by constructor. Qed.

Lemma kept_ok (c c' : conn_t) : conn_ok c -> kept c c' -> buf_ok (c_wbuf c') -> conn_ok c'.
Proof. intros [] [_ H1 H2 H3 H4 _ _] ?. constructor; rewrite ?H1, ?H2, ?H3, ?H4; auto. Qed.

(** A connection as a new client expects it. *)
Record fresh_conn (fd : Z) (c : conn_t) : Prop := {
  fc_ok : conn_ok c;
  fc_fd : c_fd c = fd;
  fc_closed : c_upstream_fd c = -1 /\ c_file_fd c = -1;
  fc_state : c_state c = CONN_READING_REQUEST;
  fc_empty : contents (c_rbuf c) = [] /\ contents (c_wbuf c) = [] /\
             contents (c_upstream_rbuf c) = [] /\ contents (c_upstream_wbuf c) = [];
  fc_request : c_request c = None /\ c_response c = None /\ c_keep_alive c = false
}.

(** [fl] is the list of addresses reached from [head] through [next]. *)
Inductive free_chain (m : gmap Z conn_t) : option Z -> list Z -> Prop :=
| chain_nil : free_chain m None []
| chain_cons a c fl : m !! a = Some c -> free_chain m (c_next c) fl -> free_chain m (Some a) (a :: fl).

(** [live] are the connections in use. *)
Record conn_pool_inv (w : pool_world) (live : gset Z) (fl : list Z) : Prop := {
  cp_chain : free_chain (w_conns w) (w_free_head w) fl;
  cp_nodup : NoDup fl;
  cp_count : w_free_count w = zlen fl;
  cp_bound : zlen fl <= Z.max 0 (w_max_free w);
  cp_dom : dom (w_conns w) = live ∪ list_to_set fl;
  cp_apart : live ## list_to_set fl;
  cp_ok : map_Forall (fun _ c => conn_ok c) (w_conns w)
}.

(** [malloc]: a new address, arrays of the size asked for. *)
Record mem_ok (w : pool_world) (mem : conn_mem) : Prop := {
  mo_fresh : forall a, cm_conn mem = Some a -> a ∉ dom (w_conns w);
  mo_rbuf : forall d, cm_rbuf mem = Some d -> zlen d = NP_READ_BUF_SIZE;
  mo_wbuf : forall d, cm_wbuf mem = Some d -> zlen d = NP_WRITE_BUF_SIZE;
  mo_upstream_rbuf : forall d, cm_upstream_rbuf mem = Some d -> zlen d = NP_READ_BUF_SIZE;
  mo_upstream_wbuf : forall d, cm_upstream_wbuf mem = Some d -> zlen d = NP_WRITE_BUF_SIZE
}.

(** ** Lemmas *)

Lemma chain_insert (m : gmap Z conn_t) (head : option Z) (fl : list Z) (a : Z) (c : conn_t) :
  free_chain m head fl -> a ∉ fl -> free_chain (<[a := c]> m) head fl.
Proof.
  induction 1 as [| b c' fl Hb _ IH]; intros Ha; [constructor |].
  apply not_elem_of_cons in Ha as [Hne Ha]. econstructor; [by rewrite lookup_insert_ne by congruence | auto].
Qed.

Lemma chain_delete (m : gmap Z conn_t) (head : option Z) (fl : list Z) (a : Z) :
  free_chain m head fl -> a ∉ fl -> free_chain (delete a m) head fl.
Proof.
  induction 1 as [| b c' fl Hb _ IH]; intros Ha; [constructor |].
  apply not_elem_of_cons in Ha as [Hne Ha]. econstructor; [by rewrite lookup_delete_ne by congruence | auto].
Qed.

(** An arena that has a block allocates or is left as it is, and keeps one. *)
Lemma arena_alloc_defined {A : Allocator} (h : list region) (a : arena_t) (size align : Z) :
  a_head a <> [] -> align <> 0 ->
  exists o a' h', arena_alloc_aligned h a size align = Ret (o, a', h') /\ a_head a' <> [].
Proof.
  intros Ha Hal. unfold arena_alloc_aligned. destruct (a_head a) as [| blk rest] eqn:E; [done |]. cbn zeta.
  rewrite (proj2 (Z.eqb_neq align 0) Hal).
  case_match; [destruct (block_create h _) as [[nb h'] |] |]; eexists _, _, _; (split; [done |]); by rewrite ?E.
Qed.

Lemma arena_reset_defined (h : list region) (a : arena_t) :
  a_head a <> [] -> exists a' h', arena_reset h a = Ret (a', h') /\ a_head a' <> [].
Proof.
  intros Ha. unfold arena_reset. destruct (a_head a) as [| b bs]; [done |].
  destruct (arena_reset_loop h b bs) as [l h']. eauto.
Qed.

Lemma conn_reset_fresh (c : conn_t) (h : list region) (fd : Z) (peer : option Z) :
  conn_ok c ->
  exists c' h', conn_reset c h fd peer = Ret (c', h') /\ fresh_conn fd c' /\
    c_cache c' = c_cache c /\ c_proxy_status c' = c_proxy_status c /\ c_proxy_pool c' = c_proxy_pool c.
Proof.
  intros [H1 H2 H3 H4 H5]. unfold conn_reset.
  destruct (arena_reset_defined h _ H5) as (a' & h' & -> & Ha). rewrite bind_Ret.
  eexists _, _. split; [done |]. split; [| done].
  constructor; cbn; auto; [constructor; cbn; auto using buf_reset_ok |].
  by rewrite !buf_reset_contents.
Qed.

Section lemmas.
Context {A : Allocator}.

Lemma arena_create_nonempty (h h' : list region) (bsize pa : Z) (a : arena_t) :
  arena_create h bsize = (Some (pa, a), h') -> a_head a <> [].
Proof. unfold arena_create. repeat case_goal; intros [= <- <- <-]; done. Qed.

Lemma buf_init_ok (mem : option bytes) (cap : Z) (b : np_buf_t) :
  (forall d, mem = Some d -> zlen d = cap) -> 0 <= cap < 2 ^ 63 -> buf_init buf_zero mem cap = (NP_OK, b) -> buf_ok b.
Proof.
  unfold buf_init. intros Hd Hc. destruct mem as [d |]; intros [= <-].
  constructor; cbn; [exists d; auto | lia | lia].
Qed.

(** Allocation: nothing, or a new well-formed connection. *)
Lemma conn_alloc_spec (w : pool_world) (mem : conn_mem) :
  mem_ok w mem ->
  exists h, (conn_alloc w mem).2 = set_heap h w /\ (conn_alloc w mem).1 = None \/
  (exists a c, conn_alloc w mem = (Some a, set_conns (<[a := c]> (w_conns w)) (set_heap h w)) /\
    (a ∉ dom (w_conns w)) /\ conn_ok c).
Proof.
  intros [Hf H1 H2 H3 H4]. unfold conn_alloc. destruct (cm_conn mem) as [a |]; [| by exists (w_heap w); left; destruct w].
  destruct (arena_create (w_heap w) NP_ARENA_SIZE) as [[[pa ar] |] h] eqn:Ea; [| by exists h; left].
  destruct (buf_init _ (cm_rbuf mem) _) as [s1 b1] eqn:E1. destruct (buf_init _ (cm_wbuf mem) _) as [s2 b2] eqn:E2.
  destruct (buf_init _ (cm_upstream_rbuf mem) _) as [s3 b3] eqn:E3.
  destruct (buf_init _ (cm_upstream_wbuf mem) _) as [s4 b4] eqn:E4.
  case_decide as Hs; [| by eexists; left]. destruct Hs as (-> & -> & -> & ->).
  exists h. right. eexists a, _. split; [done |]. split; [auto |].
  constructor; cbn; [eapply buf_init_ok; [exact H1 | by vm_compute | exact E1]
    | eapply buf_init_ok; [exact H2 | by vm_compute | exact E2] | eapply buf_init_ok; [exact H3 | by vm_compute | exact E3]
    | eapply buf_init_ok; [exact H4 | by vm_compute | exact E4] | by eapply arena_create_nonempty].
Qed.

(** Resetting a connection that is not in the free list makes it live. *)
Lemma reset_at_spec (w : pool_world) (live : gset Z) (fl : list Z) (a : Z) (c : conn_t) (fd : Z) (peer : option Z) :
  w_conns w !! a = Some c -> conn_ok c -> a ∉ fl -> a ∉ live ->
  free_chain (w_conns w) (w_free_head w) fl -> NoDup fl -> w_free_count w = zlen fl ->
  zlen fl <= Z.max 0 (w_max_free w) -> dom (w_conns w) = {[a]} ∪ live ∪ list_to_set fl ->
  live ## list_to_set fl -> map_Forall (fun _ c => conn_ok c) (w_conns w) ->
  exists w' c', reset_at w a fd peer = Ret (Some a, w') /\ conn_pool_inv w' ({[a]} ∪ live) fl /\
    w_conns w' !! a = Some c' /\ fresh_conn fd c' /\ w_calls w' = w_calls w /\
    c_cache c' = c_cache c /\ c_proxy_status c' = c_proxy_status c /\ c_proxy_pool c' = c_proxy_pool c.
Proof.
  intros Hc Hok Hafl Halive Hch Hnd Hcnt Hb Hdom Hap Hall. unfold reset_at. rewrite Hc.
  destruct (conn_reset_fresh c (w_heap w) fd peer Hok) as (c' & h' & -> & Hfr & Hk). rewrite bind_Ret.
  eexists _, c'. split; [done |]. split; [| split; [apply lookup_insert_eq | done]].
  constructor; cbn; auto.
  - by apply chain_insert.
  - rewrite dom_insert_L, Hdom. clear. set_solver.
  - clear - Hap Hafl. set_solver.
  - apply map_Forall_insert_2; [apply Hfr | done].
Qed.

(** Taking a connection: it was not in use, and it is fresh. *)
Lemma conn_pool_get_spec (w : pool_world) (live : gset Z) (fl : list Z) (mem : conn_mem) (fd : Z) (peer : option Z) :
  conn_pool_inv w live fl -> mem_ok w mem ->
  (exists w', conn_pool_get w mem fd peer = Ret (None, w') /\ conn_pool_inv w' live fl) \/
  (exists a w' fl' c', conn_pool_get w mem fd peer = Ret (Some a, w') /\ (a ∉ live) /\
    conn_pool_inv w' ({[a]} ∪ live) fl' /\ w_conns w' !! a = Some c' /\ fresh_conn fd c').
Proof.
  intros [Hch Hnd Hcnt Hb Hdom Hap Hall] Hmem. unfold conn_pool_get.
  destruct (w_free_head w) as [a |] eqn:Hhd.
  - right. inversion Hch as [| ? c fl' Hc Hch']; subst. rewrite Hc. apply NoDup_cons in Hnd as [Hafl Hnd].
    assert (a ∉ live) by (clear - Hap; set_solver).
    destruct (reset_at_spec (set_free (c_next c) (w_free_count w - 1) w) live fl' a c fd peer)
      as (w' & c' & Hr & Hinv & Hl & Hf & _); cbn; auto.
    + by apply (map_Forall_lookup_1 _ _ _ _ Hall Hc).
    + cbn [length] in Hcnt. lia.
    + cbn [length] in Hb. lia.
    + rewrite Hdom. clear. set_solver.
    + clear - Hap. set_solver.
    + exists a, w', fl', c'. auto.
  - inversion Hch; subst. destruct (conn_alloc_spec w mem Hmem) as [h [[Hw Hn] | (a & c & Ha & Hfr & Hok)]].
    + left. destruct (conn_alloc w mem) as [r w']. cbn in *. subst. eexists. split; [done |].
      constructor; cbn; auto. rewrite Hhd. constructor.
    + right. rewrite Ha.
      assert (a ∉ live) by (clear - Hfr Hdom; set_solver).
      destruct (reset_at_spec (set_conns (<[a := c]> (w_conns w)) (set_heap h w)) live [] a c fd peer)
        as (w' & c' & Hr & Hinv & Hl & Hf & _); cbn; auto.
      * apply lookup_insert_eq.
      * by apply not_elem_of_nil.
      * rewrite Hhd. constructor.
      * rewrite dom_insert_L, Hdom. clear. set_solver.
      * by apply map_Forall_insert_2.
      * exists a, w', [], c'. auto.
Qed.

Lemma conn_close_ok (c : conn_t) : conn_ok c -> conn_ok (conn_close c).1.
Proof. intros [H1 H2 H3 H4 H5]. by constructor. Qed.

(** Releasing a connection in use. *)
Lemma conn_pool_put_spec (w : pool_world) (live : gset Z) (fl : list Z) (a : Z) :
  conn_pool_inv w live fl -> a ∈ live ->
  exists w' fl', conn_pool_put w a = Ret w' /\ conn_pool_inv w' (live ∖ {[a]}) fl' /\
    fl' = (if w_max_free w <=? w_free_count w then fl else a :: fl).
Proof.
  intros [Hch Hnd Hcnt Hb Hdom Hap Hall] Ha.
  assert (a ∉ fl) as Hafl by (clear - Hap Ha; set_solver).
  assert (exists c, w_conns w !! a = Some c) as [c Hc].
  { apply elem_of_dom. rewrite Hdom. clear - Ha. set_solver. }
  pose proof (conn_close_ok c (map_Forall_lookup_1 _ _ _ _ Hall Hc)) as Hok.
  unfold conn_pool_put. rewrite Hc. destruct (conn_close c) as [c1 calls]. cbn [fst] in Hok. cbn [w_max_free w_free_count add_calls].
  destruct (Z.leb_spec (w_max_free w) (w_free_count w)) as [E | E].
  - eexists _, fl. split; [done |]. split; [| done]. constructor; cbn; auto.
    + by apply chain_delete.
    + rewrite dom_delete_L, Hdom. clear - Hafl. set_solver.
    + clear - Hap. set_solver.
    + by apply map_Forall_delete.
  - destruct (arena_reset_defined (w_heap w) _ (ck_arena _ Hok)) as (ar & h & Hr & Har).
    cbn [w_heap add_calls]. rewrite Hr, bind_Ret. eexists _, (a :: fl). split; [done |]. split; [| done].
    constructor; cbn.
    + eapply chain_cons; [apply lookup_insert_eq |]. cbn. by apply chain_insert.
    + by apply NoDup_cons.
    + lia.
    + lia.
    + rewrite dom_insert_L, Hdom. clear - Ha. rewrite (union_difference_singleton_L a live Ha) at 1. set_solver.
    + clear - Hap. set_solver.
    + apply map_Forall_insert_2; [| done]. destruct Hok. constructor; cbn; auto using buf_reset_ok.
Qed.

End lemmas.

(** ** Histories

    The steps of a process that uses the pool: take a connection, work on one in
    use (any change that keeps it well formed), release one in use. *)

Inductive pool_step {A : Allocator} : pool_world * gset Z -> pool_world * gset Z -> Prop :=
| step_get w live mem fd peer r w' :
    mem_ok w mem -> conn_pool_get w mem fd peer = Ret (r, w') ->
    pool_step (w, live) (w', match r with Some a => {[a]} ∪ live | None => live end)
| step_use w live a c h :
    a ∈ live -> conn_ok c -> pool_step (w, live) (set_heap h (set_conns (<[a := c]> (w_conns w)) w), live)
| step_put w live a w' :
    a ∈ live -> conn_pool_put w a = Ret w' -> pool_step (w, live) (w', live ∖ {[a]}).

(** Work on a connection in use. *)
Lemma conn_pool_use (w : pool_world) (live : gset Z) (fl : list Z) (a : Z) (c : conn_t) (h : list region) :
  conn_pool_inv w live fl -> a ∈ live -> conn_ok c ->
  conn_pool_inv (set_heap h (set_conns (<[a := c]> (w_conns w)) w)) live fl.
Proof.
  intros [Hch Hnd Hcnt Hb Hdom Hap Hall] Ha Hok. assert (a ∉ fl) by (clear - Hap Ha; set_solver). constructor; cbn; auto.
  - by apply chain_insert.
  - rewrite dom_insert_L, Hdom. clear - Ha. set_solver.
  - by apply map_Forall_insert_2.
Qed.

(** The destruction of a pool frees the idle connections, and leaves those in use. *)
Lemma pool_destroy_loop_spec (fl : list Z) (fuel : nat) (w : pool_world) (head : option Z) :
  free_chain (w_conns w) head fl -> NoDup fl -> (length fl <= fuel)%nat ->
  exists w', pool_destroy_loop fuel w head = Ret w' /\ dom (w_conns w') = dom (w_conns w) ∖ list_to_set fl /\
    w_calls w' = w_calls w /\ forall a, a ∉ fl -> w_conns w' !! a = w_conns w !! a.
Proof.
  revert fuel w head. induction fl as [| a fl IH]; intros fuel w head Hch Hnd Hlen; inversion Hch as [| ? c ? Hc Hrest]; subst.
  - exists w. split_and!; [by destruct fuel | cbn; set_solver | done | done].
  - destruct fuel as [| f]; [cbn in Hlen; lia |]. apply NoDup_cons in Hnd as [Ha Hnd]. cbn [pool_destroy_loop]. rewrite Hc.
    destruct (IH f (free_conn w a c) (c_next c)) as (w' & Hr & Hd & Hk & Hw); [by apply chain_delete | done | cbn in Hlen; lia |].
    exists w'. split_and!; [done | | done |].
    + rewrite Hd. cbn [free_conn set_heap set_conns w_conns list_to_set]. rewrite dom_delete_L. set_solver.
    + intros x [Hxa Hx]%not_elem_of_cons. rewrite Hw by done. cbn. by rewrite lookup_delete_ne.
Qed.

Lemma conn_pool_destroy_spec (w : pool_world) (live : gset Z) (fl : list Z) :
  conn_pool_inv w live fl ->
  exists w', conn_pool_destroy w = Ret w' /\ dom (w_conns w') = live /\ w_calls w' = w_calls w /\
    forall a, a ∈ live -> w_conns w' !! a = w_conns w !! a.
Proof.
  intros [Hch Hnd Hcnt Hb Hdom Hap Hall]. unfold conn_pool_destroy.
  destruct (pool_destroy_loop_spec fl (size (w_conns w)) w (w_free_head w) Hch Hnd) as (w' & Hr & Hd & Hk & Hw).
  - rewrite <- size_dom, Hdom, <- (size_list_to_set (C := gset Z) fl Hnd). apply subseteq_size. set_solver.
  - exists w'. split_and!; [done | rewrite Hd, Hdom; set_solver | done |]. intros a Ha. apply Hw. set_solver.
Qed.

Lemma pool_step_inv {A : Allocator} (s s' : pool_world * gset Z) :
  pool_step s s' -> (exists fl, conn_pool_inv s.1 s.2 fl) -> exists fl, conn_pool_inv s'.1 s'.2 fl.
Proof.
  intros Hs [fl Hinv]. destruct Hs as [w live mem fd peer r w' Hmem Hget | w live a c h Ha Hok | w live a w' Ha Hput]; cbn in *.
  - destruct (conn_pool_get_spec w live fl mem fd peer Hinv Hmem) as [(w1 & Hg & Hi) | (a & w1 & fl' & c' & Hg & _ & Hi & _)];
      rewrite Hg in Hget; injection Hget as <- <-; eauto.
  - exists fl. by apply conn_pool_use.
  - destruct (conn_pool_put_spec w live fl a Hinv Ha) as (w1 & fl' & Hp & Hi & _).
    rewrite Hp in Hput. injection Hput as <-. eauto.
Qed.

Lemma pool_reachable_inv {A : Allocator} (h : list region) (max_free : Z) (w0 w : pool_world) (live : gset Z) :
  conn_pool_create true h max_free = Some w0 -> rtc pool_step (w0, ∅) (w, live) ->
  exists fl, conn_pool_inv w live fl.
Proof.
  intros [= <-] Hr.
  assert (exists fl, conn_pool_inv (w, live).1 (w, live).2 fl); [| done].
  eapply (rtc_ind_r (fun s => exists fl, conn_pool_inv s.1 s.2 fl)); [| | exact Hr].
  - exists []. constructor; cbn; try constructor; try lia; try set_solver.
  - intros s s' _ Hs IH. by eapply pool_step_inv.
Qed.

(** One release, in full. *)
Lemma conn_pool_put_Ret {A : Allocator} (w : pool_world) (a : Z) (c : conn_t) :
  w_conns w !! a = Some c -> conn_ok c -> w_free_count w < w_max_free w ->
  exists w' c', conn_pool_put w a = Ret w' /\ w_conns w' = <[a := c']> (w_conns w) /\ conn_ok c' /\
    c_next c' = w_free_head w /\ w_free_head w' = Some a /\ w_free_count w' = w_free_count w + 1 /\
    w_max_free w' = w_max_free w /\ c_cache c' = c_cache c /\ c_proxy_status c' = c_proxy_status c /\
    c_proxy_pool c' = c_proxy_pool c.
Proof.
  intros Hc Hok Hlt. unfold conn_pool_put. rewrite Hc. pose proof (conn_close_ok c Hok) as Hok1.
  cbn [conn_close fst] in *. cbn [w_max_free w_free_count add_calls].
  replace (w_max_free w <=? w_free_count w) with false by lia.
  match goal with |- context [arena_reset ?h ?ar] =>
    destruct (arena_reset_defined h ar (ck_arena _ Hok1)) as (a' & h' & -> & Ha') end.
  rewrite bind_Ret. eexists _, _. split; [reflexivity |]. split; [reflexivity |].
  split; [| by split_and!]. destruct Hok1. constructor; cbn; auto using buf_reset_ok.
Qed.

(** One reuse, in full. *)
Lemma conn_pool_get_Ret {A : Allocator} (w : pool_world) (a : Z) (c : conn_t) (mem : conn_mem) (fd : Z) (peer : option Z) :
  w_free_head w = Some a -> w_conns w !! a = Some c -> conn_ok c ->
  exists w' c', conn_pool_get w mem fd peer = Ret (Some a, w') /\ w_conns w' = <[a := c']> (w_conns w) /\
    w_free_head w' = c_next c /\ fresh_conn fd c' /\
    c_cache c' = c_cache c /\ c_proxy_status c' = c_proxy_status c /\ c_proxy_pool c' = c_proxy_pool c.
Proof.
  intros Hh Hc Hok. unfold conn_pool_get. rewrite Hh, Hc. unfold reset_at. cbn [w_conns w_heap set_free]. rewrite Hc.
  destruct (conn_reset_fresh c (w_heap w) fd peer Hok) as (c' & h' & -> & Hf & Hk). rewrite bind_Ret.
  eexists _, c'. split; [done |]. split; [done |]. split; [done |]. split; [exact Hf | exact Hk].
Qed.

(** ** Properties *)

(** C12 In every state a process reaches by taking, using and releasing connections,
    each released once: taking a connection is defined and gives one that no
    client is using, reset for the new client (its descriptor, the reading state,
    four empty buffers, no request); releasing one in use is defined; and the pool
    never holds more than its maximum. *)
Theorem conn_pool_no_sharing {A : Allocator} (h : list region) (max_free : Z) (w0 w : pool_world) (live : gset Z)
    (mem : conn_mem) (fd : Z) (peer : option Z) :
  conn_pool_create true h max_free = Some w0 -> rtc pool_step (w0, ∅) (w, live) -> mem_ok w mem ->
  (exists r w', conn_pool_get w mem fd peer = Ret (r, w') /\
    forall a, r = Some a -> (a ∉ live) /\ exists c, w_conns w' !! a = Some c /\ fresh_conn fd c) /\
  (forall a, a ∈ live -> exists w', conn_pool_put w a = Ret w') /\
  w_free_count w <= Z.max 0 (w_max_free w).
Proof.
  intros Hc Hr Hm. destruct (pool_reachable_inv h max_free w0 w live Hc Hr) as [fl Hinv]. split_and!.
  - destruct (conn_pool_get_spec w live fl mem fd peer Hinv Hm)
      as [(w' & Hg & _) | (a & w' & fl' & c' & Hg & Hna & _ & Hl & Hf)].
    + exists None, w'. by split.
    + exists (Some a), w'. split; [done |]. intros b [= <-]. eauto.
  - intros a Ha. destruct (conn_pool_put_spec w live fl a Hinv Ha) as (w' & _ & Hp & _). eauto.
  - destruct Hinv. lia.
Qed.

Definition zeros (n : Z) : bytes := replicate (Z.to_nat n) 0.

Lemma zeros_length (n : Z) : 0 <= n -> forall d, Some (zeros n) = Some d -> zlen d = n.
Proof. intros Hn d [= <-]. unfold zeros. rewrite length_replicate. lia. Qed.

Definition witness_mem : conn_mem :=
  mk_mem (Some 1000) (Some (zeros NP_READ_BUF_SIZE)) (Some (zeros NP_WRITE_BUF_SIZE))
    (Some (zeros NP_READ_BUF_SIZE)) (Some (zeros NP_WRITE_BUF_SIZE)).

Lemma witness_mem_ok (w : pool_world) : w_conns w = ∅ -> mem_ok w witness_mem.
Proof.
  intros Hw. constructor; [| apply zeros_length; discriminate..].
  intros a _. rewrite Hw. apply not_elem_of_empty.
Qed.

Lemma conn_pool_no_sharing_witness :
  exists r w', conn_pool_get (mk_world ∅ [] None 0 2 []) witness_mem 7 None = Ret (r, w').
Proof.
  destruct (conn_pool_no_sharing [] 2 (mk_world ∅ [] None 0 2 []) (mk_world ∅ [] None 0 2 []) ∅ witness_mem 7 None)
    as ((r & w' & Hg & _) & _ & _).
  - reflexivity.
  - apply rtc_refl.
  - apply witness_mem_ok. reflexivity.
  - exists r, w'. exact Hg.
Defined.

(** Releasing the same connection twice breaks the pool: its free list becomes a
    loop, the next two clients are given the same connection, and the second
    overwrites the first one's descriptor. *)
Theorem conn_double_put_shares {A : Allocator} (w : pool_world) (a : Z) (c : conn_t)
    (mem : conn_mem) (fd1 fd2 : Z) (peer : option Z) :
  w_conns w !! a = Some c -> conn_ok c -> w_free_count w + 1 < w_max_free w ->
  exists w1 w2 w3 w4 c4, conn_pool_put w a = Ret w1 /\ conn_pool_put w1 a = Ret w2 /\
    conn_pool_get w2 mem fd1 peer = Ret (Some a, w3) /\ conn_pool_get w3 mem fd2 peer = Ret (Some a, w4) /\
    w_conns w4 !! a = Some c4 /\ c_fd c4 = fd2.
Proof.
  intros Hc Hok Hlt.
  destruct (conn_pool_put_Ret w a c Hc Hok ltac:(lia)) as (w1 & c1 & Hp1 & Hm1 & Hok1 & _ & Hh1 & Hn1 & Hx1 & _).
  destruct (conn_pool_put_Ret w1 a c1) as (w2 & c2 & Hp2 & Hm2 & Hok2 & Hnx2 & Hh2 & _);
    [by rewrite Hm1, lookup_insert_eq | done | lia |].
  destruct (conn_pool_get_Ret w2 a c2 mem fd1 peer Hh2) as (w3 & c3 & Hg3 & Hm3 & Hh3 & Hf3 & _);
    [by rewrite Hm2, lookup_insert_eq | done |].
  destruct (conn_pool_get_Ret w3 a c3 mem fd2 peer) as (w4 & c4 & Hg4 & Hm4 & _ & Hf4 & _);
    [by rewrite Hh3, Hnx2 | by rewrite Hm3, lookup_insert_eq | apply Hf3 |].
  exists w1, w2, w3, w4, c4. split_and!; auto; [by rewrite Hm4, lookup_insert_eq | apply Hf4].
Qed.

Definition witness_buf : np_buf_t := mk_buf (Some [0; 0]) 2 0 0.

Definition witness_conn : conn_t :=
  mk_conn 5 (-1) CONN_READING_REQUEST (100, mk_arena [mk_block 32 64 0] 64) witness_buf witness_buf witness_buf
    witness_buf 0 0 (-1) 0 0 false false None None None None
    (mk_ccache (Some 0%nat) (lit "GET:a:/") (Some (lit "old")) 3 8192) 200 None None.

Lemma witness_conn_ok : conn_ok witness_conn.
Proof.
  assert (buf_ok witness_buf) by (constructor; cbn; [eauto | lia | lia]). by constructor.
Qed.

Lemma conn_double_put_shares_witness :
  exists w1 w2 w3 w4 c4,
    conn_pool_put (mk_world {[9 := witness_conn]} [] None 0 10 []) 9 = Ret w1 /\ conn_pool_put w1 9 = Ret w2 /\
    conn_pool_get w2 witness_mem 21 None = Ret (Some 9, w3) /\
    conn_pool_get w3 witness_mem 22 None = Ret (Some 9, w4) /\
    w_conns w4 !! 9 = Some c4 /\ c_fd c4 = 22.
Proof.
  apply (conn_double_put_shares (mk_world {[9 := witness_conn]} [] None 0 10 []) 9 witness_conn witness_mem 21 22 None).
  - apply lookup_singleton_eq.
  - apply witness_conn_ok.
  - reflexivity.
Defined.

(** What reuse does not reset: a connection released with a partly collected
    response to cache is handed to the next client with the same cache store, key
    and buffered bytes, proxy pool and proxy status; everything else is fresh. *)
Theorem conn_recycle_keeps_cache {A : Allocator} (w : pool_world) (a : Z) (c : conn_t)
    (mem : conn_mem) (fd : Z) (peer : option Z) :
  w_conns w !! a = Some c -> conn_ok c -> w_free_count w < w_max_free w ->
  exists w1 w2 c2, conn_pool_put w a = Ret w1 /\ conn_pool_get w1 mem fd peer = Ret (Some a, w2) /\
    w_conns w2 !! a = Some c2 /\ fresh_conn fd c2 /\
    c_cache c2 = c_cache c /\ c_proxy_pool c2 = c_proxy_pool c /\ c_proxy_status c2 = c_proxy_status c.
Proof.
  intros Hc Hok Hlt.
  destruct (conn_pool_put_Ret w a c Hc Hok Hlt) as (w1 & c1 & Hp1 & Hm1 & Hok1 & _ & Hh1 & _ & _ & Hk1 & Hs1 & Hpp1).
  destruct (conn_pool_get_Ret w1 a c1 mem fd peer Hh1) as (w2 & c2 & Hg2 & Hm2 & _ & Hf2 & Hk2 & Hs2 & Hpp2);
    [by rewrite Hm1, lookup_insert_eq | done |].
  exists w1, w2, c2. split_and!; auto; [by rewrite Hm2, lookup_insert_eq | congruence..].
Qed.

Lemma conn_recycle_keeps_cache_witness :
  exists w1 w2 c2,
    conn_pool_put (mk_world {[9 := witness_conn]} [] None 0 10 []) 9 = Ret w1 /\
    conn_pool_get w1 witness_mem 21 None = Ret (Some 9, w2) /\ w_conns w2 !! 9 = Some c2 /\
    cc_buf (c_cache c2) = Some (lit "old").
Proof.
  destruct (conn_recycle_keeps_cache (mk_world {[9 := witness_conn]} [] None 0 10 []) 9 witness_conn witness_mem 21 None)
    as (w1 & w2 & c2 & Hp & Hg & Hl & _ & Hk & _).
  - apply lookup_singleton_eq.
  - apply witness_conn_ok.
  - reflexivity.
  - exists w1, w2, c2. split; [exact Hp |]. split; [exact Hg |]. split; [exact Hl |]. rewrite Hk. reflexivity.
Defined.
