(* ===== verification/Kernel.v ===== *)
(** * The kernel as a connection's handlers see it

    The handlers of src/proc/worker.c and src/proxy/proxy_conn.c read and write in
    loops until a call would block.  The answers the calls will get are a list,
    taken from the front; when it is used up a call would block.  Each answer
    keeps to the contract of its call: [read] stores at most what was asked for,
    [write] accepts at most what it was given.  The bytes accepted are recorded
    per descriptor, the bytes read likewise, and so are the other calls.

    The loops have fuel for one turn per answer and one more; a turn that repeats
    the loop has used an answer, so it is enough ([write_loop_Ret],
    [read_loop_Ret]). *)

From Stdlib Require Import ZArith Lia String.
From stdpp Require Import base numbers option list gmap.
From S2P Require Import Prelude CLib StringUtil Memory Buffer Parser Request Response Conn.

(** ** Answers and calls *)

Inductive answer : Type :=
| AData (bs : bytes)
| ACount (n : Z)
| AAgain
| AError.

Record sys_t : Type := mk_sys {
  s_io : list answer;
  s_calls : list sys_call;
  s_out : list (Z * bytes);
  s_in : list (Z * bytes)
}.

Definition sys_call_log (l : list sys_call) (s : sys_t) : sys_t := mk_sys (s_io s) (s_calls s ++ l) (s_out s) (s_in s).

Definition next_answer (s : sys_t) : answer * sys_t :=
  match s_io s with
  | [] => (AAgain, s)
  | a :: io => (a, mk_sys io (s_calls s) (s_out s) (s_in s))
  end.

Definition clamp (lo hi z : Z) : Z := Z.max lo (Z.min hi z).

Definition answer_read (a : answer) (space : Z) : sys_read :=
  match a with
  | AData bs => RdData (take (Z.to_nat space) bs)
  | AError => RdErr EOTHER
  | _ => RdErr EAGAIN
  end.

Definition answer_write (a : answer) (bs : bytes) : sys_write :=
  match a with
  | ACount n => WrCount (clamp 0 (zlen bs) n)
  | AError => WrErr EOTHER
  | _ => WrErr EAGAIN
  end.

(** [buf_write_fd(b, fd)]; no call is made for an empty buffer. *)
Definition k_write (fd : Z) (b : np_buf_t) (s : sys_t) : cres (Z * np_buf_t * sys_t) :=
  if buf_readable b =? 0 then
    r ← buf_write_fd b (fun _ => WrErr EAGAIN); Ret (r.1, r.2, s)
  else
    let '(a, s') := next_answer s in
    bs ← buf_peek b (buf_readable b);
    r ← buf_write_fd b (answer_write a);
    Ret (r.1, r.2, mk_sys (s_io s') (s_calls s') (s_out s' ++ [(fd, take (Z.to_nat r.1) bs)]) (s_in s')).

(** [buf_read_fd(b, fd)]; no call is made when there is no room. *)
Definition k_read (fd : Z) (b : np_buf_t) (s : sys_t) : cres (Z * np_buf_t * sys_t) :=
  b1 ← buf_compact b;
  if buf_writable b1 =? 0 then r ← buf_read_fd b (fun _ => RdErr EAGAIN); Ret (r.1, r.2, s)
  else
    let '(a, s') := next_answer s in
    let got := match answer_read a (buf_writable b1) with RdData bs => bs | RdErr _ => [] end in
    r ← buf_read_fd b (answer_read a);
    Ret (r.1, r.2, mk_sys (s_io s') (s_calls s') (s_out s') (s_in s' ++ [(fd, got)])).

(** [do n = buf_write_fd(b, fd); while (n > 0);] *)
Fixpoint write_all (fuel : nat) (fd : Z) (b : np_buf_t) (s : sys_t) : cres (Z * np_buf_t * sys_t) :=
  match fuel with
  | O => Stuck
  | S f =>
      r ← k_write fd b s;
      let '(n, b', s') := r in
      if 0 <? n then write_all f fd b' s' else Ret (n, b', s')
  end.

Definition write_loop (fd : Z) (b : np_buf_t) (s : sys_t) : cres (Z * np_buf_t * sys_t) :=
  write_all (S (length (s_io s))) fd b s.

(** [do n = buf_read_fd(b, fd); while (n > 0);] *)
Fixpoint read_all (fuel : nat) (fd : Z) (b : np_buf_t) (s : sys_t) : cres (Z * np_buf_t * sys_t) :=
  match fuel with
  | O => Stuck
  | S f =>
      r ← k_read fd b s;
      let '(n, b', s') := r in
      if 0 <? n then read_all f fd b' s' else Ret (n, b', s')
  end.

Definition read_loop (fd : Z) (b : np_buf_t) (s : sys_t) : cres (Z * np_buf_t * sys_t) :=
  read_all (S (length (s_io s))) fd b s.

(** What went through a descriptor: [sent_to fd] of the bytes written or read. *)
Definition sent_to (fd : Z) (out : list (Z * bytes)) : bytes :=
  concat (map snd (filter (fun e => e.1 = fd) out)).

(** ** Lemmas *)

Lemma sent_to_app (fd : Z) (o1 o2 : list (Z * bytes)) : sent_to fd (o1 ++ o2) = sent_to fd o1 ++ sent_to fd o2.
Proof. unfold sent_to. by rewrite filter_app, map_app, concat_app. Qed.

Lemma sent_to_one (fd : Z) (bs : bytes) : sent_to fd [(fd, bs)] = bs.
Proof. unfold sent_to. rewrite filter_cons_True by done. cbn. by rewrite app_nil_r. Qed.

Lemma sent_to_other (fd fd' : Z) (bs : bytes) : fd' <> fd -> sent_to fd' [(fd, bs)] = [].
Proof. intros H. unfold sent_to. by rewrite filter_cons_False by (cbn; congruence). Qed.

(** Some of the bytes of [b] went to [fd], in order; nothing else happened. *)
Record wrote (fd : Z) (b b' : np_buf_t) (s s' : sys_t) : Prop := {
  wr_ok : buf_ok b';
  wr_cap : b_cap b' = b_cap b;
  wr_bytes : exists t, contents b = t ++ contents b' /\ sent_to fd (s_out s') = sent_to fd (s_out s) ++ t;
  wr_other : forall fd', fd' <> fd -> sent_to fd' (s_out s') = sent_to fd' (s_out s);
  wr_calls : s_calls s' = s_calls s;
  wr_in : s_in s' = s_in s;
  wr_io : (length (s_io s') <= length (s_io s))%nat
}.

(** Some bytes were added to [b]; nothing was sent. *)
Record was_read (fd : Z) (b b' : np_buf_t) (s s' : sys_t) : Prop := {
  rd_ok : buf_ok b';
  rd_cap : b_cap b' = b_cap b;
  rd_bytes : exists t, contents b' = contents b ++ t /\ sent_to fd (s_in s') = sent_to fd (s_in s) ++ t;
  rd_other : forall fd', fd' <> fd -> sent_to fd' (s_in s') = sent_to fd' (s_in s);
  rd_out : s_out s' = s_out s;
  rd_calls : s_calls s' = s_calls s;
  rd_io : (length (s_io s') <= length (s_io s))%nat
}.

Lemma wrote_refl (fd : Z) (b : np_buf_t) (s : sys_t) : buf_ok b -> wrote fd b b s s.
Proof. intros H. constructor; auto. exists []. by rewrite app_nil_r. Qed.

Lemma wrote_trans (fd : Z) (b1 b2 b3 : np_buf_t) (s1 s2 s3 : sys_t) :
  wrote fd b1 b2 s1 s2 -> wrote fd b2 b3 s2 s3 -> wrote fd b1 b3 s1 s3.
Proof.
  intros [H1 H2 (t & H3 & H3') H4 H5 Hi H6] [K1 K2 (u & K3 & K3') K4 K5 Ki K6].
  constructor; [done | congruence | | | congruence | congruence | lia].
  - exists (t ++ u). rewrite H3, K3, K3', H3', !app_assoc. done.
  - intros fd' Hne. rewrite K4, H4; done.
Qed.

Lemma was_read_refl (fd : Z) (b : np_buf_t) (s : sys_t) : buf_ok b -> was_read fd b b s s.
Proof. intros H. constructor; auto. exists []. by rewrite !app_nil_r. Qed.

Lemma was_read_trans (fd : Z) (b1 b2 b3 : np_buf_t) (s1 s2 s3 : sys_t) :
  was_read fd b1 b2 s1 s2 -> was_read fd b2 b3 s2 s3 -> was_read fd b1 b3 s1 s3.
Proof.
  intros [H1 H2 (t & H3 & H3') Ho H4 H5 H6] [K1 K2 (u & K3 & K3') Ko K4 K5 K6].
  constructor; [done | congruence | | | congruence | congruence | lia].
  - exists (t ++ u). by rewrite K3, H3, K3', H3', !app_assoc.
  - intros fd' Hne. rewrite Ko, Ho; done.
Qed.

Lemma next_answer_frame (s s' : sys_t) (a : answer) :
  next_answer s = (a, s') ->
  s_calls s' = s_calls s /\ s_out s' = s_out s /\ s_in s' = s_in s /\
  ((s_io s = [] /\ a = AAgain /\ s' = s) \/ length (s_io s) = S (length (s_io s'))).
Proof. unfold next_answer. destruct (s_io s) as [| x io] eqn:E; intros [= <- <-]; cbn; rewrite ?E; auto 8. Qed.

Lemma answer_write_contract (a : answer) (bs : bytes) (n : Z) : answer_write a bs = WrCount n -> 0 <= n <= zlen bs.
Proof. destruct a; cbn; try discriminate. intros [= <-]. unfold clamp. lia. Qed.

Lemma answer_read_contract (a : answer) (space : Z) (bs : bytes) :
  0 < space -> answer_read a space = RdData bs -> zlen bs <= space.
Proof. intros Hs. destruct a; cbn; try discriminate. intros [= <-]. rewrite length_take. lia. Qed.

Lemma k_write_Ret (fd : Z) (b : np_buf_t) (s : sys_t) :
  buf_ok b ->
  exists n b' s', k_write fd b s = Ret (n, b', s') /\ wrote fd b b' s s' /\
    (0 < n -> (length (s_io s') < length (s_io s))%nat) /\ (contents b = [] -> n = 0 /\ b' = b /\ s' = s).
Proof.
  intros Hok. unfold k_write. rewrite buf_readable_val by done.
  destruct (Z.eqb_spec (zlen (contents b)) 0) as [E | E].
  - unfold buf_write_fd. rewrite buf_readable_val, (proj2 (Z.eqb_eq _ 0)) by done. exists 0, b, s. cbn.
    split; [done |]. split; [by apply wrote_refl |]. split; [lia | done].
  - destruct (next_answer s) as [a s1] eqn:En. destruct (next_answer_frame _ _ _ En) as (Hc & Ho & Hi & Hio).
    rewrite buf_peek_all, bind_Ret by done.
    destruct (buf_write_fd_Ret b (answer_write a) Hok (answer_write_contract a)) as (n & b' & -> & Hok' & Hcap & Hcont & Hle & _ & Hn).
    cbn [mbind cres_mbind fst snd]. eexists _, _, _. split; [reflexivity |]. split; [| split].
    + constructor; cbn [s_io s_calls s_out s_in]; [done | done | | | done | done | destruct Hio as [(_ & _ & ->) | ?]; lia].
      * exists (take (Z.to_nat n) (contents b)). rewrite sent_to_app, sent_to_one, Ho. split; [| done].
        rewrite Hcont. replace (Z.to_nat (Z.max 0 n)) with (Z.to_nat n) by lia. by rewrite take_drop.
      * intros fd' Hne. rewrite sent_to_app, sent_to_other, app_nil_r by done. by rewrite Ho.
    + cbn. intros Hpos. destruct Hio as [(_ & -> & _) | Hl]; [| lia].
      rewrite Hn in Hpos; [cbn in Hpos; lia |]. intros Hx. by rewrite Hx in E.
    + intros Hnil. rewrite Hnil in E. cbn in E. lia.
Qed.

Lemma k_read_Ret (fd : Z) (b : np_buf_t) (s : sys_t) :
  buf_ok b ->
  exists n b' s', k_read fd b s = Ret (n, b', s') /\ was_read fd b b' s s' /\
    (0 < n -> exists bs, s_io s = AData bs :: s_io s' /\
      contents b' = contents b ++ take (Z.to_nat (b_cap b - zlen (contents b))) bs).
Proof.
  intros Hok. unfold k_read. destruct (buf_compact_Ret b Hok) as (b1 & -> & Hok1 & _ & _ & _ & Hw). rewrite bind_Ret, Hw.
  destruct (Z.eqb_spec (b_cap b - zlen (contents b)) 0) as [E | E].
  - destruct (buf_read_fd_Ret b (fun _ => RdErr EAGAIN) Hok ltac:(discriminate)) as (n & b' & got & -> & Hok' & Hcap & Hc & Hn).
    cbn zeta in Hn. rewrite (proj2 (Z.eqb_eq _ _) E) in Hn. destruct Hn as [-> ->].
    cbn [mbind cres_mbind fst snd]. eexists _, _, _. split; [reflexivity |]. split; [| lia]. constructor; auto.
    exists []. rewrite !app_nil_r in *. done.
  - destruct (next_answer s) as [a s1] eqn:En. destruct (next_answer_frame _ _ _ En) as (Hcl & Ho & Hi & Hio).
    destruct (buf_read_fd_Ret b (answer_read a) Hok (answer_read_contract a)) as (n & b' & got & -> & Hok' & Hcap & Hc & Hn).
    cbn zeta in Hn. rewrite (proj2 (Z.eqb_neq _ _) E) in Hn. cbn [mbind cres_mbind fst snd].
    eexists _, _, _. split; [reflexivity |]. split.
    + assert (got = match answer_read a (b_cap b - zlen (contents b)) with RdData bs => bs | RdErr _ => [] end) as Hgot.
      { destruct (answer_read a _) as [[| x bs] | []]; by destruct Hn as [_ ->]. }
      constructor; cbn [s_io s_calls s_out s_in]; [done | done | | | done | done | destruct Hio as [(_ & _ & ->) | ?]; lia].
      * exists got. rewrite sent_to_app, <- Hgot, sent_to_one, Hi. done.
      * intros fd' Hne. rewrite sent_to_app, sent_to_other, app_nil_r by done. by rewrite Hi.
    + cbn [s_io]. intros Hpos. unfold next_answer in En. destruct (s_io s) as [| a' io] eqn:Es; injection En as <- <-.
      * cbn in Hn. destruct Hn as [-> _]. lia.
      * cbn [s_io]. rewrite Hc. destruct a' as [bs | k | |]; cbn in Hn;
          [| destruct Hn as [-> _]; lia | destruct Hn as [-> _]; lia | destruct Hn as [-> _]; lia].
        exists bs. split; [done |]. f_equal. destruct (take _ bs); by destruct Hn as [_ ->].
Qed.

Lemma write_loop_Ret (fd : Z) (b : np_buf_t) (s : sys_t) :
  buf_ok b ->
  exists n b' s', write_loop fd b s = Ret (n, b', s') /\ wrote fd b b' s s' /\ n <= 0 /\ (contents b = [] -> n = 0 /\ b' = b /\ s' = s).
Proof.
  unfold write_loop. remember (S (length (s_io s))) as fuel eqn:Hf. assert (length (s_io s) < fuel)%nat as Hlt by lia. clear Hf.
  revert b s Hlt. induction fuel as [| f IH]; intros b s Hlt Hok; [lia |]. cbn [write_all].
  destruct (k_write_Ret fd b s Hok) as (n & b1 & s1 & -> & Hw & Hio & Hnil). rewrite bind_Ret.
  destruct (0 <? n) eqn:E; bprop.
  - destruct (IH b1 s1) as (n' & b2 & s2 & -> & Hw2 & Hn' & _); [specialize (Hio E); lia | by destruct Hw |].
    eexists _, _, _. split; [done |]. split; [by eapply wrote_trans |]. split; [done |]. intros Hc.
    destruct (Hnil Hc) as [-> _]. lia.
  - eexists _, _, _. split; [done |]. split; [done |]. split; [lia | done].
Qed.

Lemma read_loop_Ret (fd : Z) (b : np_buf_t) (s : sys_t) :
  buf_ok b -> exists n b' s', read_loop fd b s = Ret (n, b', s') /\ was_read fd b b' s s' /\ n <= 0.
Proof.
  unfold read_loop. remember (S (length (s_io s))) as fuel eqn:Hf. assert (length (s_io s) < fuel)%nat as Hlt by lia. clear Hf.
  revert b s Hlt. induction fuel as [| f IH]; intros b s Hlt Hok; [lia |]. cbn [read_all].
  destruct (k_read_Ret fd b s Hok) as (n & b1 & s1 & -> & Hw & Hio). rewrite bind_Ret.
  destruct (0 <? n) eqn:E; bprop.
  - destruct (IH b1 s1) as (n' & b2 & s2 & -> & Hw2 & Hn'); [destruct (Hio E) as (bs & Heq & _); rewrite Heq in Hlt; cbn in Hlt; lia | by destruct Hw |].
    eexists _, _, _. split; [done |]. split; [by eapply was_read_trans | done].
  - eexists _, _, _. split; [done |]. split; [done | lia].
Qed.

(** *** The array behind a buffer *)

(** A read that does not fill the buffer leaves the last byte of the array. *)
Lemma k_read_last (fd n : Z) (b b' : np_buf_t) (s s' : sys_t) :
  buf_ok b -> k_read fd b s = Ret (n, b', s') -> zlen (contents b') < b_cap b -> array_last b' = array_last b.
Proof.
  intros Hok. unfold k_read. destruct (buf_compact_Ret b Hok) as (b1 & Hc1 & Hok1 & Hcon1 & Hr0 & Hcap1 & Hw). rewrite Hc1, bind_Ret.
  assert (forall r n b', buf_read_fd b r = Ret (n, b') -> (forall bs, r (buf_writable b1) = RdData bs -> zlen bs <= buf_writable b1) ->
    zlen (contents b') < b_cap b -> array_last b' = array_last b) as Hread.
  { intros r n0 b0 H Hr Hlt. unfold buf_read_fd in H. rewrite Hc1, bind_Ret in H.
    assert (b0 = b1 -> array_last b0 = array_last b) as Hsame.
    { intros ->. apply buf_compact_last; [done | done | by rewrite <- Hcon1]. }
    case_match; [injection H as <- <-; by apply Hsame |]. destruct (r (buf_writable b1)) as [[| x bs] | []] eqn:E;
      try (injection H as <- <-; by apply Hsame). specialize (Hr _ eq_refl).
    apply bind_inv in H as (b2 & Ha & H). injection H as <- <-. destruct (buf_append_Ret b1 (x :: bs) Hok1 Hr) as (b3 & Ha' & Hok3 & Hcon3 & _).
    rewrite Ha in Ha'. injection Ha' as <-. rewrite Hcon3, length_app in Hlt. pose proof (contents_length b1 Hok1) as Hl.
    rewrite (buf_append_last b1 b2 (x :: bs) Hok1 Ha) by lia. apply buf_compact_last; [done | done | rewrite <- Hcon1; lia]. }
  destruct (buf_writable b1 =? 0).
  - intros H. apply bind_inv in H as ([n0 b0] & Hr & H). injection H as <- <- <-. by eapply Hread.
  - destruct (next_answer s) as [a s1]. intros H. apply bind_inv in H as ([n0 b0] & Hr & H). injection H as <- <- <-. cbn [fst snd].
    eapply Hread; [exact Hr |]. intros bs Hbs. destruct a; cbn in Hbs; try discriminate. injection Hbs as <-. rewrite length_take. rewrite Hw.
    pose proof (contents_length b1 Hok1). destruct Hok1. rewrite <- Hcon1. lia.
Qed.

Lemma k_write_data (fd n : Z) (b b' : np_buf_t) (s s' : sys_t) :
  k_write fd b s = Ret (n, b', s') -> b_data b' = b_data b /\ s_io s' `suffix_of` s_io s.
Proof.
  assert (forall w r, buf_write_fd b w = Ret r -> b_data r.2 = b_data b) as Hw.
  { intros w r H. unfold buf_write_fd in H. case_match; [by injection H as <- |]. apply bind_inv in H as (bs & _ & H).
    repeat case_match; injection H as <-; cbn; try done. unfold buf_consume. by case_match. }
  unfold k_write. case_match.
  - intros H'. apply bind_inv in H' as (r & Hr & H'). injection H' as <- <- <-. by split; [eapply Hw |].
  - destruct (next_answer s) as [a s1] eqn:E. intros H'. apply bind_inv in H' as (bs & _ & H'). apply bind_inv in H' as (r & Hr & H').
    injection H' as <- <- <-. split; [by eapply Hw |]. cbn. unfold next_answer in E.
    destruct (s_io s) eqn:Es; injection E as <- <-; cbn; rewrite ?Es; [done | by apply suffix_cons_r].
Qed.

(** Writing does not change the array, and takes answers in order. *)
Lemma write_loop_data (fd n : Z) (b b' : np_buf_t) (s s' : sys_t) :
  write_loop fd b s = Ret (n, b', s') -> b_data b' = b_data b /\ s_io s' `suffix_of` s_io s.
Proof.
  unfold write_loop. generalize (S (length (s_io s))). intros fuel. revert b s. induction fuel as [| f IH]; intros b s H; [discriminate |].
  cbn [write_all] in H. apply bind_inv in H as ([[n1 b1] s1] & Hk & H). apply k_write_data in Hk as [Hd Hs].
  destruct (0 <? n1); [| by injection H as <- <- <-]. apply IH in H as [Hd' Hs']. split; [congruence | by etransitivity].
Qed.

(** *** Particular answers *)

Lemma k_read_answer (fd : Z) (b : np_buf_t) (s : sys_t) (a : answer) (io : list answer) :
  buf_ok b -> s_io s = a :: io -> zlen (contents b) < b_cap b ->
  exists n b' got, k_read fd b s = Ret (n, b', mk_sys io (s_calls s) (s_out s) (s_in s ++ [(fd, got)])) /\
    buf_ok b' /\ b_cap b' = b_cap b /\ contents b' = contents b ++ got /\
    match answer_read a (b_cap b - zlen (contents b)) with
    | RdData [] => n = -3 /\ got = []
    | RdData bs => n = zlen bs /\ got = bs
    | RdErr EAGAIN => n = -2 /\ got = []
    | RdErr EOTHER => n = -1 /\ got = []
    end.
Proof.
  intros Hok Hio Hle. unfold k_read. destruct (buf_compact_Ret b Hok) as (b1 & -> & _ & _ & _ & _ & Hw). rewrite bind_Ret, Hw.
  rewrite (proj2 (Z.eqb_neq _ 0)) by lia. unfold next_answer. rewrite Hio. cbn [s_io s_calls s_out s_in].
  destruct (buf_read_fd_Ret b (answer_read a) Hok (answer_read_contract a)) as (n & b' & got & -> & Hok' & Hcap & Hc & Hn).
  cbn zeta in Hn. rewrite (proj2 (Z.eqb_neq _ 0)) in Hn by lia. rewrite bind_Ret. cbn [fst snd].
  eexists n, b', got. split_and!; [| done.. | exact Hn]. do 3 f_equal. destruct (answer_read a _) as [[| y ys] | []]; by destruct Hn as [_ ->].
Qed.

Lemma k_read_data (fd : Z) (b : np_buf_t) (s : sys_t) (x : bytes) (io : list answer) :
  buf_ok b -> s_io s = AData x :: io -> x <> [] -> zlen x <= b_cap b - zlen (contents b) ->
  exists b', k_read fd b s = Ret (zlen x, b', mk_sys io (s_calls s) (s_out s) (s_in s ++ [(fd, x)])) /\
    buf_ok b' /\ b_cap b' = b_cap b /\ contents b' = contents b ++ x.
Proof.
  intros Hok Hio Hx Hle. assert (0 < zlen x) as Hpos by (destruct x; [done | cbn; lia]).
  destruct (k_read_answer fd b s (AData x) io Hok Hio) as (n & b' & got & Hr & Hok' & Hcap & Hc & Hn); [lia |].
  cbn [answer_read] in Hn. rewrite take_ge in Hn by lia. destruct x; [done |]. destruct Hn as [-> ->]. eauto.
Qed.

Lemma k_read_closed (fd : Z) (b : np_buf_t) (s : sys_t) (io : list answer) :
  buf_ok b -> s_io s = AData [] :: io -> zlen (contents b) < b_cap b ->
  exists b', k_read fd b s = Ret (-3, b', mk_sys io (s_calls s) (s_out s) (s_in s ++ [(fd, [])])) /\
    buf_ok b' /\ b_cap b' = b_cap b /\ contents b' = contents b.
Proof.
  intros Hok Hio Hle. destruct (k_read_answer fd b s (AData []) io Hok Hio Hle) as (n & b' & got & Hr & Hok' & Hcap & Hc & Hn).
  cbn [answer_read] in Hn. rewrite take_nil in Hn. destruct Hn as [-> ->]. rewrite app_nil_r in Hc. eauto.
Qed.

Lemma k_read_again (fd : Z) (b : np_buf_t) (s : sys_t) (io : list answer) :
  buf_ok b -> s_io s = AAgain :: io -> zlen (contents b) < b_cap b ->
  exists b', k_read fd b s = Ret (-2, b', mk_sys io (s_calls s) (s_out s) (s_in s ++ [(fd, [])])) /\
    buf_ok b' /\ b_cap b' = b_cap b /\ contents b' = contents b.
Proof.
  intros Hok Hio Hle. destruct (k_read_answer fd b s AAgain io Hok Hio Hle) as (n & b' & got & Hr & Hok' & Hcap & Hc & [-> ->]).
  rewrite app_nil_r in Hc. eauto.
Qed.

(** A client that accepts nothing. *)
Lemma write_loop_blocked (fd : Z) (b : np_buf_t) (s : sys_t) (io : list answer) :
  buf_ok b -> s_io s = AAgain :: io -> contents b <> [] ->
  exists b', write_loop fd b s = Ret (-2, b', mk_sys io (s_calls s) (s_out s ++ [(fd, [])]) (s_in s)) /\
    buf_ok b' /\ b_cap b' = b_cap b /\ contents b' = contents b.
Proof.
  intros Hok Hio Hne. unfold write_loop. rewrite Hio. cbn [length write_all]. unfold k_write. rewrite buf_readable_val by done.
  rewrite (proj2 (Z.eqb_neq _ 0)) by (destruct (contents b); [done | cbn; lia]).
  unfold next_answer. rewrite Hio, buf_peek_all, bind_Ret by done.
  destruct (buf_write_fd_Ret b (answer_write AAgain) Hok (answer_write_contract _)) as (n & b' & Hw & Hok' & Hcap & Hc & _ & _ & Hn).
  specialize (Hn Hne). cbn in Hn. subst n. rewrite Hw, bind_Ret. cbn [fst snd]. rewrite bind_Ret. exists b'. done.
Qed.
