(* ===== verification/FileServer.v ===== *)
(** * Static files: src/static/file_server.c, src/static/mime.c

    The handler resolves the request path to file names, opens the first that is
    a regular file, compares its tag with [If-None-Match], and writes the head of
    the response; the body is left to [sendfile].  The local arrays [path],
    [tmp_path] and [resolved] are modelled with their sizes: an access outside
    one is undefined.

    The file system is the function [fs] from names to the answers of [open] and
    [fstat]; the write to the client, the descriptors closed and the change of the
    client's event mask go through [sys_t] of Kernel.v. *)

From Stdlib Require Import ZArith Lia String.
From stdpp Require Import base numbers option list gmap.
From S2P Require Import Prelude CLib StringUtil Memory Buffer Parser Request Response Config EventLoop Conn Kernel.

(** ** Media types *)

Definition mime_table : list (string * string) :=
  [("html", "text/html; charset=utf-8"); ("htm", "text/html; charset=utf-8");
   ("css", "text/css; charset=utf-8"); ("js", "application/javascript"); ("mjs", "application/javascript");
   ("json", "application/json"); ("xml", "application/xml"); ("txt", "text/plain; charset=utf-8");
   ("md", "text/plain; charset=utf-8"); ("png", "image/png"); ("jpg", "image/jpeg"); ("jpeg", "image/jpeg");
   ("gif", "image/gif"); ("webp", "image/webp"); ("svg", "image/svg+xml"); ("ico", "image/x-icon");
   ("wasm", "application/wasm"); ("pdf", "application/pdf"); ("zip", "application/zip");
   ("gz", "application/gzip"); ("mp4", "video/mp4"); ("webm", "video/webm"); ("mp3", "audio/mpeg");
   ("ogg", "audio/ogg"); ("woff", "font/woff"); ("woff2", "font/woff2"); ("ttf", "font/ttf");
   ("otf", "font/otf")]%string.

Definition mime_by_extension (ext : option bytes) : bytes :=
  match ext with
  | None => lit "application/octet-stream"
  | Some e =>
      match list_find (fun m => strcasecmp_eq (lit m.1) e = true) mime_table with
      | Some (_, m) => lit m.2
      | None => lit "application/octet-stream"
      end
  end.

(** ** Helpers of the handler *)

Record stat_t : Type := mk_stat {
  st_isreg : bool;
  st_mtime : Z;
  st_size : Z
}.

(** The answer of [open]: the descriptor, with the answer of [fstat] on it. *)
Abbreviation file_system := (bytes -> option (Z * option stat_t)).

Definition path_is_safe (path : bytes) : bool :=
  match strstr path (lit "..") with None => true | Some _ => false end.

Definition file_extension (path : bytes) : option bytes :=
  match strrchr path 46 with
  | None | Some O => None
  | Some i => Some (drop (S i) path)
  end.

Definition etag_from_stat (st : stat_t) : bytes :=
  snprintf 64 ([DQUOTE] ++ fmt_lx (u64 (st_mtime st)) ++ lit "-" ++ fmt_lx (u64 (st_size st)) ++ [DQUOTE]).

Definition TMP_SIZE : Z := 8192.

(** The expansion of one [try_files] entry into [tmp_path]: [text] are the bytes
    before [tgt], [off] is [tgt - tmp_path].  [snprintf] stores what fits and
    returns the whole length, so [tgt] can move past the array; the terminator
    is then stored outside it. *)
Fixpoint expand_loop (fuel : nat) (path src text : bytes) (off : Z) : bytes * Z :=
  match fuel with
  | O => (text, off)
  | S f =>
      match src with
      | [] => (text, off)
      | c :: src' =>
          if off <? TMP_SIZE - 1 then
            if is_prefix (lit "$uri") src
            then expand_loop f path (drop 4 src) (text ++ snprintf (TMP_SIZE - off) path) (off + zlen path)
            else expand_loop f path src' (text ++ [c]) (off + 1)
          else (text, off)
      end
  end.

Definition expand_try_file (path src : bytes) : cres bytes :=
  let '(text, off) := expand_loop (length src) path src [] 0 in
  if off <? TMP_SIZE then Ret text else Stuck.

(** [EV_WRITE | EV_READ | EV_HUP | EV_EDGE]. *)
Definition EV_WRITE_READ : Z := Z.lor (Z.lor (Z.lor EV_WRITE EV_READ) EV_HUP) EV_EDGE.

Section handler.
Context {RX : Regex}.

(** The loop over [try_files]: what was opened last, and the descriptors closed. *)
Fixpoint try_files_loop (fs : file_system) (root path : bytes) (entries : list bytes) (closed : list sys_call)
    : cres (option (Z * stat_t * bytes) * list sys_call) :=
  match entries with
  | [] => Ret (None, closed)
  | e :: entries' =>
      tmp_path ← expand_try_file path e;
      let resolved := snprintf 8192 (root ++ tmp_path) in
      match fs resolved with
      | None => try_files_loop fs root path entries' closed
      | Some (fd, st) =>
          match st with
          | Some s =>
              if st_isreg s then Ret (Some (fd, s, resolved), closed)
              else try_files_loop fs root path entries' (closed ++ [SysClose fd])
          | None => try_files_loop fs root path entries' (closed ++ [SysClose fd])
          end
      end
  end.

(** Without [try_files]: [arr] is the array [path] up to its terminator. *)
Definition open_plain (fs : file_system) (root path arr : bytes) (plen : Z)
    : cres (option (Z * stat_t * bytes) * list sys_call) :=
  last ← load (Ptr arr 0) (plen - 1);
  let resolved :=
    if last =? 47 then snprintf 8192 (root ++ path ++ lit "index.html") else snprintf 8192 (root ++ path) in
  match fs resolved with
  | None => Ret (None, [])
  | Some (fd, Some s) => if st_isreg s then Ret (Some (fd, s, resolved), []) else Ret (None, [SysClose fd])
  | Some (fd, None) => Ret (None, [SysClose fd])
  end.

Definition header_200 (resolved : bytes) (st : stat_t) (keep_alive : bool) : bytes :=
  lit "HTTP/1.1 200 OK" ++ CRLF ++
  lit "Content-Type: " ++ mime_by_extension (file_extension resolved) ++ CRLF ++
  lit "Content-Length: " ++ fmt_d (st_size st) ++ CRLF ++
  lit "ETag: " ++ etag_from_stat st ++ CRLF ++
  lit "Connection: " ++ conn_token keep_alive ++ CRLF ++ CRLF.

(** [If-None-Match] is the tag. *)
Definition not_modified (req : http_request_t) (etag : bytes) : cres bool :=
  ims ← request_header req (STR (lit "If-None-Match"));
  if 0 <? len ims then
    let l := if len ims <? 63 then len ims else 63 in
    v ← load_n (ptr ims) l;
    Ret (strcmp_eq (cstr v) etag)
  else Ret false.

(** The status, the connection and the system afterwards. *)
Definition file_server_handle (c : conn_t) (req : http_request_t) (cfg : np_server_config_t)
    (fs : file_system) (s : sys_t) : cres (Z * conn_t * sys_t) :=
  let plen := if 4096 <=? len (req_path req) then 4095 else len (req_path req) in
  v ← load_n (ptr (req_path req)) plen;
  let path := cstr v in
  let arr := path ++ replicate (Z.to_nat plen - length path) 0 ++ [0] in
  if negb (path_is_safe path) then
    b ← response_write_error (c_wbuf c) 403 (req_keep_alive req);
    Ret (403, set_c_state CONN_WRITING_RESPONSE (set_c_wbuf b c), s)
  else
    r ← match try_files cfg with
        | [] => open_plain fs (static_root cfg) path arr plen
        | _ => try_files_loop fs (static_root cfg) path (try_files cfg) []
        end;
    match r with
    | (None, calls) =>
        b ← response_write_error (c_wbuf c) 404 (req_keep_alive req);
        Ret (404, set_c_state CONN_WRITING_RESPONSE (set_c_wbuf b c), sys_call_log calls s)
    | (Some (fd, st, resolved), calls) =>
        let etag := etag_from_stat st in
        same ← not_modified req etag;
        if (same : bool) then
          b ← response_write_simple (c_wbuf c) 304 (Some (lit "Not Modified")) None None (req_keep_alive req);
          Ret (304, set_c_state CONN_WRITING_RESPONSE (set_c_wbuf b c), sys_call_log (calls ++ [SysClose fd]) s)
        else
          b ← put_formatted 512 (header_200 resolved st (req_keep_alive req)) (c_wbuf c);
          r ← k_write (c_fd c) b (sys_call_log calls s);
          let '(_, b, s) := r in
          Ret (200,
               set_c_state CONN_SENDFILE (set_c_file_remaining (st_size st) (set_c_file_offset 0
                 (set_c_file_fd fd (set_c_wbuf b c)))),
               sys_call_log [SysEpollMod (c_fd c) EV_WRITE_READ] s)
    end.

End handler.

(** ** Reference definitions *)

(** A [try_files] entry with every [$uri] replaced. *)
Fixpoint expand_ref (fuel : nat) (path src : bytes) : bytes :=
  match fuel with
  | O => []
  | S f =>
      match src with
      | [] => []
      | c :: src' =>
          if is_prefix (lit "$uri") src then path ++ expand_ref f path (drop 4 src) else c :: expand_ref f path src'
      end
  end.

Definition expanded (path src : bytes) : bytes := expand_ref (length src) path src.

(** The first name that is a regular file, and the descriptors that were opened
    before it in vain. *)
Fixpoint first_file (fs : file_system) (names : list bytes) : option (Z * stat_t * bytes) * list Z :=
  match names with
  | [] => (None, [])
  | name :: names' =>
      match fs name with
      | None => first_file fs names'
      | Some (fd, Some s) =>
          if st_isreg s then (Some (fd, s, name), [])
          else let '(r, fds) := first_file fs names' in (r, fd :: fds)
      | Some (fd, None) => let '(r, fds) := first_file fs names' in (r, fd :: fds)
      end
  end.

Section reference.
Context {RX : Regex}.

(** The names the handler tries, for the path bytes [v] of the request. *)
Definition candidates (cfg : np_server_config_t) (v : bytes) : list bytes :=
  let path := cstr v in
  match try_files cfg with
  | [] =>
      let index := bool_decide (path = v /\ last v = Some 47) in
      [static_root cfg ++ path ++ (if index then lit "index.html" else [])]
  | es => map (fun e => static_root cfg ++ expanded path e) es
  end.

End reference.

(** A name below the directory [root], with no way up. *)
Definition below (root name : bytes) : Prop :=
  exists rest, name = root ++ 47 :: rest /\ strstr (47 :: rest) (lit "..") = None.

(** ** Lemmas *)

Lemma expand_loop_ref (fuel : nat) (path src text : bytes) :
  (length src <= fuel)%nat -> zlen text + zlen (expand_ref fuel path src) < TMP_SIZE ->
  expand_loop fuel path src text (zlen text) =
    (text ++ expand_ref fuel path src, zlen text + zlen (expand_ref fuel path src)).
Proof.
  unfold TMP_SIZE. revert src text. induction fuel as [| f IH]; intros src text Hf Hl.
  { cbn. rewrite app_nil_r. f_equal. cbn. lia. }
  destruct src as [| c src]; [cbn; rewrite app_nil_r; f_equal; lia |]. cbn in Hf.
  cbn [expand_loop expand_ref] in *. destruct (is_prefix (lit "$uri") (c :: src)) eqn:Hp.
  - rewrite length_app in Hl. unfold TMP_SIZE.
    destruct (expand_ref f path (drop 4 (c :: src))) as [| x xs] eqn:Hx; cbn [length] in Hl.
    + destruct (zlen text <? 8192 - 1) eqn:E; bprop.
      * rewrite snprintf_fits by lia. rewrite <- Nat2Z.inj_add, <- length_app. rewrite IH, Hx.
        -- rewrite !app_nil_r, length_app. cbn. f_equal. lia.
        -- cbn. rewrite length_drop. lia.
        -- rewrite Hx, length_app. cbn. lia.
      * assert (path = []) as -> by (destruct path; [done | cbn in *; lia]). cbn. rewrite app_nil_r. f_equal. lia.
    + rewrite (proj2 (Z.ltb_lt _ _)) by lia. rewrite snprintf_fits by lia. rewrite <- Nat2Z.inj_add, <- length_app.
      rewrite IH, Hx.
      * rewrite !length_app, <- app_assoc. f_equal. cbn. lia.
      * cbn. rewrite length_drop. lia.
      * rewrite Hx, length_app. cbn in *. lia.
  - cbn [length] in Hl. unfold TMP_SIZE. rewrite (proj2 (Z.ltb_lt _ _)) by lia.
    replace (zlen text + 1) with (zlen (text ++ [c])) by (rewrite length_app; cbn; lia). rewrite IH.
    + rewrite length_app, <- app_assoc. cbn. f_equal. lia.
    + lia.
    + rewrite length_app. cbn. lia.
Qed.

Lemma expand_try_file_Ret (path src : bytes) :
  zlen (expanded path src) < TMP_SIZE -> expand_try_file path src = Ret (expanded path src).
Proof.
  intros Hl. unfold expand_try_file. pose proof (expand_loop_ref (length src) path src []) as H. cbn [length] in H.
  change (Z.of_nat 0) with 0 in H. rewrite H by (unfold expanded in Hl; lia). cbn [app].
  unfold expanded in Hl. by rewrite (proj2 (Z.ltb_lt _ _)) by lia.
Qed.

Lemma try_files_loop_first (fs : file_system) (root path : bytes) (entries : list bytes) (closed : list sys_call) :
  Forall (fun e => zlen root + zlen (expanded path e) < TMP_SIZE) entries ->
  let '(r, fds) := first_file fs (map (fun e => root ++ expanded path e) entries) in
  try_files_loop fs root path entries closed = Ret (r, closed ++ map SysClose fds).
Proof.
  revert closed. induction entries as [| e entries IH]; intros closed Hall; [cbn; by rewrite app_nil_r |].
  apply Forall_cons in Hall as [He Hall]. cbn [map first_file try_files_loop].
  rewrite expand_try_file_Ret by lia. cbn [mbind cres_mbind].
  rewrite snprintf_fits by (rewrite length_app; unfold TMP_SIZE in He; lia).
  destruct (fs (root ++ expanded path e)) as [[fd [s |]] |].
  - destruct (st_isreg s); [by rewrite app_nil_r |]. specialize (IH (closed ++ [SysClose fd]) Hall).
    destruct (first_file fs _) as [r fds]. rewrite IH. by rewrite <- app_assoc.
  - specialize (IH (closed ++ [SysClose fd]) Hall). destruct (first_file fs _) as [r fds]. rewrite IH. by rewrite <- app_assoc.
  - apply (IH closed Hall).
Qed.

(** The byte the plain case looks at is a slash exactly when the path ends in
    one and has no zero byte. *)
Lemma path_last_slash (v : bytes) :
  v <> [] ->
  exists b, load (Ptr (cstr v ++ replicate (length v - length (cstr v)) 0 ++ [0]) 0) (zlen v - 1) = Ret b /\
    (b =? 47) = bool_decide (cstr v = v /\ last v = Some 47).
Proof.
  intros Hv. assert (length (cstr v) <= length v)%nat as Hle.
  { unfold cstr. rewrite <- (take_while_app_drop_while (fun b => negb (b =? 0)) v) at 2. rewrite length_app. lia. }
  assert (0 < length v)%nat as Hpos by (destruct v; [done | cbn; lia]).
  set (arr := cstr v ++ replicate (length v - length (cstr v)) 0 ++ [0]).
  assert (length arr = S (length v)) as Harr by (unfold arr; rewrite !length_app, length_replicate; cbn; lia).
  destruct (lookup_lt_is_Some_2 arr (length v - 1)%nat) as [b Hb]; [lia |]. exists b.
  unfold load. rewrite Z.add_0_l. replace (Z.to_nat (zlen v - 1)) with (length v - 1)%nat by lia. rewrite Hb.
  split; [by repeat case_match; bprop; try lia |].
  destruct (decide (cstr v = v)) as [Heq | Hne].
  - unfold arr in Hb. rewrite Heq in Hb. rewrite lookup_app_l in Hb by lia.
    assert (last v = Some b) as Hlast by (rewrite last_lookup, <- Nat.sub_1_r; done). rewrite Hlast.
    destruct (b =? 47) eqn:E; bprop; symmetry; [apply bool_decide_eq_true | apply bool_decide_eq_false]; naive_solver.
  - rewrite bool_decide_false by naive_solver.
    assert (length (cstr v) < length v)%nat as Hlt.
    { apply le_lt_eq_dec in Hle as [Hlt | Heq]; [done |]. destruct Hne. unfold cstr in *.
      rewrite <- (take_while_app_drop_while (fun b => negb (b =? 0)) v) in Heq at 2. rewrite length_app in Heq.
      rewrite <- (take_while_app_drop_while (fun b => negb (b =? 0)) v) at 2.
      assert (drop_while (fun b => negb (b =? 0)) v = []) as -> by (apply length_zero_iff_nil; lia). by rewrite app_nil_r. }
    unfold arr in Hb. rewrite lookup_app_r in Hb by lia. rewrite lookup_app_l in Hb by (rewrite length_replicate; lia).
    apply lookup_replicate in Hb as [-> _]. done.
Qed.

Lemma open_plain_first {RX : Regex} (fs : file_system) (cfg : np_server_config_t) (v : bytes) :
  try_files cfg = [] -> v <> [] -> zlen v < 4096 -> zlen (static_root cfg) < CONFIG_MAX_STR ->
  let '(r, fds) := first_file fs (candidates cfg v) in
  open_plain fs (static_root cfg) (cstr v) (cstr v ++ replicate (length v - length (cstr v)) 0 ++ [0]) (zlen v) =
    Ret (r, map SysClose fds).
Proof.
  intros Ht Hv Hl Hroot. unfold CONFIG_MAX_STR in Hroot. unfold candidates. rewrite Ht.
  destruct (path_last_slash v Hv) as (b & Hb & Hs). unfold open_plain. rewrite Hb. cbn [mbind cres_mbind].
  assert (zlen (cstr v) <= zlen v) as Hcs.
  { unfold cstr. rewrite <- (take_while_app_drop_while (fun b => negb (b =? 0)) v) at 2. rewrite length_app. lia. }
  assert ((if b =? 47 then snprintf 8192 (static_root cfg ++ cstr v ++ lit "index.html")
           else snprintf 8192 (static_root cfg ++ cstr v)) =
    static_root cfg ++ cstr v ++ (if bool_decide (cstr v = v /\ last v = Some 47) then lit "index.html" else [])) as ->.
  { rewrite Hs. destruct (bool_decide _); rewrite snprintf_fits; [done | | by rewrite app_nil_r |]; rewrite !length_app;
      [change (length (lit "index.html")) with 10%nat |]; lia. }
  cbn [first_file]. destruct (fs _) as [[fd [s |]] |]; try done. by destruct (st_isreg s).
Qed.

Lemma mime_length (ext : option bytes) : zlen (mime_by_extension ext) <= 40.
Proof.
  unfold mime_by_extension. destruct ext as [e |]; [| vm_compute; congruence].
  destruct (list_find _ mime_table) as [[i m] |] eqn:E; [| vm_compute; congruence].
  apply list_find_Some in E as (Hm & _).
  assert (Forall (fun m : string * string => zlen (lit m.2) <= 40) mime_table) as Hall
    by (refine (bool_decide_unpack _ _); vm_compute; exact I).
  exact (Forall_lookup_1 _ _ _ _ Hall Hm).
Qed.

Lemma header_200_length (resolved : bytes) (st : stat_t) (ka : bool) :
  0 <= st_size st < 2 ^ 63 -> zlen (header_200 resolved st ka) < 512.
Proof.
  intros Hs. pose proof (mime_length (file_extension resolved)) as Hm. pose proof (fmt_u_length_u64 (st_size st) ltac:(lia)) as Hf.
  unfold header_200, fmt_d. rewrite (proj2 (Z.ltb_ge _ 0)) by lia. rewrite !length_app. lit_len.
  assert (length (etag_from_stat st) <= 63)%nat by (unfold etag_from_stat, snprintf; rewrite length_take; lia).
  unfold conn_token. destruct ka; lit_len; lia.
Qed.

(** What the request's tag is compared with. *)
Definition tag_matches (hs : list (bytes * bytes)) (st : stat_t) : bool :=
  match header_val hs (lit "If-None-Match") with
  | Some v => eqb_bytes (cstr (take 63 v)) (etag_from_stat st)
  | None => false
  end.

Lemma not_modified_Ret (req : http_request_t) (hs : list (bytes * bytes)) (st : stat_t) :
  Forall2 header_repr (req_headers req) hs -> not_modified req (etag_from_stat st) = Ret (tag_matches hs st).
Proof.
  intros Hh. unfold not_modified, tag_matches, request_header.
  destruct (request_header_loop_Ret _ _ (STR (lit "If-None-Match")) (lit "If-None-Match") Hh (str_repr_STR _)) as (s & -> & Hs).
  cbn [mbind cres_mbind]. destruct (header_val hs (lit "If-None-Match")) as [v |]; [| by subst s].
  destruct Hs as [Hs _]. pose proof (str_repr_len _ _ Hs) as Hlen. destruct (0 <? len s) eqn:E; bprop.
  - assert ((if len s <? 63 then len s else 63) = Z.of_nat (Nat.min 63 (length v))) as ->
      by (destruct (len s <? 63) eqn:E'; bprop; lia).
    by rewrite (proj2 (load_n_Ret _ _ (take 63 v)) (readable_take_min _ _ _ _ Hs)).
  - destruct v; [| cbn in *; lia]. symmetry. f_equal.
Qed.

(** The [open] part of the handler, both ways of naming. *)
Lemma open_first {RX : Regex} (fs : file_system) (cfg : np_server_config_t) (v : bytes) :
  (try_files cfg = [] -> v <> []) -> zlen v < 4096 -> zlen (static_root cfg) < CONFIG_MAX_STR ->
  Forall (fun e => zlen (static_root cfg) + zlen (expanded (cstr v) e) < TMP_SIZE) (try_files cfg) ->
  let '(r, fds) := first_file fs (candidates cfg v) in
  match try_files cfg with
  | [] => open_plain fs (static_root cfg) (cstr v) (cstr v ++ replicate (Z.to_nat (zlen v) - length (cstr v)) 0 ++ [0]) (zlen v)
  | _ => try_files_loop fs (static_root cfg) (cstr v) (try_files cfg) []
  end = Ret (r, map SysClose fds).
Proof.
  intros Hv Hl Hroot Hall. rewrite Nat2Z.id. destruct (try_files cfg) as [| e es] eqn:Ht.
  - pose proof (open_plain_first fs cfg v Ht (Hv eq_refl) Hl Hroot) as H. by destruct (first_file _ _).
  - pose proof (try_files_loop_first fs (static_root cfg) (cstr v) (e :: es) [] Hall) as H.
    unfold candidates. rewrite Ht. by destruct (first_file _ _).
Qed.

Lemma first_file_in (fs : file_system) (names : list bytes) (fd : Z) (st : stat_t) (name : bytes) (fds : list Z) :
  first_file fs names = (Some (fd, st, name), fds) -> name ∈ names /\ fs name = Some (fd, Some st) /\ st_isreg st = true.
Proof.
  revert fds. induction names as [| n names IH]; intros fds; [done |]. cbn.
  destruct (fs n) as [[d [s |]] |] eqn:E.
  - destruct (st_isreg s) eqn:Er; [intros [= <- <- <- <-]; split_and!; [by left | done | done] |].
    destruct (first_file fs names) as [r fds'] eqn:Ef. intros [= -> <-]. destruct (IH _ eq_refl) as (? & ? & ?).
    split_and!; [by right | done | done].
  - destruct (first_file fs names) as [r fds'] eqn:Ef. intros [= -> <-]. destruct (IH _ eq_refl) as (? & ? & ?).
    split_and!; [by right | done | done].
  - intros H. destruct (IH _ H) as (? & ? & ?). split_and!; [by right | done | done].
Qed.

(** The response without a body. *)
Definition not_modified_head (ka : bool) : bytes :=
  lit "HTTP/1.1 304 Not Modified" ++ CRLF ++ lit "Content-Type: text/plain" ++ CRLF ++ lit "Content-Length: 0" ++ CRLF ++
  lit "Connection: " ++ conn_token ka ++ CRLF ++ CRLF.

Lemma not_modified_head_length (ka : bool) : zlen (not_modified_head ka) < 512.
Proof. destruct ka; vm_compute; reflexivity. Qed.

Lemma response_write_304 (b : np_buf_t) (ka : bool) :
  response_write_simple b 304 (Some (lit "Not Modified")) None None ka = put_formatted 512 (not_modified_head ka) b.
Proof.
  unfold response_write_simple. cbn zeta. cbn [default from_option]. change (0 <? 0) with false. cbn [andb].
  match goal with |- (_ ← put_formatted 512 ?h b; _) = _ => assert (h = not_modified_head ka) as -> by (destruct ka; vm_compute; reflexivity) end.
  by destruct (put_formatted 512 (not_modified_head ka) b).
Qed.

(** What the client is sent when the file is not: the head of an error page and
    the page, as far as they fit. *)
Definition error_sent (b : np_buf_t) (status : Z) (ka : bool) : bytes :=
  contents b ++ fitting (buf_writable b) (print_response_head status (status_reason status) (error_fields status ka)) (error_page status).

Lemma error_branch (c : conn_t) (status : Z) (ka : bool) (s : sys_t) :
  buf_ok (c_wbuf c) -> INT_MIN <= status <= INT_MAX ->
  exists st c' s',
    (b ← response_write_error (c_wbuf c) status ka;
     Ret (status, set_c_state CONN_WRITING_RESPONSE (set_c_wbuf b c), s)) = Ret (st, c', s') /\ buf_ok (c_wbuf c') /\ kept c c' /\
    st = status /\ s' = s /\ contents (c_wbuf c') = error_sent (c_wbuf c) status ka /\
    c_state c' = CONN_WRITING_RESPONSE /\ c_file_fd c' = c_file_fd c.
Proof.
  intros Hb Hs. destruct (response_write_error_Ret (OK := np_buf_write_buffer_ok) (c_wbuf c) status ka Hb Hs)
    as (b & Hput & Hok & Hc). rewrite Hput. cbn [mbind cres_mbind]. eexists _, _, _. split; [reflexivity |].
  split; [exact Hok |]. split_and!; [done | done | done | exact Hc | done | done].
Qed.

(** What the handler does, for the path bytes [v] and the fields [hs]. *)
Definition file_outcome {RX : Regex} (c : conn_t) (req : http_request_t) (cfg : np_server_config_t)
    (fs : file_system) (s : sys_t) (v : bytes) (hs : list (bytes * bytes)) (status : Z) (c' : conn_t) (s' : sys_t) : Prop :=
  if negb (path_is_safe (cstr v)) then
    status = 403 /\ s' = s /\ contents (c_wbuf c') = error_sent (c_wbuf c) 403 (req_keep_alive req) /\
    c_state c' = CONN_WRITING_RESPONSE /\ c_file_fd c' = c_file_fd c
  else
    match first_file fs (candidates cfg v) with
    | (None, fds) =>
        status = 404 /\ s' = sys_call_log (map SysClose fds) s /\
        contents (c_wbuf c') = error_sent (c_wbuf c) 404 (req_keep_alive req) /\
        c_state c' = CONN_WRITING_RESPONSE /\ c_file_fd c' = c_file_fd c
    | (Some (fd, st, name), fds) =>
        if tag_matches hs st then
          status = 304 /\ s' = sys_call_log (map SysClose (fds ++ [fd])) s /\
          contents (c_wbuf c') = contents (c_wbuf c) ++
            (if zlen (not_modified_head (req_keep_alive req)) <=? buf_writable (c_wbuf c) then not_modified_head (req_keep_alive req) else []) /\
          c_state c' = CONN_WRITING_RESPONSE /\ c_file_fd c' = c_file_fd c
        else
          status = 200 /\
          s_calls s' = s_calls s ++ map SysClose fds ++ [SysEpollMod (c_fd c) EV_WRITE_READ] /\
          c_state c' = CONN_SENDFILE /\ c_file_fd c' = fd /\ c_file_offset c' = 0 /\ c_file_remaining c' = st_size st /\
          exists t, sent_to (c_fd c) (s_out s') = sent_to (c_fd c) (s_out s) ++ t /\
            contents (c_wbuf c) ++ (if zlen (header_200 name st (req_keep_alive req)) <=? buf_writable (c_wbuf c) then header_200 name st (req_keep_alive req) else [])
            = t ++ contents (c_wbuf c')
    end.

Lemma file_server_handle_spec {RX : Regex} (c : conn_t) (req : http_request_t) (cfg : np_server_config_t)
    (fs : file_system) (s : sys_t) (pv : bytes) (hs : list (bytes * bytes)) :
  str_repr (req_path req) pv -> Forall2 header_repr (req_headers req) hs -> buf_ok (c_wbuf c) ->
  (forall name fd st, fs name = Some (fd, Some st) -> 0 <= st_size st < 2 ^ 63) ->
  let v := take 4095 pv in
  (try_files cfg = [] -> pv <> []) -> zlen (static_root cfg) < CONFIG_MAX_STR ->
  Forall (fun e => zlen (static_root cfg) + zlen (expanded (cstr v) e) < TMP_SIZE) (try_files cfg) ->
  exists status c' s', file_server_handle c req cfg fs s = Ret (status, c', s') /\ buf_ok (c_wbuf c') /\ kept c c' /\
    file_outcome c req cfg fs s v hs status c' s'.
Proof.
  intros Hp Hh Hb Hst v Hne Hroot Hall. pose proof (str_repr_len _ _ Hp) as Hlen.
  assert (zlen v < 4096) as Hv by (unfold v; rewrite length_take; lia).
  assert ((if 4096 <=? len (req_path req) then 4095 else len (req_path req)) = zlen v) as Hplen.
  { unfold v. rewrite length_take. destruct (4096 <=? len (req_path req)) eqn:E; bprop; lia. }
  unfold file_server_handle, file_outcome. rewrite Hplen.
  rewrite (proj2 (load_n_Ret _ _ v)); [| unfold v; rewrite length_take; eapply readable_take_min; exact Hp].
  cbn [mbind cres_mbind]. destruct (path_is_safe (cstr v)); cbn [negb].
  - pose proof (open_first fs cfg v) as Ho. destruct (first_file fs (candidates cfg v)) as [r fds] eqn:Ef.
    rewrite Ho; [| intros Ht; unfold v; destruct pv; [by destruct (Hne Ht) | done] | done..]. cbn [mbind cres_mbind].
    destruct r as [[[fd st] name] |].
    + rewrite (not_modified_Ret req hs st Hh). cbn [mbind cres_mbind]. destruct (tag_matches hs st).
      * destruct (put_formatted_Ret (OK := np_buf_write_buffer_ok) 512 _ (c_wbuf c) Hb (not_modified_head_length (req_keep_alive req)))
          as (b & Hput & Hok & Hcont).
        rewrite response_write_304, Hput. cbn [mbind cres_mbind]. eexists _, _, _. split; [reflexivity |].
        split; [exact Hok |]. split_and!; [done | done | by rewrite map_app | | done | done].
        change (wb_writable (c_wbuf c)) with (buf_writable (c_wbuf c)) in Hcont. cbn [c_wbuf set_c_wbuf set_c_state].
        destruct (zlen (not_modified_head (req_keep_alive req)) <=? buf_writable (c_wbuf c)); [exact (proj1 Hcont) |].
        subst b. by rewrite app_nil_r.
      * apply first_file_in in Ef as (_ & Hfs & _).
        destruct (put_formatted_Ret (OK := np_buf_write_buffer_ok) 512 (header_200 name st (req_keep_alive req)) (c_wbuf c) Hb)
          as (b & Hput & Hok & Hcont); [apply header_200_length; by eapply Hst |]. rewrite Hput. cbn [mbind cres_mbind].
        destruct (k_write_Ret (c_fd c) b (sys_call_log (map SysClose fds) s) Hok) as (n & b' & s' & Hwr & Hwrote & _).
        rewrite Hwr. cbn [mbind cres_mbind]. destruct Hwrote as [Hok' _ (t & Hc' & Ht) _ Hcalls _ _].
        eexists _, _, _. split; [reflexivity |]. split; [exact Hok' |]. split; [done |]. split; [done |].
        split; [by cbn [sys_call_log s_calls]; rewrite Hcalls; cbn [sys_call_log s_calls]; rewrite <- app_assoc |].
        split_and!; [done.. |]. exists t. split; [exact Ht |]. etransitivity; [| exact Hc'].
        change (wb_writable (c_wbuf c)) with (buf_writable (c_wbuf c)) in Hcont.
        destruct (zlen (header_200 name st (req_keep_alive req)) <=? buf_writable (c_wbuf c)); [symmetry; exact (proj1 Hcont) |].
        subst b. by rewrite app_nil_r.
    + by apply error_branch.
  - by apply error_branch.
Qed.

(** ** Properties *)


(** A request for [/a], a server with a root, and a file system with one file. *)
Definition sample_req (target : bytes) : http_request_t :=
  mk_req HTTP_METHOD_GET (STR target) STR_NULL (Some HTTP_11) [] (-1) false true false STR_NULL STR_NULL [] 0.

Definition sample_server (root : bytes) (entries : list bytes) : @np_server_config_t literal_regex :=
  @mk_server literal_regex 80 [] root [] [] entries (mk_tls false 0 [] []) (mk_proxy false BALANCE_ROUND_ROBIN 0 0 0 [])
    (mk_cache false [] 0 0) (mk_gzip false 0).

Definition sample_fs (name : bytes) : file_system :=
  fun n => if eqb_bytes n name then Some (9, Some (mk_stat true 16 255)) else None.

Definition sample_buf : np_buf_t := mk_buf (Some (replicate 400 0)) 400 0 0.

Definition sample_conn : conn_t :=
  mk_conn 5 (-1) CONN_READING_REQUEST (100, mk_arena [mk_block 32 64 0] 64) sample_buf sample_buf sample_buf sample_buf 0 0 (-1) 0 0 true false
    None None None None (mk_ccache None [] None 0 0) 0 None None.

Lemma sample_buf_ok : buf_ok sample_buf.
Proof. constructor; [exists (replicate 400 0); split; reflexivity | cbn; lia | cbn; lia]. Qed.

Definition sample_sys : sys_t := mk_sys [ACount 10; AAgain] [] [] [].


Lemma strstr_app_None (a b p : bytes) : strstr (a ++ b) p = None -> strstr a p = None.
Proof.
  rewrite !strstr_None. intros H (x & y & ->). apply H. exists x, (y ++ b). by rewrite <- !app_assoc.
Qed.

(** [index.html] after a slash cannot complete a [..]. *)
Lemma strstr_dots_index (a : bytes) : strstr a (lit "..") = None -> strstr (a ++ lit "index.html") (lit "..") = None.
Proof.
  assert (strstr (lit "index.html") (lit "..") = None) as H0 by reflexivity.
  induction a as [| x a IH]; [done |]. intros H. change (lit "..") with [46; 46] in *.
  cbn [strstr] in H. destruct (is_prefix [46; 46] (x :: a)) eqn:E; [discriminate |].
  destruct (strstr a [46; 46]) eqn:Ea; [discriminate |]. specialize (IH eq_refl). cbn [app strstr]. rewrite IH.
  assert (is_prefix [46; 46] (x :: a ++ lit "index.html") = false) as ->; [| done].
  destruct a as [| y a]; cbn in *; [| done]. by rewrite andb_false_r.
Qed.

Lemma first_file_agree (fs fs' : file_system) (names : list bytes) :
  Forall (fun n => fs n = fs' n) names -> first_file fs names = first_file fs' names.
Proof. induction 1 as [| n names Hn _ IH]; cbn; [done |]. by rewrite Hn, IH. Qed.

(** A [try_files] entry that keeps to the root for the path [path]: it starts with
    a slash or with the path, its expansion fits the array and has no [..]. *)
Definition entry_confined (root path e : bytes) : Prop :=
  zlen root + zlen (expanded path e) < TMP_SIZE /\ is_prefix (lit "/") e || is_prefix (lit "$uri") e = true /\
  strstr (expanded path e) (lit "..") = None.

Lemma expanded_head (path e : bytes) :
  head path = Some 47 -> is_prefix (lit "/") e || is_prefix (lit "$uri") e = true -> head (expanded path e) = Some 47.
Proof.
  intros Hp H. destruct e as [| c e]; [discriminate |]. unfold expanded. cbn [length expand_ref].
  destruct (is_prefix (lit "$uri") (c :: e)); [destruct path; [discriminate | done] |].
  rewrite orb_false_r in H. change (lit "/") with [47] in H. cbn [is_prefix] in H. destruct (Z.eqb_spec 47 c) as [<- |]; [done | discriminate].
Qed.

Lemma below_intro (root x : bytes) : head x = Some 47 -> strstr x (lit "..") = None -> below root (root ++ x).
Proof. intros Hh Hd. destruct x as [| y x]; [discriminate |]. injection Hh as ->. by exists x. Qed.

(** All names the handler tries are below the root. *)
Lemma candidates_below {RX : Regex} (cfg : np_server_config_t) (v : bytes) :
  head (cstr v) = Some 47 -> path_is_safe (cstr v) = true -> Forall (entry_confined (static_root cfg) (cstr v)) (try_files cfg) ->
  Forall (below (static_root cfg)) (candidates cfg v).
Proof.
  intros Hh Hs Hall. unfold path_is_safe in Hs. destruct (strstr (cstr v) (lit "..")) eqn:E; [discriminate |].
  unfold candidates. destruct (try_files cfg) as [| e es].
  - constructor; [| constructor]. apply below_intro; [destruct (cstr v); [discriminate | done] |].
    destruct (bool_decide _); [by apply strstr_dots_index | by rewrite app_nil_r].
  - apply Forall_map. eapply Forall_impl; [exact Hall |]. intros e' (_ & Hp & Hd). cbn. apply below_intro; [by apply expanded_head | done].
Qed.

(** The descriptor and the data of the one file [name]. *)
Definition one_file (name : bytes) : file_system :=
  fun n => if eqb_bytes n name then Some (9, Some (mk_stat true 16 255)) else None.

(** C19 The file server is confined to the document root: for a request path that
    starts with a slash its whole result (the status, the response, the descriptor
    to send, the calls made) is the same for any two file systems that agree on
    the names below the root, so nothing outside can be read or even found to
    exist; a path with [..] is refused.  With [try_files] this needs entries that
    start with a slash or with $uri and whose expansion fits the array and has no
    [..].  When the path does not start with a slash, which the parser allows, it
    is false: without [try_files], for every such path that is not empty and not
    refused there are two file systems that agree below the root and are answered
    differently (the path continues the name of the root directory itself:
    [/srv/www] and [-old/x] give [/srv/www-old/x]). *)
Theorem file_server_confined {RX : Regex} (c : conn_t) (req : http_request_t) (cfg : np_server_config_t) (s : sys_t)
    (pv : bytes) (hs : list (bytes * bytes)) :
  str_repr (req_path req) pv -> Forall2 header_repr (req_headers req) hs -> buf_ok (c_wbuf c) -> zlen (static_root cfg) < CONFIG_MAX_STR ->
  let v := cstr (take 4095 pv) in
  (head pv = Some 47 -> Forall (entry_confined (static_root cfg) v) (try_files cfg) ->
   forall fs fs' : file_system, (forall name, below (static_root cfg) name -> fs name = fs' name) ->
     file_server_handle c req cfg fs s = file_server_handle c req cfg fs' s) /\
  (try_files cfg = [] -> pv <> [] -> head pv <> Some 47 -> path_is_safe v = true ->
   exists fs fs' : file_system, (forall name, below (static_root cfg) name -> fs name = fs' name) /\
     file_server_handle c req cfg fs s <> file_server_handle c req cfg fs' s).
Proof.
  intros Hp Hh Hb Hroot v. pose proof (str_repr_len _ _ Hp) as Hlen. set (w := take 4095 pv) in *.
  assert (zlen w < 4096) as Hw by (unfold w; rewrite length_take; lia).
  assert ((if 4096 <=? len (req_path req) then 4095 else len (req_path req)) = zlen w) as Hplen.
  { unfold w. rewrite length_take. destruct (4096 <=? len (req_path req)) eqn:E; bprop; lia. }
  split.
  - intros Hhead Hall fs fs' Hagree. unfold file_server_handle. rewrite Hplen.
    rewrite (proj2 (load_n_Ret _ _ w)); [| unfold w; rewrite length_take; eapply readable_take_min; exact Hp].
    cbn [mbind cres_mbind]. fold v. destruct (path_is_safe v) eqn:Hs; cbn [negb]; [| done].
    assert (w <> [] /\ head v = Some 47) as [Hne Hv] by (unfold v, w; destruct pv; [discriminate |]; injection Hhead as ->; done).
    assert (Forall (fun e => zlen (static_root cfg) + zlen (expanded v e) < TMP_SIZE) (try_files cfg)) as Hsize
      by (eapply Forall_impl; [exact Hall | by intros e (? & _)]).
    pose proof (open_first fs cfg w (fun _ => Hne) Hw Hroot Hsize) as H1. pose proof (open_first fs' cfg w (fun _ => Hne) Hw Hroot Hsize) as H2.
    assert (first_file fs (candidates cfg w) = first_file fs' (candidates cfg w)) as Heq.
    { apply first_file_agree. eapply Forall_impl; [by apply candidates_below | exact Hagree]. }
    rewrite Heq in H1. fold v in H1, H2. destruct (first_file fs' (candidates cfg w)) as [r fds]. by rewrite H1, H2.
  - intros Ht Hne Hhead Hs. assert (forall fs : file_system, (forall name fd st, fs name = Some (fd, Some st) -> 0 <= st_size st < 2 ^ 63) ->
      exists status c' s', file_server_handle c req cfg fs s = Ret (status, c', s') /\ file_outcome c req cfg fs s w hs status c' s') as Hspec.
    { intros fs Hst. destruct (file_server_handle_spec c req cfg fs s pv hs Hp Hh Hb Hst) as (status & c' & s' & Hr & _ & _ & Ho); [done | done | by rewrite Ht |]. eauto. }
    set (name := static_root cfg ++ v ++ (if bool_decide (v = w /\ last w = Some 47) then lit "index.html" else [])).
    assert (candidates cfg w = [name]) as Hcand by (unfold candidates; by rewrite Ht).
    exists (fun _ => None), (one_file name). split.
    + intros n Hbelow. unfold one_file. destruct (eqb_bytes n name) eqn:E; [| done]. exfalso. apply eqb_bytes_true in E as ->.
      destruct Hbelow as (rest & Heq & _). apply app_inv_head in Heq. unfold v, w in Heq. destruct pv as [| x pv]; [done |].
      change (take 4095 (x :: pv)) with (x :: take 4094 pv) in Heq. unfold cstr in Heq. cbn [take_while] in Heq.
      destruct (negb (x =? 0)) eqn:Ex; [injection Heq as ->; done |]. cbn [app] in Heq. rewrite bool_decide_false in Heq by naive_solver. done.
    + destruct (Hspec (fun _ => None)) as (st1 & c1 & s1 & -> & Ho1); [done |].
      destruct (Hspec (one_file name)) as (st2 & c2 & s2 & -> & Ho2).
      { intros n fd st. unfold one_file. destruct (eqb_bytes n name); [| done]. intros [= <- <-]. cbn. lia. }
      unfold file_outcome in Ho1, Ho2. fold v in Ho1, Ho2. rewrite Hs, Hcand in Ho1, Ho2. cbn [negb first_file] in Ho1, Ho2.
      assert (one_file name name = Some (9, Some (mk_stat true 16 255))) as Hone by (unfold one_file; by rewrite eqb_bytes_refl).
      rewrite Hone in Ho2. cbn [st_isreg] in Ho2. intros [= -> _ _]. destruct Ho1 as [-> _]. by destruct (tag_matches _ _), Ho2.
Qed.

Lemma file_server_confined_witness :
  (forall fs fs' : file_system, (forall name, below (lit "/srv") name -> fs name = fs' name) ->
     file_server_handle (RX := literal_regex) sample_conn (sample_req (lit "/a")) (sample_server (lit "/srv") [lit "$uri"; lit "/index.html"]) fs sample_sys =
     file_server_handle (RX := literal_regex) sample_conn (sample_req (lit "/a")) (sample_server (lit "/srv") [lit "$uri"; lit "/index.html"]) fs' sample_sys) /\
  (exists fs fs' : file_system, (forall name, below (lit "/srv") name -> fs name = fs' name) /\
     file_server_handle (RX := literal_regex) sample_conn (sample_req (lit "-old/x")) (sample_server (lit "/srv") []) fs sample_sys <>
     file_server_handle (RX := literal_regex) sample_conn (sample_req (lit "-old/x")) (sample_server (lit "/srv") []) fs' sample_sys).
Proof.
  split.
  - apply (proj1 (file_server_confined (RX := literal_regex) sample_conn (sample_req (lit "/a")) (sample_server (lit "/srv") [lit "$uri"; lit "/index.html"])
      sample_sys (lit "/a") [] (str_repr_STR _) (Forall2_nil_2 _ _ _) sample_buf_ok eq_refl)); [reflexivity |].
    repeat constructor.
  - apply (proj2 (file_server_confined (RX := literal_regex) sample_conn (sample_req (lit "-old/x")) (sample_server (lit "/srv") [])
      sample_sys (lit "-old/x") [] (str_repr_STR _) (Forall2_nil_2 _ _ _) sample_buf_ok eq_refl)); [reflexivity | discriminate | discriminate | reflexivity].
Defined.

Lemma length_concat_uri (k : nat) : length (concat (replicate k (lit "$uri"))) = (4 * k)%nat.
Proof. induction k as [| k IH]; [done |]. cbn [replicate concat]. rewrite length_app, IH. change (length (lit "$uri")) with 4%nat. lia. Qed.

Lemma expand_overflow (fuel : nat) (path : bytes) (k : nat) (text : bytes) (off : Z) :
  (4 * S k <= fuel)%nat -> off + Z.of_nat k * zlen path < TMP_SIZE - 1 -> TMP_SIZE <= off + Z.of_nat (S k) * zlen path ->
  TMP_SIZE <= (expand_loop fuel path (concat (replicate (S k) (lit "$uri"))) text off).2.
Proof.
  revert k text off. induction fuel as [| f IH]; intros k text off Hf H1 H2; [lia |].
  assert (concat (replicate (S k) (lit "$uri")) = lit "$uri" ++ concat (replicate k (lit "$uri"))) as -> by done.
  assert (is_prefix (lit "$uri") (lit "$uri" ++ concat (replicate k (lit "$uri"))) = true) as Hpre by (apply is_prefix_spec; eauto).
  assert (drop 4 (lit "$uri" ++ concat (replicate k (lit "$uri"))) = concat (replicate k (lit "$uri"))) as Hdrop by done.
  revert Hpre Hdrop. change (lit "$uri" ++ ?x) with (36 :: 117 :: 114 :: 105 :: x). intros Hpre Hdrop.
  cbn [expand_loop]. rewrite Hpre, Hdrop, (proj2 (Z.ltb_lt off _)) by nia.
  destruct k as [| k]; [destruct f; cbn; lia |]. apply IH; nia.
Qed.

(** Two requests reach undefined behaviour.  With a [try_files] entry whose
    expansion passes the end of [tmp_path] inside a [$uri] (three [$uri], or two
    with any text, and a path of 4095 bytes), the terminator is stored outside the
    array.  Without [try_files], an empty path (a target such as [?x]) makes the
    handler read [path[-1]]. *)
Theorem file_server_out_of_bounds {RX : Regex} (c : conn_t) (req : http_request_t) (cfg : np_server_config_t)
    (fs : file_system) (s : sys_t) (pv : bytes) :
  str_repr (req_path req) pv ->
  (forall e es k, try_files cfg = e :: es -> path_is_safe (cstr (take 4095 pv)) = true ->
     e = concat (replicate (S k) (lit "$uri")) -> Z.of_nat k * zlen (cstr (take 4095 pv)) < TMP_SIZE - 1 ->
     TMP_SIZE <= Z.of_nat (S k) * zlen (cstr (take 4095 pv)) ->
     file_server_handle c req cfg fs s = Stuck) /\
  (try_files cfg = [] -> pv = [] -> file_server_handle c req cfg fs s = Stuck).
Proof.
  intros Hp. pose proof (str_repr_len _ _ Hp) as Hlen. set (v := take 4095 pv).
  assert ((if 4096 <=? len (req_path req) then 4095 else len (req_path req)) = zlen v) as Hplen.
  { unfold v. rewrite length_take. destruct (4096 <=? len (req_path req)) eqn:E; bprop; lia. }
  unfold file_server_handle. rewrite Hplen.
  rewrite (proj2 (load_n_Ret _ _ v)); [| unfold v; rewrite length_take; eapply readable_take_min; exact Hp].
  cbn [mbind cres_mbind]. split.
  - intros e es k Ht Hs -> H1 H2. rewrite Hs, Ht. cbn [negb try_files_loop].
    unfold expand_try_file. pose proof (expand_overflow (length (concat (replicate (S k) (lit "$uri")))) (cstr v) k [] 0) as Ho.
    destruct (expand_loop _ _ _ _ _) as [text off]. cbn [snd] in Ho.
    rewrite (proj2 (Z.ltb_ge off TMP_SIZE)); [done |]. apply Ho; [| lia | lia].
    rewrite length_concat_uri. lia.
  - intros Ht ->. rewrite Ht. done.
Qed.

Lemma file_server_out_of_bounds_witness :
  file_server_handle (RX := literal_regex) sample_conn (sample_req (replicate 3000 97))
    (sample_server (lit "/srv") [lit "$uri$uri$uri"]) (fun _ => None) sample_sys = Stuck /\
  file_server_handle (RX := literal_regex) sample_conn (sample_req []) (sample_server (lit "/srv") []) (fun _ => None)
    sample_sys = Stuck.
Proof.
  split.
  - apply (proj1 (file_server_out_of_bounds (RX := literal_regex) sample_conn (sample_req (replicate 3000 97))
      (sample_server (lit "/srv") [lit "$uri$uri$uri"]) (fun _ => None) sample_sys (replicate 3000 97)
      (str_repr_STR _)) (lit "$uri$uri$uri") [] 2%nat); vm_compute; congruence.
  - apply (proj2 (file_server_out_of_bounds (RX := literal_regex) sample_conn (sample_req [])
      (sample_server (lit "/srv") []) (fun _ => None) sample_sys [] (str_repr_STR _))); reflexivity.
Defined.
