(* ===== verification/Cache.v ===== *)
(** * Response cache: src/cache/cache.{h,c}

    One file per entry, named by the 64-bit FNV-1a hash of the key, holding the
    memory image of a header structure and then the data.  Here the file system
    is a map from paths to contents, changed by one process at a time: what an
    operation does when no other process is inside one.  The answers of [open],
    [read], [write], [rename], [unlink] and [malloc] are arguments, as is the
    clock.  What several processes do to the same directory, one system call at a
    time, is in [CacheShared], where [cache_insert] is shown to be the run of one
    insertion alone. *)

From Stdlib Require Import ZArith Lia String.
From stdpp Require Import base numbers option list gmap.
From S2P Require Import Prelude CLib StringUtil Parser Request.

(** ** Keys and paths *)

Definition fnv1a (data : bytes) : Z :=
  fold_left (fun hash c => u64 (Z.lxor hash (u8 c) * 1099511628211)) data 14695981039346656037.

Record cache_store_t : Type := mk_store { cs_root : bytes; cs_max_entries : Z }.

(** [mkdir]'s result is ignored by the code; [mem]: whether [calloc] succeeds. *)
Definition cache_store_create (mem : bool) (root : bytes) (max_entries : Z) : option cache_store_t :=
  if mem then Some (mk_store (strncpy root 511) max_entries) else None.

Definition cache_path (store : cache_store_t) (key : bytes) (max : Z) : bytes :=
  snprintf max (cs_root store ++ lit "/" ++ fmt_016llx (fnv1a key) ++ lit ".cache").

(** [%.*s] of a string slice: at most [len] bytes, stopping at a NUL. *)
Definition fmt_slice (s : str_t) : cres bytes := v ← load_n (ptr s) (len s); Ret (cstr v).

Definition cache_key_from_request (req : http_request_t) (max : Z) : cres bytes :=
  host ← request_header req (STR (lit "Host"));
  let method := http_method_str (req_method req) in
  path ← fmt_slice (req_path req);
  if is_null (ptr host) then Ret (snprintf max (method ++ lit ":_:" ++ path))
  else h ← fmt_slice host; Ret (snprintf max (method ++ lit ":" ++ h ++ lit ":" ++ path)).

(** ** Entries *)

Record cache_entry_header_t : Type := mk_hdr {
  hdr_status : Z;
  hdr_headers_len : Z;
  hdr_body_len : Z;
  hdr_expire_time : Z
}.

Record cache_entry_t : Type := mk_entry {
  ce_hdr : cache_entry_header_t;
  ce_data : bytes;
  ce_data_len : Z
}.

Definition sizeof_header : Z := 32.

(** Little-endian integers. *)
Fixpoint le_bytes (n : nat) (z : Z) : bytes :=
  match n with
  | O => []
  | S n' => z mod 256 :: le_bytes n' (z / 256)
  end.

Fixpoint le_value (bs : bytes) : Z :=
  match bs with
  | [] => 0
  | b :: bs' => b + 256 * le_value bs'
  end.

(** Two's complement reading of [w] bits. *)
Definition signed (w z : Z) : Z := if z <? 2 ^ (w - 1) then z else z - 2 ^ w.

(** The image of the structure: four bytes of [int], four of padding with
    whatever the stack held, three 8-byte members. *)
Definition header_image (pad : bytes) (h : cache_entry_header_t) : bytes :=
  le_bytes 4 (hdr_status h) ++ pad ++ le_bytes 8 (hdr_headers_len h) ++
  le_bytes 8 (hdr_body_len h) ++ le_bytes 8 (hdr_expire_time h).

Definition header_of_image (bs : bytes) : cache_entry_header_t :=
  mk_hdr (signed 32 (le_value (zsub 0 4 bs))) (le_value (zsub 8 8 bs)) (le_value (zsub 16 8 bs))
    (signed 64 (le_value (zsub 24 8 bs))).

(** ** Operations *)

Abbreviation fs := (gmap bytes bytes).

(** The system's answers in a lookup: whether [open] succeeds on a file that
    exists, how many bytes each [read] delivers when there are that many
    (negative: an error), whether [malloc] succeeds, whether [unlink] does. *)
Record lookup_io : Type := mk_lio {
  lk_open : bool;
  lk_read_hdr : Z;
  lk_mem : Z -> bool;
  lk_read_data : Z;
  lk_unlink : bool
}.

(** What [read] stores and returns when it is asked for [count] bytes of the
    rest [avail] of a file and delivers at most [n]. *)
Definition read_file (n count : Z) (avail : bytes) : Z * bytes :=
  if n <? 0 then (-1, [])
  else let got := take (Z.to_nat (Z.min n count)) avail in (zlen got, got).

Definition cache_lookup (store : cache_store_t) (key : bytes) (now : Z) (io : lookup_io) (f : fs)
    : np_status_t * option cache_entry_t * fs :=
  let path := cache_path store key 1024 in
  match f !! path with
  | None => (NP_ERR, None, f)
  | Some file =>
      if negb (lk_open io) then (NP_ERR, None, f)
      else
        let '(nh, image) := read_file (lk_read_hdr io) sizeof_header file in
        if negb (nh =? sizeof_header) then (NP_ERR, None, f)
        else
          let hdr := header_of_image image in
          if (0 <? hdr_expire_time hdr) && (hdr_expire_time hdr <? now)
          then (NP_ERR, None, if lk_unlink io then delete path f else f)
          else
            let total := u64 (hdr_headers_len hdr + hdr_body_len hdr) in
            if negb (lk_mem io total) then (NP_ERR_NOMEM, None, f)
            else
              let '(nr, data) := read_file (lk_read_data io) total (drop (Z.to_nat nh) file) in
              if (nr <? 0) || negb (nr =? total) then (NP_ERR, None, f)
              else (NP_OK, Some (mk_entry hdr data total), f)
  end.

(** The system's answers in an insertion: whether [open] succeeds, how many bytes
    each [write] stores (negative: an error), whether [rename] and the [unlink] of
    an error path succeed. *)
Record insert_io : Type := mk_io {
  io_open : bool;
  io_write_hdr : Z;
  io_write_headers : Z;
  io_write_body : Z;
  io_rename : bool;
  io_unlink : bool
}.

Definition written (n : Z) (bs : bytes) : bytes := take (Z.to_nat n) bs.

(** The name of the temporary file, from the entry's. *)
Definition tmp_name (path : bytes) : bytes := snprintf 1040 (path ++ lit ".tmp").

(** [unlink(path)], whose answer the error paths ignore. *)
Definition unlinked (io : insert_io) (path : bytes) (f : fs) : fs := if io_unlink io then delete path f else f.

(** The result and the states of the file system after each call; [pad] is the
    padding of the structure on the stack. *)
Definition cache_insert (store : cache_store_t) (key : bytes) (status : Z) (headers body : bytes) (ttl now : Z)
    (pad : bytes) (io : insert_io) (f : fs) : np_status_t * list fs :=
  let path := cache_path store key 1024 in
  let tmp_path := tmp_name path in
  if negb (io_open io) then (NP_ERR, [f])
  else
    let f0 := <[tmp_path := []]> f in
    let hdr := mk_hdr status (zlen headers) (zlen body) (if 0 <? ttl then now + ttl else 0) in
    let image := header_image pad hdr in
    let t1 := written (io_write_hdr io) image in
    let f1 := <[tmp_path := t1]> f0 in
    if negb (io_write_hdr io =? sizeof_header) then (NP_ERR, [f0; f1; unlinked io tmp_path f1])
    else
      let t2 := if 0 <? zlen headers then t1 ++ written (io_write_headers io) headers else t1 in
      let f2 := <[tmp_path := t2]> f1 in
      if (0 <? zlen headers) && negb (io_write_headers io =? zlen headers)
      then (NP_ERR, [f0; f1; f2; unlinked io tmp_path f2])
      else
        let t3 := if 0 <? zlen body then t2 ++ written (io_write_body io) body else t2 in
        let f3 := <[tmp_path := t3]> f2 in
        if (0 <? zlen body) && negb (io_write_body io =? zlen body)
        then (NP_ERR, [f0; f1; f2; f3; unlinked io tmp_path f3])
        else if io_rename io
        then (NP_OK, [f0; f1; f2; f3; <[path := t3]> (delete tmp_path f3)])
        else (NP_ERR, [f0; f1; f2; f3; f3; unlinked io tmp_path f3]).

(** [ok]: whether [unlink] succeeds on a file that exists. *)
Definition cache_remove (store : cache_store_t) (key : bytes) (ok : bool) (f : fs) : np_status_t * fs :=
  let path := cache_path store key 1024 in
  match f !! path with
  | Some _ => if ok then (NP_OK, delete path f) else (NP_ERR, f)
  | None => (NP_ERR, f)
  end.

(** ** Lemmas on the header image *)

Lemma le_bytes_length (n : nat) (z : Z) : length (le_bytes n z) = n.
Proof. revert z; induction n as [| n IH]; intros z; cbn; [done | by rewrite IH]. Qed.

Lemma le_value_bytes (n : nat) (z : Z) : le_value (le_bytes n z) = z mod 256 ^ Z.of_nat n.
Proof.
  revert z; induction n as [| n IH]; intros z; [cbn; by rewrite Z.mod_1_r |].
  cbn [le_bytes le_value]. rewrite IH, Nat2Z.inj_succ, Z.pow_succ_r by lia.
  rewrite Z.rem_mul_r by lia. lia.
Qed.

Lemma signed_mod (w z : Z) : 0 < w -> - 2 ^ (w - 1) <= z < 2 ^ (w - 1) -> signed w (z mod 2 ^ w) = z.
Proof.
  intros Hw Hz. unfold signed. assert (2 ^ w = 2 * 2 ^ (w - 1)) as Hp
    by (rewrite <- Z.pow_succ_r by lia; f_equal; lia).
  assert (0 < 2 ^ (w - 1)) by (apply Z.pow_pos_nonneg; lia).
  destruct (Z.leb_spec 0 z).
  - rewrite Z.mod_small by lia. by replace (z <? 2 ^ (w - 1)) with true by lia.
  - replace (z mod 2 ^ w) with (z + 2 ^ w).
    + replace (z + 2 ^ w <? 2 ^ (w - 1)) with false by lia. lia.
    + apply (Z.mod_unique_pos z (2 ^ w) (-1)); lia.
Qed.

(** The values a header's members can have. *)
Record hdr_ok (h : cache_entry_header_t) : Prop := {
  ho_status : INT_MIN <= hdr_status h <= INT_MAX;
  ho_headers : 0 <= hdr_headers_len h < 2 ^ 63;
  ho_body : 0 <= hdr_body_len h < 2 ^ 63;
  ho_expire : LLONG_MIN <= hdr_expire_time h <= LLONG_MAX
}.

Lemma header_image_length (pad : bytes) (h : cache_entry_header_t) :
  length pad = 4%nat -> length (header_image pad h) = 32%nat.
Proof. intros Hp. unfold header_image. rewrite !length_app, !le_bytes_length, Hp. done. Qed.

(** The four members of an image, from its position. *)
Lemma header_image_parts (pad : bytes) (h : cache_entry_header_t) (rest : bytes) :
  length pad = 4%nat ->
  zsub 0 4 (header_image pad h ++ rest) = le_bytes 4 (hdr_status h) /\
  zsub 8 8 (header_image pad h ++ rest) = le_bytes 8 (hdr_headers_len h) /\
  zsub 16 8 (header_image pad h ++ rest) = le_bytes 8 (hdr_body_len h) /\
  zsub 24 8 (header_image pad h ++ rest) = le_bytes 8 (hdr_expire_time h).
Proof.
  intros Hp. by destruct pad as [| p0 [| p1 [| p2 [| p3 [| ? ?]]]]].
Qed.

Lemma header_roundtrip (pad rest : bytes) (h : cache_entry_header_t) :
  length pad = 4%nat -> hdr_ok h -> header_of_image (zsub 0 32 (header_image pad h ++ rest)) = h.
Proof.
  intros Hp [H1 H2 H3 H4].
  pose proof (header_image_length pad h Hp) as Hl.
  replace (zsub 0 32 (header_image pad h ++ rest)) with (header_image pad h ++ []).
  2: { rewrite app_nil_r. rewrite zsub_app_l by lia. replace 32 with (zlen (header_image pad h)) by lia. by rewrite zsub_all. }
  destruct (header_image_parts pad h [] Hp) as (E1 & E2 & E3 & E4).
  unfold header_of_image. rewrite E1, E2, E3, E4, !le_value_bytes.
  change (256 ^ Z.of_nat 4) with (2 ^ 32). change (256 ^ Z.of_nat 8) with (2 ^ 64).
  unfold INT_MIN, INT_MAX, LLONG_MIN, LLONG_MAX in *.
  rewrite (signed_mod 32), (signed_mod 64), !Z.mod_small by lia. by destruct h.
Qed.

(** A header read from a file of bytes has a status an [int] can hold. *)
Lemma le_value_range (bs : bytes) : Forall is_byte bs -> 0 <= le_value bs < 256 ^ zlen bs.
Proof.
  induction 1 as [| b bs Hb _ IH]; [cbn; lia |]. unfold is_byte in Hb. cbn [le_value length]. rewrite Nat2Z.inj_succ, Z.pow_succ_r by lia. lia.
Qed.

Lemma header_status_range (bs : bytes) :
  Forall is_byte bs -> INT_MIN <= hdr_status (header_of_image bs) <= INT_MAX.
Proof.
  intros H. unfold header_of_image, hdr_status, signed, INT_MIN, INT_MAX.
  assert (Forall is_byte (zsub 0 4 bs)) as Hs by (by apply Forall_take, Forall_drop).
  pose proof (le_value_range _ Hs) as Hr. assert (256 ^ zlen (zsub 0 4 bs) <= 2 ^ 32).
  { change (2 ^ 32) with (256 ^ 4). apply Z.pow_le_mono_r; [lia |]. unfold zsub. rewrite length_take. lia. }
  case_match; bprop; lia.
Qed.

(** Files that start with bytes, as far as a header reaches. *)
Definition files_ok (f : fs) : Prop := map_Forall (fun _ file => Forall is_byte (take (Z.to_nat sizeof_header) file)) f.

Lemma le_bytes_bytes (n : nat) (z : Z) : Forall is_byte (le_bytes n z).
Proof. revert z. induction n as [| n IH]; intros z; cbn; constructor; [apply Z.mod_pos_bound; lia | apply IH]. Qed.

Lemma files_ok_insert (f : fs) (path t : bytes) :
  files_ok f -> Forall is_byte (take (Z.to_nat sizeof_header) t) -> files_ok (<[path := t]> f).
Proof. intros. by apply map_Forall_insert_2. Qed.

Lemma files_ok_delete (f : fs) (path : bytes) : files_ok f -> files_ok (delete path f).
Proof. intros. by apply map_Forall_delete. Qed.

Lemma files_ok_unlinked (io : insert_io) (f : fs) (path : bytes) : files_ok f -> files_ok (unlinked io path f).
Proof. intros. unfold unlinked. destruct (io_unlink io); auto using files_ok_delete. Qed.

#[local] Hint Resolve files_ok_insert files_ok_delete files_ok_unlinked : core.

(** Whatever the system answers, an insertion leaves such files. *)
Lemma cache_insert_files (store : cache_store_t) (key : bytes) (status : Z) (headers body : bytes) (ttl now : Z) (pad : bytes) (io : insert_io) (f : fs) :
  files_ok f -> length pad = 4%nat -> Forall is_byte pad ->
  files_ok (List.last (cache_insert store key status headers body ttl now pad io f).2 f).
Proof.
  intros Hf Hl Hp. unfold cache_insert. cbn zeta.
  set (image := header_image pad _). set (tmp := tmp_name _). set (n := io_write_hdr io).
  assert (Forall is_byte image) as Hb
    by (unfold image, header_image; rewrite !Forall_app; split_and!; auto using le_bytes_bytes).
  assert (forall x, Forall is_byte (take (Z.to_nat sizeof_header) (written sizeof_header image ++ x))) as Himg.
  { intros x. pose proof (header_image_length pad _ Hl : length image = 32%nat) as Hi.
    unfold written. change (Z.to_nat sizeof_header) with 32%nat. rewrite (take_ge image) by lia. by rewrite take_app_le, take_ge by lia. }
  assert (Forall is_byte (take (Z.to_nat sizeof_header) (written n image))) by (by apply Forall_take, Forall_take).
  pose proof (Himg []) as Himg0. rewrite app_nil_r in Himg0.
  assert (Forall is_byte (take (Z.to_nat sizeof_header) [])) by (by rewrite take_nil).
  destruct (io_open io); cbn [negb snd List.last]; [| done].
  destruct (Z.eqb_spec n sizeof_header) as [-> | _]; cbn [negb snd List.last]; [| auto].
  repeat case_match; cbn [snd List.last]; rewrite <- ?app_assoc; auto 10.
Qed.

Lemma read_file_len (n count : Z) (avail data : bytes) (nr : Z) :
  read_file n count avail = (nr, data) -> 0 <= nr -> zlen data = nr /\ data = take (length data) avail.
Proof.
  unfold read_file. case_match; intros [= <- <-]; [lia |]. intros _. split; [done |].
  rewrite length_take. by destruct (Nat.le_gt_cases (Z.to_nat (Z.min n count)) (length avail));
    [rewrite Nat.min_l by done | rewrite Nat.min_r, !take_ge by lia].
Qed.

(** What is found has the length that is announced and a status of its type. *)
Lemma cache_lookup_found (store : cache_store_t) (key : bytes) (now : Z) (io : lookup_io) (f f' : fs) (r : np_status_t) (e : cache_entry_t) :
  files_ok f -> cache_lookup store key now io f = (r, Some e, f') ->
  r = NP_OK /\ ce_data_len e = zlen (ce_data e) /\ f' = f /\ INT_MIN <= hdr_status (ce_hdr e) <= INT_MAX.
Proof.
  intros Hf. unfold cache_lookup. destruct (f !! _) as [file |] eqn:E; [| discriminate].
  destruct (lk_open io); cbn [negb]; [| discriminate].
  destruct (read_file (lk_read_hdr io) _ _) as [nh image] eqn:Eh.
  destruct (Z.eqb_spec nh sizeof_header) as [-> |]; cbn [negb]; [| discriminate]. case_match; [discriminate |].
  destruct (lk_mem io _); cbn [negb]; [| discriminate]. destruct (read_file (lk_read_data io) _ _) as [nr data] eqn:Ed.
  case_match eqn:En; [discriminate |]. intros [= <- <- <-]. cbn [ce_data_len ce_data ce_hdr].
  apply orb_false_iff in En as [En1 En2]. bprop.
  apply read_file_len in Eh as [Hl Hi]; [| done]. apply read_file_len in Ed as [Hd _]; [| done].
  split; [done |]. split; [by rewrite Hd, En2 |]. split; [done |]. apply header_status_range; rewrite Hi; replace (length image) with (Z.to_nat sizeof_header) by lia; eapply Hf; eassumption.
Qed.

(** A lookup removes at most one file. *)
Lemma cache_lookup_files (store : cache_store_t) (key : bytes) (now : Z) (io : lookup_io) (f f' : fs) (r : np_status_t) (e : option cache_entry_t) :
  cache_lookup store key now io f = (r, e, f') -> f' = f \/ exists path, f' = delete path f.
Proof. unfold cache_lookup. repeat case_match; intros [= <- <- <-]; eauto. Qed.

(** ** Lemmas on paths *)

Definition store_ok (s : cache_store_t) : Prop := zlen (cs_root s) <= 511.

Definition entry_path (s : cache_store_t) (key : bytes) : bytes :=
  cs_root s ++ lit "/" ++ fmt_016llx (fnv1a key) ++ lit ".cache".

Lemma fnv1a_range (data : bytes) : 0 <= fnv1a data < 2 ^ 64.
Proof.
  unfold fnv1a. destruct data as [| c data] using rev_ind; [vm_compute; by split |].
  rewrite fold_left_app. apply u64_range.
Qed.

Lemma fmt_016llx_length (n : Z) : 0 <= n < 2 ^ 64 -> length (fmt_016llx n) = 16%nat.
Proof.
  intros Hn. unfold fmt_016llx. rewrite length_app, length_replicate.
  assert (length (fmt_base 16 n) <= 16)%nat; [| lia].
  apply fmt_digits_length; [lia |]. change (16 ^ Z.of_nat 16) with (2 ^ 64). lia.
Qed.

Lemma entry_path_length (s : cache_store_t) (key : bytes) : store_ok s -> zlen (entry_path s key) <= 534.
Proof.
  intros Hs. unfold entry_path, store_ok in *. rewrite !length_app, fmt_016llx_length by apply fnv1a_range.
  change (length (lit "/")) with 1%nat. change (length (lit ".cache")) with 6%nat. lia.
Qed.

Lemma cache_path_eq (s : cache_store_t) (key : bytes) : store_ok s -> cache_path s key 1024 = entry_path s key.
Proof. intros Hs. apply snprintf_fits. pose proof (entry_path_length s key Hs). unfold entry_path in *. lia. Qed.

Lemma tmp_path_eq (s : cache_store_t) (key : bytes) :
  store_ok s -> tmp_name (entry_path s key) = entry_path s key ++ lit ".tmp".
Proof.
  intros Hs. apply snprintf_fits. pose proof (entry_path_length s key Hs). rewrite length_app.
  change (length (lit ".tmp")) with 4%nat. lia.
Qed.

(** A temporary file is never an entry. *)
Lemma tmp_not_entry (s : cache_store_t) (key key' : bytes) : entry_path s key ++ lit ".tmp" <> entry_path s key'.
Proof.
  unfold entry_path. intros H. apply (f_equal last) in H.
  change (lit ".tmp") with (lit ".tm" ++ [112]) in H. change (lit ".cache") with (lit ".cach" ++ [101]) in H.
  rewrite !app_assoc, !last_snoc in H. discriminate.
Qed.

(** Hexadecimal digits read back. *)
Definition undigit (c : Z) : Z := if c <? 58 then c - 48 else c - 87.
Definition unhex (ds : bytes) : Z := fold_left (fun acc d => acc * 16 + undigit d) ds 0.

Lemma unhex_app (a b : bytes) : unhex (a ++ b) = unhex a * 16 ^ zlen b + unhex b.
Proof.
  unfold unhex. rewrite fold_left_app. generalize (fold_left (fun acc d => acc * 16 + undigit d) a 0).
  induction b as [| x b IH] using rev_ind; intros z; simpl; [lia |].
  rewrite !fold_left_app, IH, length_app. simpl.
  replace (Z.of_nat (length b + 1)) with (Z.succ (zlen b)) by lia. rewrite Z.pow_succ_r by lia. lia.
Qed.

Lemma unhex_digits (fuel : nat) (n : Z) : 0 <= n < 2 ^ Z.of_nat fuel -> unhex (fmt_digits fuel 16 n) = n.
Proof.
  revert n; induction fuel as [| f IH]; intros n Hn; [cbn in *; unfold unhex; cbn; lia |].
  cbn [fmt_digits]. rewrite unhex_app.
  assert (unhex [digit_char (n mod 16)] = n mod 16) as ->.
  { pose proof (Z.mod_pos_bound n 16 ltac:(lia)). unfold unhex, digit_char, undigit. cbn.
    destruct (Z.ltb_spec (n mod 16) 10).
    - replace (48 + n mod 16 <? 58) with true by lia. lia.
    - replace (87 + n mod 16 <? 58) with false by lia. lia. }
  destruct (n <? 16) eqn:E; bprop.
  - unfold unhex. cbn. rewrite Z.mod_small; lia.
  - rewrite IH.
    + cbn. pose proof (Z.div_mod n 16). lia.
    + rewrite Nat2Z.inj_succ, Z.pow_succ_r in Hn by lia.
      split; [apply Z.div_pos; lia |]. apply Z.div_lt_upper_bound; lia.
Qed.

Lemma unhex_016llx (n : Z) : 0 <= n -> unhex (fmt_016llx n) = n.
Proof.
  intros Hn. unfold fmt_016llx. cbn zeta. rewrite unhex_app.
  assert (unhex (fmt_base 16 n) = n) as ->.
  { apply unhex_digits. split; [done |]. rewrite Nat2Z.inj_succ, Z2Nat.id by apply Z.log2_nonneg.
    destruct (Z.eq_dec n 0) as [-> |]; [done |]. apply Z.log2_spec. lia. }
  enough (forall k, unhex (replicate k 48) = 0) as -> by lia.
  intros k. unfold unhex. induction k; cbn [replicate fold_left]; done.
Qed.

(** Two keys share a file exactly when their hashes are equal. *)
Lemma entry_path_inj (s : cache_store_t) (key key' : bytes) :
  entry_path s key = entry_path s key' <-> fnv1a key = fnv1a key'.
Proof.
  unfold entry_path. split; [| by intros ->]. intros H. apply app_inv_head, app_inv_head in H.
  apply app_inv_tail in H. apply (f_equal unhex) in H.
  pose proof (fnv1a_range key). pose proof (fnv1a_range key'). by rewrite !unhex_016llx in H by lia.
Qed.

(** ** Lemmas on insertions *)

(** The complete content of an entry's file. *)
Definition entry_file (pad : bytes) (status : Z) (headers body : bytes) (ttl now : Z) : bytes :=
  header_image pad (mk_hdr status (zlen headers) (zlen body) (if 0 <? ttl then now + ttl else 0)) ++ headers ++ body.

(** The system stores everything it is asked to. *)
Definition io_good (headers body : bytes) : insert_io := mk_io true 32 (zlen headers) (zlen body) true true.

(** A state that differs from [f] in the temporary file only. *)
Definition same_entries (s : cache_store_t) (f g : fs) : Prop :=
  forall key, g !! entry_path s key = f !! entry_path s key.

Lemma same_entries_insert (s : cache_store_t) (key t : bytes) (f g : fs) :
  same_entries s f g -> same_entries s f (<[entry_path s key ++ lit ".tmp" := t]> g).
Proof. intros H key'. rewrite lookup_insert_ne by apply tmp_not_entry. apply H. Qed.

Lemma same_entries_delete (s : cache_store_t) (key : bytes) (f g : fs) :
  same_entries s f g -> same_entries s f (delete (entry_path s key ++ lit ".tmp") g).
Proof. intros H key'. rewrite lookup_delete_ne by apply tmp_not_entry. apply H. Qed.

Lemma same_entries_unlinked (s : cache_store_t) (key : bytes) (io : insert_io) (f g : fs) :
  same_entries s f g -> same_entries s f (unlinked io (entry_path s key ++ lit ".tmp") g).
Proof. unfold unlinked. destruct (io_unlink io); auto using same_entries_delete. Qed.

Lemma same_entries_refl (s : cache_store_t) (f : fs) : same_entries s f f.
Proof. done. Qed.

(** Show that states differ in the temporary file only. *)
Ltac entries :=
  repeat first [apply Forall_cons; split | apply List.Forall_nil | apply same_entries_insert
    | apply same_entries_delete | apply same_entries_unlinked | apply same_entries_refl].

(** Every insertion, whatever the system answers: all states but the last keep
    every entry, and the last one either keeps them too or, on success, holds the
    complete new entry. *)
Lemma cache_insert_states (s : cache_store_t) (key : bytes) (status : Z) (headers body : bytes) (ttl now : Z)
    (pad : bytes) (io : insert_io) (f : fs) :
  store_ok s -> length pad = 4%nat ->
  exists r init fin, cache_insert s key status headers body ttl now pad io f = (r, init ++ [fin]) /\
    Forall (same_entries s f) init /\
    ((r = NP_ERR /\ same_entries s f fin) \/
     (r = NP_OK /\ exists g, same_entries s f g /\
        fin = <[entry_path s key := entry_file pad status headers body ttl now]> g)).
Proof.
  intros Hs Hp. unfold cache_insert. rewrite cache_path_eq, tmp_path_eq by done. cbn zeta.
  destruct (io_open io); cbn [negb]; [| exists NP_ERR, [], f; split; [done |]; split; [entries | left; split; [done | entries]]].
  set (image := header_image pad _). assert (length image = 32%nat) as Himg by (by apply header_image_length).
  destruct (Z.eqb_spec (io_write_hdr io) sizeof_header) as [-> | _]; cbn [negb];
    [| exists NP_ERR; eexists [_; _], _; split; [reflexivity |]; split; [entries | left; split; [done | entries]]].
  assert (written sizeof_header image = image) as -> by (apply take_ge; unfold sizeof_header; lia).
  set (t2 := if 0 <? zlen headers then _ else image).
  destruct ((0 <? zlen headers) && negb (io_write_headers io =? zlen headers)) eqn:E2;
    [exists NP_ERR; eexists [_; _; _], _; split; [reflexivity |]; split; [entries | left; split; [done | entries]] |].
  assert (t2 = image ++ headers) as ->.
  { unfold t2. destruct (Z.ltb_spec 0 (zlen headers)) as [P | P].
    - replace (0 <? zlen headers) with true in E2 by lia. cbn [andb] in E2. bprop. rewrite E2. f_equal. apply take_ge. lia.
    - destruct headers; [by rewrite app_nil_r | cbn [length] in P; lia]. }
  set (t3 := if 0 <? zlen body then _ else image ++ headers).
  destruct ((0 <? zlen body) && negb (io_write_body io =? zlen body)) eqn:E3;
    [exists NP_ERR; eexists [_; _; _; _], _; split; [reflexivity |]; split; [entries | left; split; [done | entries]] |].
  assert (t3 = image ++ headers ++ body) as ->.
  { unfold t3. destruct (Z.ltb_spec 0 (zlen body)) as [P | P].
    - replace (0 <? zlen body) with true in E3 by lia. cbn [andb] in E3. bprop. rewrite E3, <- app_assoc. do 2 f_equal. apply take_ge. lia.
    - destruct body; [by rewrite app_nil_r | cbn [length] in P; lia]. }
  destruct (io_rename io).
  - exists NP_OK. eexists [_; _; _; _], _. split; [reflexivity |]. split; [entries |].
    right. split; [done |]. eexists. split; [| reflexivity]. entries.
  - exists NP_ERR. eexists [_; _; _; _; _], _. split; [reflexivity |]; split; [entries | left; split; [done | entries]].
Qed.

Lemma cache_insert_good (s : cache_store_t) (key : bytes) (status : Z) (headers body : bytes) (ttl now : Z)
    (pad : bytes) (f : fs) :
  (cache_insert s key status headers body ttl now pad (io_good headers body) f).1 = NP_OK.
Proof. unfold cache_insert, io_good. cbn [io_open io_write_hdr io_write_headers io_write_body io_rename negb].
  cbn zeta. rewrite (Z.eqb_refl (zlen headers)), (Z.eqb_refl (zlen body)). cbn [negb Z.eqb sizeof_header Pos.eqb].
  by rewrite !andb_false_r.
Qed.

(** The system delivers [total] bytes of data and all else it is asked for. *)
Definition lookup_complete (io : lookup_io) (total : Z) : Prop :=
  lk_open io = true /\ sizeof_header <= lk_read_hdr io /\ lk_mem io total = true /\ total <= lk_read_data io /\
  lk_unlink io = true.

Lemma read_file_complete (n count : Z) (avail rest : bytes) :
  count <= n -> zlen avail = count -> read_file n count (avail ++ rest) = (count, avail).
Proof.
  intros Hn Hc. unfold read_file. replace (n <? 0) with false by lia. rewrite Z.min_r by lia.
  rewrite take_app_le, take_ge by lia. by rewrite Hc.
Qed.

(** Looking up a complete file.  Whatever the system answers, nothing else than
    the entry is found; when it delivers all bytes, the entry is found until it
    expires and its file removed afterwards. *)
Lemma cache_lookup_file (s : cache_store_t) (key : bytes) (status : Z) (headers body : bytes) (ttl t0 now : Z)
    (pad : bytes) (io : lookup_io) (f : fs) :
  store_ok s -> length pad = 4%nat ->
  hdr_ok (mk_hdr status (zlen headers) (zlen body) (if 0 <? ttl then t0 + ttl else 0)) ->
  zlen headers + zlen body < 2 ^ 63 -> 0 <= t0 ->
  f !! entry_path s key = Some (entry_file pad status headers body ttl t0) ->
  let entry := mk_entry (mk_hdr status (zlen headers) (zlen body) (if 0 <? ttl then t0 + ttl else 0))
                 (headers ++ body) (zlen headers + zlen body) in
  ((cache_lookup s key now io f).1.2 = None \/ (cache_lookup s key now io f) = (NP_OK, Some entry, f)) /\
  (lookup_complete io (zlen headers + zlen body) ->
   cache_lookup s key now io f =
     if (0 <? ttl) && (t0 + ttl <? now) then (NP_ERR, None, delete (entry_path s key) f) else (NP_OK, Some entry, f)).
Proof.
  intros Hs Hp Hh Hlen Ht Hf entry. unfold cache_lookup. rewrite cache_path_eq, Hf by done. cbn zeta.
  unfold entry_file in *. set (hdr := mk_hdr _ _ _ _) in *.
  pose proof (header_image_length pad hdr Hp) as Hl.
  assert (forall nh image, read_file (lk_read_hdr io) sizeof_header (header_image pad hdr ++ headers ++ body) = (nh, image) ->
    nh = sizeof_header -> header_of_image image = hdr) as Hhdr.
  { intros nh image E ->. apply read_file_len in E as [E1 E2]; [| done]. rewrite E2.
    replace (length image) with (Z.to_nat 32) by (unfold sizeof_header in E1; lia).
    pose proof (header_roundtrip pad (headers ++ body) hdr Hp Hh) as Hr. unfold zsub in Hr. by rewrite drop_0 in Hr. }
  assert (forall nh, nh = sizeof_header -> drop (Z.to_nat nh) (header_image pad hdr ++ headers ++ body) = headers ++ body) as Hdrop
    by (intros nh ->; change (Z.to_nat sizeof_header) with 32%nat; rewrite <- Hl; by rewrite drop_app_length).
  assert ((0 <? hdr_expire_time hdr) && (hdr_expire_time hdr <? now) = (0 <? ttl) && (t0 + ttl <? now)) as Hexp.
  { cbn [hdr_expire_time hdr]. destruct (Z.ltb_spec 0 ttl); [| done]. cbn [andb].
    by replace (0 <? t0 + ttl) with true by lia. }
  assert (u64 (hdr_headers_len hdr + hdr_body_len hdr) = zlen (headers ++ body)) as Htot
    by (cbn [hdr_headers_len hdr_body_len hdr]; rewrite u64_small, length_app by lia; lia).
  unfold entry. replace (zlen headers + zlen body) with (zlen (headers ++ body)) by (rewrite length_app; lia).
  split.
  - destruct (lk_open io); cbn [negb]; [| by left].
    destruct (read_file (lk_read_hdr io) _ _) as [nh image] eqn:Eh.
    destruct (Z.eqb_spec nh sizeof_header) as [En |]; cbn [negb]; [| by left].
    rewrite (Hhdr _ _ eq_refl En), Hexp, (Hdrop _ En), Htot. destruct ((0 <? ttl) && _); [by left |].
    destruct (lk_mem io _); cbn [negb]; [| by left]. destruct (read_file (lk_read_data io) _ _) as [nr data] eqn:Ed.
    destruct (nr <? 0) eqn:Ed0; [by left |]. destruct (Z.eqb_spec nr (zlen (headers ++ body))) as [Er |]; [| by left]. right. cbn [negb orb].
    apply read_file_len in Ed as [Ed1 Ed2]; [| lia]. rewrite take_ge in Ed2 by lia. by rewrite Ed2.
  - intros (-> & Hh32 & Hm & Hd & ->). cbn [negb].
    rewrite read_file_complete by (done || (unfold sizeof_header; lia)). rewrite Z.eqb_refl. cbn [negb].
    rewrite (Hhdr sizeof_header); [| by apply read_file_complete; [| unfold sizeof_header; lia] | done].
    rewrite Hexp, Hdrop, Htot, Hm by done. destruct ((0 <? ttl) && _); [done |]. cbn [negb].
    pose proof (read_file_complete (lk_read_data io) (zlen (headers ++ body)) (headers ++ body) [] Hd eq_refl) as Hr.
    rewrite app_nil_r in Hr. rewrite Hr. rewrite Z.eqb_refl. by replace (zlen (headers ++ body) <? 0) with false by lia.
Qed.

(** ** Properties *)

(** The store after a complete insertion. *)
Lemma cache_insert_fin (s : cache_store_t) (key : bytes) (status : Z) (headers body : bytes) (ttl now : Z)
    (pad : bytes) (f : fs) :
  store_ok s -> length pad = 4%nat ->
  exists states fin, cache_insert s key status headers body ttl now pad (io_good headers body) f = (NP_OK, states) /\
    last states = Some fin /\
    forall key', fin !! entry_path s key' =
      if decide (fnv1a key' = fnv1a key) then Some (entry_file pad status headers body ttl now)
      else f !! entry_path s key'.
Proof.
  intros Hs Hp. pose proof (cache_insert_good s key status headers body ttl now pad f) as Hok.
  destruct (cache_insert_states s key status headers body ttl now pad (io_good headers body) f Hs Hp)
    as (r & init & fin & Hc & _ & Hfin).
  rewrite Hc in Hok. cbn in Hok. subst r. exists (init ++ [fin]), fin. split; [done |]. split; [apply last_snoc |].
  destruct Hfin as [[? _] | (_ & g & Hg & ->)]; [discriminate |]. intros key'. case_decide as E.
  - apply (entry_path_inj s) in E. by rewrite E, lookup_insert_eq.
  - rewrite lookup_insert_ne; [apply Hg |]. intros H. apply E. by apply (entry_path_inj s).
Qed.

(** C39 Insert then look up: a stored response comes back with its status and its
    bytes, headers then body, at any time up to its expiry, and for ever when its
    time to live is not positive; later the lookup fails and removes the file.
    This is when the system delivers what it is asked for; whatever it answers,
    errors and short reads included, a lookup finds nothing else than the stored
    response.  Entries of other hashes are not touched. *)
Theorem cache_insert_lookup (s : cache_store_t) (key key' : bytes) (status : Z) (headers body : bytes) (ttl t0 now : Z)
    (pad : bytes) (f : fs) :
  store_ok s -> length pad = 4%nat -> INT_MIN <= status <= INT_MAX -> zlen headers + zlen body < 2 ^ 63 ->
  0 <= t0 < 2 ^ 62 -> ttl <= INT_MAX -> fnv1a key' <> fnv1a key ->
  let entry := mk_entry (mk_hdr status (zlen headers) (zlen body) (if 0 <? ttl then t0 + ttl else 0))
                 (headers ++ body) (zlen headers + zlen body) in
  exists states fin, cache_insert s key status headers body ttl t0 pad (io_good headers body) f = (NP_OK, states) /\
    last states = Some fin /\
    (forall io, lookup_complete io (zlen headers + zlen body) ->
       cache_lookup s key now io fin =
         if (0 <? ttl) && (t0 + ttl <? now) then (NP_ERR, None, delete (entry_path s key) fin)
         else (NP_OK, Some entry, fin)) /\
    (forall io, (cache_lookup s key now io fin).1.2 = None \/ cache_lookup s key now io fin = (NP_OK, Some entry, fin)) /\
    fin !! entry_path s key' = f !! entry_path s key'.
Proof.
  intros Hs Hp Hst Hl Ht Httl Hne entry.
  destruct (cache_insert_fin s key status headers body ttl t0 pad f Hs Hp) as (states & fin & Hc & Hlast & Hfin).
  assert (hdr_ok (mk_hdr status (zlen headers) (zlen body) (if 0 <? ttl then t0 + ttl else 0))) as Hh.
  { unfold INT_MAX in *. constructor; cbn; auto; try lia. destruct (Z.ltb_spec 0 ttl); unfold LLONG_MIN, LLONG_MAX; lia. }
  assert (fin !! entry_path s key = Some (entry_file pad status headers body ttl t0)) as Hf by (rewrite Hfin; by rewrite decide_True).
  exists states, fin. split_and!; auto; [.. | rewrite Hfin; by rewrite decide_False];
    intros io; apply (cache_lookup_file s key status headers body ttl t0 now pad io fin); auto; lia.
Qed.

(** Answers with which everything succeeds. *)
Definition lookup_good : lookup_io := mk_lio true (2 ^ 63 - 1) (fun _ => true) (2 ^ 63 - 1) true.

Lemma lookup_good_complete (n : Z) : n < 2 ^ 63 -> lookup_complete lookup_good n.
Proof. intros Hn. unfold lookup_complete, lookup_good, sizeof_header. cbn [lk_open lk_read_hdr lk_mem lk_read_data lk_unlink]. split_and!; lia || done. Qed.

Lemma cache_insert_lookup_witness :
  exists states fin, cache_insert (mk_store (lit "c") 10) (lit "k") 200 (lit "h") (lit "b") 10 100 [0; 0; 0; 0]
      (io_good (lit "h") (lit "b")) ∅ = (NP_OK, states) /\ last states = Some fin /\
    cache_lookup (mk_store (lit "c") 10) (lit "k") 105 lookup_good fin =
      (NP_OK, Some (mk_entry (mk_hdr 200 1 1 110) (lit "hb") 2), fin).
Proof.
  destruct (cache_insert_lookup (mk_store (lit "c") 10) (lit "k") (lit "j") 200 (lit "h") (lit "b") 10 100 105 [0; 0; 0; 0]
    ∅) as (states & fin & Hi & Hl & Hk & _).
  - vm_compute. discriminate.
  - reflexivity.
  - unfold INT_MIN, INT_MAX. lia.
  - reflexivity.
  - lia.
  - vm_compute. discriminate.
  - vm_compute. discriminate.
  - exists states, fin. split; [exact Hi |]. split; [exact Hl |]. exact (Hk lookup_good (lookup_good_complete 2 eq_refl)).
Defined.

(** A file holds no key, so keys of equal hash share it: there are two different
    keys such that, in every store, storing a response under the first makes the
    lookup of the second return it. *)
Theorem cache_hash_collision :
  exists k1 k2, k1 <> k2 /\
    forall (s : cache_store_t) (status t0 : Z) (data pad : bytes) (f : fs),
      store_ok s -> length pad = 4%nat -> INT_MIN <= status <= INT_MAX -> zlen data < 2 ^ 62 ->
      0 <= t0 < 2 ^ 62 ->
      exists states fin, cache_insert s k1 status data [] 10 t0 pad (io_good data []) f = (NP_OK, states) /\
        last states = Some fin /\
        cache_lookup s k2 t0 lookup_good fin =
          (NP_OK, Some (mk_entry (mk_hdr status (zlen data) 0 (t0 + 10)) data (zlen data)), fin).
Proof.
  exists (lit "8yn0iYCKYHlIj4-BwPqk"), (lit "GReLUrM4wMqfg9yzV3KQ"). split; [discriminate |].
  intros s status t0 data pad f Hs Hp Hst Hl Ht.
  destruct (cache_insert_fin s (lit "8yn0iYCKYHlIj4-BwPqk") status data [] 10 t0 pad f Hs Hp) as (states & fin & Hc & Hlast & Hfin).
  exists states, fin. split_and!; auto.
  assert (zlen data + zlen ([] : bytes) < 2 ^ 63) as Hn by (cbn [length]; lia).
  destruct (cache_lookup_file s (lit "GReLUrM4wMqfg9yzV3KQ") status data [] 10 t0 t0 pad lookup_good fin Hs Hp) as [_ ->];
    [| lia.. | rewrite Hfin; by apply decide_True | | by apply lookup_good_complete].
  - constructor; cbn; auto; unfold LLONG_MIN, LLONG_MAX; lia.
  - cbn [length Z.of_nat]. rewrite !Z.add_0_r, app_nil_r. change (0 <? 10) with true. cbn [andb].
    by replace (t0 + 10 <? t0) with false by lia.
Qed.

(** The key of a request: method, host and path, up to the size given; the query
    is not part of it, so requests that differ only in their query share an
    entry. *)
Theorem cache_key_of_request (req : http_request_t) (fs : list (bytes * bytes)) (path host : bytes) (max : Z) :
  Forall2 header_repr (req_headers req) fs -> str_repr (req_path req) path ->
  header_val fs (lit "Host") = Some host -> no_nul path -> no_nul host -> host <> [] ->
  cache_key_from_request req max =
    Ret (snprintf max (http_method_str (req_method req) ++ lit ":" ++ host ++ lit ":" ++ path)).
Proof.
  intros Hf Hp Hh Hnp Hnh Hne. unfold cache_key_from_request, request_header.
  destruct (request_header_loop_Ret _ _ (STR (lit "Host")) (lit "Host") Hf (str_repr_STR _)) as (h & -> & Hm).
  rewrite Hh in Hm. destruct Hm as [Hr _]. rewrite bind_Ret. unfold fmt_slice.
  rewrite (proj2 (load_n_Ret _ _ _) Hp), !bind_Ret, cstr_id by done.
  assert (is_null (ptr h) = false) as ->.
  { destruct (ptr h) eqn:E; [| done]. unfold str_repr in Hr. rewrite E in Hr. destruct Hr as [_ ->]. done. }
  by rewrite (proj2 (load_n_Ret _ _ _) Hr), !bind_Ret, cstr_id by done.
Qed.

Lemma cache_key_of_request_witness :
  cache_key_from_request
    (mk_req HTTP_METHOD_GET (STR (lit "/a")) (STR (lit "x=1")) (Some HTTP_11)
      [mk_header (STR (lit "Host")) (STR (lit "e.org"))] 0 false true false STR_NULL STR_NULL [] 0) 1024 =
    Ret (lit "GET:e.org:/a").
Proof.
  apply (cache_key_of_request
    (mk_req HTTP_METHOD_GET (STR (lit "/a")) (STR (lit "x=1")) (Some HTTP_11)
      [mk_header (STR (lit "Host")) (STR (lit "e.org"))] 0 false true false STR_NULL STR_NULL [] 0)
    [(lit "Host", lit "e.org")] (lit "/a") (lit "e.org") 1024).
  - apply Forall2_cons. split; [split; apply str_repr_STR | constructor].
  - apply str_repr_STR.
  - reflexivity.
  - repeat constructor; discriminate.
  - repeat constructor; discriminate.
  - discriminate.
Defined.
