(* ===== verification/CacheShared.v ===== *)
(** * The cache directory shared by the workers: src/cache/cache.c

    Every worker is a process of its own and all of them insert into, look up and
    remove from one directory.  Here the directory is what the kernel keeps, names
    and the files they lead to, an insertion is the sequence of its system calls,
    and the calls of any number of insertions and removals interleave in any
    order.  An open file stays what it is when its name is moved or removed; it is
    truncated for everybody when somebody opens its name with O_TRUNC. *)

From Stdlib Require Import ZArith Lia String.
From stdpp Require Import base numbers option list gmap relations.
From S2P Require Import Prelude CLib StringUtil Cache.

(** ** The directory *)

(** [names] leads to files, [inodes] holds them; [next_inode] is not in use. *)
Record disk : Type := mk_disk { names : gmap bytes nat; inodes : gmap nat bytes; next_inode : nat }.

(** What a process that opens and reads [path] finds. *)
Definition content (d : disk) (path : bytes) : option bytes := names d !! path ≫= fun i => inodes d !! i.

(** [open(path, O_WRONLY | O_CREAT | O_TRUNC)]. *)
Definition open_trunc (path : bytes) (d : disk) : nat * disk :=
  match names d !! path with
  | Some i => (i, mk_disk (names d) (<[i := []]> (inodes d)) (next_inode d))
  | None =>
      let i := next_inode d in
      (i, mk_disk (<[path := i]> (names d)) (<[i := []]> (inodes d)) (S i))
  end.

(** Bytes stored at an offset; past the end the file is filled with zeros. *)
Definition write_at (off : nat) (bs file : bytes) : bytes :=
  if bool_decide (bs = []) then file
  else take off (file ++ replicate (off - length file) 0) ++ bs ++ drop (off + length bs) file.

Definition write_inode (i off : nat) (bs : bytes) (d : disk) : disk :=
  mk_disk (names d) (alter (write_at off bs) i (inodes d)) (next_inode d).

(** [rename] fails when there is no [old]. *)
Definition rename_file (old new : bytes) (d : disk) : option disk :=
  match names d !! old with
  | Some i => Some (mk_disk (<[new := i]> (delete old (names d))) (inodes d) (next_inode d))
  | None => None
  end.

Definition unlink_file (path : bytes) (d : disk) : disk := mk_disk (delete path (names d)) (inodes d) (next_inode d).

(** ** An insertion, one system call at a time *)

(** A call of [cache_insert]: its arguments, the clock, the padding on the stack
    and the system's answers. *)
Record insert_job : Type := mk_job {
  j_key : bytes;
  j_status : Z;
  j_headers : bytes;
  j_body : bytes;
  j_ttl : Z;
  j_now : Z;
  j_pad : bytes;
  j_io : insert_io
}.

(** The call that comes next; the descriptor is a file and an offset. *)
Inductive insert_stage : Type :=
  | IOpen
  | IWriteHdr (i : nat)
  | IWriteHeaders (i off : nat)
  | IWriteBody (i off : nat)
  | IRename
  | IUnlink
  | IDone (r : np_status_t).

Definition job_image (j : insert_job) : bytes :=
  header_image (j_pad j) (mk_hdr (j_status j) (zlen (j_headers j)) (zlen (j_body j)) (if 0 <? j_ttl j then j_now j + j_ttl j else 0)).

Definition job_file (j : insert_job) : bytes := entry_file (j_pad j) (j_status j) (j_headers j) (j_body j) (j_ttl j) (j_now j).

Definition job_path (s : cache_store_t) (j : insert_job) : bytes := cache_path s (j_key j) 1024.

Definition body_stage (j : insert_job) (i off : nat) : insert_stage :=
  if 0 <? zlen (j_body j) then IWriteBody i off else IRename.

Definition headers_stage (j : insert_job) (i off : nat) : insert_stage :=
  if 0 <? zlen (j_headers j) then IWriteHeaders i off else body_stage j i off.

Definition insert_step (s : cache_store_t) (j : insert_job) (st : insert_stage) (d : disk) : insert_stage * disk :=
  let path := job_path s j in
  let tmp_path := tmp_name path in
  let io := j_io j in
  match st with
  | IOpen =>
      if negb (io_open io) then (IDone NP_ERR, d)
      else let '(i, d') := open_trunc tmp_path d in (IWriteHdr i, d')
  | IWriteHdr i =>
      let bs := written (io_write_hdr io) (job_image j) in
      (if negb (io_write_hdr io =? sizeof_header) then IUnlink else headers_stage j i (length bs), write_inode i 0 bs d)
  | IWriteHeaders i off =>
      let bs := written (io_write_headers io) (j_headers j) in
      (if negb (io_write_headers io =? zlen (j_headers j)) then IUnlink else body_stage j i (off + length bs), write_inode i off bs d)
  | IWriteBody i off =>
      let bs := written (io_write_body io) (j_body j) in
      (if negb (io_write_body io =? zlen (j_body j)) then IUnlink else IRename, write_inode i off bs d)
  | IRename =>
      if io_rename io then
        match rename_file tmp_path path d with
        | Some d' => (IDone NP_OK, d')
        | None => (IUnlink, d)
        end
      else (IUnlink, d)
  | IUnlink => (IDone NP_ERR, if io_unlink io then unlink_file tmp_path d else d)
  | IDone r => (IDone r, d)
  end.

(** ** The workers *)

(** The insertions of all workers, [w_stages] says how far each is; the log,
    latest first, has the insertions that renamed their file and the removals. *)
Inductive commit : Type := Stored (k : nat) | Removed (key : bytes).

Record world : Type := mk_world { w_disk : disk; w_stages : list insert_stage; w_log : list commit }.

(** The next call of insertion [k]; an [unlink] of the entry of a key, by
    [cache_remove] or by the lookup of an expired entry, at any time. *)
Inductive event : Type := EvInsert (k : nat) | EvRemove (key : bytes).

Definition commits (st st' : insert_stage) : bool :=
  match st, st' with IRename, IDone NP_OK => true | _, _ => false end.

Definition world_step (s : cache_store_t) (js : list insert_job) (ev : event) (w : world) : option world :=
  match ev with
  | EvInsert k =>
      match js !! k, w_stages w !! k with
      | Some j, Some st =>
          let '(st', d') := insert_step s j st (w_disk w) in
          Some (mk_world d' (<[k := st']> (w_stages w)) (if commits st st' then Stored k :: w_log w else w_log w))
      | _, _ => None
      end
  | EvRemove key => Some (mk_world (unlink_file (cache_path s key 1024) (w_disk w)) (w_stages w) (Removed key :: w_log w))
  end.

Fixpoint world_run (s : cache_store_t) (js : list insert_job) (evs : list event) (w : world) : option world :=
  match evs with
  | [] => Some w
  | ev :: evs' => match world_step s js ev w with Some w' => world_run s js evs' w' | None => None end
  end.

Definition world_start (js : list insert_job) (d : disk) : world := mk_world d (replicate (length js) IOpen) [].

Definition running (st : insert_stage) : bool :=
  match st with IOpen | IDone _ => false | _ => true end.

(** No insertion under the same hash is under way when another one opens its
    temporary file. *)
Definition alone (js : list insert_job) (ev : event) (w : world) : Prop :=
  match ev with
  | EvInsert k => w_stages w !! k = Some IOpen -> forall k' j j' st', k' <> k -> js !! k = Some j -> js !! k' = Some j' ->
      w_stages w !! k' = Some st' -> running st' = true -> fnv1a (j_key j') <> fnv1a (j_key j)
  | EvRemove _ => True
  end.

Inductive cache_step (s : cache_store_t) (js : list insert_job) (w w' : world) : Prop :=
  cache_step_event (ev : event) : alone js ev w -> world_step s js ev w = Some w' -> cache_step s js w w'.

(** What the log says the entry of [key] is, when it was [d0] at the start. *)
Fixpoint entry_after (s : cache_store_t) (js : list insert_job) (d0 : disk) (log : list commit) (key : bytes) : option bytes :=
  match log with
  | [] => content d0 (entry_path s key)
  | Stored k :: log' =>
      match js !! k with
      | Some j => if decide (fnv1a (j_key j) = fnv1a key) then Some (job_file j) else entry_after s js d0 log' key
      | None => entry_after s js d0 log' key
      end
  | Removed key' :: log' => if decide (fnv1a key' = fnv1a key) then None else entry_after s js d0 log' key
  end.

(** ** Directories *)

(** No file has two names, and every name leads to a file. *)
Record disk_ok (d : disk) : Prop := {
  dk_inj : forall p q i, names d !! p = Some i -> names d !! q = Some i -> p = q;
  dk_dom : forall p i, names d !! p = Some i -> (i < next_inode d)%nat /\ is_Some (inodes d !! i)
}.

(** What a call of an insertion with the temporary name [tmp] and the entry [path]
    may do to the directory: other names stay, and so do the files that are not
    behind [tmp]; a file gets no new name but that [path] takes the one of [tmp]. *)
Record evolves (tmp path : bytes) (d d' : disk) : Prop := {
  ev_ok : disk_ok d';
  ev_next : (next_inode d <= next_inode d')%nat;
  ev_names : forall p, p <> tmp -> p <> path -> names d' !! p = names d !! p;
  ev_inodes : forall i, (i < next_inode d)%nat -> names d !! tmp <> Some i -> inodes d' !! i = inodes d !! i;
  ev_moved : forall p i, names d' !! p = Some i -> (i < next_inode d)%nat ->
    names d !! p = Some i \/ (p = path /\ names d !! tmp = Some i)
}.

Lemma content_some (d : disk) (p : bytes) (i : nat) (f : bytes) :
  names d !! p = Some i -> inodes d !! i = Some f -> content d p = Some f.
Proof. intros H1 H2. unfold content. by rewrite H1. Qed.

Lemma evolves_refl (tmp path : bytes) (d : disk) : disk_ok d -> evolves tmp path d d.
Proof. intros. constructor; auto. Qed.

(** A name that is still where it was leads to the same bytes. *)
Lemma evolves_content (tmp path p : bytes) (d d' : disk) :
  disk_ok d -> evolves tmp path d d' -> p <> tmp -> names d' !! p = names d !! p -> content d' p = content d p.
Proof.
  intros Hd He H1 H2. unfold content. rewrite H2.
  destruct (names d !! p) as [i |] eqn:E; [| done]. cbn. apply (ev_inodes _ _ _ _ He).
  - exact (proj1 (dk_dom _ Hd _ _ E)).
  - intros Ht. apply H1. by apply (dk_inj _ Hd p tmp i).
Qed.

Lemma open_trunc_evolves (tmp path : bytes) (d : disk) :
  disk_ok d ->
  let '(i, d') := open_trunc tmp d in
  evolves tmp path d d' /\ names d' !! tmp = Some i /\ inodes d' !! i = Some [] /\
  (forall p, p <> tmp -> names d' !! p = names d !! p).
Proof.
  intros Hd. unfold open_trunc. destruct (names d !! tmp) as [i |] eqn:E; cbn [names inodes next_inode].
  - destruct (dk_dom _ Hd _ _ E) as [Hi _]. split; [| by rewrite lookup_insert_eq].
    constructor; cbn [names inodes next_inode]; auto.
    + constructor; cbn [names inodes next_inode]; [apply Hd |]. intros p q H. destruct (dk_dom _ Hd _ _ H) as [H1 H2].
      split; [done |]. destruct (decide (q = i)) as [-> |]; [rewrite lookup_insert_eq; eauto | by rewrite lookup_insert_ne].
    + intros q _ Hq. rewrite lookup_insert_ne; congruence.
  - set (n := next_inode d). assert (forall p i, names d !! p = Some i -> i <> n) as Hfresh
      by (intros p i H; apply (dk_dom _ Hd) in H as [H _]; unfold n; lia).
    split; [| rewrite !lookup_insert_eq; split_and!; auto; intros p Hp; by rewrite lookup_insert_ne].
    constructor; cbn [names inodes next_inode].
    + constructor; cbn [names inodes next_inode].
      * intros p q i. rewrite !lookup_insert_Some. intros [[<- <-] | [Hp H]] [[<- H'] | [Hq H']]; auto.
        -- by apply Hfresh in H'.
        -- subst. by apply Hfresh in H.
        -- by apply (dk_inj _ Hd p q i).
      * intros p i. rewrite lookup_insert_Some. intros [[<- <-] | [Hp H]]; [rewrite lookup_insert_eq; split; [lia | eauto] |].
        pose proof (Hfresh _ _ H). apply (dk_dom _ Hd) in H as [? ?]. rewrite lookup_insert_ne by done. split; [lia | done].
    + lia.
    + intros p Hp _. by rewrite lookup_insert_ne.
    + intros i Hi _. rewrite lookup_insert_ne; [done | unfold n; lia].
    + intros p i. rewrite lookup_insert_Some. intros [[<- <-] | [Hp H]]; [unfold n; lia | by left].
Qed.

Lemma write_inode_evolves (tmp path bs : bytes) (i off : nat) (d : disk) :
  disk_ok d -> names d !! tmp = Some i -> evolves tmp path d (write_inode i off bs d).
Proof.
  intros Hd Ht. unfold write_inode. constructor; cbn [names inodes next_inode]; auto.
  - constructor; cbn [names inodes next_inode]; [apply Hd |]. intros p q H. destruct (dk_dom _ Hd _ _ H) as [H1 [f H2]].
    split; [done |]. destruct (decide (q = i)) as [-> |]; [rewrite lookup_alter_eq, H2; eauto | rewrite lookup_alter_ne, H2; eauto].
  - intros q _ Hq. rewrite lookup_alter_ne; congruence.
Qed.

Lemma rename_file_evolves (tmp path : bytes) (d d' : disk) (i : nat) :
  disk_ok d -> names d !! tmp = Some i -> rename_file tmp path d = Some d' -> evolves tmp path d d' /\ names d' !! path = Some i.
Proof.
  intros Hd Ht. unfold rename_file. rewrite Ht. intros [= <-]. cbn [names]. split; [| by rewrite lookup_insert_eq].
  constructor; cbn [names inodes next_inode]; auto.
  - constructor; cbn [names inodes next_inode].
    + intros p q k. rewrite !lookup_insert_Some, !lookup_delete_Some.
      intros [[<- <-] | (Hp & Hp' & H)] [[<- H'] | (Hq & Hq' & H')]; auto.
      * exfalso. apply Hq'. by apply (dk_inj _ Hd tmp q i).
      * subst. exfalso. apply Hp'. by apply (dk_inj _ Hd tmp p k).
      * by apply (dk_inj _ Hd p q k).
    + intros p k. rewrite lookup_insert_Some, lookup_delete_Some. intros [[<- <-] | (_ & _ & H)]; by apply (dk_dom _ Hd) in H || by apply (dk_dom _ Hd) in Ht.
  - intros p H1 H2. by rewrite lookup_insert_ne, lookup_delete_ne.
  - intros p k. rewrite lookup_insert_Some, lookup_delete_Some. intros [[<- <-] | (_ & _ & H)]; auto.
Qed.

Lemma unlink_file_evolves (tmp path : bytes) (d : disk) : disk_ok d -> evolves tmp path d (unlink_file tmp d).
Proof.
  intros Hd. unfold unlink_file. constructor; cbn [names inodes next_inode]; auto.
  - constructor; cbn [names inodes next_inode].
    + intros p q i. rewrite !lookup_delete_Some. intros [_ H] [_ H']. by apply (dk_inj _ Hd p q i).
    + intros p i. rewrite lookup_delete_Some. intros [_ H]. by apply (dk_dom _ Hd) in H.
  - intros p Hp _. by rewrite lookup_delete_ne.
  - intros p i. rewrite lookup_delete_Some. intros [_ H]. auto.
Qed.

(** ** One call of one insertion *)

Section insertion.
Context (s : cache_store_t) (Hs : store_ok s).

Definition tmp_of (j : insert_job) : bytes := entry_path s (j_key j) ++ lit ".tmp".

(** How far an insertion has come, as its temporary file shows. *)
Definition holds (d : disk) (j : insert_job) (st : insert_stage) : Prop :=
  let at_tmp i f := names d !! tmp_of j = Some i /\ inodes d !! i = Some f in
  match st with
  | IWriteHdr i => at_tmp i []
  | IWriteHeaders i off => at_tmp i (job_image j) /\ off = length (job_image j)
  | IWriteBody i off => at_tmp i (job_image j ++ j_headers j) /\ off = length (job_image j ++ j_headers j)
  | IRename => exists i, at_tmp i (job_file j)
  | IOpen | IUnlink | IDone _ => True
  end.

Lemma write_at_end (f bs : bytes) : write_at (length f) bs f = f ++ bs.
Proof.
  unfold write_at. case_bool_decide as E; [by rewrite E, app_nil_r |].
  rewrite Nat.sub_diag. cbn [replicate]. rewrite app_nil_r, take_ge, drop_ge by lia. by rewrite app_nil_r.
Qed.

Lemma written_all (bs : bytes) (n : Z) : n = zlen bs -> written n bs = bs.
Proof. intros ->. apply take_ge. lia. Qed.

Lemma job_file_eq (j : insert_job) : job_file j = job_image j ++ j_headers j ++ j_body j.
Proof. done. Qed.

Lemma body_stage_holds (d : disk) (j : insert_job) (i off : nat) :
  names d !! tmp_of j = Some i -> inodes d !! i = Some (job_image j ++ j_headers j) -> off = length (job_image j ++ j_headers j) ->
  holds d j (body_stage j i off).
Proof.
  intros H1 H2 H3. unfold body_stage. destruct (Z.ltb_spec 0 (zlen (j_body j))) as [P | P]; cbn [holds]; [done |].
  exists i. split; [done |]. rewrite H2, job_file_eq. destruct (j_body j); [by rewrite app_nil_r | cbn [length] in P; lia].
Qed.

Lemma headers_stage_holds (d : disk) (j : insert_job) (i off : nat) :
  names d !! tmp_of j = Some i -> inodes d !! i = Some (job_image j) -> off = length (job_image j) ->
  holds d j (headers_stage j i off).
Proof.
  intros H1 H2 H3. unfold headers_stage. destruct (Z.ltb_spec 0 (zlen (j_headers j))) as [P | P]; cbn [holds]; [done |].
  apply body_stage_holds; [done | rewrite H2 | rewrite H3]; (destruct (j_headers j); [by rewrite app_nil_r | cbn [length] in P; lia]).
Qed.

Lemma write_inode_holds (j : insert_job) (d : disk) (i : nat) (f bs : bytes) :
  names d !! tmp_of j = Some i -> inodes d !! i = Some f ->
  names (write_inode i (length f) bs d) !! tmp_of j = Some i /\ inodes (write_inode i (length f) bs d) !! i = Some (f ++ bs).
Proof. intros H1 H2. split; [done |]. cbn. rewrite lookup_alter_eq, H2. cbn. by rewrite write_at_end. Qed.

Lemma headers_stage_running (j : insert_job) (i off : nat) : running (headers_stage j i off) = true.
Proof. unfold headers_stage, body_stage. by repeat case_match. Qed.

Lemma body_stage_running (j : insert_job) (i off : nat) : running (body_stage j i off) = true.
Proof. unfold body_stage. by case_match. Qed.

Lemma running_not_commit (st st' : insert_stage) : running st' = true -> commits st st' = false.
Proof. by destruct st, st'. Qed.

(** A call: what it may change, where the insertion is then, and that the entry
    changes in the [rename] only, into the complete file. *)
Lemma insert_step_ok (j : insert_job) (st st' : insert_stage) (d d' : disk) :
  length (j_pad j) = 4%nat -> disk_ok d -> holds d j st -> insert_step s j st d = (st', d') ->
  evolves (tmp_of j) (entry_path s (j_key j)) d d' /\ holds d' j st' /\
  (if commits st st' then content d' (entry_path s (j_key j)) = Some (job_file j)
   else names d' !! entry_path s (j_key j) = names d !! entry_path s (j_key j)) /\
  (running st' = true \/ exists r, st' = IDone r /\ (st = IDone r \/ commits st st' = bool_decide (r = NP_OK))).
Proof.
  intros Hp Hd Hst. unfold insert_step, job_path. rewrite cache_path_eq, tmp_path_eq by done. fold (tmp_of j).
  set (path := entry_path s (j_key j)). set (tmp := tmp_of j). cbn zeta.
  assert (path <> tmp) as Hne by (intros E; by apply (tmp_not_entry s (j_key j) (j_key j))).
  pose proof (header_image_length (j_pad j) (mk_hdr (j_status j) (zlen (j_headers j)) (zlen (j_body j)) (if 0 <? j_ttl j then j_now j + j_ttl j else 0)) Hp
    : length (job_image j) = 32%nat) as Himg.
  assert (forall i, names d !! tmp = Some i -> forall st1 st2 off bs,
    running st2 = true -> (holds (write_inode i off bs d) j st2) ->
    evolves tmp path d (write_inode i off bs d) /\ holds (write_inode i off bs d) j st2 /\
    (if commits st1 st2 then content (write_inode i off bs d) path = Some (job_file j)
     else names (write_inode i off bs d) !! path = names d !! path) /\
    (running st2 = true \/ exists r, st2 = IDone r /\ (st1 = IDone r \/ commits st1 st2 = bool_decide (r = NP_OK)))) as Hwrite.
  { intros i Ht st1 st2 off bs Hr Hh. split_and!; auto using write_inode_evolves. by rewrite running_not_commit. }
  destruct st as [| i | i off | i off | | | r]; cbn [holds] in Hst; try change (tmp_of j) with tmp in Hst.
  - destruct (io_open (j_io j)); cbn [negb].
    + pose proof (open_trunc_evolves tmp path d Hd) as Ho. destruct (open_trunc tmp d) as [i d1].
      destruct Ho as (He & Hn & Hi & Hother). intros [= <- <-]. split_and!; cbn; auto.
    + intros [= <- <-]. split_and!; cbn; eauto using evolves_refl.
  - destruct Hst as [Ht Hf]. intros [= <- <-]. apply Hwrite; [done | |]; destruct (Z.eqb_spec (io_write_hdr (j_io j)) sizeof_header) as [E | E]; try done.
    + apply headers_stage_running.
    + cbn [negb]. rewrite written_all by (rewrite E; unfold sizeof_header; lia).
      destruct (write_inode_holds j d i [] (job_image j) Ht Hf) as [H1 H2]. by apply headers_stage_holds.
  - destruct Hst as [[Ht Hf] ->]. intros [= <- <-]. apply Hwrite; [done | |]; destruct (Z.eqb_spec (io_write_headers (j_io j)) (zlen (j_headers j))) as [E | E]; try done.
    + apply body_stage_running.
    + cbn [negb]. rewrite written_all by done. destruct (write_inode_holds j d i _ (j_headers j) Ht Hf) as [H1 H2].
      apply body_stage_holds; [exact H1 | exact H2 | symmetry; apply length_app].
  - destruct Hst as [[Ht Hf] ->]. intros [= <- <-]. apply Hwrite; [done | |]; destruct (Z.eqb_spec (io_write_body (j_io j)) (zlen (j_body j))) as [E | E]; try done.
    cbn [negb]. rewrite written_all by done. destruct (write_inode_holds j d i _ (j_body j) Ht Hf) as [H1 H2].
    exists i. split; [exact H1 |]. etransitivity; [exact H2 |]. by rewrite job_file_eq, <- app_assoc.
  - destruct Hst as (i & Ht & Hf). destruct (io_rename (j_io j)).
    + assert (exists d1, rename_file tmp path d = Some d1 /\ inodes d1 = inodes d) as (d1 & Er & Ei) by (unfold rename_file; rewrite Ht; eauto).
      rewrite Er. intros [= <- <-]. destruct (rename_file_evolves tmp path d d1 i Hd Ht Er) as [He Hn]. split_and!; cbn; eauto.
      apply (content_some _ _ i); [done | by rewrite Ei].
    + intros [= <- <-]. split_and!; cbn; eauto using evolves_refl.
  - intros [= <- <-]. destruct (io_unlink (j_io j)); split_and!; cbn; eauto using evolves_refl, unlink_file_evolves.
    by rewrite lookup_delete_ne.
  - intros [= <- <-]. split_and!; cbn; eauto using evolves_refl.
Qed.

(** Insertions and entries under another hash do not notice. *)
Lemma holds_evolves (j : insert_job) (st : insert_stage) (tmp path : bytes) (d d' : disk) :
  disk_ok d -> evolves tmp path d d' -> tmp_of j <> tmp -> tmp_of j <> path -> holds d j st -> holds d' j st.
Proof.
  intros Hd He Ht Hp. assert (forall i f, names d !! tmp_of j = Some i /\ inodes d !! i = Some f ->
    names d' !! tmp_of j = Some i /\ inodes d' !! i = Some f) as Hat.
  { intros i f [H1 H2]. rewrite (ev_names _ _ _ _ He) by done. split; [done |]. rewrite (ev_inodes _ _ _ _ He); [done | |].
    - exact (proj1 (dk_dom _ Hd _ _ H1)).
    - intros H. apply Ht. by apply (dk_inj _ Hd _ _ i). }
  destruct st; cbn [holds]; auto.
  - intros [H ->]. auto.
  - intros [H ->]. auto.
  - intros (i & H). exists i. auto.
Qed.

Lemma tmp_of_inj (j j' : insert_job) : tmp_of j = tmp_of j' -> fnv1a (j_key j) = fnv1a (j_key j').
Proof. intros H. apply app_inv_tail in H. by apply entry_path_inj in H. Qed.

(** ** All insertions *)

Context (js : list insert_job) (Hpads : Forall (fun j => length (j_pad j) = 4%nat) js) (d0 : disk).

Record world_inv (w : world) : Prop := {
  wi_disk : disk_ok (w_disk w);
  wi_len : length (w_stages w) = length js;
  wi_holds : forall k j st, js !! k = Some j -> w_stages w !! k = Some st -> holds (w_disk w) j st;
  wi_excl : forall k k' j j' st st', k <> k' -> js !! k = Some j -> js !! k' = Some j' -> w_stages w !! k = Some st ->
    w_stages w !! k' = Some st' -> running st = true -> running st' = true -> fnv1a (j_key j) <> fnv1a (j_key j');
  wi_spec : forall key, content (w_disk w) (entry_path s key) = entry_after s js d0 (w_log w) key;
  wi_log : forall k, w_stages w !! k = Some (IDone NP_OK) <-> Stored k ∈ w_log w
}.

Lemma world_start_inv : disk_ok d0 -> world_inv (world_start js d0).
Proof.
  intros Hd. assert (forall k st, replicate (length js) IOpen !! k = Some st -> st = IOpen) as Hst
    by (intros k st H; by apply lookup_replicate_1 in H as [-> _]).
  constructor; cbn [world_start w_disk w_stages w_log]; auto.
  - by rewrite length_replicate.
  - intros k j st _ ->%Hst. done.
  - intros k k' j j' st st' _ _ _ ->%Hst. done.
  - intros k. split; [intros H%Hst; done | intros H; by apply elem_of_nil in H].
Qed.

(** An entry is no temporary file. *)
Lemma entry_not_tmp (key : bytes) (j : insert_job) : entry_path s key <> tmp_of j.
Proof. intros E. by apply (tmp_not_entry s (j_key j) key). Qed.

(** Stages after a call of insertion [k]. *)
Lemma stages_insert (w : world) (k k' : nat) (st st' x : insert_stage) :
  w_stages w !! k = Some st -> <[k := st']> (w_stages w) !! k' = Some x ->
  (k' = k /\ x = st') \/ (k' <> k /\ w_stages w !! k' = Some x).
Proof.
  intros H Hx. destruct (decide (k' = k)) as [-> | Hne].
  - rewrite list_lookup_insert_eq in Hx by (by eapply lookup_lt_Some). left. by injection Hx as <-.
  - rewrite list_lookup_insert_ne in Hx by done. by right.
Qed.

(** The entries after a call of an insertion: as before, but for the one that is
    stored by a successful [rename]. *)
Lemma step_entries (w : world) (k : nat) (j : insert_job) (st st' : insert_stage) (d' : disk) :
  world_inv w -> js !! k = Some j -> w_stages w !! k = Some st -> insert_step s j st (w_disk w) = (st', d') ->
  forall key, content d' (entry_path s key) = entry_after s js d0 (if commits st st' then Stored k :: w_log w else w_log w) key.
Proof.
  intros [Hd _ Hh _ Hspec _] Hj Hst Hstep key. pose proof (proj1 (Forall_lookup _ js) Hpads _ _ Hj) as Hpad. cbn in Hpad.
  destruct (insert_step_ok j st st' (w_disk w) d' Hpad Hd (Hh _ _ _ Hj Hst) Hstep) as (He & _ & Hc & _).
  destruct (commits st st'); cbn [entry_after]; rewrite ?Hj.
  - case_decide as E; [apply (entry_path_inj s) in E; by rewrite <- E |]. rewrite <- Hspec.
    assert (entry_path s key <> entry_path s (j_key j)) as Hne by (intros H; apply E; symmetry; by apply (entry_path_inj s)).
    apply (evolves_content _ _ _ _ _ Hd He); [apply entry_not_tmp |]. apply (ev_names _ _ _ _ He); [apply entry_not_tmp | done].
  - rewrite <- Hspec. apply (evolves_content _ _ _ _ _ Hd He); [apply entry_not_tmp |].
    destruct (decide (entry_path s key = entry_path s (j_key j))) as [-> | Hne]; [done |].
    apply (ev_names _ _ _ _ He); [apply entry_not_tmp | done].
Qed.

Lemma step_insert_inv (w : world) (k : nat) (j : insert_job) (st st' : insert_stage) (d' : disk) :
  world_inv w -> alone js (EvInsert k) w -> js !! k = Some j -> w_stages w !! k = Some st -> (forall r, st <> IDone r) ->
  insert_step s j st (w_disk w) = (st', d') ->
  world_inv (mk_world d' (<[k := st']> (w_stages w)) (if commits st st' then Stored k :: w_log w else w_log w)).
Proof.
  intros Hinv Hal Hj Hst Hnd Hstep. pose proof (step_entries w k j st st' d' Hinv Hj Hst Hstep) as Hentries.
  destruct Hinv as [Hd Hlen Hh Hex _ Hlog]. pose proof (proj1 (Forall_lookup _ js) Hpads _ _ Hj) as Hpad. cbn in Hpad.
  destruct (insert_step_ok j st st' (w_disk w) d' Hpad Hd (Hh _ _ _ Hj Hst) Hstep) as (He & Hh' & _ & Hrun).
  assert (forall k' j' x, k' <> k -> js !! k' = Some j' -> w_stages w !! k' = Some x -> running x = true ->
    fnv1a (j_key j') <> fnv1a (j_key j)) as Hother.
  { intros k' j' x Hk Hj' Hx Hr. destruct (running st) eqn:Er; [by apply (Hex k' k j' j x st) |].
    destruct st as [| | | | | | r]; try discriminate; [| by destruct (Hnd r)]. by apply (Hal Hst k' j j' x). }
  constructor; cbn [w_disk w_stages w_log]; [apply He | by rewrite length_insert | | | exact Hentries |].
  - intros k' j' x Hj' Hx. apply (stages_insert w k k' st st' x Hst) in Hx as [[-> ->] | [Hk Hx]].
    { rewrite Hj in Hj'. by injection Hj' as <-. }
    destruct (running x) eqn:Er; [| by destruct x]. apply (holds_evolves _ _ _ _ _ _ Hd He).
    + intros E. by apply (Hother k' j' x), tmp_of_inj.
    + intros E. by apply (entry_not_tmp (j_key j) j').
    + by apply (Hh k').
  - intros k1 k2 j1 j2 x1 x2 Hne H1 H2 Hx1 Hx2 Hr1 Hr2.
    apply (stages_insert w k k1 st st' x1 Hst) in Hx1 as [[-> ->] | [Hk1 Hx1]];
      apply (stages_insert w k k2 st st' x2 Hst) in Hx2 as [[-> ->] | [Hk2 Hx2]]; try done.
    + rewrite Hj in H1. injection H1 as <-. apply not_eq_sym. by apply (Hother k2 j2 x2).
    + rewrite Hj in H2. injection H2 as <-. by apply (Hother k1 j1 x1).
    + by apply (Hex k1 k2 j1 j2 x1 x2).
  - assert (commits st st' = true <-> st' = IDone NP_OK) as Hcom.
    { destruct Hrun as [Hr | (r & -> & [-> | ->])]; [| by destruct (Hnd r) |].
      - rewrite running_not_commit by done. by split; [| intros ->].
      - rewrite bool_decide_eq_true. by split; [intros -> | intros [= ->]]. }
    intros k'. destruct (decide (k' = k)) as [-> | Hk].
    + rewrite list_lookup_insert_eq by (by eapply lookup_lt_Some). destruct (commits st st') eqn:Ec.
      * rewrite (proj1 Hcom eq_refl). split; [intros _; apply list_elem_of_here | done].
      * rewrite <- Hlog, Hst. split; [intros [= E]; by apply Hcom in E | intros [= ->]; by destruct (Hnd NP_OK)].
    + rewrite list_lookup_insert_ne, Hlog by done. destruct (commits st st'); [| done]. rewrite elem_of_cons.
      split; [by right | by intros [[= ->] |]].
Qed.

Lemma step_remove_inv (w : world) (key : bytes) :
  world_inv w -> world_inv (mk_world (unlink_file (entry_path s key) (w_disk w)) (w_stages w) (Removed key :: w_log w)).
Proof.
  intros [Hd Hlen Hh Hex Hspec Hlog]. pose proof (unlink_file_evolves (entry_path s key) (entry_path s key) (w_disk w) Hd) as He.
  constructor; cbn [w_disk w_stages w_log]; auto; [apply He | | |].
  - intros k j st Hj Hst. apply (holds_evolves _ _ _ _ _ _ Hd He); eauto using not_eq_sym, entry_not_tmp.
  - intros key'. cbn [entry_after]. case_decide as E.
    + apply (entry_path_inj s) in E. unfold content, unlink_file. cbn [names inodes]. by rewrite <- E, lookup_delete_eq.
    + rewrite <- Hspec. unfold content, unlink_file. cbn [names inodes]. rewrite lookup_delete_ne; [done |].
      intros H. apply E. by apply (entry_path_inj s).
  - intros k. rewrite Hlog, elem_of_cons. split; [by right | by intros [? |]].
Qed.

Lemma cache_step_inv (w w' : world) : world_inv w -> cache_step s js w w' -> world_inv w'.
Proof.
  intros Hinv [[k | key] Hal Hstep]; cbn [world_step] in Hstep.
  - destruct (js !! k) as [j |] eqn:Hj; [| discriminate]. destruct (w_stages w !! k) as [st |] eqn:Hst; [| discriminate].
    destruct (insert_step s j st (w_disk w)) as [st' d'] eqn:E. injection Hstep as <-.
    destruct st as [| | | | | | r]; try (by eapply step_insert_inv).
    cbn [insert_step] in E. injection E as <- <-. rewrite list_insert_id by done. cbn [commits]. by destruct w.
  - injection Hstep as <-. rewrite cache_path_eq by done. by apply step_remove_inv.
Qed.

(** A file that is behind no temporary name is never written again. *)
Definition settled (d : disk) (i : nat) : Prop :=
  (i < next_inode d)%nat /\ forall key, names d !! (entry_path s key ++ lit ".tmp") <> Some i.

Lemma entry_settled (d : disk) (key : bytes) (i : nat) : disk_ok d -> names d !! entry_path s key = Some i -> settled d i.
Proof.
  intros Hd H. split; [exact (proj1 (dk_dom _ Hd _ _ H)) |]. intros key' H'.
  apply (tmp_not_entry s key' key). by apply (dk_inj _ Hd _ _ i).
Qed.

Lemma settled_step (w w' : world) (i : nat) :
  world_inv w -> cache_step s js w w' -> settled (w_disk w) i ->
  settled (w_disk w') i /\ inodes (w_disk w') !! i = inodes (w_disk w) !! i.
Proof.
  intros Hinv [[k | key] Hal Hstep] [Hi Hn]; cbn [world_step] in Hstep.
  - destruct (js !! k) as [j |] eqn:Hj; [| discriminate]. destruct (w_stages w !! k) as [st |] eqn:Hst; [| discriminate].
    destruct (insert_step s j st (w_disk w)) as [st' d'] eqn:E. injection Hstep as <-. cbn [w_disk].
    pose proof (proj1 (Forall_lookup _ js) Hpads _ _ Hj) as Hpad. cbn in Hpad. destruct Hinv as [Hd _ Hh _ _ _].
    destruct (insert_step_ok j st st' (w_disk w) d' Hpad Hd (Hh _ _ _ Hj Hst) E) as (He & _).
    split; [| apply (ev_inodes _ _ _ _ He); [exact Hi | apply Hn]].
    split; [pose proof (ev_next _ _ _ _ He); lia |]. intros key H.
    destruct (ev_moved _ _ _ _ He _ _ H Hi) as [H' | [H' _]]; [by apply (Hn key) | by apply tmp_not_entry in H'].
  - injection Hstep as <-. cbn. split; [| done]. split; [done |]. intros key'. cbn. rewrite lookup_delete_Some. intros [_ H]. by apply (Hn key').
Qed.

Lemma settled_steps (w w' : world) (i : nat) :
  rtc (cache_step s js) w w' -> world_inv w -> settled (w_disk w) i -> inodes (w_disk w') !! i = inodes (w_disk w) !! i.
Proof.
  induction 1 as [w | w w1 w' Hstep _ IH]; intros Hinv Hset; [done |].
  destruct (settled_step w w1 i Hinv Hstep Hset) as [Hset1 <-]. apply IH; [by eapply cache_step_inv | done].
Qed.

Lemma reachable_inv (w : world) : disk_ok d0 -> rtc (cache_step s js) (world_start js d0) w -> world_inv w.
Proof.
  intros Hd H. apply world_start_inv in Hd. revert Hd. induction H; eauto using cache_step_inv.
Qed.

End insertion.

(** ** One insertion alone *)

(** The directory as the map that [cache_insert] works on. *)
Definition files_of (d : disk) : fs := omap (fun i => inodes d !! i) (names d).

Fixpoint insert_run (fuel : nat) (s : cache_store_t) (j : insert_job) (st : insert_stage) (d : disk) : insert_stage * disk :=
  match fuel with
  | O => (st, d)
  | S f => let '(st', d') := insert_step s j st d in insert_run f s j st' d'
  end.

(** The result and the last state of [cache_insert]. *)
Definition insert_alone (s : cache_store_t) (j : insert_job) (f : fs) : np_status_t * fs :=
  let '(r, states) := cache_insert s (j_key j) (j_status j) (j_headers j) (j_body j) (j_ttl j) (j_now j) (j_pad j) (j_io j) f in
  (r, List.last states f).

Lemma files_of_lookup (d : disk) (p : bytes) : files_of d !! p = content d p.
Proof. unfold files_of, content. by rewrite lookup_omap. Qed.

(** The directory in the middle of an insertion that started with the files [F]. *)
Record midway (d : disk) (tmp : bytes) (i : nat) (f : bytes) (F : fs) : Prop := {
  mw_ok : disk_ok d;
  mw_name : names d !! tmp = Some i;
  mw_inode : inodes d !! i = Some f;
  mw_files : files_of d = <[tmp := f]> F
}.

(** A change that only [tmp] sees. *)
Lemma midway_evolves (tmp : bytes) (d d' : disk) (i : nat) (f : bytes) (F : fs) :
  disk_ok d -> evolves tmp tmp d d' -> names d' !! tmp = Some i -> inodes d' !! i = Some f ->
  (forall p, p <> tmp -> files_of d !! p = F !! p) -> midway d' tmp i f F.
Proof.
  intros Hd He Hn Hi HF. constructor; auto; [apply He |]. apply map_eq. intros p. rewrite files_of_lookup.
  destruct (decide (p = tmp)) as [-> | Hne]; [rewrite lookup_insert_eq; by eapply content_some |].
  rewrite lookup_insert_ne, <- HF, files_of_lookup by done.
  apply (evolves_content _ _ _ _ _ Hd He); [done |]. by apply (ev_names _ _ _ _ He).
Qed.

Lemma midway_open (tmp : bytes) (d : disk) :
  disk_ok d -> midway (open_trunc tmp d).2 tmp (open_trunc tmp d).1 [] (files_of d).
Proof.
  intros Hd. pose proof (open_trunc_evolves tmp tmp d Hd) as H. destruct (open_trunc tmp d) as [i d'].
  destruct H as (He & Hn & Hi & _). by apply (midway_evolves tmp d d').
Qed.

Lemma midway_write (tmp : bytes) (d : disk) (i : nat) (f bs : bytes) (F : fs) :
  midway d tmp i f F -> midway (write_inode i (length f) bs d) tmp i (f ++ bs) F.
Proof.
  intros [Hd Hn Hi HF]. apply (midway_evolves tmp d); auto.
  - by apply write_inode_evolves.
  - cbn. rewrite lookup_alter_eq, Hi. cbn. by rewrite write_at_end.
  - intros p Hp. by rewrite HF, lookup_insert_ne.
Qed.

Lemma midway_unlink (tmp : bytes) (d : disk) (i : nat) (f : bytes) (F : fs) :
  midway d tmp i f F -> files_of (unlink_file tmp d) = delete tmp (<[tmp := f]> F).
Proof.
  intros [Hd Hn Hi HF]. rewrite <- HF. apply map_eq. intros p. rewrite files_of_lookup. unfold content, unlink_file. cbn [names inodes].
  destruct (decide (p = tmp)) as [-> |]; [by rewrite !lookup_delete_eq |]. by rewrite !lookup_delete_ne, files_of_lookup by done.
Qed.

Lemma midway_rename (tmp path : bytes) (d : disk) (i : nat) (f : bytes) (F : fs) :
  midway d tmp i f F ->
  exists d', rename_file tmp path d = Some d' /\ files_of d' = <[path := f]> (delete tmp (<[tmp := f]> F)).
Proof.
  intros [Hd Hn Hi HF]. unfold rename_file. rewrite Hn. eexists. split; [done |]. rewrite <- HF. apply map_eq. intros p.
  rewrite files_of_lookup. unfold content. cbn [names inodes].
  destruct (decide (p = path)) as [-> |]; [by rewrite !lookup_insert_eq |]. rewrite !lookup_insert_ne by done.
  destruct (decide (p = tmp)) as [-> |]; [by rewrite !lookup_delete_eq |]. by rewrite !lookup_delete_ne, files_of_lookup by done.
Qed.

Lemma insert_run_done (n : nat) (s : cache_store_t) (j : insert_job) (r : np_status_t) (d : disk) :
  insert_run n s j (IDone r) d = (IDone r, d).
Proof. induction n; [done | exact IHn]. Qed.

Lemma insert_run_S (n : nat) (s : cache_store_t) (j : insert_job) (st : insert_stage) (d : disk) :
  insert_run (S n) s j st d = let '(st', d') := insert_step s j st d in insert_run n s j st' d'.
Proof. done. Qed.

Section alone.
Context (s : cache_store_t) (j : insert_job).
Abbreviation path := (job_path s j).
Abbreviation tmp := (tmp_name (job_path s j)).

(** The end of an insertion that fails, and of one that has written everything. *)
Lemma run_unlink (n : nat) (d : disk) (i : nat) (f : bytes) (F : fs) :
  midway d tmp i f F ->
  exists d', insert_run (S n) s j IUnlink d = (IDone NP_ERR, d') /\ files_of d' = unlinked (j_io j) tmp (<[tmp := f]> F).
Proof.
  intros Hm. rewrite insert_run_S. cbn [insert_step]. rewrite insert_run_done. eexists. split; [done |]. unfold unlinked.
  destruct (io_unlink (j_io j)); [by eapply midway_unlink | apply Hm].
Qed.

Lemma run_rename (n : nat) (d : disk) (i : nat) (f : bytes) (F : fs) :
  midway d tmp i f F ->
  exists d', insert_run (S (S n)) s j IRename d = (IDone (if io_rename (j_io j) then NP_OK else NP_ERR), d') /\
    files_of d' = if io_rename (j_io j) then <[path := f]> (delete tmp (<[tmp := f]> F)) else unlinked (j_io j) tmp (<[tmp := f]> F).
Proof.
  intros Hm. rewrite insert_run_S. cbn [insert_step]. destruct (io_rename (j_io j)).
  - destruct (midway_rename tmp path d i f F Hm) as (d' & -> & Hf). exists d'. by rewrite insert_run_done.
  - by apply run_unlink with (i := i).
Qed.

(** From the data's two calls on. *)
Lemma run_body (n : nat) (d : disk) (i : nat) (f : bytes) (F : fs) :
  midway d tmp i f F ->
  exists r d', insert_run (S (S (S n))) s j (body_stage j i (length f)) d = (IDone r, d') /\
    let t3 := if 0 <? zlen (j_body j) then f ++ written (io_write_body (j_io j)) (j_body j) else f in
    if (0 <? zlen (j_body j)) && negb (io_write_body (j_io j) =? zlen (j_body j))
    then r = NP_ERR /\ files_of d' = unlinked (j_io j) tmp (<[tmp := t3]> F)
    else r = (if io_rename (j_io j) then NP_OK else NP_ERR) /\
      files_of d' = if io_rename (j_io j) then <[path := t3]> (delete tmp (<[tmp := t3]> F)) else unlinked (j_io j) tmp (<[tmp := t3]> F).
Proof.
  intros Hm. unfold body_stage. destruct (0 <? zlen (j_body j)); cbn [andb].
  - rewrite insert_run_S. cbn [insert_step]. apply (midway_write _ _ _ _ (written (io_write_body (j_io j)) (j_body j))) in Hm.
    destruct (negb (io_write_body (j_io j) =? zlen (j_body j))).
    + destruct (run_unlink (S n) _ _ _ _ Hm) as (d' & Hr & Hf). exists NP_ERR, d'. by split.
    + destruct (run_rename n _ _ _ _ Hm) as (d' & Hr & Hf). eexists _, d'. by split.
  - destruct (run_rename (S n) _ _ _ _ Hm) as (d' & Hr & Hf). eexists _, d'. by split.
Qed.

Lemma run_headers (n : nat) (d : disk) (i : nat) (f : bytes) (F : fs) :
  midway d tmp i f F ->
  exists r d', insert_run (S (S (S (S n)))) s j (headers_stage j i (length f)) d = (IDone r, d') /\
    let t2 := if 0 <? zlen (j_headers j) then f ++ written (io_write_headers (j_io j)) (j_headers j) else f in
    let t3 := if 0 <? zlen (j_body j) then t2 ++ written (io_write_body (j_io j)) (j_body j) else t2 in
    if (0 <? zlen (j_headers j)) && negb (io_write_headers (j_io j) =? zlen (j_headers j))
    then r = NP_ERR /\ files_of d' = unlinked (j_io j) tmp (<[tmp := t2]> F)
    else if (0 <? zlen (j_body j)) && negb (io_write_body (j_io j) =? zlen (j_body j))
    then r = NP_ERR /\ files_of d' = unlinked (j_io j) tmp (<[tmp := t3]> F)
    else r = (if io_rename (j_io j) then NP_OK else NP_ERR) /\
      files_of d' = if io_rename (j_io j) then <[path := t3]> (delete tmp (<[tmp := t3]> F)) else unlinked (j_io j) tmp (<[tmp := t3]> F).
Proof.
  intros Hm. unfold headers_stage. destruct (0 <? zlen (j_headers j)); cbn [andb].
  - rewrite insert_run_S. cbn [insert_step]. apply (midway_write _ _ _ _ (written (io_write_headers (j_io j)) (j_headers j))) in Hm.
    destruct (negb (io_write_headers (j_io j) =? zlen (j_headers j))).
    + destruct (run_unlink (S (S n)) _ _ _ _ Hm) as (d' & Hr & Hf). exists NP_ERR, d'. by split.
    + rewrite <- length_app. apply (run_body n _ _ _ _ Hm).
  - apply (run_body (S n) _ _ _ _ Hm).
Qed.

(** [cache_insert] is the insertion when no other process makes a call in
    between: the same result and the same files, after at most six calls. *)
Theorem cache_insert_alone (d : disk) :
  disk_ok d ->
  exists r d', insert_run 6 s j IOpen d = (IDone r, d') /\ (r, files_of d') = insert_alone s j (files_of d).
Proof.
  intros Hd. unfold insert_alone, cache_insert. fold (job_image j). fold path. cbn zeta.
  rewrite insert_run_S. cbn [insert_step]. destruct (io_open (j_io j)); cbn [negb].
  2: { rewrite insert_run_done. do 2 eexists. split; done. }
  pose proof (midway_open tmp d Hd) as Hm. destruct (open_trunc tmp d) as [i d1]. cbn [fst snd] in Hm.
  apply (midway_write _ _ _ _ (written (io_write_hdr (j_io j)) (job_image j))) in Hm. cbn [app length] in Hm.
  rewrite insert_run_S. cbn [insert_step]. destruct (negb (io_write_hdr (j_io j) =? sizeof_header)).
  - destruct (run_unlink 3 _ _ _ _ Hm) as (d' & Hr & Hf). exists NP_ERR, d'. split; [exact Hr |]. cbn [List.last]. by rewrite insert_insert_eq, Hf.
  - destruct (run_headers 0 _ _ _ _ Hm) as (r & d' & Hr & Hf). exists r, d'. split; [exact Hr |]. cbn zeta in Hf.
    rewrite !insert_insert_eq.
    repeat case_match; destruct Hf as [-> Hf]; cbn [List.last]; by rewrite Hf.
Qed.
End alone.

(** ** Properties *)

(** C13 Insertions of any number of workers are atomic, when no two insertions
    under the same hash are under way at once: whatever [open], [write], [rename]
    and [unlink] answer and however the system calls of the insertions and of
    removals interleave, at every moment every entry of the directory is what the
    last insertion that renamed its file, or the last removal, under its hash made
    it: the complete file of that insertion, nothing, or what it was at the start.
    An insertion has renamed its file exactly when it has returned NP_OK, so a
    failed one changes no entry.  A file that is an entry once is never written
    again, so a reader that opened it reads it whole while it is replaced. *)
Theorem cache_inserts_atomic (s : cache_store_t) (js : list insert_job) (d0 : disk) (w : world) :
  store_ok s -> Forall (fun j => length (j_pad j) = 4%nat) js -> disk_ok d0 ->
  rtc (cache_step s js) (world_start js d0) w ->
  (forall key, content (w_disk w) (entry_path s key) = entry_after s js d0 (w_log w) key) /\
  (forall k, w_stages w !! k = Some (IDone NP_OK) <-> Stored k ∈ w_log w) /\
  (forall w' key i, rtc (cache_step s js) w w' -> names (w_disk w) !! entry_path s key = Some i ->
     inodes (w_disk w') !! i = inodes (w_disk w) !! i).
Proof.
  intros Hs Hp Hd Hr. pose proof (reachable_inv s Hs js Hp d0 w Hd Hr) as Hinv. split_and!; [apply Hinv.. |].
  intros w' key i Hr' Hi. apply (settled_steps s Hs js Hp d0 w w' i Hr' Hinv). by apply (entry_settled s _ key), Hi; apply Hinv.
Qed.

(** Insertions under different hashes never disturb each other. *)
Lemma world_run_steps (s : cache_store_t) (js : list insert_job) (evs : list event) (w w' : world) :
  (forall k k' j j', k' <> k -> js !! k = Some j -> js !! k' = Some j' -> fnv1a (j_key j') <> fnv1a (j_key j)) ->
  world_run s js evs w = Some w' -> rtc (cache_step s js) w w'.
Proof.
  intros Hne. revert w. induction evs as [| ev evs IH]; intros w; cbn [world_run]; [intros [= ->]; apply rtc_refl |].
  destruct (world_step s js ev w) as [w1 |] eqn:E; [| discriminate]. intros H. apply rtc_l with w1; [| by apply IH].
  exists ev; [| done]. destruct ev as [k |]; [| done]. intros _ k' j j' st' Hk Hj Hj' _ _. by apply (Hne k k').
Qed.

Definition sample_job (key data : bytes) : insert_job := mk_job key 200 data [] 10 100 [0; 0; 0; 0] (io_good data []).

Definition sample_jobs : list insert_job := [sample_job (lit "a") (lit "alpha"); sample_job (lit "b") (lit "beta")].

Definition empty_disk : disk := mk_disk ∅ ∅ 0.

Lemma empty_disk_ok : disk_ok empty_disk.
Proof. constructor; intros *; cbn; by rewrite lookup_empty. Qed.

(** Two insertions, call by call in turn, and a removal. *)
Definition sample_events : list event :=
  [EvInsert 0; EvInsert 1; EvInsert 0; EvInsert 1; EvInsert 1; EvInsert 0; EvInsert 0; EvInsert 1; EvRemove (lit "a")].

Definition sample_world : world :=
  default (world_start [] empty_disk) (world_run (mk_store (lit "c") 10) sample_jobs sample_events (world_start sample_jobs empty_disk)).

Lemma sample_world_reached : rtc (cache_step (mk_store (lit "c") 10) sample_jobs) (world_start sample_jobs empty_disk) sample_world.
Proof.
  apply world_run_steps with (evs := sample_events); [| vm_compute; reflexivity].
  intros [| [| k]] [| [| k']] j j' Hk; cbn; intros [= <-] [= <-]; first [by destruct Hk | vm_compute; discriminate].
Qed.

Lemma cache_inserts_atomic_witness :
  content (w_disk sample_world) (entry_path (mk_store (lit "c") 10) (lit "a")) = None /\
  content (w_disk sample_world) (entry_path (mk_store (lit "c") 10) (lit "b")) = Some (job_file (sample_job (lit "b") (lit "beta"))).
Proof.
  destruct (cache_inserts_atomic (mk_store (lit "c") 10) sample_jobs empty_disk sample_world) as (Hc & _ & _).
  - vm_compute. discriminate.
  - repeat constructor.
  - exact empty_disk_ok.
  - exact sample_world_reached.
  - split; rewrite Hc; vm_compute; reflexivity.
Defined.

(** The calls of an insertion whose data is all in [headers], when they succeed. *)
Lemma step_hdr_good (s : cache_store_t) (j : insert_job) (i : nat) (d : disk) :
  length (j_pad j) = 4%nat -> j_headers j <> [] -> j_io j = io_good (j_headers j) (j_body j) ->
  insert_step s j (IWriteHdr i) d = (IWriteHeaders i 32, write_inode i 0 (job_image j) d).
Proof.
  intros Hp Hh Hio. assert (length (job_image j) = 32%nat) as Hl by (by apply header_image_length).
  unfold insert_step, headers_stage. rewrite Hio. cbn [io_write_hdr io_good]. rewrite written_all, Hl by lia.
  rewrite (proj2 (Z.ltb_lt 0 (zlen (j_headers j)))); [done |]. destruct (j_headers j); [done | cbn [length]; lia].
Qed.

Lemma step_headers_good (s : cache_store_t) (j : insert_job) (i off : nat) (d : disk) :
  j_body j = [] -> j_io j = io_good (j_headers j) (j_body j) ->
  insert_step s j (IWriteHeaders i off) d = (IRename, write_inode i off (j_headers j) d).
Proof.
  intros Hb Hio. unfold insert_step, body_stage. rewrite Hio, Hb. cbn [io_write_headers io_good].
  by rewrite Z.eqb_refl, written_all by done.
Qed.

Lemma step_open_good (s : cache_store_t) (j : insert_job) (d : disk) :
  j_io j = io_good (j_headers j) (j_body j) ->
  insert_step s j IOpen d = (IWriteHdr (open_trunc (tmp_name (job_path s j)) d).1, (open_trunc (tmp_name (job_path s j)) d).2).
Proof. intros Hio. unfold insert_step. rewrite Hio. cbn [io_open io_good negb]. by destruct (open_trunc _ d). Qed.

(** Without the condition of [cache_inserts_atomic] it fails.  Two workers insert
    under one hash, as they do when two clients ask for a page that is not in the
    cache: the second truncates the temporary file the first has begun and writes
    its header, the first stores its data behind it and renames the file.  Its
    insertion returns NP_OK and the entry has the header of the one response and
    the data of the other. *)
Theorem cache_insert_race (s : cache_store_t) (ja jb : insert_job) (d : disk) :
  store_ok s -> disk_ok d -> length (j_pad ja) = 4%nat -> length (j_pad jb) = 4%nat ->
  fnv1a (j_key jb) = fnv1a (j_key ja) -> j_headers ja <> [] -> j_body ja = [] -> j_headers jb <> [] ->
  j_io ja = io_good (j_headers ja) (j_body ja) -> j_io jb = io_good (j_headers jb) (j_body jb) ->
  exists w, world_run s [ja; jb] [EvInsert 0; EvInsert 0; EvInsert 1; EvInsert 1; EvInsert 0; EvInsert 0] (world_start [ja; jb] d) = Some w /\
    w_stages w !! 0%nat = Some (IDone NP_OK) /\
    content (w_disk w) (entry_path s (j_key ja)) = Some (job_image jb ++ j_headers ja).
Proof.
  intros Hs Hd Hpa Hpb Hk Hha Hba Hhb Hia Hib.
  assert (job_path s jb = job_path s ja) as Hpath by (unfold job_path, cache_path; by rewrite Hk).
  set (tmp := tmp_name (job_path s ja)). assert (length (job_image jb) = 32%nat) as Hlb by (by apply header_image_length).
  pose proof (midway_open tmp d Hd) as Hm. set (i := (open_trunc tmp d).1) in *. set (d1 := (open_trunc tmp d).2) in *.
  pose proof (midway_write _ _ _ _ (job_image ja) _ Hm) as Hm1. cbn [length app] in Hm1.
  set (d2 := write_inode i 0 (job_image ja) d1) in *.
  pose proof (midway_open tmp d2 (mw_ok _ _ _ _ _ Hm1)) as Hm2. set (d3 := (open_trunc tmp d2).2) in *.
  assert ((open_trunc tmp d2).1 = i) as Hi by (unfold open_trunc; by rewrite (mw_name _ _ _ _ _ Hm1)). rewrite Hi in Hm2.
  pose proof (midway_write _ _ _ _ (job_image jb) _ Hm2) as Hm3. cbn [length app] in Hm3.
  set (d4 := write_inode i 0 (job_image jb) d3) in *.
  pose proof (midway_write _ _ _ _ (j_headers ja) _ Hm3) as Hm4. rewrite Hlb in Hm4. set (d5 := write_inode i 32 (j_headers ja) d4) in *.
  destruct (midway_rename _ (job_path s ja) _ _ _ _ Hm4) as (d6 & Er & Hf).
  assert (insert_step s ja IRename d5 = (IDone NP_OK, d6)) as E6
    by (unfold insert_step; rewrite Hia; cbn [io_rename io_good]; fold tmp; by rewrite Er).
  exists (mk_world d6 [IDone NP_OK; IWriteHeaders i 32] [Stored 0]). split; [| split; [done |]].
  - cbn [world_run world_step world_start w_disk w_stages w_log replicate length lookup list_lookup].
    rewrite step_open_good by done. fold tmp. fold i d1. cbn [w_disk w_stages w_log insert list_insert commits lookup list_lookup].
    rewrite step_hdr_good by done. fold d2. cbn [w_disk w_stages w_log insert list_insert commits lookup list_lookup].
    rewrite (step_open_good s jb) by done. rewrite Hpath. fold tmp. fold d3. rewrite Hi. cbn [w_disk w_stages w_log insert list_insert commits lookup list_lookup].
    rewrite (step_hdr_good s jb) by done. fold d4. cbn [w_disk w_stages w_log insert list_insert commits lookup list_lookup].
    rewrite step_headers_good by done. fold d5. cbn [w_disk w_stages w_log insert list_insert commits lookup list_lookup].
    by rewrite E6.
  - cbn [w_disk]. rewrite <- files_of_lookup, Hf. unfold job_path. rewrite cache_path_eq by done. by rewrite lookup_insert_eq.
Qed.

(** The entry then answers the next request with the right length and the wrong
    bytes: the first five of the other response. *)
Example cache_race_example :
  let s := mk_store (lit "c") 10 in
  let w := world_run s [sample_job (lit "k") (lit "a long answer"); sample_job (lit "k") (lit "short")]
             [EvInsert 0; EvInsert 0; EvInsert 1; EvInsert 1; EvInsert 0; EvInsert 0]
             (world_start [sample_job (lit "k") (lit "a long answer"); sample_job (lit "k") (lit "short")] empty_disk) in
  (fun w => (cache_lookup s (lit "k") 100 lookup_good (files_of (w_disk w))).1) <$> w =
    Some (NP_OK, Some (mk_entry (mk_hdr 200 5 0 110) (lit "a lon") 5)).
Proof. vm_compute. reflexivity. Qed.
