(* ===== verification/Features.v ===== *)
(** * Access log and compression: src/features/access_log.c, src/features/compress.c

    The access log formats one line per request into an array of 1024 bytes and
    writes as many bytes as [snprintf] returned; reading past the array is
    undefined ([formatted] of Response.v).  The descriptor [g_access_fd] is the
    state; [None] for -1.  What [clock_gettime] and [strftime] produce are
    arguments.

    The two decision functions of the compression and the call of zlib, whose
    [deflate] is a parameter: the gzip stream of its input. *)

From Stdlib Require Import ZArith Lia String.
From stdpp Require Import base numbers option list gmap.
From S2P Require Import Prelude CLib StringUtil Parser Request Response Cache.

Module AccessLog.

Definition STDOUT_FILENO : Z := 1.

(** [opened] is the answer of [open]. *)
Definition access_log_init (path : bytes) (opened : option Z) : option Z :=
  match path with
  | [] => Some STDOUT_FILENO
  | _ => opened
  end.

(** The new descriptor and the one closed. *)
Definition access_log_close (fd : option Z) : option Z * option Z :=
  match fd with
  | Some d => if d =? STDOUT_FILENO then (fd, None) else (None, fd)
  | None => (None, None)
  end.

Record timespec : Type := mk_timespec { tv_sec : Z; tv_nsec : Z }.

Definition latency_us (start stop : timespec) : cres Z :=
  s ← i64 (tv_sec stop - tv_sec start);
  us ← i64 (s * 1000000);
  i64 (us + Z.quot (tv_nsec stop - tv_nsec start) 1000).

(** The text of a line; [path] is what [STR_FMT] prints of the path. *)
Definition log_line (ip ts : bytes) (m : http_method_t) (path : bytes) (v : option http_version_t)
    (status nbytes latency : Z) : bytes :=
  ip ++ lit " - - [" ++ ts ++ lit "] " ++ [DQUOTE] ++ http_method_str m ++ [32] ++ path ++ lit " HTTP/1." ++
  fmt_d (match v with Some HTTP_11 => 1 | _ => 0 end) ++ [DQUOTE; 32] ++ fmt_d status ++ [32] ++ fmt_u nbytes ++
  [32] ++ fmt_d latency ++ lit "us" ++ [LF].

(** What is written, if anything. *)
Definition access_log_write (fd : option Z) (req : http_request_t) (status nbytes : Z) (start stop : timespec) (ts : bytes)
    : cres (option (Z * bytes)) :=
  match fd with
  | None => Ret None
  | Some d =>
      latency ← latency_us start stop;
      path ← fmt_slice (req_path req);
      line ← formatted 1024 (log_line (req_remote_ip req) ts (req_method req) path (req_version req) status nbytes latency);
      Ret (Some (d, line))
  end.

Definition sane_clock (start stop : timespec) : Prop :=
  0 <= tv_sec start <= tv_sec stop /\ tv_sec stop < 2 ^ 40 /\
  0 <= tv_nsec start < 1000000000 /\ 0 <= tv_nsec stop < 1000000000.

Lemma latency_us_Ret (start stop : timespec) :
  sane_clock start stop ->
  exists l, latency_us start stop = Ret l /\ -2000000 <= l < 2 ^ 61.
Proof.
  intros (Hs & Hb & Hn & Hn'). unfold latency_us.
  assert (-2000000 < Z.quot (tv_nsec stop - tv_nsec start) 1000 < 2000000) as Hq.
  { pose proof (Z.quot_rem' (tv_nsec stop - tv_nsec start) 1000).
    pose proof (Z.rem_bound_abs (tv_nsec stop - tv_nsec start) 1000 ltac:(lia)). lia. }
  rewrite i64_Ret by (unfold LLONG_MIN, LLONG_MAX; lia). cbn [mbind cres_mbind].
  rewrite i64_Ret by (unfold LLONG_MIN, LLONG_MAX; lia). cbn [mbind cres_mbind].
  rewrite i64_Ret by (unfold LLONG_MIN, LLONG_MAX; lia). eexists. split; [reflexivity |]. lia.
Qed.

(** A line has at most 60 bytes besides the address, the time and the path. *)
Lemma access_log_write_Ret (fd : option Z) (req : http_request_t) (status : Z) (start stop : timespec) (ts pv : bytes) :
  str_repr (req_path req) pv -> sane_clock start stop -> INT_MIN <= status <= INT_MAX ->
  zlen (req_remote_ip req) + zlen ts + zlen pv <= 900 ->
  exists l, access_log_write fd req status 0 start stop ts = Ret l.
Proof.
  intros Hp Hc Hs Hl. destruct fd as [d |]; [| eauto]. destruct (latency_us_Ret start stop Hc) as (l & Hlat & Hlb).
  unfold access_log_write. rewrite Hlat, bind_Ret. unfold fmt_slice. rewrite (proj2 (load_n_Ret _ _ _) Hp), !bind_Ret.
  rewrite formatted_fits; [rewrite bind_Ret; eauto |].
  pose proof (fmt_d_length l ltac:(unfold LLONG_MIN, LLONG_MAX; lia)). pose proof (fmt_d_length_int status Hs).
  assert (length (cstr pv) <= length pv)%nat.
  { unfold cstr. clear. induction pv as [| x pv IH]; cbn; [lia |]. case_match; cbn; lia. }
  assert (zlen (http_method_str (req_method req)) <= 7) by (destruct (req_method req); vm_compute; discriminate).
  assert (zlen (fmt_d (match req_version req with Some HTTP_11 => 1 | _ => 0 end)) = 1) by (destruct (req_version req) as [[] |]; reflexivity).
  assert (zlen (fmt_u 0) = 1) by reflexivity.
  unfold log_line. rewrite !length_app. lit_len. cbn [length]. lia.
Qed.

(** A line is written exactly as it is formatted when it has at most 1023
    bytes.  When it is longer than the array, the number [snprintf] returns is
    still used as the length of the write, which then reads past the array; a
    path of 1024 bytes or more is enough, whatever the rest is. *)
Theorem access_log_write_bounds (d : Z) (req : http_request_t) (status nbytes : Z) (start stop : timespec) (ts pv : bytes) :
  str_repr (req_path req) pv -> sane_clock start stop ->
  exists latency,
    let line := log_line (req_remote_ip req) ts (req_method req) (cstr pv) (req_version req) status nbytes latency in
    latency_us start stop = Ret latency /\
    (zlen line < 1024 -> access_log_write (Some d) req status nbytes start stop ts = Ret (Some (d, line))) /\
    (1024 < zlen line -> access_log_write (Some d) req status nbytes start stop ts = Stuck) /\
    (1024 <= zlen (cstr pv) -> access_log_write (Some d) req status nbytes start stop ts = Stuck).
Proof.
  intros Hp Hc. destruct (latency_us_Ret start stop Hc) as (l & Hl & _). exists l. cbn zeta.
  set (line := log_line _ _ _ _ _ _ _ _).
  assert (forall P, (formatted 1024 line = P) ->
    access_log_write (Some d) req status nbytes start stop ts = (x ← P; Ret (Some (d, x)))) as Hw.
  { intros P <-. unfold access_log_write. rewrite Hl. cbn [mbind cres_mbind]. unfold fmt_slice.
    by rewrite (proj2 (load_n_Ret _ _ _) Hp). }
  assert (1024 < zlen line -> access_log_write (Some d) req status nbytes start stop ts = Stuck) as Hover.
  { intros H. rewrite (Hw Stuck); [done |]. unfold formatted.
    rewrite (proj2 (Z.ltb_ge _ _)), (proj2 (Z.eqb_neq _ _)) by lia. done. }
  split; [done |]. split; [| split; [exact Hover |]].
  - intros H. by rewrite (Hw (Ret line)) by (by apply formatted_fits).
  - intros H. apply Hover. unfold line, log_line. rewrite !length_app. lit_len. cbn [length]. lia.
Qed.

Lemma access_log_write_bounds_witness :
  access_log_write (Some 1) (mk_req HTTP_METHOD_GET (STR (replicate 2000 97)) STR_NULL (Some HTTP_11) [] (-1) false true false
    STR_NULL STR_NULL (lit "10.0.0.1") 0) 404 0 (mk_timespec 5 0) (mk_timespec 5 9000) (lit "now") = Stuck.
Proof.
  edestruct (access_log_write_bounds 1 (mk_req HTTP_METHOD_GET (STR (replicate 2000 97)) STR_NULL (Some HTTP_11) [] (-1) false true false
    STR_NULL STR_NULL (lit "10.0.0.1") 0) 404 0 (mk_timespec 5 0) (mk_timespec 5 9000) (lit "now") (replicate 2000 97))
    as (l & _ & _ & _ & Hs); [apply str_repr_STR | unfold sane_clock; cbn; lia |].
  apply Hs. vm_compute. congruence.
Defined.

End AccessLog.

Module Compress.

Definition contains (s p : bytes) : bool := match strstr s p with Some _ => true | None => false end.

Definition client_accepts_gzip (req : http_request_t) : cres bool :=
  ae ← request_header req (STR (lit "Accept-Encoding"));
  if is_null (ptr ae) || (len ae =? 0) then Ret false
  else
    let l := if len ae <? 511 then len ae else 511 in
    v ← load_n (ptr ae) l;
    Ret (contains (cstr v) (lit "gzip")).

Definition should_compress (content_type : option bytes) : bool :=
  match content_type with
  | None => false
  | Some t =>
      strncmp_eq t (lit "text/") 5 || contains t (lit "json") || contains t (lit "javascript") || contains t (lit "xml") ||
      contains t (lit "svg")
  end.

(** [deflate x] is the gzip stream of [x]; the sizes are converted to 32 bits.
    [Z_FINISH] ends with [Z_STREAM_END] when the stream fits in the output. *)
Definition gzip_compress (deflate : bytes -> bytes) (init_ok : bool) (inp : bytes) (out_cap : Z) : np_status_t * option bytes :=
  if negb init_ok then (NP_ERR, None)
  else
    let out := deflate (take (Z.to_nat (u32 (zlen inp))) inp) in
    if zlen out <=? u32 out_cap then (NP_OK, Some out) else (NP_ERR, None).

(** The decision is on the first field of that name, cut to 511 bytes: a
    refusal such as [gzip;q=0] counts as acceptance. *)
Lemma client_accepts_gzip_Ret (req : http_request_t) (hs : list (bytes * bytes)) :
  Forall2 header_repr (req_headers req) hs ->
  client_accepts_gzip req =
    Ret (match header_val hs (lit "Accept-Encoding") with
         | Some v => contains (cstr (take 511 v)) (lit "gzip")
         | None => false
         end).
Proof.
  intros Hh. unfold client_accepts_gzip, request_header.
  destruct (request_header_loop_Ret _ _ (STR (lit "Accept-Encoding")) (lit "Accept-Encoding") Hh (str_repr_STR _)) as (s & -> & Hs).
  cbn [mbind cres_mbind]. destruct (header_val hs (lit "Accept-Encoding")) as [v |]; [| by subst s].
  destruct Hs as [Hs _]. pose proof (str_repr_len _ _ Hs) as Hlen. destruct v as [| x v].
  { rewrite Hlen. cbn. by rewrite orb_true_r. }
  assert (is_null (ptr s) = false) as ->.
  { unfold str_repr in Hs. destruct (ptr s); [by destruct Hs as [_ [=]] | done]. }
  rewrite (proj2 (Z.eqb_neq _ _)) by (rewrite Hlen; cbn; lia). cbn [orb].
  assert ((if len s <? 511 then len s else 511) = Z.of_nat (Nat.min 511 (length (x :: v)))) as ->
    by (destruct (len s <? 511) eqn:E; bprop; lia).
  by rewrite (proj2 (load_n_Ret _ _ (take 511 (x :: v))) (readable_take_min _ _ _ _ Hs)).
Qed.

End Compress.
