(* ===== verification/Modules.v ===== *)
(** * Loadable modules: src/module/module.c

    The table of loaded modules is a list, its capacity that of the array
    [g_modules].  [dlopen] and [dlsym] are the function [dl]; a module's functions
    are foreign code: [m_init] is what the initialisation returns, handlers and
    destructors are numbers, and what a handler does to the connection and the
    request is the argument [call].  The calls made are recorded. *)

From Stdlib Require Import ZArith Lia String.
From stdpp Require Import base numbers option list.
From S2P Require Import Prelude CLib Config.

Definition NP_MODULE_DECLINED : Z := 0.
Definition NP_MODULE_HANDLED : Z := 1.
Definition NP_MODULE_ERROR : Z := -1.

Record nproxy_module_t : Type := mk_module {
  m_init : option Z;
  m_request_handler : option nat;
  m_destroy : option nat
}.

Record loaded_module_t : Type := mk_loaded {
  lm_handle : Z;
  lm_module : nproxy_module_t
}.

Inductive dl_answer : Type :=
| DlFailed
| DlNoSymbol (handle : Z)
| DlModule (handle : Z) (m : nproxy_module_t).

Inductive dl_call : Type := DlClose (handle : Z) | CallDestroy (fn : nat).

Definition g_modules_size : Z := CONFIG_MAX_MODULES.

(** One turn of the inner loop: the code returned if the loading stops here. *)
Definition load_one (dl : bytes -> dl_answer) (path : bytes) (ms : list loaded_module_t)
    : cres (option Z * list loaded_module_t * list dl_call) :=
  match dl path with
  | DlFailed => Ret (Some NP_MODULE_ERROR, ms, [])
  | DlNoSymbol h => Ret (Some NP_MODULE_ERROR, ms, [DlClose h])
  | DlModule h m =>
      match m_init m with
      | Some rc =>
          if rc =? 0 then
            if zlen ms <? g_modules_size then Ret (None, ms ++ [mk_loaded h m], []) else Stuck
          else Ret (Some NP_MODULE_ERROR, ms, [DlClose h])
      | None => if zlen ms <? g_modules_size then Ret (None, ms ++ [mk_loaded h m], []) else Stuck
      end
  end.

Fixpoint load_server (dl : bytes -> dl_answer) (paths : list bytes) (ms : list loaded_module_t)
    : cres (option Z * list loaded_module_t * list dl_call) :=
  match paths with
  | [] => Ret (None, ms, [])
  | path :: paths' =>
      r ← load_one dl path ms;
      match r with
      | (Some rc, ms', calls) => Ret (Some rc, ms', calls)
      | (None, ms', _) => load_server dl paths' ms'
      end
  end.

Section modules.
Context {RX : Regex}.

Fixpoint load_servers (dl : bytes -> dl_answer) (ss : list np_server_config_t) (ms : list loaded_module_t)
    : cres (Z * list loaded_module_t * list dl_call) :=
  match ss with
  | [] => Ret (0, ms, [])
  | s :: ss' =>
      r ← load_server dl (modules s) ms;
      match r with
      | (Some rc, ms', calls) => Ret (rc, ms', calls)
      | (None, ms', _) => load_servers dl ss' ms'
      end
  end.

(** The table starts empty. *)
Definition module_load_all (dl : bytes -> dl_answer) (cfg : np_config_t) : cres (Z * list loaded_module_t * list dl_call) :=
  load_servers dl (servers cfg) [].

End modules.

(** The handlers in order until one has handled the request; [S] is what they can
    change. *)
Fixpoint module_run_request_handlers {S : Type} (call : nat -> S -> cres (Z * S)) (ms : list loaded_module_t) (s : S) : cres (Z * S) :=
  match ms with
  | [] => Ret (NP_MODULE_DECLINED, s)
  | m :: ms' =>
      match m_request_handler (lm_module m) with
      | None => module_run_request_handlers call ms' s
      | Some h =>
          r ← call h s;
          let '(rc, s') := r in
          if rc =? NP_MODULE_HANDLED then Ret (NP_MODULE_HANDLED, s') else module_run_request_handlers call ms' s'
      end
  end.

Definition unload_calls (m : loaded_module_t) : list dl_call :=
  match m_destroy (lm_module m) with Some d => [CallDestroy d] | None => [] end ++ [DlClose (lm_handle m)].

(** The table is empty afterwards. *)
Definition module_unload_all (ms : list loaded_module_t) : list loaded_module_t * list dl_call :=
  ([], concat (map unload_calls ms)).

(** ** Lemmas *)

(** What a path gives when its module loads. *)
Definition loads (dl : bytes -> dl_answer) (path : bytes) (m : loaded_module_t) : Prop :=
  dl path = DlModule (lm_handle m) (lm_module m) /\ (m_init (lm_module m) = None \/ m_init (lm_module m) = Some 0).

Lemma load_one_loads (dl : bytes -> dl_answer) (path : bytes) (m : loaded_module_t) (ms : list loaded_module_t) :
  loads dl path m ->
  load_one dl path ms = if zlen ms <? g_modules_size then Ret (None, ms ++ [m], []) else Stuck.
Proof. intros [Hd Hi]. unfold load_one. rewrite Hd. destruct m as [h m]. cbn in *. by destruct Hi as [-> | ->]. Qed.

(** Loading a list of paths that all load. *)
Lemma load_server_all (dl : bytes -> dl_answer) (paths : list bytes) (new ms : list loaded_module_t) :
  Forall2 (loads dl) paths new -> zlen ms <= g_modules_size ->
  load_server dl paths ms =
    if zlen ms + zlen new <=? g_modules_size then Ret (None, ms ++ new, []) else Stuck.
Proof.
  intros Hall. revert ms. induction Hall as [| path m paths new Hl _ IH]; intros ms Hms.
  { cbn. rewrite app_nil_r, (proj2 (Z.leb_le _ _)) by lia. done. }
  cbn [load_server]. rewrite (load_one_loads _ _ _ _ Hl). cbn [length].
  destruct (zlen ms <? g_modules_size) eqn:E; bprop; cbn [mbind cres_mbind].
  - rewrite IH by (rewrite length_app; cbn; lia). rewrite length_app, <- app_assoc. cbn [length app].
    by replace (Z.of_nat (length ms + 1) + zlen new) with (zlen ms + Z.of_nat (S (length new))) by lia.
  - by rewrite (proj2 (Z.leb_gt _ _)) by lia.
Qed.

Lemma load_servers_all {RX : Regex} (dl : bytes -> dl_answer) (ss : list np_server_config_t) (news : list (list loaded_module_t))
    (ms : list loaded_module_t) :
  Forall2 (fun s new => Forall2 (loads dl) (modules s) new) ss news -> zlen ms <= g_modules_size ->
  load_servers dl ss ms =
    if zlen ms + zlen (concat news) <=? g_modules_size then Ret (0, ms ++ concat news, []) else Stuck.
Proof.
  intros Hall. revert ms. induction Hall as [| s new ss news Hl _ IH]; intros ms Hms.
  { cbn. rewrite app_nil_r, (proj2 (Z.leb_le _ _)) by lia. done. }
  cbn [load_servers concat]. rewrite (load_server_all _ _ _ _ Hl Hms). rewrite length_app.
  destruct (zlen ms + zlen new <=? g_modules_size) eqn:E; bprop; cbn [mbind cres_mbind].
  - rewrite IH by (rewrite length_app; lia). rewrite length_app, <- app_assoc.
    by replace (Z.of_nat (length ms + length new) + zlen (concat news)) with (zlen ms + Z.of_nat (length new + length (concat news))) by lia.
  - by rewrite (proj2 (Z.leb_gt _ _)) by lia.
Qed.

(** The handlers keep what each of them keeps: [P] of the state, given what held
    before, whether the request is handled or declined. *)
Lemma module_run_Ret {S : Type} (P : S -> Prop) (call : nat -> S -> cres (Z * S)) (ms : list loaded_module_t) (s : S) :
  (forall h s, P s -> exists rc s', call h s = Ret (rc, s') /\ P s') -> P s ->
  exists rc s', module_run_request_handlers call ms s = Ret (rc, s') /\ P s'.
Proof.
  intros Hcall. revert s. induction ms as [| m ms IH]; intros s Hs; cbn; [by eexists _, _ |].
  destruct (m_request_handler (lm_module m)) as [h |]; [| by apply IH].
  destruct (Hcall h s Hs) as (rc & s' & -> & Hs'). rewrite bind_Ret. case_match; [by eexists _, _ | by apply IH].
Qed.

(** ** Properties *)

(** When every module of the configuration loads, all are in the table in the
    order of the file, provided there are at most 16 in all servers together; with
    more the table is overrun, although the configuration allows 16 for each of 16
    servers. *)
Theorem module_load_all_bound {RX : Regex} (dl : bytes -> dl_answer) (cfg : np_config_t) (news : list (list loaded_module_t)) :
  Forall2 (fun s new => Forall2 (loads dl) (modules s) new) (servers cfg) news ->
  module_load_all dl cfg =
    if zlen (concat (map modules (servers cfg))) <=? CONFIG_MAX_MODULES then Ret (0, concat news, []) else Stuck.
Proof.
  intros Hall. unfold module_load_all. rewrite (load_servers_all dl (servers cfg) news [] Hall) by (vm_compute; congruence).
  assert (length (concat (map modules (servers cfg))) = length (concat news)) as ->; [| done].
  induction Hall as [| s new ss news' Hl _ IH]; [done |]. cbn. rewrite !length_app, IH. by rewrite (Forall2_length _ _ _ Hl).
Qed.

Definition sample_modules : @np_server_config_t literal_regex :=
  @mk_server literal_regex 80 [] [] (replicate 9 (lit "a.so")) [] [] (mk_tls false 0 [] [])
    (mk_proxy false BALANCE_ROUND_ROBIN 0 0 0 []) (mk_cache false [] 0 0) (mk_gzip false 0).

Lemma module_load_all_bound_witness :
  module_load_all (RX := literal_regex) (fun _ => DlModule 1 (mk_module None (Some 7%nat) None))
    (set_servers (RX := literal_regex) [sample_modules; sample_modules] config_default) = Stuck.
Proof.
  etransitivity; [apply (module_load_all_bound (RX := literal_regex) _ _
    (replicate 2 (replicate 9 (mk_loaded 1 (mk_module None (Some 7%nat) None))))) |].
  - repeat constructor.
  - vm_compute. reflexivity.
Defined.
