(* ===== verification/Proxy.v ===== *)
(** * Proxied connections: src/proxy/proxy_conn.c

    [proxy_handle] selects a backend, takes a connection to it and puts the
    request for it into the connection's [upstream_wbuf]; the event handler sends
    that buffer, relays what the backend answers to the client, collects it for
    the cache, and ends the exchange when the backend closes.

    [proxy_pool] and [tls_conn] of the connection are the index of the server and
    of the backend.  A handler that gives the connection back does so last: its
    [fate] says how, and Worker.v carries it out.  Time, [realloc] and the calls of
    the cache and the log are the arguments [proxy_env]. *)

From Stdlib Require Import ZArith Lia String.
From stdpp Require Import base numbers option list gmap.
From S2P Require Import Prelude CLib StringUtil Memory Buffer Parser Request Response Config Upstream EventLoop Conn Kernel FileServer Metrics Cache Features.

(** ** Data *)

(** What becomes of a connection when a handler returns: it stays, goes back to
    the pool ([conn_pool_put]), or goes back and is no longer counted
    ([worker_conn_close]). *)
Inductive fate : Type := Stay | PoolPut | WorkerClose.

Record proxy_env : Type := mk_penv {
  pe_realloc : Z -> bool;
  pe_now : Z;
  pe_pad : bytes;
  pe_insert : insert_io;
  pe_stores : list (option cache_store_t);
  pe_log_fd : option Z;
  pe_clock : AccessLog.timespec * AccessLog.timespec;
  pe_ts : bytes
}.

(** [EV_READ | EV_HUP | EV_EDGE]. *)
Definition EV_READ_ONLY : Z := Z.lor (Z.lor EV_READ EV_HUP) EV_EDGE.

Definition has_event (events ev : Z) : bool := negb (Z.land events ev =? 0).

(** ** The request to the backend *)

Definition send_error (c : conn_t) (status : Z) : cres conn_t :=
  b ← response_write_error (c_wbuf c) status false;
  Ret (set_c_state CONN_WRITING_RESPONSE (set_c_wbuf b c)).

Definition proxy_head (m : http_method_t) (path host ip : bytes) (upgrade : bool) : bytes :=
  http_method_str m ++ [32] ++ path ++ lit " HTTP/1.1" ++ CRLF ++
  lit "Host: " ++ host ++ CRLF ++
  lit "X-Real-IP: " ++ ip ++ CRLF ++
  lit "X-Forwarded-For: " ++ ip ++ CRLF ++
  lit "Connection: " ++ (if upgrade then lit "Upgrade" else lit "keep-alive") ++ CRLF.

(** The loop over the fields of the request, on the text and the count of the
    array [buf]. *)
Fixpoint proxy_fields (hs : list (http_header_t str_t)) (st : bytes * Z) : cres (bytes * Z) :=
  match hs with
  | [] => Ret st
  | h :: hs' =>
      is_host ← str_ieq (h_name h) (STR (lit "Host"));
      is_connection ← str_ieq (h_name h) (STR (lit "Connection"));
      if (is_host : bool) || (is_connection : bool) then proxy_fields hs' st
      else
        name ← fmt_slice (h_name h);
        value ← fmt_slice (h_value h);
        st' ← snprintf_at NP_MAX_HEADER_LEN st (name ++ lit ": " ++ value ++ CRLF);
        proxy_fields hs' st'
  end.

(** [n] bytes of an array of [size] that holds [text] and its terminator. *)
Definition array_prefix (size : Z) (st : bytes * Z) : cres bytes :=
  let '(text, n) := st in
  if n <? size then Ret text else if n =? size then Ret (text ++ [0]) else Stuck.

Definition build_proxy_request (c : conn_t) (req : http_request_t) : cres conn_t :=
  path ← fmt_slice (req_path req);
  h ← request_header req (STR (lit "Host"));
  host ← fmt_slice h;
  st ← snprintf_at NP_MAX_HEADER_LEN ([], 0) (proxy_head (req_method req) path host (req_remote_ip req) (req_upgrade req));
  st ← proxy_fields (req_headers req) st;
  st ← snprintf_at NP_MAX_HEADER_LEN st CRLF;
  b ← (if (0 <? st.2) && (st.2 <=? buf_writable (c_upstream_wbuf c))
       then bs ← array_prefix NP_MAX_HEADER_LEN st; buf_append (c_upstream_wbuf c) bs
       else Ret (c_upstream_wbuf c));
  b ← (if (0 <? len (req_body req)) && (len (req_body req) <=? buf_writable b)
       then bs ← load_n (ptr (req_body req)) (len (req_body req)); buf_append b bs
       else Ret b);
  Ret (set_c_upstream_wbuf b c).

(** [idx] is the server; [connect] the answer of [socket_connect_nonblock]. *)
Definition proxy_handle (c : conn_t) (req : http_request_t) (idx : nat) (pool : upstream_pool_t)
    (m : option np_metrics_t) (connect : option Z) (s : sys_t)
    : cres (conn_t * upstream_pool_t * option np_metrics_t * sys_t) :=
  let c := set_c_proxy_pool (Some idx) c in
  r ← upstream_select pool;
  match r with
  | (None, pool) =>
      b ← response_write_error (c_wbuf c) 503 (req_keep_alive req);
      Ret (set_c_state CONN_WRITING_RESPONSE (set_c_wbuf b c), pool, metrics_inc_upstream_errors m, s)
  | (Some k, pool) =>
      r ← upstream_get_connection pool k connect;
      let '(ufd, pool) := r in
      if ufd <? 0 then
        pool ← upstream_release pool (Some k) true;
        b ← response_write_error (c_wbuf c) 502 (req_keep_alive req);
        Ret (set_c_state CONN_WRITING_RESPONSE (set_c_wbuf b c), pool, metrics_inc_upstream_errors m, s)
      else
        let c := (conn_set_upstream (set_c_tls_conn (Some k) c) ufd).2 in
        c ← build_proxy_request c req;
        Ret (set_c_state (if req_upgrade req then CONN_TUNNEL else CONN_PROXYING) c, pool, m,
             sys_call_log [SysEpollAdd ufd EV_WRITE_READ] s)
  end.

(** ** The event handler *)

(** Where the scan of [atoi] stops: after white space, a sign and digits. *)
Definition scan_number (s : bytes) : bytes :=
  let t := drop_while isspace s in
  drop_while isdigit (match t with c :: t' => if (c =? 45) || (c =? 43) then t' else t | [] => [] end).

(** [atoi] of the bytes from an offset of an array: scanning on past its end is
    undefined. *)
Definition atoi_in (d : bytes) (off : Z) : cres Z :=
  let s := drop (Z.to_nat off) d in
  match scan_number s with [] => Stuck | _ => Ret (atoi s) end.

(** The status of the response, once its first bytes are there. *)
Definition note_status (c : conn_t) : cres conn_t :=
  if negb (c_proxy_status c =? 0) then Ret c
  else
    let b := c_upstream_rbuf c in
    p ← buf_peek b (buf_readable b);
    if (12 <=? zlen p) && is_prefix (lit "HTTP") p then
      match index_of (Z.eqb 32) p with
      | Some i =>
          if Z.of_nat i + 4 <=? zlen p then
            v ← atoi_in (default [] (b_data b)) (read_pos b + Z.of_nat i + 1);
            Ret (set_c_proxy_status v c)
          else Ret c
      | None => Ret c
      end
    else Ret c.

(** Append what is in [upstream_rbuf] to the copy for the cache; [cc_buf] holds
    the first [cc_len] bytes of the copy. *)
Definition collect (realloc : Z -> bool) (c : conn_t) : cres conn_t :=
  let cc := c_cache c in
  let readable := buf_readable (c_upstream_rbuf c) in
  match cc_store cc with
  | None => Ret c
  | Some _ =>
      if 0 <? readable then
        let needed := u64 (cc_len cc + readable) in
        let new_cap := if u64 (needed * 2) <? 8192 then 8192 else u64 (needed * 2) in
        let '(buf, cap) :=
          if (cc_cap cc <? needed) && realloc new_cap then (Some (default [] (cc_buf cc)), new_cap)
          else (cc_buf cc, cc_cap cc) in
        match buf with
        | Some t =>
            if u64 (cc_len cc + readable) <=? cap then
              bs ← buf_peek (c_upstream_rbuf c) readable;
              Ret (set_c_cache (mk_ccache (cc_store cc) (cc_key cc) (Some (t ++ bs)) (cc_len cc + readable) cap) c)
            else Ret (set_c_cache (mk_ccache (cc_store cc) (cc_key cc) buf (cc_len cc) cap) c)
        | None => Ret (set_c_cache (mk_ccache (cc_store cc) (cc_key cc) buf (cc_len cc) cap) c)
        end
      else Ret c
  end.

(** The loop that reads from the backend and writes to the client. *)
Fixpoint relay_loop (fuel : nat) (realloc : Z -> bool) (fd : Z) (c : conn_t) (s : sys_t) : cres (Z * conn_t * sys_t) :=
  match fuel with
  | O => Stuck
  | S f =>
      r ← k_read fd (c_upstream_rbuf c) s;
      let '(n, b, s) := r in
      let c := set_c_upstream_rbuf b c in
      if 0 <? n then
        c ← note_status c;
        c ← collect realloc c;
        r ← write_loop (c_fd c) (c_upstream_rbuf c) s;
        let '(_, b, s) := r in
        relay_loop f realloc fd (set_c_upstream_rbuf b c) s
      else Ret (n, c, s)
  end.

Definition relay (realloc : Z -> bool) (fd : Z) (c : conn_t) (s : sys_t) : cres (Z * conn_t * sys_t) :=
  relay_loop (S (length (s_io s))) realloc fd c s.

(** What the shared state of the worker is to this handler. *)
Record proxy_shared : Type := mk_pshared {
  ps_pool : option upstream_pool_t;
  ps_fs : gmap bytes bytes;
  ps_log : list bytes
}.

(** The cache gets the collected response, with status 200 and ten seconds. *)
Definition store_response (env : proxy_env) (c : conn_t) (f : gmap bytes bytes) : cres (conn_t * gmap bytes bytes) :=
  let cc := c_cache c in
  match cc_store cc, cc_buf cc with
  | Some i, Some buf =>
      if 0 <? cc_len cc then
        match pe_stores env !! i with
        | Some (Some store) =>
            let '(_, states) := cache_insert store (cc_key cc) 200 (take (Z.to_nat (cc_len cc)) buf) [] 10 (pe_now env) (pe_pad env) (pe_insert env) f in
            Ret (set_c_cache (mk_ccache (cc_store cc) (cc_key cc) None 0 0) c, List.last states f)
        | _ => Stuck
        end
      else Ret (c, f)
  | _, _ => Ret (c, f)
  end.

(** The end of the exchange: [n] is what the last read returned. *)
Definition backend_done (env : proxy_env) (fd n : Z) (c : conn_t) (sh : proxy_shared) (s : sys_t)
    : cres (conn_t * fate * proxy_shared * sys_t) :=
  let s := sys_call_log [SysEpollDel fd] s in
  let c := set_c_upstream_fd (-1) c in
  if (n =? np_status_code NP_ERR_CLOSED) && negb (bool_decide (c_state c = CONN_TUNNEL)) then
    r ← store_response env c (ps_fs sh);
    let '(c, f) := r in
    match c_tls_conn c with
    | Some k =>
        line ← match c_request c with
               | Some req => AccessLog.access_log_write (pe_log_fd env) req (c_proxy_status c) 0 (pe_clock env).1 (pe_clock env).2 (pe_ts env)
               | None => Ret None
               end;
        let log := ps_log sh ++ match line with Some (_, l) => [l] | None => [] end in
        match ps_pool sh with
        | Some pool =>
            r ← upstream_put_connection pool (Some k) fd;
            let '(pool, closed) := r in
            Ret (c, WorkerClose, mk_pshared (Some pool) f log, sys_call_log (map SysClose closed) s)
        | None => Stuck
        end
    | None => Ret (c, WorkerClose, mk_pshared (ps_pool sh) f (ps_log sh), sys_call_log [SysClose fd] s)
    end
  else Ret (c, WorkerClose, sh, sys_call_log [SysClose fd] s).

Definition proxy_on_upstream_event (env : proxy_env) (fd events : Z) (c : conn_t) (sh : proxy_shared) (s : sys_t)
    : cres (conn_t * fate * proxy_shared * sys_t) :=
  r ← (if has_event events EV_WRITE then
         r ← k_write fd (c_upstream_wbuf c) s;
         let '(n, b, s) := r in
         let c := set_c_upstream_wbuf b c in
         if (n <? 0) && negb (n =? np_status_code NP_ERR_AGAIN) then
           c ← send_error c 502;
           r ← k_write (c_fd c) (c_wbuf c) s;
           let '(_, b, s) := r in
           Ret (set_c_wbuf b c, Some WorkerClose, s)
         else if buf_readable (c_upstream_wbuf c) =? 0
         then Ret (c, None, sys_call_log [SysEpollMod fd EV_READ_ONLY] s)
         else Ret (c, None, s)
       else Ret (c, None, s));
  let '(c, ended, s) := r in
  match ended with
  | Some ft => Ret (c, ft, sh, s)
  | None =>
      if has_event events EV_READ then
        r ← relay (pe_realloc env) fd c s;
        let '(n, c, s) := r in
        let s := if 0 <? buf_readable (c_upstream_rbuf c) then sys_call_log [SysEpollMod (c_fd c) EV_WRITE_READ] s else s in
        if (n =? np_status_code NP_ERR_CLOSED) || (n =? np_status_code NP_ERR)
        then backend_done env fd n c sh s
        else Ret (c, Stay, sh, s)
      else Ret (c, Stay, sh, s)
  end.

(** ** Reference definitions *)

Definition forwarded (f : bytes * bytes) : bool := negb (name_is f.1 (lit "Host")) && negb (name_is f.1 (lit "Connection")).

Definition field_text (f : bytes * bytes) : bytes := cstr f.1 ++ lit ": " ++ cstr f.2 ++ CRLF.

Definition fields_text (fs : list (bytes * bytes)) : bytes :=
  concat (map field_text (filter (fun f => forwarded f = true) fs)).

(** The lines that every forwarded request begins with. *)
Definition proxy_lines (m : http_method_t) (path host ip : bytes) (upgrade : bool) : list bytes :=
  [http_method_str m ++ lit " " ++ path ++ lit " HTTP/1.1"; lit "Host: " ++ host; lit "X-Real-IP: " ++ ip; lit "X-Forwarded-For: " ++ ip;
   if upgrade then lit "Connection: Upgrade" else lit "Connection: keep-alive"].

(** The head of the forwarded request, up to its last field. *)
Definition proxy_text (req : http_request_t) (path : bytes) (fs : list (bytes * bytes)) : bytes :=
  concat (map (fun l => l ++ CRLF)
    (proxy_lines (req_method req) (cstr path) (cstr (default [] (header_val fs (lit "Host")))) (req_remote_ip req) (req_upgrade req)))
  ++ fields_text fs.

Lemma proxy_text_head (req : http_request_t) (path : bytes) (fs : list (bytes * bytes)) :
  proxy_text req path fs =
    proxy_head (req_method req) (cstr path) (cstr (default [] (header_val fs (lit "Host")))) (req_remote_ip req) (req_upgrade req) ++ fields_text fs.
Proof.
  unfold proxy_text, proxy_lines, proxy_head. cbn [map concat]. f_equal. rewrite app_nil_r, <- !app_assoc.
  by destruct (req_upgrade req).
Qed.

(** ** Lemmas on the forwarded head *)

Lemma fmt_slice_Ret (s : str_t) (v : bytes) : str_repr s v -> fmt_slice s = Ret (cstr v).
Proof. intros H%load_n_Ret. unfold fmt_slice. by rewrite H. Qed.

Lemma snprintf_at_fits (size : Z) (p s : bytes) :
  zlen p + zlen s < size -> snprintf_at size (p, zlen p) s = Ret (p ++ s, zlen (p ++ s)).
Proof.
  intros H. unfold snprintf_at. rewrite (proj2 (Z.leb_le _ _)) by lia. rewrite take_ge by lia. by rewrite length_app, Nat2Z.inj_add.
Qed.

Lemma proxy_fields_step (h : http_header_t str_t) (hs : list (http_header_t str_t)) (f : bytes * bytes) (st : bytes * Z) :
  header_repr h f ->
  proxy_fields (h :: hs) st =
    if forwarded f then st' ← snprintf_at NP_MAX_HEADER_LEN st (field_text f); proxy_fields hs st' else proxy_fields hs st.
Proof.
  intros [Hn Hv]. cbn [proxy_fields]. rewrite !(str_ieq_Ret _ _ _ _ Hn (str_repr_STR _)), !bind_Ret.
  fold (name_is f.1 (lit "Host")). fold (name_is f.1 (lit "Connection")). unfold forwarded.
  destruct (name_is f.1 (lit "Host")); [done |]. destruct (name_is f.1 (lit "Connection")); [done |]. cbn [orb negb andb].
  by rewrite (fmt_slice_Ret _ _ Hn), (fmt_slice_Ret _ _ Hv), !bind_Ret.
Qed.

Lemma fields_text_cons (f : bytes * bytes) (fs : list (bytes * bytes)) :
  fields_text (f :: fs) = (if forwarded f then field_text f else []) ++ fields_text fs.
Proof. unfold fields_text. rewrite filter_cons. destruct (forwarded f) eqn:E; case_decide; try congruence; done. Qed.

Lemma proxy_fields_fits (hs : list (http_header_t str_t)) (fs : list (bytes * bytes)) (p : bytes) :
  Forall2 header_repr hs fs -> zlen p + zlen (fields_text fs) < NP_MAX_HEADER_LEN ->
  proxy_fields hs (p, zlen p) = Ret (p ++ fields_text fs, zlen (p ++ fields_text fs)).
Proof.
  intros Hf. revert p. induction Hf as [| h f hs fs Hh _ IH]; intros p Hl; [cbn; by rewrite app_nil_r |].
  rewrite (proxy_fields_step _ _ _ _ Hh). rewrite fields_text_cons in *. rewrite length_app in Hl.
  destruct (forwarded f); [| by apply IH]. rewrite snprintf_at_fits, bind_Ret by lia.
  rewrite IH by (rewrite length_app; lia). by rewrite <- !app_assoc.
Qed.

(** The count goes on past the array or the next store is outside it. *)
Lemma proxy_fields_count (hs : list (http_header_t str_t)) (fs : list (bytes * bytes)) (st : bytes * Z) :
  Forall2 header_repr hs fs ->
  proxy_fields hs st = Stuck \/ exists st', proxy_fields hs st = Ret st' /\ st'.2 = st.2 + zlen (fields_text fs).
Proof.
  intros Hf. revert st. induction Hf as [| h f hs fs Hh _ IH]; intros [p n]; [right; eexists; split; [done | cbn; lia] |].
  rewrite (proxy_fields_step _ _ _ _ Hh), fields_text_cons, length_app. destruct (forwarded f); [| apply IH].
  unfold snprintf_at. destruct (n <=? NP_MAX_HEADER_LEN); [| by left]. rewrite bind_Ret.
  destruct (IH (p ++ take (Z.to_nat (NP_MAX_HEADER_LEN - n - 1)) (field_text f), n + zlen (field_text f))) as [-> | (st' & -> & Hn)];
    [by left | right]. exists st'. split; [done |]. cbn in *. lia.
Qed.

(** The host written is that of the first field, or nothing. *)
Lemma proxy_host (req : http_request_t) (fs : list (bytes * bytes)) :
  Forall2 header_repr (req_headers req) fs ->
  exists h, request_header req (STR (lit "Host")) = Ret h /\ fmt_slice h = Ret (cstr (default [] (header_val fs (lit "Host")))).
Proof.
  intros Hf. destruct (request_header_loop_Ret _ _ (STR (lit "Host")) (lit "Host") Hf (str_repr_STR _)) as (h & Hh & Hv).
  exists h. split; [exact Hh |]. destruct (header_val fs (lit "Host")) as [v |]; [by apply fmt_slice_Ret, Hv | by subst h].
Qed.

(** The body goes after the head if it fits. *)
Lemma append_body (body : str_t) (bv : bytes) (b : np_buf_t) :
  str_repr body bv -> buf_ok b ->
  exists b', (if (0 <? len body) && (len body <=? buf_writable b)
              then bs ← load_n (ptr body) (len body); buf_append b bs else Ret b) = Ret b' /\ buf_ok b' /\ b_cap b' = b_cap b /\
    contents b' = contents b ++ (if zlen bv <=? buf_writable b then bv else []).
Proof.
  intros Hb Hok. pose proof (str_repr_len _ _ Hb) as Hl. destruct (0 <? len body) eqn:E0; cbn [andb]; bprop.
  - rewrite Hl. destruct (zlen bv <=? buf_writable b) eqn:E; bprop.
    + rewrite <- Hl, (proj2 (load_n_Ret _ _ _) Hb), bind_Ret. destruct (buf_append_Ret b bv Hok E) as (b' & ? & ? & ? & ? & _). eauto 6.
    + exists b. by rewrite app_nil_r.
  - assert (bv = []) as -> by (destruct bv; [done | cbn in *; lia]). exists b. case_match; by rewrite app_nil_r.
Qed.

(** With or without room in the buffer, a head that fits the array is defined. *)
Lemma build_proxy_request_Ret (c : conn_t) (req : http_request_t) (pv bv : bytes) (fs : list (bytes * bytes)) :
  str_repr (req_path req) pv -> Forall2 header_repr (req_headers req) fs -> str_repr (req_body req) bv ->
  buf_ok (c_upstream_wbuf c) -> zlen (proxy_text req pv fs) + 2 < NP_MAX_HEADER_LEN ->
  exists b, build_proxy_request c req = Ret (set_c_upstream_wbuf b c) /\ buf_ok b.
Proof.
  intros Hp Hf Hb Hok Hl. destruct (proxy_host req fs Hf) as (h & Hh & Hhost).
  unfold build_proxy_request. rewrite (fmt_slice_Ret _ _ Hp), bind_Ret, Hh, bind_Ret, Hhost, bind_Ret.
  rewrite proxy_text_head in Hl. set (head := proxy_head _ _ _ _ _) in *. rewrite length_app in Hl.
  change (@nil Z, 0) with (@nil Z, zlen (@nil Z)). rewrite snprintf_at_fits, bind_Ret by (cbn [length]; lia). cbn [app].
  rewrite (proxy_fields_fits _ _ head Hf), bind_Ret by lia.
  rewrite snprintf_at_fits, bind_Ret by (rewrite length_app; cbn; lia). cbn [snd]. set (t := (head ++ fields_text fs) ++ CRLF).
  assert (exists b1, (if (0 <? zlen t) && (zlen t <=? buf_writable (c_upstream_wbuf c))
    then bs ← array_prefix NP_MAX_HEADER_LEN (t, zlen t); buf_append (c_upstream_wbuf c) bs else Ret (c_upstream_wbuf c)) = Ret b1 /\ buf_ok b1)
    as (b1 & -> & Hok1).
  { destruct (_ && _) eqn:E; bprop; [| eauto]. cbn [array_prefix].
    rewrite (proj2 (Z.ltb_lt (zlen t) NP_MAX_HEADER_LEN)) by (unfold t; rewrite !length_app; cbn; lia). rewrite bind_Ret.
    destruct (buf_append_Ret (c_upstream_wbuf c) t Hok) as (b1 & ? & ? & _); [done | eauto]. }
  rewrite bind_Ret. destruct (append_body (req_body req) bv b1 Hb Hok1) as (b2 & -> & Hok2 & _). eauto.
Qed.

(** ** Properties of the forwarded request *)

(** C37 What the backend is sent.  When the head has room in the local array and in
    the buffer, it is the method, the path without the query, the client's [Host],
    the two address fields, the fields of the request other than [Host] and
    [Connection] in their order, a blank line, and the body if it fits.  When the
    fields go past the array of 8192 bytes, which a client can make happen with
    the 64 kB it may send, the next [snprintf] stores outside the array. *)
Theorem build_proxy_request_correct (c : conn_t) (req : http_request_t) (pv bv : bytes) (fs : list (bytes * bytes)) :
  str_repr (req_path req) pv -> Forall2 header_repr (req_headers req) fs -> str_repr (req_body req) bv ->
  buf_ok (c_upstream_wbuf c) ->
  let text := proxy_text req pv fs in
  (zlen text + 2 < NP_MAX_HEADER_LEN -> zlen text + 2 <= buf_writable (c_upstream_wbuf c) ->
   exists c', build_proxy_request c req = Ret c' /\ buf_ok (c_upstream_wbuf c') /\
     contents (c_upstream_wbuf c') = contents (c_upstream_wbuf c) ++ text ++ CRLF ++
       (if zlen text + 2 + zlen bv <=? buf_writable (c_upstream_wbuf c) then bv else [])) /\
  (NP_MAX_HEADER_LEN < zlen text -> build_proxy_request c req = Stuck).
Proof.
  intros Hp Hf Hb Hok text. destruct (proxy_host req fs Hf) as (h & Hh & Hhost).
  unfold build_proxy_request. rewrite (fmt_slice_Ret _ _ Hp), bind_Ret, Hh, bind_Ret, Hhost, bind_Ret.
  set (head := proxy_head _ _ _ _ _). assert (text = head ++ fields_text fs) as Ht by apply proxy_text_head.
  assert (0 < zlen head) as Hpos by (unfold head, proxy_head; rewrite !length_app; lit_len; lia).
  assert (snprintf_at NP_MAX_HEADER_LEN ([], 0) head = Ret (take (Z.to_nat (NP_MAX_HEADER_LEN - 1)) head, zlen head)) as ->
    by (unfold snprintf_at; cbn [app]; rewrite Z.sub_0_r; done).
  rewrite bind_Ret. rewrite Ht, length_app. clearbody head. split.
  - intros Hl Hroom. rewrite take_ge by lia. rewrite (proxy_fields_fits _ _ head Hf), bind_Ret by lia.
    rewrite snprintf_at_fits, bind_Ret by (rewrite length_app; cbn; lia). cbn [snd].
    set (t := (head ++ fields_text fs) ++ CRLF).
    assert (zlen t = Z.of_nat (length head + length (fields_text fs)) + 2) as Hlt by (unfold t; rewrite !length_app; cbn; lia).
    rewrite (proj2 (Z.ltb_lt 0 (zlen t))), (proj2 (Z.leb_le (zlen t) (buf_writable (c_upstream_wbuf c)))) by lia. cbn [andb array_prefix].
    rewrite (proj2 (Z.ltb_lt (zlen t) NP_MAX_HEADER_LEN)) by lia. rewrite bind_Ret.
    destruct (buf_append_Ret (c_upstream_wbuf c) t Hok) as (b1 & -> & Hok1 & Hc1 & _ & Hw1); [lia |]. rewrite bind_Ret.
    destruct (append_body (req_body req) bv b1 Hb Hok1) as (b2 & -> & Hok2 & _ & Hc2). rewrite bind_Ret.
    eexists. split; [done |]. split; [exact Hok2 |]. cbn [c_upstream_wbuf set_c_upstream_wbuf]. rewrite Hc2, Hc1, Hw1, Hlt. unfold t.
    rewrite <- !app_assoc. do 4 f_equal. replace (zlen bv <=? _) with (Z.of_nat (length head + length (fields_text fs)) + 2 + zlen bv <=? buf_writable (c_upstream_wbuf c)); [done |].
    apply eq_true_iff_eq. rewrite !Z.leb_le. lia.
  - intros Hl. destruct (proxy_fields_count (req_headers req) fs (take (Z.to_nat (NP_MAX_HEADER_LEN - 1)) head, zlen head) Hf) as [-> | ([p n] & -> & Hn)]; [done |].
    rewrite bind_Ret. cbn [snd] in Hn. unfold snprintf_at. rewrite (proj2 (Z.leb_gt _ _)) by lia. done.
Qed.

Lemma build_proxy_request_correct_witness :
  exists c', build_proxy_request sample_conn (sample_req (lit "/a")) = Ret c' /\
    contents (c_upstream_wbuf c') = proxy_text (sample_req (lit "/a")) (lit "/a") [] ++ CRLF.
Proof.
  destruct (proj1 (build_proxy_request_correct sample_conn (sample_req (lit "/a")) (lit "/a") [] []
    (str_repr_STR _) (Forall2_nil_2 _ _ _) (conj eq_refl eq_refl) sample_buf_ok)) as (c' & Hr & _ & Hc); [vm_compute; reflexivity | vm_compute; congruence |].
  exists c'. split; [exact Hr |]. rewrite Hc. change (contents (c_upstream_wbuf sample_conn)) with ([] : bytes). cbn [app].
  case_match; by rewrite ?app_nil_r.
Defined.

(** What a handler leaves when it has answered the client or handed the request
    to a backend. *)
Definition proxied (c : conn_t) (s : sys_t) (c' : conn_t) (s' : sys_t) : Prop :=
  conn_ok c' /\ c_fd c' = c_fd c /\ c_rbuf c' = c_rbuf c /\ c_keep_alive c' = c_keep_alive c /\
  match c_state c' with
  | CONN_WRITING_RESPONSE => s' = s /\ c_upstream_fd c' = c_upstream_fd c
  | CONN_PROXYING | CONN_TUNNEL => 0 <= c_upstream_fd c' /\ s' = sys_call_log [SysEpollAdd (c_upstream_fd c') EV_WRITE_READ] s
  | _ => False
  end.

(** Every branch of [proxy_handle]. *)
Lemma proxy_handle_Ret (c : conn_t) (req : http_request_t) (idx : nat) (pool : upstream_pool_t) (m : option np_metrics_t)
    (connect : option Z) (s : sys_t) (pv bv : bytes) (fs : list (bytes * bytes)) (cnt : Z) :
  conn_ok c -> str_repr (req_path req) pv -> Forall2 header_repr (req_headers req) fs -> str_repr (req_body req) bv ->
  zlen (proxy_text req pv fs) + 2 < NP_MAX_HEADER_LEN -> pool_inv pool -> counts_le cnt pool -> cnt < INT_MAX - 2 ->
  exists c' pool' m' s', proxy_handle c req idx pool m connect s = Ret (c', pool', m', s') /\ proxied c s c' s' /\
    pool_inv pool' /\ counts_le (cnt + 3) pool' /\ (m' = m \/ m' = metrics_inc_upstream_errors m).
Proof.
  intros Hok Hp Hf Hb Hl Hinv Hcnt Hmax. pose proof Hok as [H1 H2 H3 H4 H5]. unfold proxy_handle.
  destruct (select_step_ok pool cnt Hinv Hcnt ltac:(lia)) as (r & p1 & Hsel & Hinv1 & Hcnt1 & _). rewrite Hsel, bind_Ret.
  assert (forall status (p : upstream_pool_t), INT_MIN <= status <= INT_MAX -> pool_inv p -> counts_le (cnt + 3) p ->
    exists c' pool' m' s', (b ← response_write_error (c_wbuf (set_c_proxy_pool (Some idx) c)) status (req_keep_alive req);
      Ret (set_c_state CONN_WRITING_RESPONSE (set_c_wbuf b (set_c_proxy_pool (Some idx) c)), p, metrics_inc_upstream_errors m, s))
      = Ret (c', pool', m', s') /\ proxied c s c' s' /\ pool_inv pool' /\ counts_le (cnt + 3) pool' /\
      (m' = m \/ m' = metrics_inc_upstream_errors m)) as Herr.
  { intros status p Hs Hip Hcp. destruct (response_write_error_Ret (OK := np_buf_write_buffer_ok) (c_wbuf c) status (req_keep_alive req) H2 Hs) as (b & Hw & Hokb & _).
    cbn [c_wbuf set_c_proxy_pool]. rewrite Hw, bind_Ret. eexists _, _, _, _. split; [done |]. split_and!; auto. split_and!; [by constructor | done..]. }
  destruct r as [k |]; [| apply Herr; [done.. | by eapply counts_le_mono; [exact Hcnt1 | lia]]].
  destruct (select_get_Ret p1 k (cnt + 1) connect Hinv1 Hcnt1 ltac:(lia) (upstream_select_valid _ _ _ Hsel))
    as (ufd & p2 & -> & Hinv2 & Hcnt2 & p3 & Hrel & Hinv3 & Hcnt3). rewrite bind_Ret.
  destruct (ufd <? 0) eqn:Hneg; bprop.
  - rewrite Hrel, bind_Ret. apply Herr; [done.. | by eapply counts_le_mono; [exact Hcnt3 | lia]].
  - cbn [conn_set_upstream snd]. set (c1 := set_c_upstream_fd ufd (set_c_tls_conn (Some k) (set_c_proxy_pool (Some idx) c))).
    destruct (build_proxy_request_Ret c1 req pv bv fs Hp Hf Hb H4 Hl) as (b & -> & Hokb). rewrite bind_Ret.
    eexists _, _, _, _. split; [done |]. split_and!; [| done | by eapply counts_le_mono; [exact Hcnt2 | lia] | by left].
    split_and!; [by constructor | done.. |]. by destruct (req_upgrade req).
Qed.

(** ** Lemmas on the relay *)

(** The first bytes of a response: a status line with three digits. *)
Definition starts_response (p : bytes) : Prop :=
  exists v d ds x rest, p = lit "HTTP/1." ++ v :: 32 :: (d :: ds) ++ x :: rest /\ v <> 32 /\
    Forall (fun k => isdigit k = true) (d :: ds) /\ length ds = 2%nat /\ isdigit x = false /\ digits_value (d :: ds) <> 0.

Lemma digits_value_bound3 (d : Z) (ds : bytes) :
  Forall (fun k => isdigit k = true) (d :: ds) -> length ds = 2%nat -> 0 <= digits_value (d :: ds) <= 999.
Proof.
  destruct ds as [| a [| b [|]]]; try discriminate. intros Hall _.
  repeat (apply Forall_cons in Hall as [?Hd Hall]). unfold isdigit in *. bprop. unfold digits_value. cbn. lia.
Qed.

Lemma buf_data_contents (b : np_buf_t) :
  buf_ok b -> exists d rest, b_data b = Some d /\ drop (Z.to_nat (read_pos b)) d = contents b ++ rest.
Proof.
  intros [(d & Hd & Hl) Hp Hc]. exists d, (drop (Z.to_nat (write_pos b)) d). split; [done |]. unfold contents. rewrite Hd.
  unfold zsub. rewrite <- (take_drop (Z.to_nat (write_pos b - read_pos b)) (drop (Z.to_nat (read_pos b)) d)) at 1. f_equal.
  rewrite drop_drop. f_equal. lia.
Qed.

Lemma drop_while_none (P : Z -> bool) (l : bytes) : drop_while P l = [] -> Forall (fun c => P c = true) l.
Proof. induction l as [| x l IH]; cbn; [done |]. destruct (P x) eqn:E; [| discriminate]. intros H. constructor; auto. Qed.

(** The bytes the scan goes over. *)
Definition numeric (c : Z) : bool := isspace c || isdigit c || (c =? 45) || (c =? 43).

Lemma scan_number_none (s : bytes) : scan_number s = [] -> Forall (fun c => numeric c = true) s.
Proof.
  unfold scan_number. intros H. rewrite <- (take_while_app_drop_while isspace s). apply Forall_app. split.
  - eapply Forall_impl; [apply take_while_Forall |]. intros x Hx. unfold numeric. cbn in Hx. by rewrite Hx.
  - destruct (drop_while isspace s) as [| c t]; [done |]. assert (forall u, drop_while isdigit u = [] -> Forall (fun c => numeric c = true) u) as Hd.
    { intros u Hu. eapply Forall_impl; [by apply drop_while_none |]. intros x Hx. unfold numeric. cbn in Hx. rewrite Hx. by rewrite orb_true_r. }
    destruct ((c =? 45) || (c =? 43)) eqn:E; [| by apply Hd]. constructor; [| by apply Hd]. unfold numeric. rewrite <- orb_assoc, E. apply orb_true_r.
Qed.

Lemma scan_digits (d x : Z) (ds rest : bytes) :
  Forall (fun k => isdigit k = true) (d :: ds) -> isdigit x = false -> scan_number (d :: ds ++ x :: rest) = x :: rest.
Proof.
  intros Hds Hx. pose proof (Forall_inv Hds) as Hd. cbn in Hd. assert (isspace d = false /\ (d =? 45) = false /\ (d =? 43) = false) as (E1 & E2 & E3).
  { unfold isdigit, isspace in *. bprop. split_and!; lia. }
  unfold scan_number. cbn [drop_while]. rewrite E1, E2, E3. cbn [orb]. apply (take_while_stop isdigit (d :: ds) (x :: rest)); [done |].
  intros y [= <-]. done.
Qed.

(** The scan of the status reaches the end of the array: all its bytes after the
    first space of the content are numeric. *)
Definition overruns (b : np_buf_t) : Prop :=
  exists i, index_of (Z.eqb 32) (contents b) = Some i /\ (i + 4 <= length (contents b))%nat /\
    scan_number (drop (Z.to_nat (read_pos b) + i + 1) (default [] (b_data b))) = [].

Lemma overruns_last (b : np_buf_t) : buf_ok b -> overruns b -> exists x, array_last b = Some x /\ numeric x = true.
Proof.
  intros Hok (i & _ & Hi & Hs). pose proof (contents_length b Hok) as Hl. destruct Hok as [(d & Hd & Hdl) Hp Hc]. rewrite Hd in Hs. cbn [default from_option id] in Hs.
  unfold array_last. rewrite Hd. cbn. set (n := (Z.to_nat (read_pos b) + i + 1)%nat) in *.
  assert (n < length d)%nat as Hn by lia. apply scan_number_none in Hs.
  destruct (last (drop n d)) as [x |] eqn:E.
  - exists x. split.
    + rewrite <- (take_drop n d), last_app, E. done.
    + apply last_Some_elem_of in E. rewrite Forall_forall in Hs. by apply Hs.
  - apply last_None in E. apply (f_equal length) in E. rewrite length_drop in E. cbn in E. lia.
Qed.

Lemma note_status_cases (c : conn_t) :
  buf_ok (c_upstream_rbuf c) ->
  (exists v, note_status c = Ret (set_c_proxy_status v c) /\ (c_proxy_status c <> 0 -> v = c_proxy_status c)) \/
  (note_status c = Stuck /\ c_proxy_status c = 0 /\ overruns (c_upstream_rbuf c)).
Proof.
  intros Hok. assert (set_c_proxy_status (c_proxy_status c) c = c) as Hid by (by destruct c). unfold note_status.
  destruct (Z.eqb_spec (c_proxy_status c) 0) as [E | E]; cbn [negb]; [| left; exists (c_proxy_status c); by rewrite Hid].
  rewrite buf_peek_Ret, bind_Ret by done. assert (forall c', c' = c -> exists v, Ret c' = Ret (set_c_proxy_status v c) /\ (c_proxy_status c <> 0 -> v = c_proxy_status c)) as Hsame
    by (intros ? ->; exists (c_proxy_status c); by rewrite Hid).
  destruct (_ && _); [| left; by apply Hsame]. destruct (index_of _ _) as [i |] eqn:Ei; [| left; by apply Hsame].
  destruct (Z.leb_spec (Z.of_nat i + 4) (zlen (contents (c_upstream_rbuf c)))) as [Hle | Hle]; [| left; by apply Hsame].
  unfold atoi_in. replace (Z.to_nat (read_pos (c_upstream_rbuf c) + Z.of_nat i + 1)) with (Z.to_nat (read_pos (c_upstream_rbuf c)) + i + 1)%nat by (destruct Hok; lia).
  destruct (scan_number _) eqn:Es.
  - right. split; [done |]. split; [done |]. exists i. split; [done |]. split; [lia | done].
  - left. rewrite bind_Ret. eexists. split; [done |]. by intros ?.
Qed.

Lemma note_status_first (c : conn_t) :
  buf_ok (c_upstream_rbuf c) -> c_proxy_status c = 0 -> starts_response (contents (c_upstream_rbuf c)) ->
  exists v, note_status c = Ret (set_c_proxy_status v c) /\ v <> 0.
Proof.
  intros Hok Hs (v & d & ds & x & rest & Hp & Hv & Hds & Hl & Hx & Hnz). unfold note_status. rewrite Hs. cbn [Z.eqb negb].
  rewrite buf_peek_Ret, bind_Ret by done. rewrite Hp.
  set (pre := lit "HTTP/1." ++ [v]). assert (lit "HTTP/1." ++ v :: 32 :: (d :: ds) ++ x :: rest = pre ++ 32 :: (d :: ds) ++ x :: rest) as Heq
    by (unfold pre; by rewrite <- app_assoc).
  assert (is_prefix (lit "HTTP") (lit "HTTP/1." ++ v :: 32 :: (d :: ds) ++ x :: rest) = true) as -> by (apply is_prefix_spec; eexists; done).
  rewrite Heq. assert (index_of (Z.eqb 32) (pre ++ 32 :: (d :: ds) ++ x :: rest) = Some (length pre)) as ->.
  { apply index_of_app_free; [| done]. unfold pre. apply Forall_app. split; [refine (bool_decide_unpack _ _); vm_compute; exact I |].
    constructor; [| done]. apply Z.eqb_neq. congruence. }
  assert (zlen (pre ++ 32 :: (d :: ds) ++ x :: rest) = 13 + zlen rest) as -> by (rewrite length_app; cbn; rewrite length_app, Hl; cbn; lia).
  rewrite (proj2 (Z.leb_le 12 _)) by lia. cbn [andb]. change (length pre) with 8%nat. rewrite (proj2 (Z.leb_le _ (13 + zlen rest))) by lia.
  destruct (buf_data_contents (c_upstream_rbuf c) Hok) as (dat & tl & Hdat & Hdrop). rewrite Hdat. cbn [default id from_option]. unfold atoi_in.
  assert (drop (Z.to_nat (read_pos (c_upstream_rbuf c) + Z.of_nat 8 + 1)) dat = d :: ds ++ x :: rest ++ tl) as ->.
  { replace (Z.to_nat (read_pos (c_upstream_rbuf c) + Z.of_nat 8 + 1)) with (Z.to_nat (read_pos (c_upstream_rbuf c)) + 9)%nat by (destruct Hok; lia).
    rewrite <- drop_drop, Hdrop, Hp. change (drop 9 ((lit "HTTP/1." ++ v :: 32 :: (d :: ds) ++ x :: rest) ++ tl)) with (((d :: ds) ++ x :: rest) ++ tl).
    rewrite <- app_assoc. done. }
  rewrite scan_digits by done. unfold atoi. rewrite strtoll_digits; [| done | by intros y [= <-]]. cbn [mbind cres_mbind].
  pose proof (digits_value_bound3 d ds Hds Hl) as Hb. eexists. split; [reflexivity |].
  cbn [fst]. unfold clamp_ll, LLONG_MIN, LLONG_MAX. rewrite Z.min_r, Z.max_r by lia. unfold to_i32. rewrite Z.mod_small by lia.
  rewrite (proj2 (Z.ltb_lt _ _)) by lia. done.
Qed.

Lemma collect_Ret (realloc : Z -> bool) (c : conn_t) :
  buf_ok (c_upstream_rbuf c) -> exists cc, collect realloc c = Ret (set_c_cache cc c).
Proof.
  intros Hok. assert (set_c_cache (c_cache c) c = c) as Hid by (by destruct c). unfold collect.
  destruct (cc_store (c_cache c)); [| by exists (c_cache c); rewrite Hid].
  destruct (0 <? buf_readable (c_upstream_rbuf c)); [| by exists (c_cache c); rewrite Hid].
  destruct (_ && _); cbn zeta; repeat case_match; rewrite ?buf_peek_Ret, ?bind_Ret by done; eauto.
Qed.

(** The bytes in a list of answers. *)
Definition io_data (io : list answer) : bytes := concat (map (fun a => match a with AData bs => bs | _ => [] end) io).

(** The status cannot be scanned for past the end of the array: it is known; or
    what comes, together with what waits, leaves free the last byte of the array,
    and this byte ends a number; or the first read begins with a status line. *)
Definition relay_ready (c : conn_t) (io : list answer) : Prop :=
  c_proxy_status c <> 0 \/
  ((exists x, array_last (c_upstream_rbuf c) = Some x /\ numeric x = false) /\
   zlen (contents (c_upstream_rbuf c)) + zlen (io_data io) < b_cap (c_upstream_rbuf c)) \/
  (contents (c_upstream_rbuf c) = [] /\
   forall bs io', io = AData bs :: io' -> starts_response bs /\ zlen bs <= b_cap (c_upstream_rbuf c)).

Lemma note_status_known (c : conn_t) : c_proxy_status c <> 0 -> note_status c = Ret c.
Proof. intros H. unfold note_status. by rewrite (proj2 (Z.eqb_neq _ _) H). Qed.

(** What the relay can change of a connection. *)
Definition relayed (c c' : conn_t) : Prop :=
  exists b st cc, c' = set_c_cache cc (set_c_proxy_status st (set_c_upstream_rbuf b c)).

Lemma relayed_refl (c : conn_t) : relayed c c.
Proof. exists (c_upstream_rbuf c), (c_proxy_status c), (c_cache c). by destruct c. Qed.

Lemma relayed_step (c c' : conn_t) (b1 b2 : np_buf_t) (st : Z) (cc : conn_cache_t) :
  relayed (set_c_upstream_rbuf b2 (set_c_cache cc (set_c_proxy_status st (set_c_upstream_rbuf b1 c)))) c' -> relayed c c'.
Proof. intros (b & v & k & ->). by exists b, v, k. Qed.

Lemma io_data_suffix (l k : list answer) : l `suffix_of` k -> zlen (io_data l) <= zlen (io_data k).
Proof. intros [m ->]. unfold io_data. rewrite map_app, concat_app, length_app. lia. Qed.

Lemma status_of_Ret (c c' : conn_t) : Ret c = Ret c' -> c_proxy_status c = c_proxy_status c'.
Proof. by intros [= ->]. Qed.

(** One turn of the relay from a state that is ready: the status is noted, and
    the next state is ready. *)
Lemma relay_ready_turn (fd n m : Z) (c : conn_t) (b b2 : np_buf_t) (s s1 s2 : sys_t) (bs : bytes) (cc : conn_cache_t) :
  buf_ok (c_upstream_rbuf c) -> relay_ready c (s_io s) -> k_read fd (c_upstream_rbuf c) s = Ret (n, b, s1) ->
  was_read fd (c_upstream_rbuf c) b s s1 -> s_io s = AData bs :: s_io s1 ->
  contents b = contents (c_upstream_rbuf c) ++ take (Z.to_nat (b_cap (c_upstream_rbuf c) - zlen (contents (c_upstream_rbuf c)))) bs ->
  write_loop (c_fd c) b s1 = Ret (m, b2, s2) -> wrote (c_fd c) b b2 s1 s2 ->
  note_status (set_c_upstream_rbuf b c) <> Stuck /\
  forall v, note_status (set_c_upstream_rbuf b c) = Ret (set_c_proxy_status v (set_c_upstream_rbuf b c)) ->
    relay_ready (set_c_upstream_rbuf b2 (set_c_cache cc (set_c_proxy_status v (set_c_upstream_rbuf b c)))) (s_io s2).
Proof.
  intros Hok Hr Hread [Hokb Hcap _ _ _ _ _] Hio Hcon Hwl [Hok2 Hcap2 (t & Ht & _) _ _ _ _].
  destruct (write_loop_data _ _ _ _ _ _ Hwl) as [Hdata Hsuf]. apply io_data_suffix in Hsuf.
  destruct Hr as [Hst | [[(x & Hx & Hnx) Hfit] | [Hnil Hbs]]].
  - split; [by rewrite note_status_known |]. intros v Hv. rewrite note_status_known in Hv by done. left. cbn.
    apply status_of_Ret in Hv. cbn in Hv. by rewrite <- Hv.
  - rewrite Hio in Hfit. cbn [io_data map concat] in Hfit. rewrite length_app in Hfit. fold (io_data (s_io s1)) in Hfit.
    assert (zlen (contents b) + zlen (io_data (s_io s1)) < b_cap (c_upstream_rbuf c)) as Hfit1.
    { rewrite Hcon, length_app, length_take. lia. }
    assert (array_last b = Some x) as Hlast by (rewrite <- Hx; eapply k_read_last; [done | exact Hread | lia]).
    split.
    + intros Hs. destruct (note_status_cases (set_c_upstream_rbuf b c) Hokb) as [(? & H & _) | (_ & _ & Ho)]; [congruence |].
      destruct (overruns_last b Hokb Ho) as (y & Hy & Hny). congruence.
    + intros v _. right. left. cbn. split; [exists x; unfold array_last in *; by rewrite Hdata |].
      rewrite Hcap2, Hcap. rewrite Ht, length_app in Hfit1. lia.
  - destruct (Hbs bs (s_io s1) Hio) as [Hsr Hle]. rewrite Hnil in Hcon. cbn [app length] in Hcon. rewrite take_ge in Hcon by lia.
    destruct (decide (c_proxy_status c = 0)) as [E | E].
    + destruct (note_status_first (set_c_upstream_rbuf b c)) as (v & Hv & Hnz); [done | done | cbn; by rewrite Hcon |].
      split; [by rewrite Hv |]. intros v' Hv'. left. cbn. rewrite Hv in Hv'. apply status_of_Ret in Hv'. cbn in Hv'. congruence.
    + split; [by rewrite note_status_known |]. intros v Hv. rewrite note_status_known in Hv by done. left. cbn. apply status_of_Ret in Hv. cbn in Hv. by rewrite <- Hv.
Qed.

(** The relay, whatever the kernel answers: it ends and keeps everything in order,
    or the scan for the status runs past the end of the array, which does not
    happen from a state that is ready. *)
Lemma relay_loop_cases (fuel : nat) (realloc : Z -> bool) (fd : Z) (c : conn_t) (s : sys_t) :
  (length (s_io s) < fuel)%nat -> buf_ok (c_upstream_rbuf c) ->
  (exists n c' s' got, relay_loop fuel realloc fd c s = Ret (n, c', s') /\ n <= 0 /\ buf_ok (c_upstream_rbuf c') /\ relayed c c' /\
    s_calls s' = s_calls s /\ sent_to fd (s_in s') = sent_to fd (s_in s) ++ got /\
    sent_to (c_fd c) (s_out s') ++ contents (c_upstream_rbuf c') =
      sent_to (c_fd c) (s_out s) ++ contents (c_upstream_rbuf c) ++ got) \/
  (relay_loop fuel realloc fd c s = Stuck /\ ~ relay_ready c (s_io s)).
Proof.
  revert c s. induction fuel as [| f IH]; intros c s Hf Hok; [lia |]. cbn [relay_loop].
  destruct (k_read_Ret fd (c_upstream_rbuf c) s Hok) as (n & b & s1 & Hk & Hrd & Hpos). rewrite Hk, bind_Ret.
  pose proof Hrd as [Hok1 Hcap1 (t & Hc1 & Hin1) _ Hout1 Hcalls1 _]. destruct (0 <? n) eqn:E; bprop.
  2: { left. eexists _, _, _, t. split; [done |]. split; [lia |]. split; [exact Hok1 |].
    split; [exists b, (c_proxy_status c), (c_cache c); by destruct c |]. split; [done |]. split; [done |]. cbn. by rewrite Hout1, Hc1. }
  destruct (Hpos E) as (bs & Hio & Hcb). set (c1 := set_c_upstream_rbuf b c).
  destruct (write_loop_Ret (c_fd c) b s1 Hok1) as (k & b2 & s2 & Hwl & Hwr & _).
  destruct (note_status_cases c1 Hok1) as [(v & Hv & Hvs) | (Hv & Hz & Hov)]; rewrite Hv.
  2: { right. split; [done |]. intros Hr. by destruct (relay_ready_turn fd n k c b b2 s s1 s2 bs (c_cache c) Hok Hr Hk Hrd Hio Hcb Hwl Hwr) as [Hns _]. }
  rewrite bind_Ret. destruct (collect_Ret realloc (set_c_proxy_status v c1)) as (cc & ->); [done |]. rewrite bind_Ret.
  cbn [c_fd c_upstream_rbuf set_c_cache set_c_proxy_status set_c_upstream_rbuf c1]. rewrite Hwl, bind_Ret.
  pose proof Hwr as [Hok2 Hcap2 (u & Hu & Hou) _ Hcalls2 Hin2 Hio2].
  set (c2 := set_c_upstream_rbuf b2 (set_c_cache cc (set_c_proxy_status v c1))).
  destruct (IH c2 s2) as [(n' & c' & s' & got & -> & Hn' & Hok' & Hrel & Hcalls & Hin & Hout) | (-> & Hnr)];
    [rewrite Hio in Hf; cbn in Hf; lia | done | left | right].
  - exists n', c', s', (t ++ got). split; [done |]. split; [done |]. split; [done |].
    split; [by eapply relayed_step; exact Hrel |]. split; [congruence |]. split; [by rewrite Hin, Hin2, Hin1, app_assoc |].
    change (c_fd c2) with (c_fd c) in Hout. rewrite Hout, Hou, Hout1. cbn [c2 c_upstream_rbuf set_c_upstream_rbuf].
    rewrite <- !app_assoc. f_equal. rewrite (app_assoc u), <- Hu, Hc1, <- app_assoc. done.
  - split; [done |]. intros Hr. apply Hnr. by apply (relay_ready_turn fd n k c b b2 s s1 s2 bs cc Hok Hr Hk Hrd Hio Hcb Hwl Hwr).
Qed.

Lemma relay_loop_Ret (fuel : nat) (realloc : Z -> bool) (fd : Z) (c : conn_t) (s : sys_t) :
  (length (s_io s) < fuel)%nat -> buf_ok (c_upstream_rbuf c) -> relay_ready c (s_io s) ->
  exists n c' s' got, relay_loop fuel realloc fd c s = Ret (n, c', s') /\ n <= 0 /\ buf_ok (c_upstream_rbuf c') /\ relayed c c' /\
    s_calls s' = s_calls s /\ sent_to fd (s_in s') = sent_to fd (s_in s) ++ got /\
    sent_to (c_fd c) (s_out s') ++ contents (c_upstream_rbuf c') =
      sent_to (c_fd c) (s_out s) ++ contents (c_upstream_rbuf c) ++ got.
Proof. intros Hf Hok Hr. destruct (relay_loop_cases fuel realloc fd c s Hf Hok) as [H | [_ Hn]]; [done | by destruct Hn]. Qed.

Lemma collect_appends (realloc : Z -> bool) (c : conn_t) (i : nat) (t : bytes) :
  buf_ok (c_upstream_rbuf c) -> contents (c_upstream_rbuf c) <> [] ->
  cc_store (c_cache c) = Some i -> cc_buf (c_cache c) = Some t -> cc_len (c_cache c) = zlen t ->
  zlen t + zlen (contents (c_upstream_rbuf c)) <= cc_cap (c_cache c) < 2 ^ 63 ->
  collect realloc c =
    Ret (set_c_cache (mk_ccache (Some i) (cc_key (c_cache c)) (Some (t ++ contents (c_upstream_rbuf c)))
                        (zlen (t ++ contents (c_upstream_rbuf c))) (cc_cap (c_cache c))) c).
Proof.
  intros Hok Hne Hs Hb Hl Hcap. unfold collect. rewrite Hs, Hb, Hl, buf_readable_val by done.
  assert (0 < zlen (contents (c_upstream_rbuf c))) as Hpos by (destruct (contents _); [done | cbn; lia]).
  rewrite (proj2 (Z.ltb_lt 0 _)) by done. rewrite u64_small by lia.
  rewrite (proj2 (Z.ltb_ge (cc_cap (c_cache c)) _)) by lia. cbn [andb]. rewrite (proj2 (Z.leb_le _ (cc_cap (c_cache c)))) by lia.
  rewrite buf_peek_all, bind_Ret by done. by rewrite length_app, Nat2Z.inj_add.
Qed.

(** One turn of the relay that reads [x] while the client accepts nothing. *)
Lemma relay_loop_turn (f : nat) (realloc : Z -> bool) (fd : Z) (c : conn_t) (s : sys_t) (x t : bytes) (io : list answer) (i : nat) :
  buf_ok (c_upstream_rbuf c) -> c_proxy_status c <> 0 -> x <> [] ->
  zlen (contents (c_upstream_rbuf c)) + zlen x <= b_cap (c_upstream_rbuf c) ->
  cc_store (c_cache c) = Some i -> cc_buf (c_cache c) = Some t -> cc_len (c_cache c) = zlen t ->
  zlen t + zlen (contents (c_upstream_rbuf c)) + zlen x <= cc_cap (c_cache c) < 2 ^ 63 ->
  s_io s = AData x :: AAgain :: io ->
  exists c' s', relay_loop (S f) realloc fd c s = relay_loop f realloc fd c' s' /\ s_io s' = io /\
    buf_ok (c_upstream_rbuf c') /\ b_cap (c_upstream_rbuf c') = b_cap (c_upstream_rbuf c) /\
    contents (c_upstream_rbuf c') = contents (c_upstream_rbuf c) ++ x /\ c_proxy_status c' <> 0 /\
    c_cache c' = mk_ccache (Some i) (cc_key (c_cache c)) (Some (t ++ contents (c_upstream_rbuf c) ++ x))
                   (zlen (t ++ contents (c_upstream_rbuf c) ++ x)) (cc_cap (c_cache c)).
Proof.
  intros Hok Hst Hx Hroom Hs Hb Hl Hcap Hio. cbn [relay_loop].
  destruct (k_read_data fd (c_upstream_rbuf c) s x (AAgain :: io) Hok Hio Hx) as (b1 & -> & Hok1 & Hcap1 & Hc1); [lia |].
  rewrite bind_Ret. rewrite (proj2 (Z.ltb_lt 0 _)) by (destruct x; [done | cbn; lia]).
  rewrite note_status_known, bind_Ret by done.
  rewrite (collect_appends realloc _ i t); cbn [c_upstream_rbuf c_cache set_c_upstream_rbuf];
    [| done | by rewrite Hc1; intros [_ ?]%app_nil | done | done | done | rewrite Hc1, length_app; lia].
  rewrite bind_Ret. cbn [c_fd c_upstream_rbuf set_c_cache set_c_upstream_rbuf].
  destruct (write_loop_blocked (c_fd c) b1 (mk_sys (AAgain :: io) (s_calls s) (s_out s) (s_in s ++ [(fd, x)])) io Hok1 eq_refl)
    as (b2 & -> & Hok2 & Hcap2 & Hc2); [rewrite Hc1; by intros [_ ?]%app_nil |]. rewrite bind_Ret.
  eexists _, _. split; [reflexivity |]. cbn. rewrite Hc1 in *. split_and!; [done | done | congruence | done | done | done].
Qed.

(** ** Properties of the relay *)


(** A connection that is being proxied. *)
Definition sample_proxied : conn_t :=
  set_c_tls_conn (Some 0%nat) (set_c_state CONN_PROXYING (set_c_proxy_status 200
    (set_c_cache (mk_ccache (Some 0%nat) (lit "GET:h:/a") (Some []) 0 1000) sample_conn))).


(** The scan leaves the array when the status is not known and everything after
    the first space of the response is numeric up to the end of the array. *)
Theorem status_overrun (c : conn_t) :
  buf_ok (c_upstream_rbuf c) -> c_proxy_status c = 0 -> is_prefix (lit "HTTP") (contents (c_upstream_rbuf c)) = true ->
  12 <= zlen (contents (c_upstream_rbuf c)) -> overruns (c_upstream_rbuf c) -> note_status c = Stuck.
Proof.
  intros Hok Hs Hp Hl (i & Hi & Hle & Hscan). unfold note_status. rewrite Hs. cbn [Z.eqb negb].
  rewrite buf_peek_Ret, bind_Ret, Hp, Hi by done. rewrite (proj2 (Z.leb_le 12 _)) by lia. cbn [andb].
  rewrite (proj2 (Z.leb_le _ (zlen (contents (c_upstream_rbuf c))))) by lia. unfold atoi_in.
  replace (Z.to_nat (read_pos (c_upstream_rbuf c) + Z.of_nat i + 1)) with (Z.to_nat (read_pos (c_upstream_rbuf c)) + i + 1)%nat by (destruct Hok; lia).
  by rewrite Hscan.
Qed.

(** A buffer of 16 bytes filled by the first read. *)
Example status_overrun_example :
  relay (fun _ => true) 9 (set_c_proxy_status 0 (set_c_upstream_rbuf (mk_buf (Some (replicate 16 0)) 16 0 0) sample_proxied))
    (mk_sys [AData (lit "HTTP/1.1 2000000")] [] [] []) = Stuck.
Proof. vm_compute. reflexivity. Qed.

(** The copy for the cache is not what was relayed: bytes that wait for a slow
    client are in the buffer again at the next read and are collected again.  When
    the backend sends [x] and then [y] while the client accepts nothing, the cache
    gets [x x y]. *)
Theorem relay_cache_duplicates (realloc : Z -> bool) (fd : Z) (c : conn_t) (s : sys_t) (x y t : bytes) (i : nat) :
  buf_ok (c_upstream_rbuf c) -> contents (c_upstream_rbuf c) = [] -> c_proxy_status c <> 0 -> x <> [] -> y <> [] ->
  zlen x + zlen y < b_cap (c_upstream_rbuf c) ->
  cc_store (c_cache c) = Some i -> cc_buf (c_cache c) = Some t -> cc_len (c_cache c) = zlen t ->
  zlen t + zlen x + zlen x + zlen y <= cc_cap (c_cache c) < 2 ^ 63 ->
  s_io s = [AData x; AAgain; AData y; AAgain; AAgain] ->
  exists c' s', relay realloc fd c s = Ret (-2, c', s') /\
    contents (c_upstream_rbuf c') = x ++ y /\ cc_buf (c_cache c') = Some (t ++ x ++ x ++ y).
Proof.
  intros Hok Hnil Hst Hx Hy Hroom Hs Hb Hl Hcap Hio. unfold relay. rewrite Hio. cbn [length].
  destruct (relay_loop_turn 5 realloc fd c s x t [AData y; AAgain; AAgain] i) as (c1 & s1 & -> & Hio1 & Hok1 & Hcap1 & Hc1 & Hst1 & Hcc1);
    [done | done | done | rewrite Hnil; cbn; lia | done | done | done | rewrite Hnil; cbn; lia | done |].
  rewrite Hnil in Hc1, Hcc1. cbn [app] in Hc1, Hcc1.
  destruct (relay_loop_turn 4 realloc fd c1 s1 y (t ++ x) [AAgain] i) as (c2 & s2 & -> & Hio2 & Hok2 & Hcap2 & Hc2 & Hst2 & Hcc2);
    [done | done | done | rewrite Hc1, Hcap1; lia | by rewrite Hcc1 | by rewrite Hcc1 | by rewrite Hcc1
    | rewrite Hcc1, Hc1, length_app; cbn [cc_cap]; lia | done |].
  cbn [relay_loop]. destruct (k_read_again fd (c_upstream_rbuf c2) s2 [] Hok2 Hio2) as (b3 & -> & Hok3 & Hcap3 & Hc3);
    [rewrite Hc2, Hc1, Hcap2, Hcap1, length_app; lia |].
  rewrite bind_Ret. eexists _, _. split; [reflexivity |]. cbn [c_upstream_rbuf c_cache set_c_upstream_rbuf].
  rewrite Hc3, Hc2, Hc1, Hcc2, Hc1. cbn [cc_buf]. by rewrite <- !app_assoc.
Qed.

Lemma relay_cache_duplicates_witness :
  exists c' s', relay (fun _ => true) 9 sample_proxied (mk_sys [AData (lit "ab"); AAgain; AData (lit "c"); AAgain; AAgain] [] [] []) = Ret (-2, c', s') /\
    contents (c_upstream_rbuf c') = lit "abc" /\ cc_buf (c_cache c') = Some (lit "ababc").
Proof.
  apply (relay_cache_duplicates (fun _ => true) 9 sample_proxied (mk_sys [AData (lit "ab"); AAgain; AData (lit "c"); AAgain; AAgain] [] [] [])
    (lit "ab") (lit "c") [] 0); [apply sample_buf_ok | reflexivity | discriminate | discriminate | discriminate | vm_compute; reflexivity
    | reflexivity | reflexivity | reflexivity | vm_compute; split; congruence | reflexivity].
Defined.

(** When the backend closes its side, the exchange ends and the descriptor, now
    at its end, goes to the backend's idle list instead of being closed: the next
    request for this backend is given it. *)
Theorem closed_backend_is_pooled (env : proxy_env) (fd : Z) (c : conn_t) (pool : upstream_pool_t) (f : gmap bytes bytes)
    (log : list bytes) (s : sys_t) (k : nat) (be : upstream_backend_t) (connect : option Z) :
  buf_ok (c_upstream_rbuf c) -> zlen (contents (c_upstream_rbuf c)) < b_cap (c_upstream_rbuf c) ->
  c_state c = CONN_PROXYING -> c_tls_conn c = Some k -> cc_store (c_cache c) = None ->
  (forall req, c_request c = Some req -> exists l,
     AccessLog.access_log_write (pe_log_fd env) req (c_proxy_status c) 0 (pe_clock env).1 (pe_clock env).2 (pe_ts env) = Ret l) ->
  up_backends pool !! k = Some be -> zlen (idle_fds be) < up_keepalive_conns pool -> zlen (idle_fds be) < 64 ->
  s_io s = [AData []] ->
  exists c' pool' log' s', proxy_on_upstream_event env fd EV_READ c (mk_pshared (Some pool) f log) s =
      Ret (c', WorkerClose, mk_pshared (Some pool') f log', s') /\
    (SysClose fd ∉ drop (length (s_calls s)) (s_calls s')) /\ c_upstream_fd c' = -1 /\
    exists pool'', upstream_get_connection pool' k connect = Ret (fd, pool'').
Proof.
  intros Hok Hroom Hst Hk Hcc Hreq Hbe Hka H64 Hio. unfold proxy_on_upstream_event.
  change (has_event EV_READ EV_WRITE) with false. change (has_event EV_READ EV_READ) with true. cbn iota. rewrite bind_Ret.
  unfold relay. rewrite Hio. cbn [length relay_loop].
  destruct (k_read_closed fd (c_upstream_rbuf c) s [] Hok Hio Hroom) as (b & -> & Hokb & _ & _). rewrite !bind_Ret.
  change (0 <? -3) with false. cbn iota. rewrite bind_Ret. change (-3 =? np_status_code NP_ERR_CLOSED) with true. cbn [orb].
  unfold backend_done. change (-3 =? np_status_code NP_ERR_CLOSED) with true.
  match goal with |- context [if 0 <? ?r then sys_call_log ?l ?x else ?y] => set (s1 := if 0 <? r then sys_call_log l x else y) end.
  assert (exists l, s_calls s1 = s_calls s ++ l /\ (SysClose fd ∉ l)) as (l & Hs1 & Hl).
  { subst s1. destruct (0 <? _); [eexists; split; [reflexivity | set_solver] | exists []; split; [by rewrite app_nil_r | set_solver]]. }
  clearbody s1. cbn [c_state set_c_upstream_fd set_c_upstream_rbuf]. rewrite Hst. rewrite bool_decide_false by done. cbn [andb negb].
  unfold store_response. cbn [c_cache c_tls_conn c_request c_proxy_status set_c_upstream_fd set_c_upstream_rbuf]. rewrite Hcc, bind_Ret.
  cbn [c_cache c_tls_conn c_request c_proxy_status set_c_upstream_fd set_c_upstream_rbuf]. rewrite Hk.
  assert (exists l, match c_request c with
    | Some req => AccessLog.access_log_write (pe_log_fd env) req (c_proxy_status c) 0 (pe_clock env).1 (pe_clock env).2 (pe_ts env)
    | None => Ret None end = Ret l) as [line ->] by (destruct (c_request c); eauto).
  rewrite bind_Ret. cbn [ps_pool ps_log ps_fs].
  unfold upstream_put_connection. rewrite Hbe, !(proj2 (Z.ltb_lt (zlen (idle_fds be)) _)) by done. cbn [andb]. rewrite bind_Ret.
  eexists _, _, _, _. split; [reflexivity |]. split; [| split; [done |]].
  - cbn [sys_call_log s_calls map]. rewrite app_nil_r, Hs1, <- app_assoc, drop_app_length. set_solver.
  - unfold upstream_get_connection. cbn [up_backends set_backends]. rewrite list_lookup_insert_eq by (by eapply lookup_lt_Some).
    cbn [idle_fds set_idle]. rewrite last_snoc. eauto.
Qed.

Lemma closed_backend_is_pooled_witness :
  exists c' pool' log' s', proxy_on_upstream_event (mk_penv (fun _ => true) 0 [] (mk_io true 0 0 0 true true) [] None (AccessLog.mk_timespec 0 0, AccessLog.mk_timespec 0 0) [])
      9 EV_READ (set_c_cache (mk_ccache None [] None 0 0) sample_proxied)
      (mk_pshared (Some (mk_pool [mk_ub (lit "10.0.0.1") 80 1 0 0 true []] 0 BALANCE_ROUND_ROBIN 4)) ∅ []) (mk_sys [AData []] [] [] []) =
    Ret (c', WorkerClose, mk_pshared (Some pool') ∅ log', s') /\ exists pool'', upstream_get_connection pool' 0 None = Ret (9, pool'').
Proof.
  destruct (closed_backend_is_pooled (mk_penv (fun _ => true) 0 [] (mk_io true 0 0 0 true true) [] None (AccessLog.mk_timespec 0 0, AccessLog.mk_timespec 0 0) [])
    9 (set_c_cache (mk_ccache None [] None 0 0) sample_proxied) (mk_pool [mk_ub (lit "10.0.0.1") 80 1 0 0 true []] 0 BALANCE_ROUND_ROBIN 4) ∅ []
    (mk_sys [AData []] [] [] []) 0 (mk_ub (lit "10.0.0.1") 80 1 0 0 true []) None) as (c' & pool' & log' & s' & Hr & _ & _ & Hg);
    [apply sample_buf_ok | vm_compute; reflexivity | reflexivity | reflexivity | reflexivity | discriminate | reflexivity | reflexivity | reflexivity | reflexivity |].
  exists c', pool', log', s'. split; [exact Hr | exact Hg].
Defined.
