(* ===== verification/Handler.v ===== *)
(** * Request dispatch: src/http/handler.c

    The order in which a request is offered to the modules, the rate limiter, the
    built-in endpoints, the cache, the backends and the files of the selected
    server, after rewriting its path.

    The worker's shared state is [shared_t]; the connection and the request are
    values.  [dispatch_env] holds what comes from outside: the text of the client's
    address, the clocks, memory, the file system, the answer of [connect], and what
    the modules' handlers do. *)

From Stdlib Require Import ZArith Lia String.
From stdpp Require Import base numbers option list gmap.
From S2P Require Import Prelude CLib StringUtil Memory Buffer Parser Request Response Config Upstream RateLimit EventLoop Conn Kernel FileServer Metrics Cache Features Modules Proxy.

(** ** Data *)

Record shared_t : Type := mk_shared {
  sh_upstreams : list (option upstream_pool_t);
  sh_stores : list (option cache_store_t);
  sh_limiter : option rate_limiter_t;
  sh_metrics : option np_metrics_t;
  sh_modules : list loaded_module_t;
  sh_files : gmap bytes bytes;
  sh_log_fd : option Z;
  sh_log : list bytes
}.

Record dispatch_env : Type := mk_denv {
  de_ip : bytes;
  de_now : Z;
  de_clock : AccessLog.timespec * AccessLog.timespec;
  de_ts : bytes;
  de_lookup : lookup_io;
  de_static : file_system;
  de_connect : option Z;
  de_module : nat -> conn_t * http_request_t -> cres (Z * (conn_t * http_request_t))
}.

Definition set_sh_upstreams (v : list (option upstream_pool_t)) (s : shared_t) : shared_t :=
  mk_shared v (sh_stores s) (sh_limiter s) (sh_metrics s) (sh_modules s) (sh_files s) (sh_log_fd s) (sh_log s).
Definition set_sh_limiter (v : option rate_limiter_t) (s : shared_t) : shared_t :=
  mk_shared (sh_upstreams s) (sh_stores s) v (sh_metrics s) (sh_modules s) (sh_files s) (sh_log_fd s) (sh_log s).
Definition set_sh_metrics (v : option np_metrics_t) (s : shared_t) : shared_t :=
  mk_shared (sh_upstreams s) (sh_stores s) (sh_limiter s) v (sh_modules s) (sh_files s) (sh_log_fd s) (sh_log s).
Definition set_sh_files (v : gmap bytes bytes) (s : shared_t) : shared_t :=
  mk_shared (sh_upstreams s) (sh_stores s) (sh_limiter s) (sh_metrics s) (sh_modules s) v (sh_log_fd s) (sh_log s).
Definition set_sh_log (v : list bytes) (s : shared_t) : shared_t :=
  mk_shared (sh_upstreams s) (sh_stores s) (sh_limiter s) (sh_metrics s) (sh_modules s) (sh_files s) (sh_log_fd s) v.

Definition set_req_path (v : str_t) (r : http_request_t) : http_request_t :=
  mk_req (req_method r) v (req_query r) (req_version r) (req_headers r) (req_content_length r) (req_chunked r) (req_keep_alive r)
    (req_upgrade r) (req_upgrade_protocol r) (req_body r) (req_remote_ip r) (req_recv_ts_us r).
Definition set_req_ip (v : bytes) (r : http_request_t) : http_request_t :=
  mk_req (req_method r) (req_path r) (req_query r) (req_version r) (req_headers r) (req_content_length r) (req_chunked r) (req_keep_alive r)
    (req_upgrade r) (req_upgrade_protocol r) (req_body r) v (req_recv_ts_us r).

(** ** Helpers *)

Definition path_matches (path : str_t) (prefix : bytes) : cres bool := str_starts_with path (STR prefix).

(** [access_log_write(req, status, 0, &start)]. *)
Definition log_request (env : dispatch_env) (req : http_request_t) (status : Z) (sh : shared_t) : cres shared_t :=
  line ← AccessLog.access_log_write (sh_log_fd sh) req status 0 (de_clock env).1 (de_clock env).2 (de_ts env);
  Ret (match line with Some (_, l) => set_sh_log (sh_log sh ++ [l]) sh | None => sh end).

Section handler.
Context {A : Allocator} {RX : Regex}.

(** *** The virtual host *)

(** The index of the first server with this name; the first server otherwise. *)
Definition server_named (ss : list np_server_config_t) (host : bytes) : nat :=
  match list_find (fun s => negb (bool_decide (server_name s = [])) && strcmp_eq (server_name s) host = true) ss with
  | Some (i, _) => i
  | None => 0%nat
  end.

Definition select_server (cfg : np_config_t) (req : http_request_t) : cres nat :=
  h ← request_header req (STR (lit "Host"));
  if is_null (ptr h) then Ret 0%nat
  else
    let copy_len := if len h <? 255 then len h else 255 in
    v ← load_n (ptr h) copy_len;
    let host := cstr v in
    let host := match strchr host 58 with Some i => take i host | None => host end in
    Ret (server_named (servers cfg) host).

(** *** Rewriting *)

Definition NEW_PATH_SIZE : Z := 1024.

Definition group (matches : list (Z * Z)) (idx : nat) : Z * Z := default (-1, -1) (matches !! idx).

(** The replacement: [out] is what is in [new_path] so far. *)
Fixpoint rewrite_loop (fuel : nat) (path_buf : bytes) (matches : list (Z * Z)) (src out : bytes) : cres bytes :=
  match fuel with
  | O => Ret out
  | S f =>
      match src with
      | [] => Ret out
      | c :: src' =>
          if zlen out <? NEW_PATH_SIZE - 1 then
            match src' with
            | d :: src'' =>
                if (c =? 36) && isdigit d then
                  let '(so, eo) := group matches (Z.to_nat (d - 48)) in
                  let n := eo - so in
                  if negb (so =? -1) && (0 <? n) && (zlen out + n <? NEW_PATH_SIZE - 1)
                  then bs ← load_n (Ptr (path_buf ++ [0]) so) n; rewrite_loop f path_buf matches src'' (out ++ bs)
                  else rewrite_loop f path_buf matches src'' out
                else rewrite_loop f path_buf matches src' (out ++ [c])
            | [] => rewrite_loop f path_buf matches src' (out ++ [c])
            end
          else Ret out
      end
  end.

Definition rewrite_text (path_buf : bytes) (matches : list (Z * Z)) (replacement : bytes) : cres bytes :=
  rewrite_loop (length replacement) path_buf matches replacement [].

(** The first rule that matches rewrites the path; the new path is in the
    connection's arena, if it has memory. *)
Fixpoint rewrite_path (rules : list rewrite_rule_t) (c : conn_t) (h : list region) (req : http_request_t)
    : cres (conn_t * list region * http_request_t) :=
  match rules with
  | [] => Ret (c, h, req)
  | rule :: rules' =>
      let plen := if len (req_path req) <? 1023 then len (req_path req) else 1023 in
      v ← load_n (ptr (req_path req)) plen;
      let path_buf := cstr v in
      match regexec (rw_re rule) path_buf with
      | None => rewrite_path rules' c h req
      | Some matches =>
          new_path ← rewrite_text path_buf matches (rw_replacement rule);
          r ← arena_alloc h (c_arena c).2 (zlen new_path + 1);
          let '(p, a, h) := r in
          let c := set_c_arena ((c_arena c).1, a) c in
          Ret (c, h, match p with Some _ => set_req_path (STR new_path) req | None => req end)
      end
  end.

(** *** Dispatch *)

(** The cached response, when there is one for the request. *)
Definition cached_response (env : dispatch_env) (server : np_server_config_t) (idx : nat) (req : http_request_t) (sh : shared_t)
    : cres (option cache_entry_t * shared_t) :=
  match ca_enabled (cache server), sh_stores sh !! idx, req_method req with
  | true, Some (Some store), HTTP_METHOD_GET =>
      key ← cache_key_from_request req 1024;
      let '(st, e, files) := cache_lookup store key (de_now env) (de_lookup env) (sh_files sh) in
      let sh := set_sh_files files sh in
      match st, e with
      | NP_OK, Some e => if 0 <? ce_data_len e then Ret (Some e, sh) else Ret (None, sh)
      | _, _ => Ret (None, sh)
      end
  | _, _, _ => Ret (None, sh)
  end.

Definition writing (b : np_buf_t) (c : conn_t) : conn_t := set_c_state CONN_WRITING_RESPONSE (set_c_wbuf b c).

(** Where the response of a backend is to be kept. *)
Definition mark_cacheable (server : np_server_config_t) (idx : nat) (req : http_request_t) (sh : shared_t) (c : conn_t)
    : cres conn_t :=
  match ca_enabled (cache server), sh_stores sh !! idx with
  | true, Some (Some _) =>
      key ← cache_key_from_request req 1024;
      let cc := c_cache c in
      Ret (set_c_cache (mk_ccache (Some idx) (strncpy key 255) (cc_buf cc) (cc_len cc) (cc_cap cc)) c)
  | _, _ => Ret c
  end.

(** The part after the rewriting. *)
Definition handler_respond (env : dispatch_env) (cfg : np_config_t) (idx : nat) (server : np_server_config_t)
    (c : conn_t) (req : http_request_t) (sh : shared_t) (s : sys_t) : cres (conn_t * shared_t * sys_t) :=
  rl ← match sh_limiter sh with
       | None => Ret (NP_OK, sh)
       | Some l => r ← rate_limit_check l (req_remote_ip req) (de_now env); Ret (r.1, set_sh_limiter (Some r.2) sh)
       end;
  let '(allowed, sh) := rl in
  if negb (bool_decide (allowed = NP_OK)) then
    b ← response_write_error (c_wbuf c) 429 (req_keep_alive req);
    let sh := set_sh_metrics (metrics_inc_requests (sh_metrics sh) 429) sh in
    sh ← log_request env req 429 sh;
    Ret (writing b c, sh, s)
  else
    is_metrics ← match sh_metrics sh with
                 | Some _ => path_matches (req_path req) (mt_path (metrics cfg))
                 | None => Ret false
                 end;
    match (is_metrics : bool), sh_metrics sh with
    | true, Some m =>
        c ← metrics_handle m c (req_keep_alive req);
        sh ← log_request env req 200 sh;
        Ret (c, sh, s)
    | _, _ =>
        is_health ← path_matches (req_path req) (lit "/healthz");
        if (is_health : bool) then
          c ← health_handle c (req_keep_alive req);
          sh ← log_request env req 200 sh;
          Ret (c, sh, s)
        else
          r ← cached_response env server idx req sh;
          let '(hit, sh) := r in
          match hit with
          | Some e =>
              b ← (if ce_data_len e <=? buf_writable (c_wbuf c) then buf_append (c_wbuf c) (ce_data e) else Ret (c_wbuf c));
              sh ← log_request env req (hdr_status (ce_hdr e)) sh;
              Ret (writing b c, sh, s)
          | None =>
              match px_enabled (proxy server), sh_upstreams sh !! idx with
              | true, Some (Some pool) =>
                  c ← mark_cacheable server idx req sh c;
                  r ← proxy_handle c req idx pool (sh_metrics sh) (de_connect env) s;
                  let '(c, pool, m, s) := r in
                  Ret (c, set_sh_metrics m (set_sh_upstreams (<[idx := Some pool]> (sh_upstreams sh)) sh), s)
              | _, _ =>
                  match static_root server with
                  | _ :: _ =>
                      r ← file_server_handle c req server (de_static env) s;
                      let '(status, c, s) := r in
                      sh ← log_request env req status sh;
                      Ret (c, sh, s)
                  | [] =>
                      b ← response_write_error (c_wbuf c) 404 (req_keep_alive req);
                      let sh := set_sh_metrics (metrics_inc_requests (sh_metrics sh) 404) sh in
                      sh ← log_request env req 404 sh;
                      Ret (writing b c, sh, s)
                  end
              end
          end
    end.

(** The connection, its request, the heap of the arenas, and the rest of the
    state afterwards. *)
Definition handler_dispatch (env : dispatch_env) (cfg : np_config_t) (c : conn_t) (h : list region) (req : http_request_t)
    (sh : shared_t) (s : sys_t) : cres (conn_t * list region * http_request_t * shared_t * sys_t) :=
  let req := set_req_ip (de_ip env) req in
  idx ← select_server cfg req;
  r ← module_run_request_handlers (de_module env) (sh_modules sh) (c, req);
  let '(rc, (c, req)) := r in
  if rc =? NP_MODULE_HANDLED then
    sh ← log_request env req 200 sh;
    Ret (c, h, req, sh, s)
  else
    match servers cfg !! idx with
    | None => Stuck
    | Some server =>
        r ← rewrite_path (rewrite_rules server) c h req;
        let '(c, h, req) := r in
        r ← handler_respond env cfg idx server c req sh s;
        let '(c, sh, s) := r in
        Ret (c, h, req, sh, s)
    end.

End handler.

(** ** Rewriting: the reference *)

(** A capture of [regexec]: unused, or a part of the text. *)
Definition group_ok (path : bytes) (g : Z * Z) : Prop := g.1 = -1 \/ 0 <= g.1 <= g.2 /\ g.2 <= zlen path.

(** What [regexec] promises: the captures are parts of the text. *)
Class RegexOK (RX : Regex) : Prop :=
  regexec_groups : forall re s ms, regexec re s = Some ms -> Forall (group_ok s) ms.

#[global] Instance literal_regex_ok : RegexOK literal_regex.
Proof.
  intros re s ms. cbn. case_match; [| discriminate]. intros [= <-]. constructor; [| constructor]. right. cbn. lia.
Qed.


Definition group_text (path : bytes) (matches : list (Z * Z)) (idx : nat) : bytes :=
  let '(so, eo) := group matches idx in if so =? -1 then [] else zsub so (eo - so) path.

(** The replacement with every [$digit] replaced by its capture. *)
Fixpoint rewrite_ref (path : bytes) (matches : list (Z * Z)) (src : bytes) : bytes :=
  match src with
  | [] => []
  | c :: src' =>
      match src' with
      | d :: src'' =>
          if (c =? 36) && isdigit d then group_text path matches (Z.to_nat (d - 48)) ++ rewrite_ref path matches src''
          else c :: rewrite_ref path matches src'
      | [] => [c]
      end
  end.

Lemma group_lookup_ok (path : bytes) (matches : list (Z * Z)) (idx : nat) :
  Forall (group_ok path) matches -> group_ok path (group matches idx).
Proof.
  intros H. unfold group. destruct (matches !! idx) as [g |] eqn:E; cbn [default from_option id]; [| by left].
  exact (Forall_lookup_1 _ _ _ _ H E).
Qed.

(** The bytes copied for a capture. *)
Lemma load_group (path : bytes) (so n : Z) :
  0 <= so -> 0 < n -> so + n <= zlen path -> load_n (Ptr (path ++ [0]) so) n = Ret (zsub so n path).
Proof.
  intros H1 H2 H3. apply load_n_Ret. unfold readable. split_and!; [lia | lia | rewrite length_app; cbn; lia |].
  symmetry. unfold zsub. rewrite drop_app_le, take_app_le by (rewrite ?length_drop; lia). done.
Qed.

Lemma group_text_length (path : bytes) (matches : list (Z * Z)) (idx : nat) (so eo : Z) :
  Forall (group_ok path) matches -> group matches idx = (so, eo) -> so <> -1 ->
  zlen (group_text path matches idx) = eo - so /\ 0 <= eo - so /\ group_text path matches idx = zsub so (eo - so) path.
Proof.
  intros Hm Hg Hne. pose proof (group_lookup_ok path matches idx Hm) as Hok. unfold group_text. rewrite Hg in *.
  rewrite (proj2 (Z.eqb_neq so (-1))) by done. destruct Hok as [? | Hok]; [done |]. cbn [fst snd] in Hok.
  split_and!; [| lia | done]. unfold zsub. rewrite length_take, length_drop. lia.
Qed.

Lemma rewrite_ref_cons (path : bytes) (matches : list (Z * Z)) (c d : Z) (src : bytes) :
  rewrite_ref path matches (c :: d :: src) =
    if (c =? 36) && isdigit d then group_text path matches (Z.to_nat (d - 48)) ++ rewrite_ref path matches src
    else c :: rewrite_ref path matches (d :: src).
Proof. done. Qed.

(** The loop on any text before [dest]. *)
Lemma rewrite_loop_ref (fuel : nat) (path : bytes) (matches : list (Z * Z)) (src out : bytes) :
  Forall (group_ok path) matches -> (length src <= fuel)%nat -> zlen out <= NEW_PATH_SIZE - 1 ->
  exists out', rewrite_loop fuel path matches src out = Ret out' /\ zlen out' <= NEW_PATH_SIZE - 1 /\
    (zlen out + zlen (rewrite_ref path matches src) < NEW_PATH_SIZE - 1 -> out' = out ++ rewrite_ref path matches src).
Proof.
  unfold NEW_PATH_SIZE. intros Hm. revert src out. induction fuel as [| f IH]; intros src out Hf Ho.
  - destruct src; [| cbn in Hf; lia]. exists out. cbn. by rewrite app_nil_r.
  - destruct src as [| c src]; [exists out; cbn; by rewrite app_nil_r |]. cbn [rewrite_loop]. unfold NEW_PATH_SIZE.
    destruct (zlen out <? 1024 - 1) eqn:Hl; bprop; [| exists out; split_and!; [done | lia | lia]].
    assert (exists out', rewrite_loop f path matches src (out ++ [c]) = Ret out' /\ zlen out' <= 1024 - 1 /\
      (zlen out + (1 + zlen (rewrite_ref path matches src)) < 1024 - 1 -> out' = out ++ c :: rewrite_ref path matches src)) as Hlit.
    { destruct (IH src (out ++ [c])) as (out' & Hr & Hb & He); [cbn in Hf; lia | rewrite length_app; cbn [length]; lia |].
      exists out'. split_and!; [done.. |]. intros Hs. rewrite He by (rewrite length_app; cbn [length]; lia). by rewrite <- app_assoc. }
    destruct src as [| d src].
    + destruct Hlit as (out' & Hr & Hb & He). exists out'. split_and!; [done.. |]. exact He.
    + rewrite rewrite_ref_cons. destruct ((c =? 36) && isdigit d) eqn:Hd.
      * destruct (group matches (Z.to_nat (d - 48))) as [so eo] eqn:Hg.
        destruct (Z.eqb_spec so (-1)) as [-> | Hne]; cbn [negb andb].
        -- destruct (IH src out) as (out' & Hr & Hb & He); [cbn in Hf; lia | lia |]. exists out'. split_and!; [done.. |].
           unfold group_text. rewrite Hg. exact He.
        -- destruct (group_text_length path matches _ so eo Hm Hg Hne) as (Hgl & Hge & Hgt). rewrite length_app.
           destruct ((0 <? eo - so) && (zlen out + (eo - so) <? 1024 - 1)) eqn:Hc; bprop.
           ++ pose proof (group_lookup_ok path matches (Z.to_nat (d - 48)) Hm) as Hok. rewrite Hg in Hok. unfold group_ok in Hok. cbn [fst snd] in Hok.
              rewrite load_group, bind_Ret by lia. rewrite <- Hgt.
              destruct (IH src (out ++ group_text path matches (Z.to_nat (d - 48)))) as (out' & Hr & Hb & He);
                [cbn in Hf; lia | rewrite length_app; lia |].
              exists out'. split_and!; [done.. |]. intros Hs. rewrite He by (rewrite length_app; lia). by rewrite <- app_assoc.
           ++ destruct (IH src out) as (out' & Hr & Hb & He); [cbn in Hf; lia | lia |]. exists out'. split_and!; [done.. |].
              intros Hs. assert (group_text path matches (Z.to_nat (d - 48)) = []) as Hnil.
              { apply length_zero_iff_nil. apply andb_false_iff in Hc as [Hc | Hc]; bprop; lia. }
              rewrite Hnil in *. apply He. cbn [length] in *. lia.
      * destruct Hlit as (out' & Hr & Hb & He). exists out'. split_and!; [done.. |]. intros Hs. apply He. cbn [length] in Hs. lia.
Qed.

(** C28 The rewriting of a path, whatever the captures are, as long as they are
    parts of the path: the loop stays inside [new_path] and its terminator, ends,
    and its result is the replacement with every [$digit] replaced by that capture
    when this has fewer than 1023 bytes. *)
Theorem rewrite_text_correct (path_buf replacement : bytes) (matches : list (Z * Z)) :
  Forall (group_ok path_buf) matches ->
  exists new_path, rewrite_text path_buf matches replacement = Ret new_path /\ zlen new_path < NEW_PATH_SIZE /\
    (zlen (rewrite_ref path_buf matches replacement) < NEW_PATH_SIZE - 1 -> new_path = rewrite_ref path_buf matches replacement).
Proof.
  intros Hm. destruct (rewrite_loop_ref (length replacement) path_buf matches replacement [] Hm ltac:(lia)) as (p & Hr & Hb & He);
    [unfold NEW_PATH_SIZE; cbn; lia |].
  exists p. split_and!; [exact Hr | lia | exact He].
Qed.

Lemma rewrite_text_correct_witness :
  rewrite_text (lit "/old/7") [(0, 6); (5, 6)] (lit "/new/$1?a=$2$") = Ret (lit "/new/7?a=$").
Proof.
  destruct (rewrite_text_correct (lit "/old/7") (lit "/new/$1?a=$2$") [(0, 6); (5, 6)]) as (p & -> & _ & He).
  - repeat (apply Forall_cons; split; [right; cbn; lia |]). constructor.
  - rewrite He by (vm_compute; reflexivity). reflexivity.
Defined.

(** *** Rewriting a request *)

(** What the rules may make of the path [pv]; it stays when no rule matches or
    there is no memory. *)
Definition rewrites {RX : Regex} (rules : list rewrite_rule_t) (pv pv' : bytes) : Prop :=
  pv' = pv \/
  exists rule matches, rule ∈ rules /\ regexec (rw_re rule) (cstr (take 1023 pv)) = Some matches /\
    rewrite_text (cstr (take 1023 pv)) matches (rw_replacement rule) = Ret pv'.

Lemma rewrite_text_Ret (path_buf replacement : bytes) (matches : list (Z * Z)) :
  Forall (group_ok path_buf) matches -> exists new_path, rewrite_text path_buf matches replacement = Ret new_path.
Proof.
  intros Hm. destruct (rewrite_loop_ref (length replacement) path_buf matches replacement [] Hm ltac:(lia)) as (p & Hr & _);
    [unfold NEW_PATH_SIZE; cbn; lia |]. by exists p.
Qed.

Lemma rewrite_path_Ret {A : Allocator} {RX : Regex} {RO : RegexOK RX} (rules : list rewrite_rule_t) (c : conn_t) (h : list region)
    (req : http_request_t) (pv : bytes) :
  conn_ok c -> str_repr (req_path req) pv ->
  exists a h' pv' req', rewrite_path rules c h req = Ret (set_c_arena a c, h', req') /\ a_head a.2 <> [] /\
    (req' = req \/ req' = set_req_path (STR pv') req) /\ str_repr (req_path req') pv' /\ rewrites rules pv pv'.
Proof.
  intros Hok Hp. induction rules as [| rule rules IH]; cbn [rewrite_path].
  - exists (c_arena c), h, pv, req. split; [by destruct c |]. split; [by destruct Hok |]. split; [by left |]. split; [done | by left].
  - assert (load_n (ptr (req_path req)) (if len (req_path req) <? 1023 then len (req_path req) else 1023) = Ret (take 1023 pv)) as ->.
    { apply load_n_Ret. pose proof (str_repr_len _ _ Hp) as Hl. replace (if len (req_path req) <? 1023 then len (req_path req) else 1023) with (Z.of_nat (Nat.min 1023 (length pv)));
        [eapply readable_take_min; exact Hp |]. rewrite Hl. case_match; bprop; lia. }
    rewrite bind_Ret. destruct (regexec (rw_re rule) (cstr (take 1023 pv))) as [ms |] eqn:Hre.
    + destruct (rewrite_text_Ret (cstr (take 1023 pv)) (rw_replacement rule) ms (regexec_groups _ _ _ Hre)) as (np & Hnp). rewrite Hnp, bind_Ret.
      unfold arena_alloc. match goal with |- context [arena_alloc_aligned h ?a ?n ?al] =>
        destruct (arena_alloc_defined h a n al (ck_arena _ Hok) ltac:(done)) as (o & a' & h' & -> & Ha') end.
      rewrite bind_Ret. destruct o.
      * exists ((c_arena c).1, a'), h', np, (set_req_path (STR np) req). split; [done |]. split; [done |]. split; [by right |]. split; [apply str_repr_STR |].
        right. exists rule, ms. split; [by left | done].
      * exists ((c_arena c).1, a'), h', pv, req. split; [done |]. split; [done |]. split; [by left |]. split; [done | by left].
    + destruct IH as (a & h' & pv' & req' & Hr & Ha & Hq & Hs & Hw). exists a, h', pv', req'. split_and!; try done.
      destruct Hw as [-> | (r & ms & Hin & Hx)]; [by left |]. right. exists r, ms. split; [by right | done].
Qed.

(** ** The virtual host *)

(** The name a client asks for: at most 255 bytes of its [Host] field, up to a
    zero byte or a colon. *)
Definition host_name (v : bytes) : bytes := take_while (fun b => negb (b =? 58)) (cstr (take 255 v)).

Lemma host_name_strchr (host : bytes) :
  match strchr host 58 with Some i => take i host | None => host end = take_while (fun b => negb (b =? 58)) host.
Proof.
  unfold strchr. induction host as [| x host IH]; [done |]. cbn [index_of take_while].
  rewrite Z.eqb_sym. destruct (x =? 58); cbn [negb]; [done |]. rewrite <- IH. by destruct (index_of (Z.eqb 58) host).
Qed.

(** C29 The server of a request: the first one that has the name the client asks
    for, of those with a name; the first server when there is none, or no [Host]
    field. *)
Theorem select_server_correct {RX : Regex} (cfg : np_config_t) (req : http_request_t) (fs : list (bytes * bytes)) :
  Forall2 header_repr (req_headers req) fs -> Forall (fun f => is_null (ptr (h_value f)) = false) (req_headers req) ->
  exists i, select_server cfg req = Ret i /\
    match header_val fs (lit "Host") with
    | None => i = 0%nat
    | Some v =>
        let named (s : np_server_config_t) := server_name s <> [] /\ server_name s = host_name v in
        (exists s, servers cfg !! i = Some s /\ named s /\ forall j s', (j < i)%nat -> servers cfg !! j = Some s' -> ~ named s') \/
        (i = 0%nat /\ Forall (fun s => ~ named s) (servers cfg))
    end.
Proof.
  intros Hf Hnn. unfold select_server, request_header.
  destruct (request_header_loop_Ret _ _ (STR (lit "Host")) (lit "Host") Hf (str_repr_STR _)) as (h & -> & Hv). rewrite bind_Ret.
  destruct (header_val fs (lit "Host")) as [v |]; [| subst h; by exists 0%nat].
  destruct Hv as (Hv & f & Hin & ->). rewrite Forall_forall in Hnn. rewrite (Hnn f Hin).
  pose proof (str_repr_len _ _ Hv) as Hl.
  assert (load_n (ptr (h_value f)) (if len (h_value f) <? 255 then len (h_value f) else 255) = Ret (take 255 v)) as ->.
  { apply load_n_Ret. replace (if len (h_value f) <? 255 then len (h_value f) else 255) with (Z.of_nat (Nat.min 255 (length v)));
      [eapply readable_take_min; exact Hv |]. rewrite Hl. case_match; bprop; lia. }
  rewrite bind_Ret, host_name_strchr. change (take_while _ (cstr (take 255 v))) with (host_name v). unfold server_named.
  destruct (list_find _ (servers cfg)) as [[i s] |] eqn:E; eexists; (split; [reflexivity |]); cbn zeta.
  - left. apply list_find_Some in E as (Hi & Hb & Hfirst). exists s. unfold strcmp_eq in *.
    assert (forall s : np_server_config_t, negb (bool_decide (server_name s = [])) && eqb_bytes (server_name s) (host_name v) = true <->
      server_name s <> [] /\ server_name s = host_name v) as Hiff.
    { intros x. rewrite andb_true_iff, negb_true_iff, bool_decide_eq_false, eqb_bytes_true. done. }
    split_and!; [done | by apply Hiff.. |]. intros j s' Hj Hs'. rewrite <- Hiff. by eapply Hfirst.
  - right. split; [done |]. apply list_find_None in E. eapply Forall_impl; [exact E |]. intros s Hs [H1 H2]. apply Hs.
    unfold strcmp_eq. rewrite andb_true_iff, negb_true_iff, bool_decide_eq_false, eqb_bytes_true. done.
Qed.

(** A configuration with these servers. *)
Definition sample_config (ss : list (@np_server_config_t literal_regex)) : @np_config_t literal_regex :=
  @mk_config literal_regex [] 1 1 1 60 60 60 ss (mk_rate_limit false 0 0) (mk_log LOG_INFO [] []) (mk_metrics false []) (mk_process false []) 5.

Definition named_server (name : bytes) : @np_server_config_t literal_regex :=
  @mk_server literal_regex 80 name [] [] [] [] (mk_tls false 0 [] []) (mk_proxy false BALANCE_ROUND_ROBIN 0 0 0 [])
    (mk_cache false [] 0 0) (mk_gzip false 0).

Definition host_request (host : bytes) : http_request_t :=
  mk_req HTTP_METHOD_GET (STR (lit "/")) STR_NULL (Some HTTP_11) [mk_header (STR (lit "host")) (STR host)] (-1) false true false
    STR_NULL STR_NULL [] 0.

Lemma select_server_correct_witness :
  select_server (sample_config [named_server (lit "a.org"); named_server (lit "b.org"); named_server (lit "b.org")])
    (host_request (lit "b.org:8080")) = Ret 1%nat.
Proof.
  destruct (select_server_correct (sample_config [named_server (lit "a.org"); named_server (lit "b.org"); named_server (lit "b.org")])
    (host_request (lit "b.org:8080")) [(lit "host", lit "b.org:8080")]) as (i & Hr & Hi).
  - constructor; [| constructor]. split; apply str_repr_STR.
  - constructor; [reflexivity | constructor].
  - rewrite Hr. f_equal. change (header_val _ _) with (Some (lit "b.org:8080")) in Hi.
    destruct Hi as [(s & Hs & [_ Hn] & Hfirst) | [_ Hall]].
    + destruct i as [| [| i]]; [| done |].
      * injection Hs as <-. discriminate Hn.
      * destruct (Hfirst 1%nat (named_server (lit "b.org")) ltac:(lia) eq_refl). split; [discriminate | reflexivity].
    + apply Forall_cons in Hall as [_ [Hall _]%Forall_cons]. destruct Hall. split; [discriminate | reflexivity].
Defined.

(** ** Dispatch is defined *)

(** ** Modules *)

(** What the worker relies on of the modules' handlers: a call returns, leaves the
    request alone, and leaves the connection alone or puts a response into its
    write buffer. *)
Class ModuleOK (call : nat -> conn_t * http_request_t -> cres (Z * (conn_t * http_request_t))) : Prop :=
  module_call : forall h c req pv, conn_ok c -> str_repr (req_path req) pv ->
    exists rc c', call h (c, req) = Ret (rc, (c', req)) /\ (c' = c \/ exists b, buf_ok b /\ c' = writing b c).

(** What any number of modules leave of a connection. *)
Definition answered (c c' : conn_t) : Prop := c' = c \/ exists b, buf_ok b /\ c' = writing b c.

Lemma answered_trans (c1 c2 c3 : conn_t) : answered c1 c2 -> answered c2 c3 -> answered c1 c3.
Proof. intros [-> | (b & Hb & ->)] [-> | (b' & Hb' & ->)]; [by left | right; eauto | right; eauto | right; exists b'; by split]. Qed.

Lemma module_run_answered (call : nat -> conn_t * http_request_t -> cres (Z * (conn_t * http_request_t))) (ms : list loaded_module_t) (c : conn_t)
    (req : http_request_t) (pv : bytes) :
  ModuleOK call -> conn_ok c -> str_repr (req_path req) pv ->
  exists rc c', module_run_request_handlers call ms (c, req) = Ret (rc, (c', req)) /\ conn_ok c' /\ answered c c'.
Proof.
  intros Hmo Hok Hp.
  destruct (module_run_Ret (fun x => x.2 = req /\ conn_ok x.1 /\ answered c x.1) call ms (c, req)) as (rc & [c' r'] & Hr & Hreq & Hok' & Ha).
  - intros h [c1 r1] (Hreq & Hok1 & Ha1). cbn in Hreq, Hok1, Ha1. subst r1. destruct (Hmo h c1 req pv Hok1 Hp) as (rc & c2 & -> & Hc2).
    eexists _, _. split; [done |]. cbn. split; [done |]. split.
    + destruct Hc2 as [-> | (b & Hb & ->)]; [done |]. destruct Hok1. by constructor.
    + by eapply answered_trans.
  - cbn. split_and!; [done.. | by left].
  - cbn in Hreq, Hok', Ha. subst r'. by exists rc, c'.
Qed.

(** A request whose line has room in the log's array. *)
Definition loggable (req : http_request_t) (pv : bytes) : Prop :=
  str_repr (req_path req) pv /\ zlen (req_remote_ip req) <= 15 /\ zlen pv <= 850.

(** The shared state: the limiter, the counters, pools whose counters are at most
    [cnt], and files of bytes. *)
Record shared_ok (now cnt : Z) (sh : shared_t) : Prop := {
  so_limiter : forall l, sh_limiter sh = Some l -> limiter_ok l now;
  so_metrics : forall m, sh_metrics sh = Some m -> metrics_ok m;
  so_pools : Forall (fun p => forall pool, p = Some pool -> pool_inv pool /\ counts_le cnt pool) (sh_upstreams sh);
  so_files : files_ok (sh_files sh)
}.

(** What a request may be, and what the outside must keep to, for the handlers'
    arrays to be large enough. *)
Record request_fits {RX : Regex} (env : dispatch_env) (server : np_server_config_t) (req : http_request_t)
    (pv bv : bytes) (fs : list (bytes * bytes)) : Prop := {
  rf_path : str_repr (req_path req) pv;
  rf_headers : Forall2 header_repr (req_headers req) fs;
  rf_body : str_repr (req_body req) bv;
  rf_ip : zlen (req_remote_ip req) <= 15;
  rf_line : zlen (req_remote_ip req) + zlen (de_ts env) + zlen pv <= 900;
  rf_clock : AccessLog.sane_clock (de_clock env).1 (de_clock env).2;
  rf_head : zlen (proxy_text req pv fs) + 2 < NP_MAX_HEADER_LEN;
  rf_sizes : forall name fd st, de_static env name = Some (fd, Some st) -> 0 <= st_size st < 2 ^ 63;
  rf_nonempty : pv <> [];
  rf_root : zlen (static_root server) < CONFIG_MAX_STR;
  rf_try : Forall (fun e => zlen (static_root server) + zlen (expanded (cstr (take 4095 pv)) e) < TMP_SIZE) (try_files server)
}.

(** What dispatch leaves of a connection. *)
Definition dispatched (c c' : conn_t) : Prop :=
  conn_ok c' /\ c_fd c' = c_fd c /\ c_rbuf c' = c_rbuf c /\ c_keep_alive c' = c_keep_alive c /\
  c_state c' ∈ [CONN_WRITING_RESPONSE; CONN_SENDFILE; CONN_PROXYING; CONN_TUNNEL].

Lemma shared_ok_metrics (now cnt : Z) (sh : shared_t) (m : option np_metrics_t) :
  shared_ok now cnt sh -> (forall x, m = Some x -> metrics_ok x) -> shared_ok now cnt (set_sh_metrics m sh).
Proof. intros [] ?. by constructor. Qed.

Lemma inc_requests_ok (now cnt status : Z) (sh : shared_t) :
  shared_ok now cnt sh -> shared_ok now cnt (set_sh_metrics (metrics_inc_requests (sh_metrics sh) status) sh).
Proof.
  intros H. apply shared_ok_metrics; [done |]. intros x. destruct (sh_metrics sh) as [m |] eqn:E; [| discriminate].
  intros [= <-]. by apply metrics_ok_requests, (so_metrics _ _ _ H).
Qed.

Lemma shared_ok_mono (now cnt cnt' : Z) (sh : shared_t) : shared_ok now cnt sh -> cnt <= cnt' -> shared_ok now cnt' sh.
Proof.
  intros [H1 H2 H3 H4] Hc. constructor; [done.. | | done]. eapply Forall_impl; [exact H3 |]. intros p Hp pool Heq.
  destruct (Hp pool Heq). split; [done |]. by eapply counts_le_mono.
Qed.

Lemma dispatched_writing (b : np_buf_t) (c : conn_t) : conn_ok c -> buf_ok b -> dispatched c (writing b c).
Proof. intros [] Hb. split_and!; [by constructor | done.. | by left]. Qed.

Section dispatch.
Context {RX : Regex} (env : dispatch_env) (cfg : np_config_t) (server : np_server_config_t) (idx : nat)
  (req : http_request_t) (pv bv : bytes) (fs : list (bytes * bytes)) (cnt : Z).
Context (Hfit : request_fits env server req pv bv fs).

Lemma log_request_ok (status : Z) (sh : shared_t) :
  INT_MIN <= status <= INT_MAX -> shared_ok (de_now env) cnt sh ->
  exists sh', log_request env req status sh = Ret sh' /\ shared_ok (de_now env) cnt sh'.
Proof using Hfit.
  intros Hs [H1 H2 H3 H4]. unfold log_request.
  destruct (AccessLog.access_log_write_Ret (sh_log_fd sh) req status (de_clock env).1 (de_clock env).2 (de_ts env) pv
    (rf_path _ _ _ _ _ _ Hfit) (rf_clock _ _ _ _ _ _ Hfit) Hs (rf_line _ _ _ _ _ _ Hfit)) as (l & ->).
  rewrite bind_Ret. eexists. split; [done |]. destruct l as [[]|]; by constructor.
Qed.

Lemma path_matches_ok (prefix : bytes) : path_matches (req_path req) prefix = Ret (is_prefix prefix pv).
Proof using Hfit. exact (str_starts_with_Ret _ _ _ _ (rf_path _ _ _ _ _ _ Hfit) (str_repr_STR prefix)). Qed.

Lemma request_key_ok : exists key, cache_key_from_request req 1024 = Ret key.
Proof using Hfit.
  unfold cache_key_from_request. destruct (request_header_loop_Ret _ _ (STR (lit "Host")) (lit "Host") (rf_headers _ _ _ _ _ _ Hfit) (str_repr_STR _)) as (h & Hh & Hv).
  unfold request_header. rewrite Hh, bind_Ret, (fmt_slice_Ret _ _ (rf_path _ _ _ _ _ _ Hfit)), bind_Ret.
  destruct (header_val fs (lit "Host")) as [v |]; [| rewrite Hv; cbn; eauto]. case_match; [eauto |].
  rewrite (fmt_slice_Ret _ _ (proj1 Hv)), bind_Ret. eauto.
Qed.

Lemma cached_response_ok (sh : shared_t) :
  shared_ok (de_now env) cnt sh ->
  exists hit sh', cached_response env server idx req sh = Ret (hit, sh') /\ shared_ok (de_now env) cnt sh' /\
    sh_upstreams sh' = sh_upstreams sh /\ (forall e, hit = Some e -> ce_data_len e = zlen (ce_data e) /\ INT_MIN <= hdr_status (ce_hdr e) <= INT_MAX).
Proof using Hfit.
  intros Hsh. unfold cached_response. destruct request_key_ok as (key & ->).
  assert (exists hit sh', Ret (A := option cache_entry_t * shared_t) (None, sh) = Ret (hit, sh') /\ shared_ok (de_now env) cnt sh' /\
    sh_upstreams sh' = sh_upstreams sh /\ (forall e, hit = Some e -> ce_data_len e = zlen (ce_data e) /\ INT_MIN <= hdr_status (ce_hdr e) <= INT_MAX)) as Hno
    by (by eexists _, _).
  destruct (ca_enabled (cache server)); [| done]. destruct (sh_stores sh !! idx) as [[store |] |]; [| done..].
  destruct (req_method req); try done. rewrite bind_Ret.
  destruct (cache_lookup store key (de_now env) (de_lookup env) (sh_files sh)) as [[st e] files] eqn:E.
  destruct (cache_lookup_files _ _ _ _ _ _ _ _ E) as [-> | (path & ->)].
  - assert (set_sh_files (sh_files sh) sh = sh) as -> by (by destruct sh).
    destruct e as [e |]; [| by destruct st]. apply (cache_lookup_found _ _ _ _ _ _ _ _ (so_files _ _ _ Hsh)) in E as (-> & Hl & _ & Hs).
    case_match; [| done]. eexists _, _. split; [done |]. split_and!; try done. by intros e' [= <-].
  - assert (shared_ok (de_now env) cnt (set_sh_files (delete path (sh_files sh)) sh)) as Hsh'.
    { destruct Hsh as [H1 H2 H3 H4]. constructor; [done.. |]. by apply map_Forall_delete. }
    destruct e as [e |].
    + apply (cache_lookup_found _ _ _ _ _ _ _ _ (so_files _ _ _ Hsh)) in E as (-> & Hl & _ & Hs). case_match; eexists _, _; (split; [done |]); split_and!; try done.
      by intros e' [= <-].
    + destruct st; eexists _, _; (split; [done |]); by split_and!.
Qed.

Lemma mark_cacheable_ok (sh : shared_t) (c : conn_t) :
  exists c', mark_cacheable server idx req sh c = Ret c' /\ kept c c' /\ c_wbuf c' = c_wbuf c.
Proof using Hfit.
  unfold mark_cacheable. destruct request_key_ok as (key & ->). repeat case_match; eexists; (split; [done |]); by split.
Qed.

(** Where the limiter refuses. *)
Lemma limit_ok (sh : shared_t) :
  shared_ok (de_now env) cnt sh ->
  exists allowed sh', match sh_limiter sh with
    | None => Ret (NP_OK, sh)
    | Some l => r ← rate_limit_check l (req_remote_ip req) (de_now env); Ret (r.1, set_sh_limiter (Some r.2) sh)
    end = Ret (allowed, sh') /\ shared_ok (de_now env) cnt sh' /\ sh_upstreams sh' = sh_upstreams sh /\ sh_metrics sh' = sh_metrics sh.
Proof using Hfit.
  intros Hsh. pose proof Hsh as [Hl Hm Hp Hfi]. destruct (sh_limiter sh) as [l |]; [| by eexists _, _].
  destruct (rate_limit_check_spec l (req_remote_ip req) (de_now env) (Hl l eq_refl) (rf_ip _ _ _ _ _ _ Hfit)) as (l' & -> & Hok & _).
  rewrite bind_Ret. eexists _, _. split; [done |]. split_and!; [| done..]. constructor; [| done..]. by intros x [= <-].
Qed.

(** A response of one of the built-in endpoints, with its line in the log. *)
Lemma answer_and_log (c : conn_t) (status : Z) (sh : shared_t) (s : sys_t) (r : cres conn_t) :
  conn_ok c -> shared_ok (de_now env) cnt sh -> INT_MIN <= status <= INT_MAX ->
  (exists b, r = Ret (writing b c) /\ buf_ok b) ->
  exists c' sh' s', (c ← r; sh ← log_request env req status sh; Ret (c, sh, s)) = Ret (c', sh', s') /\
    dispatched c c' /\ shared_ok (de_now env) cnt sh'.
Proof using Hfit.
  intros Hc Hsh Hs (b & -> & Hb). rewrite bind_Ret. destruct (log_request_ok status sh Hs Hsh) as (sh' & -> & Hsh'). rewrite bind_Ret.
  eexists _, _, _. split; [done |]. split; [by apply dispatched_writing | done].
Qed.

(** An error page. *)
Lemma error_and_log (c : conn_t) (status : Z) (sh : shared_t) (s : sys_t) :
  conn_ok c -> shared_ok (de_now env) cnt sh -> INT_MIN <= status <= INT_MAX ->
  exists c' sh' s', (b ← response_write_error (c_wbuf c) status (req_keep_alive req);
    let sh := set_sh_metrics (metrics_inc_requests (sh_metrics sh) status) sh in
    sh ← log_request env req status sh; Ret (writing b c, sh, s)) = Ret (c', sh', s') /\
    dispatched c c' /\ shared_ok (de_now env) cnt sh'.
Proof using Hfit.
  intros Hc Hsh Hs. destruct (response_write_error_Ret (OK := np_buf_write_buffer_ok) (c_wbuf c) status (req_keep_alive req) (ck_wbuf _ Hc) Hs) as (b & -> & Hb & _).
  rewrite bind_Ret. cbn zeta. destruct (log_request_ok status _ Hs (inc_requests_ok _ _ status _ Hsh)) as (sh' & -> & Hsh'). rewrite bind_Ret.
  eexists _, _, _. split; [done |]. split; [by apply dispatched_writing | done].
Qed.

(** A response from the cache. *)
Lemma cached_and_log (c : conn_t) (e : cache_entry_t) (sh : shared_t) (s : sys_t) :
  conn_ok c -> shared_ok (de_now env) cnt sh -> INT_MIN <= hdr_status (ce_hdr e) <= INT_MAX -> ce_data_len e = zlen (ce_data e) ->
  exists c' sh' s', (b ← (if ce_data_len e <=? buf_writable (c_wbuf c) then buf_append (c_wbuf c) (ce_data e) else Ret (c_wbuf c));
    sh ← log_request env req (hdr_status (ce_hdr e)) sh; Ret (writing b c, sh, s)) = Ret (c', sh', s') /\
    dispatched c c' /\ shared_ok (de_now env) cnt sh'.
Proof using Hfit.
  intros Hc Hsh Hs Hl. destruct (log_request_ok (hdr_status (ce_hdr e)) sh Hs Hsh) as (sh' & -> & Hsh').
  destruct (ce_data_len e <=? buf_writable (c_wbuf c)) eqn:E; bprop.
  - destruct (buf_append_Ret (c_wbuf c) (ce_data e) (ck_wbuf _ Hc) ltac:(lia)) as (b & -> & Hb & _). rewrite !bind_Ret.
    eexists _, _, _. split; [done |]. split; [by apply dispatched_writing | done].
  - rewrite !bind_Ret. eexists _, _, _. split; [done |]. split; [apply dispatched_writing; [done | by destruct Hc] | done].
Qed.

(** A file. *)
Lemma file_and_log (c : conn_t) (sh : shared_t) (s : sys_t) :
  conn_ok c -> shared_ok (de_now env) cnt sh ->
  exists c' sh' s', (r ← file_server_handle c req server (de_static env) s;
    let '(status, c, s) := r in sh ← log_request env req status sh; Ret (c, sh, s)) = Ret (c', sh', s') /\
    dispatched c c' /\ shared_ok (de_now env) cnt sh'.
Proof using Hfit.
  intros Hc Hsh. pose proof Hfit as [Hp Hh _ _ _ _ _ Hst Hne Hroot Htry].
  destruct (file_server_handle_spec c req server (de_static env) s pv fs Hp Hh (ck_wbuf _ Hc) Hst (fun _ => Hne) Hroot Htry)
    as (status & c' & s' & -> & Hok & Hk & Ho). rewrite bind_Ret.
  assert (INT_MIN <= status <= INT_MAX /\ c_state c' ∈ [CONN_WRITING_RESPONSE; CONN_SENDFILE; CONN_PROXYING; CONN_TUNNEL]) as [Hs Hst'].
  { unfold file_outcome in Ho. unfold INT_MIN, INT_MAX. repeat case_match; destruct_and!; subst status;
      (split; [lia |]); match goal with H : c_state c' = _ |- _ => rewrite H end; by repeat constructor. }
  destruct (log_request_ok status sh Hs Hsh) as (sh' & -> & Hsh'). rewrite bind_Ret. eexists _, _, _. split; [done |].
  split; [| done]. pose proof Hk as []. split_and!; [by eapply kept_ok | done..].
Qed.

(** A backend. *)
Lemma proxy_and_store (c : conn_t) (sh : shared_t) (s : sys_t) (pool : upstream_pool_t) :
  conn_ok c -> shared_ok (de_now env) cnt sh -> cnt < INT_MAX - 2 -> sh_upstreams sh !! idx = Some (Some pool) ->
  exists c' sh' s', (c ← mark_cacheable server idx req sh c;
    r ← proxy_handle c req idx pool (sh_metrics sh) (de_connect env) s;
    let '(c, pool, m, s) := r in
    Ret (c, set_sh_metrics m (set_sh_upstreams (<[idx := Some pool]> (sh_upstreams sh)) sh), s)) = Ret (c', sh', s') /\
    dispatched c c' /\ shared_ok (de_now env) (cnt + 3) sh'.
Proof using Hfit.
  intros Hc Hsh Hcnt Hpool. pose proof Hfit as [Hp Hh Hb _ _ _ Hhead _ _ _ _].
  destruct (mark_cacheable_ok sh c) as (c1 & -> & Hk & Hw). rewrite bind_Ret.
  assert (conn_ok c1) as Hc1 by (eapply kept_ok; [done | done | rewrite Hw; by destruct Hc]).
  destruct (Forall_lookup_1 _ _ _ _ (so_pools _ _ _ Hsh) Hpool pool eq_refl) as [Hinv Hle].
  destruct (proxy_handle_Ret c1 req idx pool (sh_metrics sh) (de_connect env) s pv bv fs cnt Hc1 Hp Hh Hb Hhead Hinv Hle Hcnt)
    as (c' & pool' & m' & s' & -> & (Hok & Hfd & Hrb & Hka & Hst) & Hinv' & Hle' & Hm). rewrite bind_Ret.
  eexists _, _, _. split; [done |]. split.
  - destruct Hk. split_and!; [done | congruence.. |]. destruct (c_state c'); try done; by repeat constructor.
  - apply (shared_ok_mono _ _ (cnt + 3)) in Hsh; [| lia]. pose proof Hsh as [H1 H2 H3 H4]. constructor; [done | | | done].
    + cbn. intros x Hx. destruct Hm as [Hm | Hm]; rewrite Hm in Hx; [by apply H2 |].
      destruct (sh_metrics sh) as [m |]; [| discriminate]. injection Hx as <-. by apply metrics_ok_errors, H2.
    + apply Forall_insert; [done |]. by intros x [= <-].
Qed.

End dispatch.

(** Every branch of dispatch is defined and answers. *)
Lemma handler_respond_Ret {RX : Regex} (env : dispatch_env) (cfg : np_config_t) (idx : nat) (server : np_server_config_t)
    (c : conn_t) (req : http_request_t) (sh : shared_t) (s : sys_t) (pv bv : bytes) (fs : list (bytes * bytes)) (cnt : Z) :
  request_fits env server req pv bv fs -> conn_ok c -> shared_ok (de_now env) cnt sh -> cnt < INT_MAX - 2 ->
  exists c' sh' s', handler_respond env cfg idx server c req sh s = Ret (c', sh', s') /\
    dispatched c c' /\ shared_ok (de_now env) (cnt + 3) sh'.
Proof.
  intros Hfit Hc Hsh Hcnt.
  assert (forall r : cres (conn_t * shared_t * sys_t), (exists c' sh' s', r = Ret (c', sh', s') /\ dispatched c c' /\ shared_ok (de_now env) cnt sh') ->
    exists c' sh' s', r = Ret (c', sh', s') /\ dispatched c c' /\ shared_ok (de_now env) (cnt + 3) sh') as Hw.
  { intros r (c' & sh' & s' & Hr & Hd & Hs'). exists c', sh', s'. split_and!; [done.. |]. eapply shared_ok_mono; [done | lia]. }
  unfold handler_respond. destruct (limit_ok _ _ _ _ _ _ _ Hfit sh Hsh) as (allowed & sh1 & -> & Hsh1 & Hup & Hme). rewrite bind_Ret.
  destruct (negb (bool_decide (allowed = NP_OK))); [apply Hw, (error_and_log _ _ _ _ _ _ _ Hfit); done |].
  assert (exists is_metrics, match sh_metrics sh1 with
    | Some _ => path_matches (req_path req) (mt_path (metrics cfg)) | None => Ret false end = Ret is_metrics /\
    (is_metrics = true -> sh_metrics sh1 <> None)) as (is_metrics & -> & Him).
  { destruct (sh_metrics sh1); [| by exists false]. rewrite (path_matches_ok _ _ _ _ _ _ Hfit). eauto. }
  rewrite bind_Ret. destruct is_metrics.
  { destruct (sh_metrics sh1) as [m |] eqn:Hm; [| by destruct Him]. apply Hw, (answer_and_log _ _ _ _ _ _ _ Hfit); try done.
    apply metrics_handle_Ret; [by apply (so_metrics _ _ _ Hsh1) | by destruct Hc]. }
  rewrite (path_matches_ok _ _ _ _ _ _ Hfit), bind_Ret. destruct (is_prefix (lit "/healthz") pv).
  { apply Hw, (answer_and_log _ _ _ _ _ _ _ Hfit); try done. apply health_handle_Ret. by destruct Hc. }
  destruct (cached_response_ok env server idx req pv bv fs cnt Hfit sh1 Hsh1) as (hit & sh2 & -> & Hsh2 & Hup2 & Hlen). rewrite bind_Ret.
  destruct hit as [e |]; [destruct (Hlen e eq_refl); by apply Hw, (cached_and_log _ _ _ _ _ _ _ Hfit) |].
  assert (exists c' sh' s', match static_root server with
    | _ :: _ => r ← file_server_handle c req server (de_static env) s;
                let '(status, c, s) := r in sh ← log_request env req status sh2; Ret (c, sh, s)
    | [] => b ← response_write_error (c_wbuf c) 404 (req_keep_alive req);
            let sh := set_sh_metrics (metrics_inc_requests (sh_metrics sh2) 404) sh2 in
            sh ← log_request env req 404 sh; Ret (writing b c, sh, s)
    end = Ret (c', sh', s') /\ dispatched c c' /\ shared_ok (de_now env) (cnt + 3) sh') as Hrest.
  { apply Hw. destruct (static_root server); [apply (error_and_log _ _ _ _ _ _ _ Hfit) | apply (file_and_log _ _ _ _ _ _ _ Hfit)]; done. }
  destruct (px_enabled (proxy server)); [| exact Hrest]. destruct (sh_upstreams sh2 !! idx) as [[pool |] |] eqn:Hpool; [| exact Hrest..].
  by apply (proxy_and_store env server idx req pv bv fs cnt Hfit).
Qed.

(** An environment without files, modules, or an answer of [connect]. *)
Definition sample_env : dispatch_env :=
  mk_denv (lit "10.0.0.1") 100 (AccessLog.mk_timespec 5 0, AccessLog.mk_timespec 5 9000) (lit "now") lookup_good
    (fun _ => None) None (fun _ x => Ret (0, x)).

Definition sample_shared : shared_t := mk_shared [] [] None (Some metrics_zero) [] ∅ (Some 1) [].

Lemma sample_conn_ok : conn_ok sample_conn.
Proof. constructor; [apply sample_buf_ok.. | discriminate]. Qed.

Lemma select_server_Ret {RX : Regex} (cfg : np_config_t) (req : http_request_t) (fs : list (bytes * bytes)) :
  Forall2 header_repr (req_headers req) fs -> servers cfg <> [] ->
  exists i server, select_server cfg req = Ret i /\ servers cfg !! i = Some server.
Proof.
  intros Hf Hne. unfold select_server, request_header.
  assert (exists server, servers cfg !! 0%nat = Some server) as [s0 H0] by (destruct (servers cfg); [done | eauto]).
  destruct (request_header_loop_Ret _ _ (STR (lit "Host")) (lit "Host") Hf (str_repr_STR _)) as (h & -> & Hv). rewrite bind_Ret.
  destruct (header_val fs (lit "Host")) as [v |]; [| rewrite Hv; cbn; eauto]. case_match; [eauto |].
  destruct Hv as (Hv & _). pose proof (str_repr_len _ _ Hv) as Hl.
  assert (load_n (ptr h) (if len h <? 255 then len h else 255) = Ret (take 255 v)) as ->.
  { apply load_n_Ret. replace (if len h <? 255 then len h else 255) with (Z.of_nat (Nat.min 255 (length v)));
      [eapply readable_take_min; exact Hv |]. rewrite Hl. case_match; bprop; lia. }
  rewrite bind_Ret. unfold server_named. destruct (list_find _ (servers cfg)) as [[i x] |] eqn:E; [| eauto].
  apply list_find_Some in E as (Hi & _). eauto.
Qed.

(** ** The cache between two requests *)

Lemma last_default {A} (l : list A) (x d : A) : last l = Some x -> List.last l d = x.
Proof. induction l as [| a [| b l] IH]; [done | by intros [= <-] |]. intros H. exact (IH H). Qed.

(** What is looked up depends on the file of the key only. *)
Lemma cache_lookup_same (s : cache_store_t) (key : bytes) (now : Z) (io : lookup_io) (f g : gmap bytes bytes) :
  store_ok s -> f !! entry_path s key = g !! entry_path s key -> (cache_lookup s key now io f).1 = (cache_lookup s key now io g).1.
Proof. intros Hs H. unfold cache_lookup. rewrite cache_path_eq, H by done. by repeat case_match. Qed.

(** The connection when the whole response [data] of the backend was collected. *)
Definition collected (data : bytes) (cap : Z) (c : conn_t) : conn_t :=
  set_c_cache (mk_ccache (cc_store (c_cache c)) (cc_key (c_cache c)) (Some data) (zlen data) cap) c.

Lemma cached_response_key {RX : Regex} (env : dispatch_env) (server : np_server_config_t) (idx : nat) (req : http_request_t)
    (sh : shared_t) (store : cache_store_t) (key : bytes) :
  ca_enabled (cache server) = true -> sh_stores sh !! idx = Some (Some store) -> req_method req = HTTP_METHOD_GET ->
  cache_key_from_request req 1024 = Ret key ->
  cached_response env server idx req sh =
    let '(st, e, files) := cache_lookup store key (de_now env) (de_lookup env) (sh_files sh) in
    match st, e with
    | NP_OK, Some e => if 0 <? ce_data_len e then Ret (Some e, set_sh_files files sh) else Ret (None, set_sh_files files sh)
    | _, _ => Ret (None, set_sh_files files sh)
    end.
Proof. intros H1 H2 H3 H4. unfold cached_response. by rewrite H1, H2, H3, H4, bind_Ret. Qed.

(** C38 A response kept when the backend closed is found by the next request with
    the same key: its bytes, with status 200, during the ten seconds after, when the
    lookup's system calls succeed.  This needs a key of at most 255 bytes: the connection keeps no more of a key than
    that, and the entry of a longer key, unless the hashes collide, is stored where
    no request looks, so that such a request never finds it. *)
Theorem cache_between_requests {RX : Regex} (env : dispatch_env) (penv : proxy_env) (server : np_server_config_t) (idx : nat)
    (req : http_request_t) (sh : shared_t) (store : cache_store_t) (key data : bytes) (cap : Z) (c c1 : conn_t) (f : gmap bytes bytes) :
  ca_enabled (cache server) = true -> sh_stores sh !! idx = Some (Some store) -> pe_stores penv = sh_stores sh -> store_ok store ->
  req_method req = HTTP_METHOD_GET -> cache_key_from_request req 1024 = Ret key ->
  mark_cacheable server idx req sh c = Ret c1 ->
  0 < zlen data < 2 ^ 62 -> length (pe_pad penv) = 4%nat -> 0 <= pe_now penv < 2 ^ 62 -> pe_insert penv = io_good data [] ->
  exists c2 f', store_response penv (collected data cap c1) f = Ret (c2, f') /\ cc_buf (c_cache c2) = None /\
    (zlen key <= 255 -> de_now env <= pe_now penv + 10 -> lookup_complete (de_lookup env) (zlen data) ->
     exists e, cached_response env server idx req (set_sh_files f' sh) = Ret (Some e, set_sh_files f' sh) /\
       ce_data e = data /\ ce_data_len e = zlen data /\ hdr_status (ce_hdr e) = 200) /\
    (fnv1a (take 255 key) <> fnv1a key -> f !! entry_path store key = None ->
     exists sh', cached_response env server idx req (set_sh_files f' sh) = Ret (None, sh')).
Proof.
  intros Hen Hst Hps Hs Hget Hkey Hmark Hlen Hpad Hnow Hio.
  unfold mark_cacheable in Hmark. rewrite Hen, Hst, Hkey, bind_Ret in Hmark. injection Hmark as <-.
  destruct (cache_insert_fin store (take 255 key) 200 data [] 10 (pe_now penv) (pe_pad penv) f Hs Hpad) as (states & fin & Hi & Hl & Hfin).
  exists (set_c_cache (mk_ccache (Some idx) (take 255 key) None 0 0) c), fin.
  split.
  { unfold store_response, collected. cbn [c_cache set_c_cache cc_store cc_buf cc_len cc_key].
    rewrite (proj2 (Z.ltb_lt 0 (zlen data))) by lia. rewrite Hps, Hst, Nat2Z.id, firstn_all, Hio.
    change (strncpy key 255) with (take 255 key). rewrite Hi. by rewrite (last_default _ _ f Hl). }
  split; [done |].
  rewrite (cached_response_key env server idx req (set_sh_files fin sh) store key Hen Hst Hget Hkey). cbn [sh_files set_sh_files]. split.
  - intros Hk Hn Hgood. rewrite take_ge in Hfin by lia. specialize (Hfin key). rewrite decide_True in Hfin by done.
    destruct (cache_lookup_file store key 200 data [] 10 (pe_now penv) (de_now env) (pe_pad penv) (de_lookup env) fin Hs Hpad) as [_ ->]; try done; try lia.
    + unfold INT_MIN, INT_MAX, LLONG_MIN, LLONG_MAX. constructor; cbn; unfold INT_MIN, INT_MAX, LLONG_MIN, LLONG_MAX; lia.
    + cbn [length]. lia.
    + cbn [Z.ltb Z.compare andb]. rewrite (proj2 (Z.ltb_ge (pe_now penv + 10) (de_now env))) by lia. cbn [length andb ce_data_len].
      rewrite (proj2 (Z.ltb_lt 0 (zlen data + Z.of_nat 0))) by lia. eexists. split; [done |].
      cbn [ce_data ce_data_len ce_hdr hdr_status length]. rewrite app_nil_r. split_and!; [done | lia | done].
    + cbn [length]. by rewrite Z.add_0_r.
  - intros Hne Hf. pose proof (cache_lookup_same store key (de_now env) (de_lookup env) fin f Hs) as Hsame.
    rewrite Hfin, decide_False in Hsame by congruence. specialize (Hsame eq_refl).
    assert ((cache_lookup store key (de_now env) (de_lookup env) f).1 = (NP_ERR, None)) as Hno
      by (unfold cache_lookup; rewrite cache_path_eq by done; by rewrite Hf).
    rewrite Hno in Hsame. destruct (cache_lookup store key _ _ fin) as [[st e] files]. cbn in Hsame. injection Hsame as -> ->. eauto.
Qed.

Definition cached_server : @np_server_config_t literal_regex :=
  @mk_server literal_regex 80 [] [] [] [] [] (mk_tls false 0 [] []) (mk_proxy true BALANCE_ROUND_ROBIN 0 0 0 [])
    (mk_cache true (lit "c") 10 60) (mk_gzip false 0).

Definition cached_shared : shared_t := mk_shared [] [Some (mk_store (lit "c") 10)] None None [] ∅ None [].

Definition sample_penv (data : bytes) : proxy_env :=
  mk_penv (fun _ => true) 100 [0; 0; 0; 0] (io_good data []) [Some (mk_store (lit "c") 10)] None
    (AccessLog.mk_timespec 5 0, AccessLog.mk_timespec 5 9000) (lit "now").

Lemma cache_between_requests_witness :
  exists c2 f' e, store_response (sample_penv (lit "HTTP/1.1 200 OK"))
      (collected (lit "HTTP/1.1 200 OK") 8192 (set_c_cache (mk_ccache (Some 0%nat) (lit "GET:_:/a") None 0 0) sample_conn)) ∅ = Ret (c2, f') /\
    cached_response sample_env cached_server 0 (sample_req (lit "/a")) (set_sh_files f' cached_shared) =
      Ret (Some e, set_sh_files f' cached_shared) /\ ce_data e = lit "HTTP/1.1 200 OK".
Proof.
  destruct (cache_between_requests sample_env (sample_penv (lit "HTTP/1.1 200 OK")) cached_server 0 (sample_req (lit "/a"))
    cached_shared (mk_store (lit "c") 10) (lit "GET:_:/a") (lit "HTTP/1.1 200 OK") 8192 sample_conn
    (set_c_cache (mk_ccache (Some 0%nat) (lit "GET:_:/a") None 0 0) sample_conn) ∅) as (c2 & f' & Hr & _ & Hhit & _);
    try reflexivity; try (cbn; lia); [vm_compute; discriminate |].
  destruct Hhit as (e & Hc & Hd & _); [vm_compute; discriminate | vm_compute; discriminate | by apply lookup_good_complete |].
  exists c2, f', e. split; [exact Hr |]. split; [exact Hc | exact Hd].
Defined.
