(* ===== verification/Hello.v ===== *)
(** * The example module: tests/hello_module.c

    A module that answers one path.  Its handler satisfies what the worker relies
    on of a module ([ModuleOK]), so the theorems about the worker hold with it
    loaded; its table entry is what [dlsym] finds. *)

From Stdlib Require Import ZArith Lia String.
From stdpp Require Import base numbers option list.
From S2P Require Import Prelude CLib StringUtil Memory Buffer Parser Request Response Config Conn Modules Handler.

(** [strncmp(a, b, n) == 0]: it reads on only while the bytes agree and are not
    the terminator. *)
Fixpoint strncmp_loop (n : nat) (a b : cptr) (i : Z) : cres bool :=
  match n with
  | O => Ret true
  | S n' =>
      x ← load a i; y ← load b i;
      if negb (x =? y) then Ret false
      else if x =? 0 then Ret true
      else strncmp_loop n' a b (i + 1)
  end.

Definition hello_path : bytes := lit "/hello".
Definition hello_body : bytes := lit "<h1>Hello from Dynamic Nproxy Module!</h1>".

Definition hello_init : Z := 0.

Definition hello_handler (c : conn_t) (req : http_request_t) : cres (Z * conn_t) :=
  same ← (if len (req_path req) =? 6 then strncmp_loop 6 (ptr (req_path req)) (cstring hello_path) 0 else Ret false);
  if (same : bool) then
    b ← response_write_simple (c_wbuf c) 200 (Some (lit "OK")) (Some (lit "text/html")) (Some hello_body) (req_keep_alive req);
    Ret (NP_MODULE_HANDLED, writing b c)
  else Ret (NP_MODULE_DECLINED, c).

(** The table [nproxy_module]; its handler and its destructor have numbers. *)
Definition hello_module : nproxy_module_t := mk_module (Some hello_init) (Some 0%nat) (Some 0%nat).

(** The handler as the worker calls it. *)
Definition hello_call (h : nat) (x : conn_t * http_request_t) : cres (Z * (conn_t * http_request_t)) :=
  r ← hello_handler x.1 x.2; Ret (r.1, (r.2, x.2)).

(** ** Lemmas *)

Lemma strncmp_loop_Ret (n : nat) (a b : cptr) (i : Z) (va vb : bytes) :
  (forall k, (k < n)%nat -> exists x, va !! k = Some x /\ load a (i + Z.of_nat k) = Ret x) ->
  (forall k, (k < n)%nat -> exists y, vb !! k = Some y /\ load b (i + Z.of_nat k) = Ret y) ->
  Forall (fun x => x <> 0) vb -> length va = n -> length vb = n ->
  strncmp_loop n a b i = Ret (eqb_bytes va vb).
Proof.
  revert i va vb. induction n as [| n IH]; intros i va vb Ha Hb Hz La Lb.
  - apply nil_length_inv in La, Lb. by subst.
  - destruct va as [| x va], vb as [| y vb]; try discriminate. cbn [strncmp_loop].
    destruct (Ha 0%nat ltac:(lia)) as (x' & [= <-] & Hx). destruct (Hb 0%nat ltac:(lia)) as (y' & [= <-] & Hy).
    rewrite Z.add_0_r in Hx, Hy. rewrite Hx, bind_Ret, Hy, bind_Ret. apply Forall_cons in Hz as [Hy0 Hz].
    destruct (Z.eqb_spec x y) as [<- | Hne]; cbn [negb].
    + rewrite (proj2 (Z.eqb_neq _ _)) by done. rewrite (IH (i + 1) va vb); [| | | done | injection La; lia | injection Lb; lia].
      * f_equal. unfold eqb_bytes. apply bool_decide_ext. split; [by intros -> | by intros [= ->]].
      * intros k Hk. destruct (Ha (S k) ltac:(lia)) as (z & Hz' & Hl). exists z. split; [done |]. rewrite <- Hl. f_equal. lia.
      * intros k Hk. destruct (Hb (S k) ltac:(lia)) as (z & Hz' & Hl). exists z. split; [done |]. rewrite <- Hl. f_equal. lia.
    + f_equal. symmetry. unfold eqb_bytes. apply bool_decide_eq_false. congruence.
Qed.

Lemma hello_path_test (p : str_t) (pv : bytes) :
  str_repr p pv ->
  (if len p =? 6 then strncmp_loop 6 (ptr p) (cstring hello_path) 0 else Ret false) = Ret (eqb_bytes pv hello_path).
Proof.
  intros Hp. pose proof (str_repr_len _ _ Hp) as Hl. destruct (Z.eqb_spec (len p) 6) as [E | E].
  - assert (forall (q : cptr) (v : bytes), readable q 6 v -> forall k, (k < 6)%nat -> exists x, v !! k = Some x /\ load q (0 + Z.of_nat k) = Ret x) as Hrd.
    { intros q v Hq k Hk. destruct (load_Ret q 6 (Z.of_nat k) v Hq ltac:(lia)) as (x & Hx & Hv). rewrite Nat2Z.id in Hv. eauto. }
    apply strncmp_loop_Ret; [apply Hrd; rewrite <- E; exact Hp | apply Hrd; exact (str_repr_STR hello_path) | | lia | done].
    refine (bool_decide_unpack _ _). vm_compute. exact I.
  - f_equal. symmetry. unfold eqb_bytes. apply bool_decide_eq_false. intros ->. apply E. rewrite Hl. done.
Qed.

(** The head of the answer. *)
Definition hello_head (ka : bool) : bytes :=
  print_response_head 200 (lit "OK")
    [(lit "Content-Type", lit "text/html"); (lit "Content-Length", fmt_u (zlen hello_body)); (lit "Connection", conn_token ka)].

(** The handler answers its path and nothing else: for "/hello" the page is in the
    write buffer after what was there, if there is room, and the connection is
    writing; for any other path nothing changes. *)
Theorem hello_handler_correct (c : conn_t) (req : http_request_t) (pv : bytes) :
  conn_ok c -> str_repr (req_path req) pv ->
  (pv <> hello_path -> hello_handler c req = Ret (NP_MODULE_DECLINED, c)) /\
  (pv = hello_path -> exists b, hello_handler c req = Ret (NP_MODULE_HANDLED, writing b c) /\ buf_ok b /\
     (zlen (hello_head (req_keep_alive req)) + zlen hello_body <= buf_writable (c_wbuf c) ->
      contents b = contents (c_wbuf c) ++ hello_head (req_keep_alive req) ++ hello_body)).
Proof.
  intros Hok Hp. unfold hello_handler. rewrite (hello_path_test _ _ Hp), bind_Ret. unfold eqb_bytes. split; intros Hpv.
  - by rewrite bool_decide_false.
  - rewrite bool_decide_true by done. assert (INT_MIN <= 200 <= INT_MAX) as H200 by (unfold INT_MIN, INT_MAX; lia).
    destruct (Z.leb_spec (zlen (hello_head (req_keep_alive req)) + zlen hello_body) (buf_writable (c_wbuf c))) as [Hr | Hr].
    + destruct (response_write_simple_Ret (OK := np_buf_write_buffer_ok) (c_wbuf c) 200 (lit "OK") (lit "text/html") hello_body (req_keep_alive req)
        (ck_wbuf _ Hok) H200) as (b & -> & Hb & Hc); [vm_compute; split; reflexivity | vm_compute; discriminate | exact Hr |].
      rewrite bind_Ret. exists b. by split_and!.
    + destruct (response_write_simple_ok (OK := np_buf_write_buffer_ok) (c_wbuf c) 200 (lit "OK") (lit "text/html") hello_body (req_keep_alive req)
        (ck_wbuf _ Hok) H200) as (b & -> & Hb); [vm_compute; reflexivity | vm_compute; discriminate |].
      rewrite bind_Ret. exists b. split_and!; [done | done | lia].
Qed.

(** The module keeps to what the worker relies on. *)
#[export] Instance hello_module_ok : ModuleOK hello_call.
Proof.
  intros h c req pv Hok Hp. unfold hello_call. cbn [fst snd]. destruct (hello_handler_correct c req pv Hok Hp) as [Hno Hyes].
  destruct (decide (pv = hello_path)) as [E | E].
  - destruct (Hyes E) as (b & -> & Hb & _). rewrite bind_Ret. eexists _, _. split; [done |]. right. eauto.
  - rewrite (Hno E), bind_Ret. eexists _, _. split; [done | by left].
Qed.
