(* ===== verification/Worker.v ===== *)
(** * The worker process: src/proc/worker.c

    The handlers of a client's connection, first on the connection as a value
    ([handle_write], [handle_read], [client_event]), then on the worker's store of
    connections, where they are found by address and given back to the pool
    ([on_client_event], [on_accept_event], [on_conn_timeout], [worker_conn_close]),
    and the waiting of a worker that shuts down.

    The result of a value-level handler is the connection and its [fate].  What a
    handler does to the event loop is in the calls of [sys_t]; a descriptor's file
    is the argument [files]. *)

From Stdlib Require Import ZArith Lia String.
From stdpp Require Import base numbers option list gmap.
From S2P Require Import Prelude CLib StringUtil Memory Buffer Parser Request Response Config Upstream RateLimit EventLoop Timeout Conn Kernel FileServer Metrics Cache Features Modules Proxy Handler.

(** ** Events *)

(** [EV_WRITE | EV_HUP | EV_EDGE]. *)
Definition EV_WRITE_ONLY : Z := Z.lor (Z.lor EV_WRITE EV_HUP) EV_EDGE.

Definition EPOLLERR : Z := 0x008.

(** [worker_client_event_mod]. *)
Definition worker_client_event_mod (c : conn_t) (events : Z) (s : sys_t) : sys_t :=
  sys_call_log [SysEpollMod (c_fd c) events] s.

Definition outcome : Type := conn_t * fate * list region * sys_t.

(** ** Writing *)

(** The end of a response on a connection that is kept. *)
Definition next_request (c : conn_t) (h : list region) (s : sys_t) : cres outcome :=
  r ← arena_reset h (c_arena c).2;
  let '(a, h) := r in
  let c := set_c_state CONN_READING_REQUEST (set_c_response None (set_c_request None (set_c_arena ((c_arena c).1, a) c))) in
  Ret (c, Stay, h, worker_client_event_mod c EV_READ_ONLY s).

(** [sendfile]: how much was sent, or an error.  It sends what the file has at the
    offset, at most what is asked for. *)
Inductive sent_t : Type := Sent (n : Z) | SentErr (e : errno).

Definition k_sendfile (files : Z -> bytes) (c : conn_t) (s : sys_t) : sent_t * conn_t * sys_t :=
  let '(a, s) := next_answer s in
  match a with
  | ACount n =>
      let rest := drop (Z.to_nat (c_file_offset c)) (files (c_file_fd c)) in
      let bs := take (Z.to_nat n) (take (Z.to_nat (c_file_remaining c)) rest) in
      (Sent (zlen bs), set_c_file_offset (c_file_offset c + zlen bs) c,
       mk_sys (s_io s) (s_calls s) (s_out s ++ [(c_fd c, bs)]) (s_in s))
  | AError => (SentErr EOTHER, c, s)
  | _ => (SentErr EAGAIN, c, s)
  end.

(** The loop around it: the last answer. *)
Fixpoint sendfile_all (fuel : nat) (files : Z -> bytes) (c : conn_t) (s : sys_t) : cres (sent_t * conn_t * sys_t) :=
  match fuel with
  | O => Stuck
  | S f =>
      let '(r, c, s) := k_sendfile files c s in
      match r with
      | Sent n =>
          let c := if 0 <? n then set_c_file_remaining (c_file_remaining c - n) c else c in
          if (0 <? n) && (0 <? c_file_remaining c) then sendfile_all f files c s else Ret (r, c, s)
      | SentErr _ => Ret (r, c, s)
      end
  end.

Definition sendfile_loop (files : Z -> bytes) (c : conn_t) (s : sys_t) : cres (sent_t * conn_t * sys_t) :=
  sendfile_all (S (length (s_io s))) files c s.

(** After the calls of [sendfile]. *)
Definition file_end (c : conn_t) (h : list region) (s : sys_t) : cres outcome :=
  if c_file_remaining c =? 0 then
    let s := sys_call_log [SysClose (c_file_fd c)] s in
    let c := set_c_file_fd (-1) c in
    if c_keep_alive c then next_request c h s else Ret (c, PoolPut, h, s)
  else Ret (c, Stay, h, worker_client_event_mod c EV_WRITE_READ s).

(** The part of [handle_write] for a connection that sends a file. *)
Definition write_file (files : Z -> bytes) (c : conn_t) (h : list region) (s : sys_t) : cres outcome :=
  r ← (if 0 <? buf_readable (c_wbuf c) then write_loop (c_fd c) (c_wbuf c) s else Ret (0, c_wbuf c, s));
  let '(_, b, s) := r in
  let c := set_c_wbuf b c in
  if 0 <? buf_readable (c_wbuf c) then Ret (c, Stay, h, worker_client_event_mod c EV_WRITE_READ s)
  else
    r ← (if 0 <? c_file_remaining c then sendfile_loop files c s else Ret (Sent 0, c, s));
    let '(sent, c, s) := r in
    match sent with
    | SentErr EOTHER => Ret (c, PoolPut, h, s)
    | _ => file_end c h s
    end.

(** The part for a connection whose response comes from a backend. *)
Definition write_proxied (c : conn_t) (h : list region) (s : sys_t) : cres outcome :=
  r ← write_loop (c_fd c) (c_upstream_rbuf c) s;
  let '(_, b, s) := r in
  let c := set_c_upstream_rbuf b c in
  Ret (c, Stay, h,
       worker_client_event_mod c (if buf_readable (c_upstream_rbuf c) =? 0 then EV_READ_ONLY else EV_WRITE_READ) s).

(** The part for any other connection. *)
Definition write_response (c : conn_t) (h : list region) (s : sys_t) : cres outcome :=
  r ← write_loop (c_fd c) (c_wbuf c) s;
  let '(_, b, s) := r in
  let c := set_c_wbuf b c in
  if buf_readable (c_wbuf c) =? 0 then
    if bool_decide (c_state c = CONN_CLOSING) || negb (c_keep_alive c) then Ret (c, PoolPut, h, s)
    else next_request c h s
  else Ret (c, Stay, h, s).

Definition handle_write (files : Z -> bytes) (c : conn_t) (h : list region) (s : sys_t) : cres outcome :=
  match c_state c with
  | CONN_SENDFILE => write_file files c h s
  | CONN_PROXYING | CONN_TUNNEL => write_proxied c h s
  | _ => write_response c h s
  end.

(** ** Reading *)

(** The part of [handle_read] for a tunnel. *)
Definition read_tunnel (c : conn_t) (h : list region) (s : sys_t) : cres outcome :=
  r ← read_loop (c_fd c) (c_upstream_wbuf c) s;
  let '(n, b, s) := r in
  let c := set_c_upstream_wbuf b c in
  if (n =? np_status_code NP_ERR_CLOSED) || (n =? np_status_code NP_ERR) then Ret (c, WorkerClose, h, s)
  else if 0 <? buf_readable (c_upstream_wbuf c) then
    r ← write_loop (c_upstream_fd c) (c_upstream_wbuf c) s;
    let '(_, b, s) := r in
    let c := set_c_upstream_wbuf b c in
    let events := if buf_readable (c_upstream_wbuf c) =? 0 then EV_READ_ONLY else EV_WRITE_READ in
    Ret (c, Stay, h, sys_call_log [SysEpollMod (c_upstream_fd c) events] s)
  else Ret (c, Stay, h, s).

(** After dispatch. *)
Definition after_dispatch (c : conn_t) (h : list region) (s : sys_t) : cres outcome :=
  match c_state c with
  | CONN_PROXYING | CONN_TUNNEL => Ret (c, Stay, h, s)
  | _ =>
      r ← write_loop (c_fd c) (c_wbuf c) s;
      let '(_, b, s) := r in
      let c := set_c_wbuf b c in
      if buf_readable (c_wbuf c) =? 0 then if c_keep_alive c then next_request c h s else Ret (c, PoolPut, h, s)
      else
        let c := set_c_state CONN_WRITING_RESPONSE c in
        Ret (c, Stay, h, worker_client_event_mod c EV_WRITE_ONLY s)
  end.

Section reading.
Context {A : Allocator} {RX : Regex}.

(** [buf_read_ptr]. *)
Definition read_ptr (b : np_buf_t) : cptr := match b_data b with Some d => Ptr d (read_pos b) | None => NULL end.

(** A complete request: [ps] is the state of the parser, [ts] the monotonic
    clock. *)
Definition serve (env : dispatch_env) (cfg : np_config_t) (ts : Z * Z) (ps : http_parse_state_t str_t) (avail : Z)
    (c : conn_t) (h : list region) (sh : shared_t) (s : sys_t) : cres (outcome * shared_t) :=
  r ← request_create h (c_arena c).2;
  let '(req, a, h) := r in
  let c := set_c_arena ((c_arena c).1, a) c in
  match req with
  | None => Ret ((c, PoolPut, h, s), sh)
  | Some (_, req) =>
      r ← request_populate req ps (read_ptr (c_rbuf c)) avail ts;
      let '(_, req) := r in
      let c := set_c_request (Some req) (set_c_keep_alive (ps_keep_alive ps)
                 (set_c_rbuf (buf_consume (c_rbuf c) (ps_parsed_bytes ps)) c)) in
      r ← handler_dispatch env cfg c h req sh s;
      let '(c, h, req, sh, s) := r in
      o ← after_dispatch (set_c_request (Some req) c) h s;
      Ret (o, sh)
  end.

Definition handle_read (env : dispatch_env) (cfg : np_config_t) (ts : Z * Z) (c : conn_t) (h : list region) (sh : shared_t)
    (s : sys_t) : cres (outcome * shared_t) :=
  if bool_decide (c_state c = CONN_TUNNEL) then o ← read_tunnel c h s; Ret (o, sh)
  else
    r ← read_loop (c_fd c) (c_rbuf c) s;
    let '(n, b, s) := r in
    let c := set_c_rbuf b c in
    if (n =? np_status_code NP_ERR_CLOSED) || (n =? np_status_code NP_ERR) then Ret ((c, PoolPut, h, s), sh)
    else
      let avail := buf_readable (c_rbuf c) in
      if avail =? 0 then Ret ((c, Stay, h, s), sh)
      else
        r ← http_parse_request http_parse_state_init (read_ptr (c_rbuf c)) avail;
        match r with
        | (PARSE_INCOMPLETE, _) => Ret ((c, Stay, h, s), sh)
        | (PARSE_ERROR, _) =>
            b ← response_write_error (c_wbuf c) 400 false;
            let c := set_c_state CONN_WRITING_RESPONSE (set_c_wbuf b c) in
            Ret ((c, Stay, h, worker_client_event_mod c EV_WRITE_ONLY s), sh)
        | (PARSE_DONE, ps) => serve env cfg ts ps avail c h sh s
        end.

(** ** The store of connections *)

Record worker_t : Type := mk_worker {
  wk_pool : pool_world;
  wk_shared : shared_t;
  wk_sys : sys_t;
  wk_timers : timeout_wheel_t;
  wk_active : Z;
  wk_now : Z
}.

Definition set_pool_sys (w : pool_world) (s : sys_t) (k : worker_t) : worker_t :=
  mk_worker w (wk_shared k) s (wk_timers k) (wk_active k) (wk_now k).

(** [conn_pool_put], with its system calls after the ones before. *)
Definition pool_put (k : worker_t) (addr : Z) : cres worker_t :=
  let w := wk_pool k in
  w ← conn_pool_put (mk_world (w_conns w) (w_heap w) (w_free_head w) (w_free_count w) (w_max_free w) []) addr;
  Ret (set_pool_sys w (sys_call_log (w_calls w) (wk_sys k)) k).

Definition worker_conn_close (k : worker_t) (addr : Z) : cres worker_t :=
  n ← i32 (wk_active k - 1);
  pool_put (mk_worker (wk_pool k) (wk_shared k) (wk_sys k) (wk_timers k) n (wk_now k)) addr.

(** Store what a handler made of the connection at [addr], and carry out its fate. *)
Definition settle (k : worker_t) (addr : Z) (o : outcome) (sh : shared_t) : cres worker_t :=
  let '(c, ft, h, s) := o in
  let k := mk_worker (set_conns (<[addr := c]> (w_conns (wk_pool k))) (Conn.set_heap h (wk_pool k))) sh s (wk_timers k) (wk_active k) (wk_now k) in
  match ft with
  | Stay => Ret k
  | PoolPut => pool_put k addr
  | WorkerClose => worker_conn_close k addr
  end.

Definition on_conn_timeout (k : worker_t) (addr : Z) : cres worker_t := pool_put k addr.

(** The two handlers on the connection at [addr]; a freed one is undefined. *)
Definition read_at (env : dispatch_env) (cfg : np_config_t) (ts : Z * Z) (k : worker_t) (addr : Z) : cres worker_t :=
  match w_conns (wk_pool k) !! addr with
  | None => Stuck
  | Some c =>
      r ← handle_read env cfg ts c (w_heap (wk_pool k)) (wk_shared k) (wk_sys k);
      settle k addr r.1 r.2
  end.

Definition write_at (files : Z -> bytes) (k : worker_t) (addr : Z) : cres worker_t :=
  match w_conns (wk_pool k) !! addr with
  | None => Stuck
  | Some c => o ← handle_write files c (w_heap (wk_pool k)) (wk_sys k); settle k addr o (wk_shared k)
  end.

Definition touch (k : worker_t) (addr : Z) (c : conn_t) : worker_t :=
  set_pool_sys (set_conns (<[addr := set_c_last_active (wk_now k) c]> (w_conns (wk_pool k))) (wk_pool k)) (wk_sys k) k.

Definition on_client_event (env : dispatch_env) (cfg : np_config_t) (files : Z -> bytes) (ts : Z * Z) (events : Z)
    (k : worker_t) (addr : Z) : cres worker_t :=
  match w_conns (wk_pool k) !! addr with
  | None => Stuck
  | Some c =>
      let k := touch k addr c in
      if has_event events (Z.lor EV_HUP EPOLLERR) then pool_put k addr
      else
        k ← (if has_event events EV_READ then read_at env cfg ts k addr else Ret k);
        if has_event events EV_WRITE then write_at files k addr else Ret k
  end.

(** What [accept4] answers, with what [malloc] answers for the connection and for
    its timer. *)
Inductive accept_answer : Type :=
| Accepted (fd peer : Z) (mem : conn_mem) (timer : option Z)
| AcceptError.

Definition on_conn_timeout_cb : nat := 2.

(** The loop that accepts; it ends when [accept4] would block.  [now] is the time
    the timers start from. *)
Fixpoint accept_loop (read_timeout now : Z) (answers : list accept_answer) (k : worker_t) : cres worker_t :=
  match answers with
  | [] | AcceptError :: _ => Ret k
  | Accepted fd peer mem timer :: answers' =>
      r ← conn_pool_get (wk_pool k) mem fd (Some peer);
      match r with
      | (None, w) => accept_loop read_timeout now answers' (set_pool_sys w (sys_call_log [SysClose fd] (wk_sys k)) k)
      | (Some addr, w) =>
          n ← i32 (wk_active k + 1);
          r ← timeout_add (wk_timers k) read_timeout on_conn_timeout_cb addr now timer;
          accept_loop read_timeout now answers'
            (mk_worker w (wk_shared k) (sys_call_log [SysEpollAdd fd EV_READ_ONLY] (wk_sys k)) r.2 n (wk_now k))
      end
  end.

(** [listeners] are the descriptors of the listening sockets. *)
Definition on_accept_event (cfg : np_config_t) (listeners : list Z) (fd now : Z) (answers : list accept_answer) (k : worker_t) : cres worker_t :=
  if bool_decide (fd ∈ listeners) then accept_loop (read_timeout cfg) now answers k else Ret k.

(** The backend's side of a connection. *)
Definition upstream_at (env : proxy_env) (fd events : Z) (k : worker_t) (addr : Z) : cres worker_t :=
  match w_conns (wk_pool k) !! addr with
  | None => Stuck
  | Some c =>
      let sh := wk_shared k in
      let pool := i ← c_proxy_pool c; p ← sh_upstreams sh !! i; p in
      r ← proxy_on_upstream_event env fd events c (mk_pshared pool (sh_files sh) (sh_log sh)) (wk_sys k);
      let '(c', ft, ps, s) := r in
      let ups := match c_proxy_pool c with Some i => <[i := ps_pool ps]> (sh_upstreams sh) | None => sh_upstreams sh end in
      settle k addr (c', ft, w_heap (wk_pool k), s)
        (set_sh_log (ps_log ps) (set_sh_files (ps_fs ps) (set_sh_upstreams ups sh)))
  end.

End reading.

(** ** Shutting down *)

(** The loop that waits for the connections to end: [times] are the readings of
    the clock; each turn sleeps.  The result is what is left of them. *)
Fixpoint drain_loop (active start timeout : Z) (times : list Z) : list Z :=
  match times with
  | [] => []
  | t :: times' => if (0 <? active) && (t - start <? timeout) then drain_loop active start timeout times' else times
  end.

Definition drain_timeout (shutdown_timeout : Z) : Z := if 0 <? shutdown_timeout then shutdown_timeout else 5.

(** ** Lemmas *)

(** Take apart [m ≫= f = Ret x]. *)
Ltac inv_bind H := apply bind_inv in H as (?r & ?Hm & H).

(** The steps of a connection between two releases: an event of the client or of
    the backend after which it stays. *)
Inductive conn_step {A : Allocator} {RX : Regex} : conn_t -> conn_t -> Prop :=
| step_read env cfg ts c h sh s c' h' s' sh' :
    handle_read env cfg ts c h sh s = Ret ((c', Stay, h', s'), sh') -> conn_step c c'
| step_write files c h s c' h' s' :
    handle_write files c h s = Ret (c', Stay, h', s') -> conn_step c c'
| step_upstream env fd events c sh s c' sh' s' :
    proxy_on_upstream_event env fd events c sh s = Ret (c', Stay, sh', s') -> conn_step c c'.

Lemma next_request_state (c c' : conn_t) (h h' : list region) (s s' : sys_t) (ft : fate) :
  next_request c h s = Ret (c', ft, h', s') -> c_state c' = CONN_READING_REQUEST /\ ft = Stay.
Proof. unfold next_request. intros H. inv_bind H. destruct r as [a h1]. by injection H as <- <- <- <-. Qed.

Lemma after_dispatch_state (c c' : conn_t) (h h' : list region) (s s' : sys_t) (ft : fate) :
  after_dispatch c h s = Ret (c', ft, h', s') -> ft = Stay -> c_state c' <> CONN_SENDFILE.
Proof.
  unfold after_dispatch.
  assert (forall c0 : conn_t, (r ← write_loop (c_fd c0) (c_wbuf c0) s;
      let '(_, b, s) := r in
      let c := set_c_wbuf b c0 in
      if buf_readable (c_wbuf c) =? 0 then if c_keep_alive c then next_request c h s else Ret (c, PoolPut, h, s)
      else
        let c := set_c_state CONN_WRITING_RESPONSE c in
        Ret (c, Stay, h, worker_client_event_mod c EV_WRITE_ONLY s)) = Ret (c', ft, h', s') ->
      ft = Stay -> c_state c' <> CONN_SENDFILE) as Hrest.
  { intros c0 H Hft. inv_bind H. destruct r as [[n b] s1]. cbn zeta in H. case_match; [case_match |].
    - by apply next_request_state in H as [-> _].
    - injection H as <- <- <- <-. discriminate.
    - by injection H as <- <- <- <-. }
  destruct (c_state c) eqn:Hs; intros H Hft; try (by eapply Hrest); injection H as <- <- <- <-; by rewrite Hs.
Qed.

(** [state] is not written by the relay. *)
Lemma note_status_state (c c' : conn_t) : note_status c = Ret c' -> c_state c' = c_state c.
Proof.
  unfold note_status. intros H. case_match; [by injection H as <- |]. inv_bind H. repeat case_match; try (by injection H as <-).
  inv_bind H. by injection H as <-.
Qed.

Lemma collect_state (realloc : Z -> bool) (c c' : conn_t) : collect realloc c = Ret c' -> c_state c' = c_state c.
Proof.
  unfold collect. intros H. case_match; [| by injection H as <-]. case_match; [| by injection H as <-]. case_match.
  destruct o as [t |]; [case_match |]; [inv_bind H | |]; by injection H as <-.
Qed.

Lemma relay_state (realloc : Z -> bool) (fd : Z) (c c' : conn_t) (s s' : sys_t) (n : Z) :
  relay realloc fd c s = Ret (n, c', s') -> c_state c' = c_state c.
Proof.
  unfold relay. generalize (S (length (s_io s))) as fuel. intros fuel. revert c s. induction fuel as [| f IH]; intros c s H; [discriminate |].
  cbn [relay_loop] in H. inv_bind H. destruct r as [[m b] s1]. case_match; [| by injection H as <- <- <-].
  inv_bind H. inv_bind H. inv_bind H. destruct r1 as [[? b2] s2]. apply IH in H. rewrite H.
  cbn [c_state set_c_upstream_rbuf]. by rewrite (collect_state _ _ _ Hm1), (note_status_state _ _ Hm0).
Qed.

Lemma upstream_event_state (env : proxy_env) (fd events : Z) (c c' : conn_t) (sh sh' : proxy_shared) (s s' : sys_t) :
  proxy_on_upstream_event env fd events c sh s = Ret (c', Stay, sh', s') -> c_state c' = c_state c.
Proof.
  unfold proxy_on_upstream_event. intros H. inv_bind H. destruct r as [[c1 ended] s1].
  assert (ended = None -> c_state c1 = c_state c) as Hc1.
  { intros ->. case_match; [| by injection Hm as <- <-]. inv_bind Hm. destruct r as [[n b] s2]. cbn zeta in Hm. case_match.
    - inv_bind Hm. inv_bind Hm. destruct r0 as [[? ?] ?]. discriminate.
    - case_match; by injection Hm as <- <-. }
  destruct ended as [ft |]; [injection H as <- -> <- <- |].
  { case_match; [| by injection Hm]. inv_bind Hm. destruct r as [[n b] s2]. cbn zeta in Hm. case_match.
    - inv_bind Hm. inv_bind Hm. destruct r0 as [[? ?] ?]. discriminate.
    - case_match; discriminate. }
  specialize (Hc1 eq_refl). case_match; [| by injection H as <- <- <-].
  inv_bind H. destruct r as [[n c2] s2]. cbn zeta in H. case_match; [| injection H as <- <- <-; by rewrite (relay_state _ _ _ _ _ _ _ Hm0)].
  unfold backend_done in H. cbn zeta in H. case_match; [| discriminate]. inv_bind H. destruct r as [c3 f3]. case_match; [| discriminate].
  inv_bind H. case_match; [| discriminate]. inv_bind H. destruct r0. discriminate.
Qed.

Lemma handle_write_state (files : Z -> bytes) (c c' : conn_t) (h h' : list region) (s s' : sys_t) :
  c_state c <> CONN_SENDFILE -> handle_write files c h s = Ret (c', Stay, h', s') -> c_state c' <> CONN_SENDFILE.
Proof.
  intros Hs H. unfold handle_write in H.
  assert (write_response c h s = Ret (c', Stay, h', s') -> c_state c' <> CONN_SENDFILE) as Hresp.
  { unfold write_response. intros Hr. inv_bind Hr. destruct r as [[n b] s1]. cbn zeta in Hr. case_match; [case_match |].
    - discriminate.
    - by apply next_request_state in Hr as [-> _].
    - by injection Hr as <- <- <-. }
  assert (write_proxied c h s = Ret (c', Stay, h', s') -> c_state c' <> CONN_SENDFILE) as Hprox.
  { unfold write_proxied. intros Hr. inv_bind Hr. destruct r as [[n b] s1]. by injection Hr as <- <- <-. }
  destruct (c_state c); auto.
Qed.

Lemma handle_read_state {A : Allocator} {RX : Regex} (env : dispatch_env) (cfg : np_config_t) (ts : Z * Z) (c c' : conn_t)
    (h h' : list region) (sh sh' : shared_t) (s s' : sys_t) :
  c_state c <> CONN_SENDFILE -> handle_read env cfg ts c h sh s = Ret ((c', Stay, h', s'), sh') -> c_state c' <> CONN_SENDFILE.
Proof.
  intros Hs H. unfold handle_read in H. case_bool_decide as Ht.
  { inv_bind H. injection H as -> <-. unfold read_tunnel in Hm. inv_bind Hm. destruct r as [[n b] s1]. cbn zeta in Hm.
    case_match; [discriminate |]. case_match; [| injection Hm as <- <- <-; exact Hs].
    inv_bind Hm. destruct r as [[n2 b2] s2]. injection Hm as <- <- <-. exact Hs. }
  inv_bind H. destruct r as [[n b] s1]. cbn zeta in H. case_match; [discriminate |]. case_match; [by injection H as <- <- <- <- |].
  inv_bind H. destruct r as [[] ps]; [by injection H as <- <- <- <- | | inv_bind H; by injection H as <- <- <- <-].
  unfold serve in H. inv_bind H. destruct r as [[req a] h1]. cbn zeta in H. destruct req as [[p req] |]; [| discriminate].
  inv_bind H. destruct r as [? req1]. inv_bind H. destruct r as [[[[c2 h2] req2] sh2] s2]. inv_bind H. injection H as -> <-.
  by eapply after_dispatch_state.
Qed.

(** ** Properties *)

(** C20 The body of a file is never sent.  From a new connection, whatever the
    client sends, whatever the backends, the file system and the kernel answer and
    whatever the modules do, no event leaves the connection in the state in which
    [handle_write] calls [sendfile]: the file server sets that state, but
    [handle_read], which called it, goes on and replaces it as soon as the head is
    written.  So what is written does not depend on any file, while the head has
    announced its length. *)
Theorem file_body_never_sent {A : Allocator} {RX : Regex} (fd : Z) (c0 c : conn_t) :
  fresh_conn fd c0 -> rtc conn_step c0 c ->
  c_state c <> CONN_SENDFILE /\
  forall files files' h s, handle_write files c h s = handle_write files' c h s.
Proof.
  intros Hf Hr. assert (c_state c <> CONN_SENDFILE) as Hs.
  { assert (c_state c0 <> CONN_SENDFILE) as H0 by (rewrite (fc_state _ _ Hf); discriminate). clear Hf.
    induction Hr as [c | c1 c2 c3 Hst _ IH]; [done |]. apply IH. destruct Hst as [env cfg ts c h sh s c' h' s' sh' H | files c h s c' h' s' H | env fd' events c sh s c' sh' s' H].
    - by eapply handle_read_state.
    - by eapply handle_write_state.
    - by rewrite (upstream_event_state _ _ _ _ _ _ _ _ _ H). }
  split; [done |]. intros files files' h s. unfold handle_write. by destruct (c_state c).
Qed.

(** A client that asks for [/a], which is a file, on a new connection. *)
Definition new_conn : conn_t := set_c_keep_alive false sample_conn.

Definition get_a : bytes := lit "GET /a HTTP/1.1" ++ CRLF ++ lit "Host: x" ++ CRLF ++ CRLF.

Definition file_env : dispatch_env :=
  mk_denv (lit "10.0.0.1") 100 (AccessLog.mk_timespec 5 0, AccessLog.mk_timespec 5 9000) (lit "now") lookup_good
    (sample_fs (lit "/srv/a")) None (fun _ x => Ret (0, x)).

Definition plain_shared : shared_t := mk_shared [] [] None None [] ∅ None [].

Lemma new_conn_fresh : fresh_conn 5 new_conn.
Proof. constructor; try done. destruct sample_conn_ok. by constructor. Qed.

Lemma file_body_never_sent_witness :
  exists c, rtc (conn_step (RX := literal_regex)) new_conn c /\ c_file_fd c = 9 /\ c_file_remaining c = 255 /\ c_state c <> CONN_SENDFILE.
Proof.
  assert (exists c, conn_step (RX := literal_regex) new_conn c /\ c_file_fd c = 9 /\ c_file_remaining c = 255) as (c & Hs & Hfd & Hrem).
  { eexists. split; [| split].
    - eapply (step_read (RX := literal_regex) file_env (sample_config [sample_server (lit "/srv") []]) (1, 0) new_conn [] plain_shared
        (mk_sys [AData get_a; AAgain; ACount 1000; AAgain] [] [] [])). vm_compute. reflexivity.
    - reflexivity.
    - reflexivity. }
  exists c. split; [by apply rtc_once |]. split; [exact Hfd |]. split; [exact Hrem |].
  apply (file_body_never_sent (RX := literal_regex) 5 new_conn c new_conn_fresh (rtc_once _ _ Hs)).
Defined.

(** ** Writing *)

(** The part of the file that is still to be sent is in the file. *)
Definition file_ok (files : Z -> bytes) (c : conn_t) : Prop :=
  0 <= c_file_offset c /\ 0 <= c_file_remaining c /\ c_file_offset c + c_file_remaining c <= zlen (files (c_file_fd c)).

Definition file_rest (files : Z -> bytes) (c : conn_t) : bytes :=
  zsub (c_file_offset c) (c_file_remaining c) (files (c_file_fd c)).

(** What a connection has still to write to its client. *)
Definition pending (files : Z -> bytes) (c : conn_t) : bytes :=
  match c_state c with
  | CONN_SENDFILE => contents (c_wbuf c) ++ file_rest files c
  | CONN_PROXYING | CONN_TUNNEL => contents (c_upstream_rbuf c)
  | _ => contents (c_wbuf c)
  end.

(** A part [t] of the file went to the client. *)
Definition file_sent (files : Z -> bytes) (c c' : conn_t) (s s' : sys_t) : Prop :=
  file_ok files c' /\ (exists off rem, c' = set_c_file_remaining rem (set_c_file_offset off c)) /\
  exists t, file_rest files c = t ++ file_rest files c' /\ sent_to (c_fd c) (s_out s') = sent_to (c_fd c) (s_out s) ++ t.

Lemma file_sent_refl (files : Z -> bytes) (c : conn_t) (s s' : sys_t) :
  file_ok files c -> s_out s' = s_out s -> file_sent files c c s s'.
Proof.
  intros Hok Hs. split; [done |]. split; [exists (c_file_offset c), (c_file_remaining c); by destruct c |].
  exists []. by rewrite Hs, app_nil_r.
Qed.

Lemma file_sent_trans (files : Z -> bytes) (c1 c2 c3 : conn_t) (s1 s2 s3 : sys_t) :
  file_sent files c1 c2 s1 s2 -> file_sent files c2 c3 s2 s3 -> file_sent files c1 c3 s1 s3.
Proof.
  intros (_ & (o1 & r1 & ->) & t1 & H1 & H1') (Hok & (o2 & r2 & ->) & t2 & H2 & H2'). split; [done |].
  split; [by exists o2, r2 |]. exists (t1 ++ t2). cbn [c_fd set_c_file_remaining set_c_file_offset] in *.
  by rewrite H1, H2, H2', H1', !app_assoc.
Qed.

(** One call that sends [n] bytes. *)
Lemma file_step (files : Z -> bytes) (c : conn_t) (n : nat) :
  file_ok files c ->
  let bs := take n (take (Z.to_nat (c_file_remaining c)) (drop (Z.to_nat (c_file_offset c)) (files (c_file_fd c)))) in
  let c' := set_c_file_remaining (c_file_remaining c - zlen bs) (set_c_file_offset (c_file_offset c + zlen bs) c) in
  file_ok files c' /\ file_rest files c = bs ++ file_rest files c'.
Proof.
  intros (H1 & H2 & H3) bs c'.
  assert (zlen bs = Z.min (Z.of_nat n) (c_file_remaining c)) as Hl by (unfold bs; rewrite !length_take, length_drop; lia).
  split.
  - unfold file_ok, c'. cbn. lia.
  - unfold file_rest, c', zsub. cbn [c_file_offset c_file_remaining c_file_fd set_c_file_remaining set_c_file_offset].
    set (f := files (c_file_fd c)) in *. rewrite <- (take_drop n (take (Z.to_nat (c_file_remaining c)) (drop (Z.to_nat (c_file_offset c)) f))) at 1.
    fold bs. f_equal. rewrite skipn_firstn_comm, drop_drop. destruct (Z.le_gt_cases (Z.of_nat n) (c_file_remaining c)) as [Hle | Hgt].
    + replace (Z.to_nat (c_file_remaining c - zlen bs)) with (Z.to_nat (c_file_remaining c) - n)%nat by lia. do 2 f_equal. lia.
    + replace (Z.to_nat (c_file_remaining c - zlen bs)) with 0%nat by lia. replace (Z.to_nat (c_file_remaining c) - n)%nat with 0%nat by lia. done.
Qed.

Lemma sendfile_loop_Ret (files : Z -> bytes) (c : conn_t) (s : sys_t) :
  file_ok files c -> exists r c' s', sendfile_loop files c s = Ret (r, c', s') /\ file_sent files c c' s s' /\ s_calls s' = s_calls s.
Proof.
  unfold sendfile_loop. remember (S (length (s_io s))) as fuel eqn:Hf. assert (length (s_io s) < fuel)%nat as Hlt by lia. clear Hf.
  revert c s Hlt. induction fuel as [| f IH]; intros c s Hlt Hok; [lia |]. cbn [sendfile_all]. unfold k_sendfile.
  destruct (next_answer s) as [a s1] eqn:En. destruct (next_answer_frame _ _ _ En) as (Hc & Ho & _ & Hio).
  destruct a as [x | n | |]; try (eexists _, _, _; split; [done |]; split; [by apply file_sent_refl | done]).
  set (bs := take (Z.to_nat n) (take (Z.to_nat (c_file_remaining c)) (drop (Z.to_nat (c_file_offset c)) (files (c_file_fd c))))).
  destruct (file_step files c (Z.to_nat n) Hok) as [Hok' Hrest]. fold bs in Hok', Hrest.
  set (c1 := set_c_file_remaining (c_file_remaining c - zlen bs) (set_c_file_offset (c_file_offset c + zlen bs) c)) in *.
  set (s2 := mk_sys (s_io s1) (s_calls s1) (s_out s1 ++ [(c_fd c, bs)]) (s_in s1)).
  assert (file_sent files c c1 s s2) as Hsent.
  { split; [done |]. split; [by eexists _, _ |]. exists bs. split; [done |]. cbn [s_out s2]. rewrite Ho, sent_to_app, sent_to_one. done. }
  destruct (0 <? zlen bs) eqn:Hpos; cbn [andb]; bprop.
  - change (set_c_file_remaining (c_file_remaining (set_c_file_offset (c_file_offset c + zlen bs) c) - zlen bs) (set_c_file_offset (c_file_offset c + zlen bs) c)) with c1.
    destruct (0 <? c_file_remaining c1); [| by eexists _, _, _].
    destruct (IH c1 s2) as (r & c' & s' & -> & Hs' & Hc'); [cbn [s_io s2]; destruct Hio as [(_ & Hx & _) | ?]; [discriminate | lia] | done |].
    eexists _, _, _. split; [done |]. split; [by eapply file_sent_trans |]. by rewrite Hc'.
  - assert (bs = []) as Hnil by (destruct bs; [done | cbn in Hpos; lia]). eexists _, _, _. split; [done |].
    split; [| done]. replace (set_c_file_offset (c_file_offset c + zlen bs) c) with c1; [done |].
    unfold c1. rewrite Hnil. cbn [length]. rewrite Z.sub_0_r, Z.add_0_r. by destruct c.
Qed.

Lemma next_request_Ret (c : conn_t) (h : list region) (s : sys_t) :
  conn_ok c ->
  exists c' h', next_request c h s = Ret (c', Stay, h', sys_call_log [SysEpollMod (c_fd c) EV_READ_ONLY] s) /\ conn_ok c' /\
    c_fd c' = c_fd c /\ c_state c' = CONN_READING_REQUEST /\ c_request c' = None /\ c_rbuf c' = c_rbuf c /\ c_keep_alive c' = c_keep_alive c.
Proof.
  intros [H1 H2 H3 H4 H5]. unfold next_request. destruct (arena_reset_defined h _ H5) as (a & h' & -> & Ha). rewrite bind_Ret.
  eexists _, _. split; [done |]. by split_and!.
Qed.

(** What [handle_write] makes of a connection with [rest] still to be written. *)
Definition write_outcome (files : Z -> bytes) (c : conn_t) (rest : bytes) (c' : conn_t) (ft : fate) : Prop :=
  conn_ok c' /\
  match ft with
  | Stay =>
      c_fd c' = c_fd c /\
      (c_state c' = c_state c /\ pending files c' = rest \/
       rest = [] /\ c_keep_alive c = true /\ c_state c' = CONN_READING_REQUEST /\ c_request c' = None)
  | PoolPut => rest = [] /\ (c_keep_alive c = false \/ c_state c = CONN_CLOSING) \/ c_state c = CONN_SENDFILE
  | WorkerClose => False
  end.

Lemma contents_nil (b : np_buf_t) : buf_ok b -> (buf_readable b =? 0) = bool_decide (contents b = []).
Proof.
  intros Hok. rewrite buf_readable_val by done. case_bool_decide as E; [by rewrite E |].
  apply Z.eqb_neq. destruct (contents b); [done | cbn; lia].
Qed.

Lemma write_response_Ret (files : Z -> bytes) (c : conn_t) (h : list region) (s : sys_t) :
  conn_ok c -> pending files c = contents (c_wbuf c) -> c_state c <> CONN_SENDFILE ->
  (forall b, pending files (set_c_wbuf b c) = contents b) ->
  exists c' ft h' s' t rest, write_response c h s = Ret (c', ft, h', s') /\ contents (c_wbuf c) = t ++ rest /\
    sent_to (c_fd c) (s_out s') = sent_to (c_fd c) (s_out s) ++ t /\ write_outcome files c rest c' ft.
Proof.
  intros Hok Hp Hs Hb. unfold write_response. pose proof Hok as [H1 H2 H3 H4 H5].
  destruct (write_loop_Ret (c_fd c) (c_wbuf c) s H2) as (n & b & s1 & -> & [Hokb _ (t & Ht & Ht') _ _ _ _] & _). rewrite bind_Ret.
  cbn [c_wbuf set_c_wbuf c_state c_keep_alive]. rewrite contents_nil by done.
  assert (conn_ok (set_c_wbuf b c)) as Hokc by (by constructor). case_bool_decide as E.
  - destruct (bool_decide (c_state c = CONN_CLOSING) || negb (c_keep_alive c)) eqn:Hend.
    + eexists _, _, _, _, t, (contents b). split; [done |]. split_and!; [done.. |]. split; [done |]. left. split; [done |].
      apply orb_true_iff in Hend as [Hend%bool_decide_eq_true | Hend%negb_true_iff]; auto.
    + apply orb_false_iff in Hend as [_ Hka%negb_false_iff].
      destruct (next_request_Ret (set_c_wbuf b c) h s1 Hokc) as (c' & h' & -> & Hok' & Hfd & Hst & Hreq & _).
      eexists _, _, _, _, t, (contents b). split; [done |]. split_and!; [done.. |]. split; [done |]. split; [done |]. right. by split_and!.
  - eexists _, _, _, _, t, (contents b). split; [done |]. split_and!; [done.. |]. split; [done |]. split; [done |]. left. split; [done |]. apply Hb.
Qed.

Lemma file_end_Ret (files : Z -> bytes) (c : conn_t) (h : list region) (s : sys_t) :
  conn_ok c -> c_state c = CONN_SENDFILE -> contents (c_wbuf c) = [] ->
  exists c' ft h' s', file_end c h s = Ret (c', ft, h', s') /\ s_out s' = s_out s /\ write_outcome files c (pending files c) c' ft.
Proof.
  intros Hok Hs Hw. unfold file_end. case_match eqn:E; bprop.
  - cbn zeta. assert (conn_ok (set_c_file_fd (-1) c)) as Hok' by (by destruct Hok; constructor).
    destruct (c_keep_alive (set_c_file_fd (-1) c)) eqn:Hka.
    + destruct (next_request_Ret (set_c_file_fd (-1) c) h (sys_call_log [SysClose (c_file_fd c)] s) Hok') as (c' & h' & -> & Hc' & Hfd & Hst & Hreq & _).
      eexists _, _, _, _. split; [done |]. split; [done |]. split; [done |]. split; [done |]. right. split_and!; try done.
      unfold pending. rewrite Hs, Hw. unfold file_rest. by rewrite E.
    + eexists _, _, _, _. split; [done |]. split; [done |]. split; [done | by right].
  - eexists _, _, _, _. split; [done |]. split; [done |]. split; [done |]. split; [done | by left].
Qed.

Lemma write_file_Ret (files : Z -> bytes) (c : conn_t) (h : list region) (s : sys_t) :
  conn_ok c -> file_ok files c -> c_state c = CONN_SENDFILE ->
  exists c' ft h' s' t rest, write_file files c h s = Ret (c', ft, h', s') /\ pending files c = t ++ rest /\
    sent_to (c_fd c) (s_out s') = sent_to (c_fd c) (s_out s) ++ t /\ write_outcome files c rest c' ft.
Proof.
  intros Hok Hfile Hs. unfold write_file. pose proof Hok as [H1 H2 H3 H4 H5].
  assert (exists n b s1 t, (if 0 <? buf_readable (c_wbuf c) then write_loop (c_fd c) (c_wbuf c) s else Ret (0, c_wbuf c, s)) = Ret (n, b, s1) /\
    buf_ok b /\ contents (c_wbuf c) = t ++ contents b /\ sent_to (c_fd c) (s_out s1) = sent_to (c_fd c) (s_out s) ++ t)
    as (n & b & s1 & t & -> & Hokb & Ht & Ht').
  { case_match; [| eexists _, _, _, []; by rewrite app_nil_r].
    destruct (write_loop_Ret (c_fd c) (c_wbuf c) s H2) as (n & b & s1 & -> & [Hokb _ (t & Ht & Ht') _ _ _ _] & _). by eexists _, _, _, _. }
  rewrite bind_Ret. cbn [c_wbuf set_c_wbuf c_file_remaining]. unfold pending at 1. rewrite Hs, Ht.
  assert (conn_ok (set_c_wbuf b c)) as Hokc by (by constructor).
  rewrite buf_readable_val by done. destruct (0 <? zlen (contents b)) eqn:Hleft; bprop.
  { eexists _, _, _, _, t, (contents b ++ file_rest files c). split; [done |]. split; [by rewrite app_assoc |]. split; [done |].
    split; [done |]. split; [done |]. left. split; [done |]. unfold pending. cbn. by rewrite Hs. }
  assert (contents b = []) as Hnil by (destruct (contents b); [done | cbn in Hleft; lia]).
  assert (exists r c' s', (if 0 <? c_file_remaining c then sendfile_loop files (set_c_wbuf b c) s1 else Ret (Sent 0, set_c_wbuf b c, s1)) = Ret (r, c', s') /\
    file_sent files (set_c_wbuf b c) c' s1 s') as (r & c2 & s2 & -> & (Hok2 & (off & rem & ->) & u & Hu & Hu')).
  { case_match; [| eexists _, _, _; split; [done |]; by apply file_sent_refl].
    destruct (sendfile_loop_Ret files (set_c_wbuf b c) s1 Hfile) as (r & c' & s' & Hr & Hf & _). eauto. }
  rewrite bind_Ret. set (c2 := set_c_file_remaining rem (set_c_file_offset off (set_c_wbuf b c))) in *.
  assert (conn_ok c2) as Hokc2 by (by constructor). change (c_fd (set_c_wbuf b c)) with (c_fd c) in Hu'.
  change (file_rest files (set_c_wbuf b c)) with (file_rest files c) in Hu.
  assert ((t ++ contents b) ++ file_rest files c = (t ++ u) ++ file_rest files c2) as Hall by (by rewrite Hnil, app_nil_r, Hu, app_assoc).
  assert (sent_to (c_fd c) (s_out s2) = sent_to (c_fd c) (s_out s) ++ t ++ u) as Hsent by (by rewrite Hu', Ht', app_assoc).
  assert (pending files c2 = file_rest files c2) as Hpend by (unfold pending; change (c_state c2) with (c_state c); rewrite Hs; cbn [c2 c_wbuf set_c_file_remaining set_c_file_offset set_c_wbuf]; by rewrite Hnil).
  assert (exists c' ft h' s', file_end c2 h s2 = Ret (c', ft, h', s') /\ s_out s' = s_out s2 /\ write_outcome files c (file_rest files c2) c' ft)
    as (c' & ft & h' & s' & Hend & Hout & Hwo).
  { destruct (file_end_Ret files c2 h s2 Hokc2) as (c' & ft & h' & s' & He & Ho & Hwo); [exact Hs | exact Hnil |]. exists c', ft, h', s'.
    split; [done |]. split; [done |]. destruct Hwo as [Hwo1 Hwo2]. split; [done |]. destruct ft; [| | done]; cbn in Hwo2.
    - destruct Hwo2 as [Hfd Hst]. split; [done |]. by rewrite <- Hpend.
    - by rewrite <- Hpend. }
  destruct r as [m | []]; [| | eexists _, _, _, _, (t ++ u), (file_rest files c2); split_and!; [done.. |]; split; [done | by right]];
    exists c', ft, h', s', (t ++ u), (file_rest files c2); rewrite Hout; by split_and!.
Qed.

Lemma write_proxied_Ret (files : Z -> bytes) (c : conn_t) (h : list region) (s : sys_t) :
  conn_ok c -> c_state c = CONN_PROXYING \/ c_state c = CONN_TUNNEL ->
  exists c' ft h' s' t rest, write_proxied c h s = Ret (c', ft, h', s') /\ pending files c = t ++ rest /\
    sent_to (c_fd c) (s_out s') = sent_to (c_fd c) (s_out s) ++ t /\ write_outcome files c rest c' ft.
Proof.
  intros Hok Hs. unfold write_proxied. pose proof Hok as [H1 H2 H3 H4 H5].
    destruct (write_loop_Ret (c_fd c) (c_upstream_rbuf c) s H3) as (n & b & s1 & -> & [Hokb _ (t & Ht & Ht') _ _ _ _] & _). rewrite bind_Ret.
    eexists _, _, _, _, t, (contents b). split; [done |]. split; [unfold pending; destruct Hs as [-> | ->]; done |]. split; [done |].
    split; [by constructor |]. split; [done |]. left. split; [done |]. unfold pending. cbn. destruct Hs as [-> | ->]; done.
Qed.

(** C15 The write handler in every state, for any answers of the kernel: it returns,
    keeps the connection well formed, and sends the client a prefix of what was
    pending, in order: the rest of the buffer and then of the file, what came from
    the backend, or the rest of the response.  A connection that stays keeps what
    is left; when nothing is left and the client may send another request, the
    connection reads again; otherwise it goes back to the pool, which happens
    early only when [sendfile] fails. *)
Theorem handle_write_correct (files : Z -> bytes) (c : conn_t) (h : list region) (s : sys_t) :
  conn_ok c -> file_ok files c ->
  exists c' ft h' s' t rest, handle_write files c h s = Ret (c', ft, h', s') /\ pending files c = t ++ rest /\
    sent_to (c_fd c) (s_out s') = sent_to (c_fd c) (s_out s) ++ t /\ write_outcome files c rest c' ft.
Proof.
  intros Hok Hfile.
  unfold handle_write. destruct (c_state c) eqn:Hs; try (by apply write_file_Ret); try (by apply write_proxied_Ret; auto);
    (assert (pending files c = contents (c_wbuf c)) as Hp by (unfold pending; by rewrite Hs)); rewrite Hp;
    apply write_response_Ret; try done; try (rewrite Hs; discriminate); intros b; unfold pending; cbn; by rewrite Hs.
Qed.

(** A connection that has five bytes of a file to send. *)
Definition sending_conn : conn_t :=
  set_c_file_remaining 5 (set_c_file_offset 1 (set_c_file_fd 9 (set_c_state CONN_SENDFILE new_conn))).

Lemma handle_write_correct_witness :
  exists c' ft h' s' t rest, handle_write (fun _ => lit "xhello") sending_conn [] (mk_sys [ACount 2; ACount 7] [] [] []) = Ret (c', ft, h', s') /\
    lit "hello" = t ++ rest /\ sent_to 5 (s_out s') = t /\ write_outcome (fun _ => lit "xhello") sending_conn rest c' ft.
Proof.
  destruct (handle_write_correct (fun _ => lit "xhello") sending_conn [] (mk_sys [ACount 2; ACount 7] [] [] []))
    as (c' & ft & h' & s' & t & rest & Hr & Hp & Hsent & Ho).
  - destruct sample_conn_ok. by constructor.
  - unfold file_ok. cbn. lia.
  - exists c', ft, h', s', t, rest. split; [exact Hr |]. split; [exact Hp |]. split; [exact Hsent | exact Ho].
Defined.

(** ** Releasing connections *)

(** One release: with room the connection is the head of the list, closed and with
    empty buffers; without, it is freed. *)
Lemma pool_put_Ret {A : Allocator} (k : worker_t) (addr : Z) (c : conn_t) :
  w_conns (wk_pool k) !! addr = Some c -> conn_ok c ->
  exists k', pool_put k addr = Ret k' /\ wk_active k' = wk_active k /\ wk_shared k' = wk_shared k /\ wk_now k' = wk_now k /\
    w_max_free (wk_pool k') = w_max_free (wk_pool k) /\
    if w_max_free (wk_pool k) <=? w_free_count (wk_pool k) then
      w_conns (wk_pool k') = delete addr (w_conns (wk_pool k)) /\ w_free_head (wk_pool k') = w_free_head (wk_pool k)
    else
      exists c', w_conns (wk_pool k') = <[addr := c']> (w_conns (wk_pool k)) /\ conn_ok c' /\ c_state c' = CONN_CLOSING /\
        contents (c_wbuf c') = [] /\ c_next c' = w_free_head (wk_pool k) /\ w_free_head (wk_pool k') = Some addr /\
        w_free_count (wk_pool k') = w_free_count (wk_pool k) + 1.
Proof.
  intros Hc Hok. unfold pool_put, conn_pool_put. cbn [w_conns]. rewrite Hc. pose proof (conn_close_ok c Hok) as Hok1.
  cbn [conn_close fst] in Hok1 |- *. cbn [w_max_free w_free_count add_calls w_heap w_free_head w_conns].
  destruct (w_max_free (wk_pool k) <=? w_free_count (wk_pool k)) eqn:E.
  - rewrite bind_Ret. eexists. split; [done |]. by split_and!.
  - match goal with |- context [arena_reset ?h ?ar] =>
      destruct (arena_reset_defined h ar (ck_arena _ Hok1)) as (a' & h' & -> & Ha') end.
    rewrite !bind_Ret. eexists. split; [done |]. split_and!; [done.. |]. eexists. split; [done |].
    split; [destruct Hok1; constructor; cbn; auto using buf_reset_ok |]. split; [done |]. split; [apply buf_reset_contents | by split_and!].
Qed.

(** A released connection is released again by the write handler. *)
Lemma write_at_released {A : Allocator} (files : Z -> bytes) (k : worker_t) (addr : Z) (c : conn_t) :
  w_conns (wk_pool k) !! addr = Some c -> conn_ok c -> c_state c = CONN_CLOSING -> contents (c_wbuf c) = [] ->
  exists c', write_at files k addr =
    pool_put (mk_worker (set_conns (<[addr := c']> (w_conns (wk_pool k))) (wk_pool k)) (wk_shared k) (wk_sys k) (wk_timers k) (wk_active k) (wk_now k)) addr /\
    conn_ok c' /\ c_next c' = c_next c.
Proof.
  intros Hc Hok Hs Hw. unfold write_at. rewrite Hc. unfold handle_write. rewrite Hs. unfold write_response.
  destruct (write_loop_Ret (c_fd c) (c_wbuf c) (wk_sys k) (ck_wbuf _ Hok)) as (n & b & s1 & -> & _ & _ & Hnil).
  destruct (Hnil Hw) as (-> & -> & ->). rewrite bind_Ret. cbn [c_wbuf set_c_wbuf c_state c_keep_alive].
  rewrite contents_nil, bool_decide_true by (by destruct Hok). rewrite bool_decide_true by done. cbn [orb]. rewrite bind_Ret.
  eexists. split; [reflexivity |]. split; [| done]. destruct Hok. by constructor.
Qed.

(** C22 An event that reports both reading and writing releases a connection twice:
    when the read handler gives it back to the pool, the write handler is called
    on it all the same, finds it closed and gives it back again.  The connection is
    then its own successor in the free list, so that the next two clients share it;
    with one place left the list's head is freed memory, and with none the write
    handler itself reads freed memory. *)
Theorem event_releases_twice {A : Allocator} {RX : Regex} (env : dispatch_env) (cfg : np_config_t) (files : Z -> bytes) (ts : Z * Z)
    (events : Z) (k : worker_t) (addr : Z) (c c' : conn_t) (h' : list region) (s' : sys_t) (sh' : shared_t) :
  w_conns (wk_pool k) !! addr = Some c -> has_event events (Z.lor EV_HUP EPOLLERR) = false ->
  has_event events EV_READ = true -> has_event events EV_WRITE = true ->
  handle_read env cfg ts (set_c_last_active (wk_now k) c) (w_heap (wk_pool k)) (wk_shared k) (wk_sys k) = Ret ((c', PoolPut, h', s'), sh') ->
  conn_ok c' ->
  let room := w_max_free (wk_pool k) - w_free_count (wk_pool k) in
  let after := on_client_event env cfg files ts events k addr in
  (2 <= room -> exists k' c2, after = Ret k' /\ w_free_head (wk_pool k') = Some addr /\
     w_conns (wk_pool k') !! addr = Some c2 /\ c_next c2 = Some addr) /\
  (room = 1 -> exists k', after = Ret k' /\ w_free_head (wk_pool k') = Some addr /\ w_conns (wk_pool k') !! addr = None) /\
  (room <= 0 -> after = Stuck).
Proof.
  intros Hc Hhup Hrd Hwr Hread Hok' room after. unfold after, on_client_event. rewrite Hc, Hhup, Hrd, Hwr.
  unfold read_at. cbn [touch wk_pool set_pool_sys set_conns w_conns w_heap wk_shared wk_sys]. rewrite lookup_insert_eq, Hread, bind_Ret.
  cbn [fst snd settle wk_pool wk_timers wk_active wk_now set_pool_sys touch].
  set (k1 := mk_worker _ sh' s' _ _ _).
  assert (w_conns (wk_pool k1) !! addr = Some c') as Hc1 by (cbn; by rewrite lookup_insert_eq).
  assert (w_max_free (wk_pool k1) = w_max_free (wk_pool k) /\ w_free_count (wk_pool k1) = w_free_count (wk_pool k)) as [Hmax Hcount] by done.
  destruct (pool_put_Ret k1 addr c' Hc1 Hok') as (k2 & -> & _ & _ & _ & Hmax2 & Hput). rewrite bind_Ret. rewrite Hmax, Hcount in *.
  destruct (w_max_free (wk_pool k) <=? w_free_count (wk_pool k)) eqn:E; bprop; (split; [| split]); intros Hroom; unfold room in Hroom; try lia.
  - destruct Hput as [Hcs _]. unfold write_at. by rewrite Hcs, lookup_delete_eq.
  - destruct Hput as (c2 & Hcs & Hok2 & Hst & Hw & Hnext & Hhead & Hcnt).
    destruct (write_at_released files k2 addr c2) as (c3 & -> & Hok3 & Hn3); [by rewrite Hcs, lookup_insert_eq | done.. |].
    match goal with |- context [pool_put ?k3 addr] => destruct (pool_put_Ret k3 addr c3) as (k4 & -> & _ & _ & _ & _ & Hput4) end;
      [cbn; by rewrite lookup_insert_eq | done |].
    cbn [wk_pool set_conns w_max_free w_free_count w_free_head w_conns] in Hput4. rewrite (proj2 (Z.leb_gt _ _)) in Hput4 by lia.
    destruct Hput4 as (c4 & Hcs4 & _ & _ & _ & Hnext4 & Hhead4 & _). exists k4, c4. split_and!; [done | done | by rewrite Hcs4, lookup_insert_eq |].
    by rewrite Hnext4.
  - destruct Hput as (c2 & Hcs & Hok2 & Hst & Hw & Hnext & Hhead & Hcnt).
    destruct (write_at_released files k2 addr c2) as (c3 & -> & Hok3 & Hn3); [by rewrite Hcs, lookup_insert_eq | done.. |].
    match goal with |- context [pool_put ?k3 addr] => destruct (pool_put_Ret k3 addr c3) as (k4 & -> & _ & _ & _ & _ & Hput4) end;
      [cbn; by rewrite lookup_insert_eq | done |].
    cbn [wk_pool set_conns w_max_free w_free_count w_free_head w_conns] in Hput4. rewrite (proj2 (Z.leb_le _ _)) in Hput4 by lia.
    destruct Hput4 as [Hcs4 Hhead4]. exists k4. split_and!; [done | by rewrite Hhead4 | by rewrite Hcs4, lookup_delete_eq].
Qed.

(** A worker with one connection, at address 9, and these answers to come. *)
Definition sample_worker (c : conn_t) (io : list answer) : worker_t :=
  mk_worker (mk_world {[9 := c]} [] None 0 10 []) plain_shared (mk_sys io [] [] []) (mk_wheel ∅ (replicate (Z.to_nat NP_TIMEOUT_BUCKETS) None) NP_TIMEOUT_BUCKETS 1 0) 1 7.

Lemma event_releases_twice_witness :
  exists k' c2, on_client_event file_env (sample_config []) (fun _ => []) (1, 0) (Z.lor EV_READ EV_WRITE) (sample_worker new_conn [AData []]) 9 = Ret k' /\
    w_free_head (wk_pool k') = Some 9 /\ w_conns (wk_pool k') !! 9 = Some c2 /\ c_next c2 = Some 9.
Proof.
  edestruct (event_releases_twice file_env (sample_config []) (fun _ => []) (1, 0) (Z.lor EV_READ EV_WRITE) (sample_worker new_conn [AData []]) 9
    new_conn) as [Htwice _]; [reflexivity | reflexivity | reflexivity | reflexivity | vm_compute; reflexivity | | apply Htwice; vm_compute; discriminate].
  destruct sample_conn_ok. by constructor.
Defined.

(** ** Requests that cannot be parsed *)

(** C23 A request that cannot be parsed is answered with 400 and [Connection:
    close], but what is closed is another matter: the bytes stay in the read
    buffer and the keep-alive decision of the previous request stays in force.
    After an earlier request that kept the connection it is not closed when the
    answer is written: it reads again, with the same bytes in front, which every
    further event parses and refuses once more. *)
Theorem bad_request_kept {A : Allocator} {RX : Regex} (env : dispatch_env) (cfg : np_config_t) (ts : Z * Z) (c : conn_t)
    (h : list region) (sh : shared_t) (s s1 : sys_t) (n : Z) (b : np_buf_t) (ps : http_parse_state_t str_t) :
  conn_ok c -> c_state c <> CONN_TUNNEL -> read_loop (c_fd c) (c_rbuf c) s = Ret (n, b, s1) ->
  n <> np_status_code NP_ERR_CLOSED -> n <> np_status_code NP_ERR -> contents b <> [] ->
  http_parse_request http_parse_state_init (read_ptr b) (buf_readable b) = Ret (PARSE_ERROR, ps) ->
  exists c' s', handle_read env cfg ts c h sh s = Ret ((c', Stay, h, s'), sh) /\ c_state c' = CONN_WRITING_RESPONSE /\
    contents (c_wbuf c') = error_sent (c_wbuf c) 400 false /\ contents (c_rbuf c') = contents b /\
    (c_keep_alive c = true ->
     forall files h2 s2, exists c2 h3 s3, handle_write files c' h2 s2 = Ret (c2, Stay, h3, s3) /\
       contents (c_rbuf c2) = contents b /\ (c_state c2 = CONN_WRITING_RESPONSE \/ c_state c2 = CONN_READING_REQUEST)).
Proof.
  intros Hok Hs Hr Hn1 Hn2 Hne Hp. unfold handle_read. rewrite bool_decide_false by done. rewrite Hr, bind_Ret.
  rewrite (proj2 (Z.eqb_neq _ _) Hn1), (proj2 (Z.eqb_neq _ _) Hn2). cbn [orb c_rbuf set_c_rbuf].
  destruct (read_loop_Ret (c_fd c) (c_rbuf c) s (ck_rbuf _ Hok)) as (n' & b' & s' & Hr' & Hrd & _). rewrite Hr in Hr'. injection Hr' as <- <- <-.
  pose proof (rd_ok _ _ _ _ _ Hrd) as Hb. rewrite contents_nil, bool_decide_false by done. rewrite Hp, bind_Ret. change (c_wbuf (set_c_rbuf b c)) with (c_wbuf c).
  destruct (response_write_error_Ret (OK := np_buf_write_buffer_ok) (c_wbuf c) 400 false (ck_wbuf _ Hok)) as (w & -> & Hw & Hwc); [done |].
  rewrite bind_Ret. eexists _, _. split; [reflexivity |]. split; [done |]. split; [exact Hwc |]. split; [done |].
  intros Hka files h2 s2. set (c' := set_c_state _ _).
  assert (conn_ok c') as Hok' by (destruct Hok; by constructor).
  unfold handle_write. change (c_state c') with CONN_WRITING_RESPONSE. cbn iota. unfold write_response.
  destruct (write_loop_Ret (c_fd c') (c_wbuf c') s2 (ck_wbuf _ Hok')) as (m & w2 & s3 & -> & [Hw2 _ _ _ _ _ _] & _). rewrite bind_Ret.
  cbn [c_wbuf set_c_wbuf c_state c_keep_alive]. change (c_keep_alive c') with (c_keep_alive c). rewrite Hka. cbn [negb orb].
  case_match; [| eexists _, _, _; split; [reflexivity |]; split; [done | by left]].
  rewrite bool_decide_false by done. cbn [orb].
  destruct (next_request_Ret (set_c_wbuf w2 c') h2 s3) as (c2 & h3 & -> & _ & _ & Hst & _ & Hrb & _); [destruct Hok'; by constructor |].
  eexists _, _, _. split; [reflexivity |]. rewrite Hrb. split; [done | by right].
Qed.

Lemma bad_request_kept_witness :
  exists c' s', handle_read file_env (sample_config []) (1, 0) sample_conn [] plain_shared (mk_sys [AData (lit "BAD" ++ CRLF)] [] [] []) =
      Ret ((c', Stay, [], s'), plain_shared) /\ contents (c_rbuf c') = lit "BAD" ++ CRLF.
Proof.
  edestruct (bad_request_kept file_env (sample_config []) (1, 0) sample_conn [] plain_shared (mk_sys [AData (lit "BAD" ++ CRLF)] [] [] []))
    as (c' & s' & Hr & _ & _ & Hc & _);
    [apply sample_conn_ok | discriminate | vm_compute; reflexivity | discriminate | discriminate | | vm_compute; reflexivity |].
  - vm_compute. discriminate.
  - exists c', s'. split; [exact Hr |]. rewrite Hc. reflexivity.
Defined.

(** ** Reading is defined *)

(** What the worker relies on: an address and a time of their usual lengths, a
    clock, files of a size, and at least one server. *)
Record env_ok {RX : Regex} (env : dispatch_env) (cfg : np_config_t) : Prop := {
  eo_ip : zlen (de_ip env) <= 15;
  eo_ts : zlen (de_ts env) < 32;
  eo_clock : AccessLog.sane_clock (de_clock env).1 (de_clock env).2;
  eo_sizes : forall name fd st, de_static env name = Some (fd, Some st) -> 0 <= st_size st < 2 ^ 63;
  eo_servers : servers cfg <> [];
  eo_roots : Forall (fun s => zlen (static_root s) < CONFIG_MAX_STR) (servers cfg)
}.

(** The limits of the handlers' arrays for the request [sv] with the path [pv]. *)
Record path_limits {RX : Regex} (env : dispatch_env) (server : np_server_config_t) (sv : http_parse_state_t bytes) (pv : bytes) : Prop := {
  rl_nonempty : pv <> [];
  rl_line : zlen pv <= 850;
  rl_head : zlen (proxy_head (ps_method sv) (cstr pv) (cstr (default [] (header_val (fields_of sv) (lit "Host"))))
    (de_ip env) (ps_upgrade sv) ++ fields_text (fields_of sv)) + 2 < NP_MAX_HEADER_LEN;
  rl_try : Forall (fun e => zlen (static_root server) + zlen (expanded (cstr (take 4095 pv)) e) < TMP_SIZE) (try_files server)
}.

(** The path that was asked for and what the rules may make of it. *)
Definition request_limits {RX : Regex} (env : dispatch_env) (cfg : np_config_t) (sv : http_parse_state_t bytes) : Prop :=
  Forall (fun s => forall pv, rewrites (rewrite_rules s) (path_val (ps_uri sv)) pv -> path_limits env s sv pv) (servers cfg).

Lemma read_ptr_readable (b : np_buf_t) :
  buf_ok b -> readable (read_ptr b) (buf_readable b) (contents b) /\ 0 <= buf_readable b < 2 ^ 63.
Proof.
  intros Hok. rewrite buf_readable_val by done. pose proof (contents_length b Hok) as Hl. destruct Hok as [(d & Hd & Hld) Hp Hc].
  unfold read_ptr, contents in *. rewrite Hd in *. rewrite Hl. cbn. split; [| lia]. split_and!; try lia. done.
Qed.

(** The request a connection holds can be logged. *)
Definition logged (c : conn_t) : Prop := forall req, c_request c = Some req -> exists pv, loggable req pv.

(** After dispatch. *)
Lemma after_dispatch_Ret (c : conn_t) (h : list region) (s : sys_t) :
  conn_ok c -> exists c' ft h' s', after_dispatch c h s = Ret (c', ft, h', s') /\ conn_ok c' /\ ft <> WorkerClose /\
    (c_request c' = c_request c \/ c_request c' = None).
Proof.
  intros Hok. pose proof Hok as [H1 H2 H3 H4 H5]. unfold after_dispatch.
  destruct (write_loop_Ret (c_fd c) (c_wbuf c) s H2) as (n & b & s1 & -> & [Hokb _ _ _ _ _ _] & _). rewrite bind_Ret. cbn zeta.
  assert (conn_ok (set_c_wbuf b c)) as Hokc by (by constructor).
  assert (exists c' ft h' s', (if buf_readable (c_wbuf (set_c_wbuf b c)) =? 0
    then if c_keep_alive (set_c_wbuf b c) then next_request (set_c_wbuf b c) h s1 else Ret (set_c_wbuf b c, PoolPut, h, s1)
    else Ret (set_c_state CONN_WRITING_RESPONSE (set_c_wbuf b c), Stay, h,
      worker_client_event_mod (set_c_state CONN_WRITING_RESPONSE (set_c_wbuf b c)) EV_WRITE_ONLY s1)) = Ret (c', ft, h', s') /\ conn_ok c' /\ ft <> WorkerClose /\
      (c_request c' = c_request c \/ c_request c' = None)) as Hrest.
  { case_match; [case_match |].
    - destruct (next_request_Ret (set_c_wbuf b c) h s1 Hokc) as (c' & h' & -> & Hok' & _ & _ & Hreq & _). eexists _, _, _, _. split_and!; [done.. |]. by right.
    - eexists _, _, _, _. split_and!; [done.. |]. by left.
    - eexists _, _, _, _. split; [done |]. split; [by constructor |]. split; [done | by left]. }
  destruct (c_state c); try exact Hrest; eexists _, _, _, _; (split_and!; [done.. |]); by left.
Qed.

Lemma request_create_Ret {A : Allocator} (h : list region) (a : arena_t) :
  a_head a <> [] ->
  exists o a' h', request_create h a = Ret (o, a', h') /\ a_head a' <> [] /\ (forall p r, o = Some (p, r) -> r = request_zero).
Proof.
  intros Ha. unfold request_create. match goal with |- context [arena_alloc_aligned h a ?n ?al] =>
    destruct (arena_alloc_defined h a n al Ha ltac:(done)) as (o & a' & h' & -> & Ha') end.
  rewrite bind_Ret. destruct o; eexists _, _, _; (split; [done |]); (split; [done |]); intros p r Heq; [by injection Heq as <- <- | discriminate].
Qed.

Lemma dispatch_Ret {A : Allocator} {RX : Regex} {RO : RegexOK RX} (env : dispatch_env) (cfg : np_config_t) (c : conn_t) (h : list region)
    (req : http_request_t) (sh : shared_t) (s : sys_t) (sv : http_parse_state_t bytes) (bv : bytes) (cnt : Z) :
  ModuleOK (de_module env) -> conn_ok c -> env_ok env cfg -> request_limits env cfg sv ->
  shared_ok (de_now env) cnt sh -> cnt < INT_MAX - 2 ->
  str_repr (req_path req) (path_val (ps_uri sv)) -> Forall2 header_repr (req_headers req) (fields_of sv) -> str_repr (req_body req) bv ->
  req_method req = ps_method sv -> req_upgrade req = ps_upgrade sv ->
  exists c' h' req' sh' s' pv, handler_dispatch env cfg c h req sh s = Ret (c', h', req', sh', s') /\ conn_ok c' /\ c_fd c' = c_fd c /\
    shared_ok (de_now env) (cnt + 3) sh' /\ loggable req' pv.
Proof.
  intros Hmo Hok [E1 E6 E2 E3 E4 E5] Hlim Hsh Hcnt Hp Hf Hb Hm Hu. unfold handler_dispatch. cbn zeta.
  destruct (select_server_Ret cfg (set_req_ip (de_ip env) req) (fields_of sv) Hf E4) as (i & server & -> & Hi). rewrite bind_Ret.
  pose proof (Forall_lookup_1 _ _ _ _ Hlim Hi) as Hl. cbn beta in Hl. pose proof (Forall_lookup_1 _ _ _ _ E5 Hi) as Hroot. cbn beta in Hroot.
  assert (forall r pv, str_repr (req_path r) pv -> req_remote_ip r = de_ip env -> rewrites (rewrite_rules server) (path_val (ps_uri sv)) pv -> loggable r pv) as Hlog.
  { intros r pv Hr Hip Hw. destruct (Hl pv Hw). split; [done |]. rewrite Hip. by split. }
  assert (forall r pv, str_repr (req_path r) pv -> rewrites (rewrite_rules server) (path_val (ps_uri sv)) pv ->
    req_headers r = req_headers req -> req_body r = req_body req -> req_method r = req_method req -> req_upgrade r = req_upgrade req -> req_remote_ip r = de_ip env ->
    request_fits env server r pv bv (fields_of sv)) as Hfits.
  { intros r pv Hr Hw Eh Eb Em Eu Ei. destruct (Hl pv Hw) as [L1 L2 L3 L4]. constructor; try done; rewrite ?Eh, ?Eb, ?Ei; try done; [lia |].
    rewrite proxy_text_head. by rewrite Em, Eu, Ei, Hm, Hu. }
  destruct (module_run_answered (de_module env) (sh_modules sh) c (set_req_ip (de_ip env) req) _ Hmo Hok Hp) as (rc & c1 & -> & Hok1 & Ha1). rewrite bind_Ret.
  assert (c_fd c1 = c_fd c) as Hfd1 by (by destruct Ha1 as [-> | (b & _ & ->)]).
  destruct (rc =? NP_MODULE_HANDLED).
  { destruct (log_request_ok env server (set_req_ip (de_ip env) req) (path_val (ps_uri sv)) bv (fields_of sv) cnt) with (status := 200) (sh := sh) as (sh' & -> & Hsh');
      [apply Hfits; try done; by left | done.. |].
    rewrite bind_Ret. eexists _, _, _, _, _, (path_val (ps_uri sv)). split; [done |]. split; [done |]. split; [done |].
    split; [eapply shared_ok_mono; [done | lia] |]. apply Hlog; try done. by left. }
  rewrite Hi. destruct (rewrite_path_Ret (rewrite_rules server) c1 h (set_req_ip (de_ip env) req) (path_val (ps_uri sv)) Hok1 Hp)
    as (a & h2 & pv & r2 & -> & Ha & Hr2 & Hrep & Hrw). rewrite bind_Ret.
  assert (req_headers r2 = req_headers req /\ req_body r2 = req_body req /\ req_method r2 = req_method req /\ req_upgrade r2 = req_upgrade req /\
    req_remote_ip r2 = de_ip env) as (Eh & Eb & Em & Eu & Ei) by (destruct Hr2 as [-> | ->]; done).
  destruct (handler_respond_Ret env cfg i server (set_c_arena a c1) r2 sh s pv bv (fields_of sv) cnt)
    as (c' & sh' & s' & -> & Hd & Hsh'); [by apply Hfits | destruct Hok1; by constructor | done.. |].
  rewrite bind_Ret. destruct Hd as (Hok' & Hfd' & _). eexists _, _, _, _, _, pv. split; [done |]. split; [done |].
  split; [rewrite Hfd'; exact Hfd1 |]. split; [done |]. by apply Hlog.
Qed.

Lemma serve_Ret {A : Allocator} {RX : Regex} {RO : RegexOK RX} (env : dispatch_env) (cfg : np_config_t) (ts : Z * Z) (ps : http_parse_state_t str_t)
    (sv : http_parse_state_t bytes) (c : conn_t) (h : list region) (sh : shared_t) (s : sys_t) (cnt : Z) :
  ModuleOK (de_module env) -> conn_ok c -> logged c -> env_ok env cfg -> request_limits env cfg sv ->
  shared_ok (de_now env) cnt sh -> cnt < INT_MAX - 2 ->
  http_parse_request http_parse_state_init (read_ptr (c_rbuf c)) (buf_readable (c_rbuf c)) = Ret (PARSE_DONE, ps) ->
  state_rel (read_ptr (c_rbuf c)) (buf_readable (c_rbuf c)) ps sv ->
  exists c' ft h' s' sh', serve env cfg ts ps (buf_readable (c_rbuf c)) c h sh s = Ret ((c', ft, h', s'), sh') /\ conn_ok c' /\ logged c' /\
    shared_ok (de_now env) (cnt + 3) sh' /\ ft <> WorkerClose.
Proof.
  intros Hmo Hok Hlg He Hlim Hsh Hcnt Hparse Hrel. pose proof Hok as [H1 H2 H3 H4 H5]. destruct (read_ptr_readable _ H1) as [Hrd Hn].
  destruct (parse_done_bounds _ _ _ _ Hrd ltac:(lia) Hparse) as (Hoff & Hparsed & Hbody). unfold serve.
  destruct (request_create_Ret h _ H5) as (o & a & h1 & -> & Ha & Hz). rewrite bind_Ret.
  assert (conn_ok (set_c_arena ((c_arena c).1, a) c)) as Hoka by (by constructor). cbn zeta.
  destruct o as [[p req] |]; [| eexists _, _, _, _, _; split; [done |]; split; [done |]; split; [exact Hlg |]; split; [eapply shared_ok_mono; [done | lia] | done]].
  rewrite (Hz p req eq_refl). change (c_rbuf (set_c_arena ((c_arena c).1, a) c)) with (c_rbuf c).
  destruct (request_populate_Ret ps sv _ _ _ ts Hrd ltac:(lia) Hrel ltac:(lia) Hbody) as (r & bv & -> & Hpath & Hbv & Hhs & Hmeth & Hup & _). rewrite bind_Ret.
  set (c1 := set_c_request _ _). rewrite buf_readable_val in Hparsed by done.
  destruct (buf_consume_ok (c_rbuf c) (ps_parsed_bytes ps) H1 ltac:(lia)) as [Hokr _].
  assert (conn_ok c1) as Hok1 by (by constructor).
  destruct (dispatch_Ret env cfg c1 h1 r sh s sv bv cnt Hmo Hok1 He Hlim Hsh Hcnt Hpath) as (c2 & h2 & req2 & sh2 & s2 & pv & -> & Hok2 & _ & Hsh2 & Hlog2); [| done.. |].
  { rewrite Hhs. by eapply fields_of_repr. }
  rewrite bind_Ret.
  destruct (after_dispatch_Ret (set_c_request (Some req2) c2) h2 s2) as (c3 & ft & h3 & s3 & -> & Hok3 & Hft & Hreq3); [destruct Hok2; by constructor |].
  rewrite bind_Ret. eexists _, _, _, _, _. split; [done |]. split_and!; try done.
  intros q Hq. destruct Hreq3 as [E | E]; rewrite E in Hq; [| discriminate]. injection Hq as <-. by exists pv.
Qed.

Lemma read_tunnel_Ret (c : conn_t) (h : list region) (s : sys_t) :
  conn_ok c -> exists c' ft h' s', read_tunnel c h s = Ret (c', ft, h', s') /\ conn_ok c' /\ c_request c' = c_request c.
Proof.
  intros Hok. pose proof Hok as [H1 H2 H3 H4 H5]. unfold read_tunnel.
  destruct (read_loop_Ret (c_fd c) (c_upstream_wbuf c) s H4) as (n & b & s1 & -> & Hrd & _). rewrite bind_Ret.
  pose proof (rd_ok _ _ _ _ _ Hrd) as Hb. cbn zeta. case_match; [eexists _, _, _, _; split; [done |]; split; [by constructor | done] |].
  case_match; [| eexists _, _, _, _; split; [done |]; split; [by constructor | done]]. cbn [c_upstream_fd c_upstream_wbuf set_c_upstream_wbuf].
  destruct (write_loop_Ret (c_upstream_fd c) b s1 Hb) as (m & b2 & s2 & -> & [Hb2 _ _ _ _ _ _] & _). rewrite bind_Ret.
  eexists _, _, _, _. split; [done |]. split; [by constructor | done].
Qed.

(** The read handler is safe, from the bytes of the client to the response:
    reading, parsing, the request object, dispatch to the endpoints, the cache,
    the backends or the files, and writing.  For any bytes and any answers of the
    kernel, as long as the request keeps to the limits of the handlers' arrays,
    it performs no undefined operation, ends, leaves a well-formed connection, and
    keeps the invariants of the limiter, the counters and the backend pools. *)
Theorem handle_read_safe {A : Allocator} {RX : Regex} {RO : RegexOK RX} (env : dispatch_env) (cfg : np_config_t) (ts : Z * Z) (c : conn_t)
    (h : list region) (sh : shared_t) (s : sys_t) (cnt : Z) :
  ModuleOK (de_module env) -> conn_ok c -> logged c -> env_ok env cfg -> shared_ok (de_now env) cnt sh -> cnt < INT_MAX - 2 ->
  (forall n b s1 sv, read_loop (c_fd c) (c_rbuf c) s = Ret (n, b, s1) -> parse_val init_val (contents b) = (PARSE_DONE, sv) ->
     request_limits env cfg sv) ->
  exists c' ft h' s' sh', handle_read env cfg ts c h sh s = Ret ((c', ft, h', s'), sh') /\ conn_ok c' /\ logged c' /\
    shared_ok (de_now env) (cnt + 3) sh'.
Proof.
  intros Hmo Hok Hlg He Hsh Hcnt Hlim. pose proof Hok as [H1 H2 H3 H4 H5].
  assert (shared_ok (de_now env) (cnt + 3) sh) as Hsh3 by (eapply shared_ok_mono; [done | lia]). unfold handle_read.
  case_bool_decide.
  { destruct (read_tunnel_Ret c h s Hok) as (c' & ft & h' & s' & -> & Hok' & Hreq). rewrite bind_Ret. eexists _, _, _, _, _. split; [done |].
    split; [done |]. split; [intros req Hq; rewrite Hreq in Hq; by apply Hlg | done]. }
  destruct (read_loop_Ret (c_fd c) (c_rbuf c) s H1) as (n & b & s1 & Hr & Hrd & _). rewrite Hr, bind_Ret.
  pose proof (rd_ok _ _ _ _ _ Hrd) as Hb. assert (conn_ok (set_c_rbuf b c)) as Hokc by (by constructor). cbn zeta.
  case_match; [by eexists _, _, _, _, _ |]. case_match; [by eexists _, _, _, _, _ |].
  change (c_rbuf (set_c_rbuf b c)) with b. destruct (read_ptr_readable b Hb) as [Hread Hn].
  destruct (http_parse_request_Ret (read_ptr b) (buf_readable b) http_parse_state_init init_val (contents b) Hread (init_rel _ _)) as (r & ps & Hp & Hres & Hrel).
  rewrite Hp, bind_Ret. destruct r; [by eexists _, _, _, _, _ | |].
  - destruct (serve_Ret env cfg ts ps (parse_val init_val (contents b)).2 (set_c_rbuf b c) h sh s1 cnt Hmo Hokc Hlg He) as (c' & ft & h' & s' & sh' & Hs & Hok' & Hlg' & Hsh' & _); try done.
    + eapply Hlim; [exact Hr |]. rewrite Hres. by destruct (parse_val init_val (contents b)).
    + by eexists _, _, _, _, _.
  - destruct (response_write_error_Ret (OK := np_buf_write_buffer_ok) (c_wbuf c) 400 false H2) as (w & Hw & Hokw & _); [done |].
    change (c_wbuf (set_c_rbuf b c)) with (c_wbuf c). rewrite Hw, bind_Ret. eexists _, _, _, _, _. split; [done |]. split; [by constructor | done].
Qed.

Definition file_config : @np_config_t literal_regex := sample_config [sample_server (lit "/srv") []].

Lemma file_env_modules : ModuleOK (de_module file_env).
Proof. intros h c req pv _ _. eexists _, _. split; [reflexivity | by left]. Qed.

Lemma file_env_ok : env_ok file_env file_config.
Proof.
  constructor; [vm_compute; discriminate | vm_compute; reflexivity | unfold AccessLog.sane_clock; cbn; lia | | discriminate | constructor; [reflexivity | constructor]].
  intros name fd st. cbn. unfold sample_fs. case_match; [intros [= <- <-]; cbn; lia | discriminate].
Qed.

Lemma get_a_limits : request_limits file_env file_config (parse_val init_val get_a).2.
Proof.
  constructor; [| constructor]. intros pv [-> | (rule & ms & Hin & _)]; [| by apply elem_of_nil in Hin].
  constructor; [vm_compute; discriminate | vm_compute; discriminate | vm_compute; reflexivity | constructor].
Qed.

Lemma plain_shared_ok (now : Z) : shared_ok now 0 plain_shared.
Proof. constructor; [discriminate | discriminate | constructor | by apply map_Forall_empty]. Qed.

Lemma new_conn_ok : conn_ok new_conn.
Proof. destruct sample_conn_ok. by constructor. Qed.

Lemma handle_read_safe_witness :
  exists c' ft h' s' sh', handle_read file_env file_config (1, 0) new_conn [] plain_shared
      (mk_sys [AData get_a; AAgain] [] [] []) = Ret ((c', ft, h', s'), sh') /\ conn_ok c'.
Proof.
  destruct (handle_read_safe file_env file_config (1, 0) new_conn [] plain_shared
    (mk_sys [AData get_a; AAgain] [] [] []) 0 file_env_modules new_conn_ok) as (c' & ft & h' & s' & sh' & Hr & Hok & _).
  - discriminate.
  - apply file_env_ok.
  - apply plain_shared_ok.
  - unfold INT_MAX. lia.
  - intros n b s1 sv Hr Hp. assert (contents b = get_a) as Hb by (vm_compute in Hr; injection Hr as <- <- <-; reflexivity).
    rewrite Hb in Hp. assert (sv = (parse_val init_val get_a).2) as -> by (by rewrite Hp). apply get_a_limits.
  - exists c', ft, h', s', sh'. split; [exact Hr | exact Hok].
Defined.

(** ** Accepting, hanging up and shutting down *)

(** One connection that is accepted: its descriptor is either closed, when there
    is no memory, or owned by a connection that no client was using, reset and
    registered for reading, and the worker counts one more. *)
Theorem accept_one {A : Allocator} (rt now fd peer : Z) (mem : conn_mem) (timer : option Z) (k : worker_t) (live : gset Z) (fl : list Z) :
  conn_pool_inv (wk_pool k) live fl -> mem_ok (wk_pool k) mem -> INT_MIN <= wk_active k < INT_MAX ->
  (forall a, exists r, timeout_add (wk_timers k) rt on_conn_timeout_cb a now timer = Ret r) ->
  exists k' live' fl', accept_loop rt now [Accepted fd peer mem timer] k = Ret k' /\ conn_pool_inv (wk_pool k') live' fl' /\
    (live' = live /\ wk_active k' = wk_active k /\ s_calls (wk_sys k') = s_calls (wk_sys k) ++ [SysClose fd] \/
     exists a c, live' = {[a]} ∪ live /\ (a ∉ live) /\ w_conns (wk_pool k') !! a = Some c /\ fresh_conn fd c /\
       wk_active k' = wk_active k + 1 /\ s_calls (wk_sys k') = s_calls (wk_sys k) ++ [SysEpollAdd fd EV_READ_ONLY]).
Proof.
  intros Hinv Hmem Hact Htimer. cbn [accept_loop].
  destruct (conn_pool_get_spec (wk_pool k) live fl mem fd (Some peer) Hinv Hmem) as [(w & -> & Hi) | (a & w & fl' & c & -> & Hna & Hi & Hc & Hf)]; rewrite bind_Ret.
  - eexists _, live, fl. split; [done |]. split; [done |]. by left.
  - rewrite i32_Ret, bind_Ret by lia. destruct (Htimer a) as [r ->]. rewrite bind_Ret. eexists _, ({[a]} ∪ live), fl'. split; [done |].
    split; [done |]. right. by eexists a, c.
Qed.

Lemma accept_one_witness :
  exists k', accept_loop 60 7 [Accepted 21 0 witness_mem None] (mk_worker (mk_world ∅ [] None 0 10 []) plain_shared (mk_sys [] [] [] []) (mk_wheel ∅ [] 0 1 0) 1 7) = Ret k'.
Proof.
  destruct (accept_one 60 7 21 0 witness_mem None (mk_worker (mk_world ∅ [] None 0 10 []) plain_shared (mk_sys [] [] [] []) (mk_wheel ∅ [] 0 1 0) 1 7) ∅ [])
    as (k' & live' & fl' & Hr & _).
  - constructor; cbn; try constructor; try lia; try done; set_solver.
  - by apply witness_mem_ok.
  - unfold INT_MIN, INT_MAX. cbn. lia.
  - intros a. by eexists.
  - exists k'. exact Hr.
Defined.

Lemma drain_loop_eq (active start timeout : Z) (times : list Z) :
  0 < active -> drain_loop active start timeout times = drop_while (fun t => t - start <? timeout) times.
Proof.
  intros Ha. induction times as [| t times IH]; [done |]. cbn. rewrite (proj2 (Z.ltb_lt 0 active)) by done. cbn [andb].
  by destruct (t - start <? timeout).
Qed.

Lemma pool_put_inv {A : Allocator} (k : worker_t) (addr : Z) (live : gset Z) (fl : list Z) :
  conn_pool_inv (wk_pool k) live fl -> addr ∈ live ->
  exists k' fl', pool_put k addr = Ret k' /\ conn_pool_inv (wk_pool k') (live ∖ {[addr]}) fl' /\ wk_active k' = wk_active k.
Proof.
  intros Hinv Ha. unfold pool_put.
  destruct (conn_pool_put_spec (mk_world (w_conns (wk_pool k)) (w_heap (wk_pool k)) (w_free_head (wk_pool k)) (w_free_count (wk_pool k)) (w_max_free (wk_pool k)) []) live fl addr)
    as (w & fl' & -> & Hi & _); [by destruct Hinv | done |]. rewrite bind_Ret. by eexists _, fl'.
Qed.

(** A client that hangs up gives its connection back, but is still counted: only
    a tunnel or a backend that closes takes one off the count.  A worker that shuts
    down waits for the count, and nothing it does while it waits can change it, so
    once any client has hung up it waits until the time is over: [drain_loop] then
    depends on the clock alone. *)
Theorem closed_client_counted {A : Allocator} {RX : Regex} (env : dispatch_env) (cfg : np_config_t) (files : Z -> bytes) (ts : Z * Z)
    (events : Z) (k : worker_t) (addr : Z) (live : gset Z) (fl : list Z) :
  conn_pool_inv (wk_pool k) live fl -> addr ∈ live -> has_event events (Z.lor EV_HUP EPOLLERR) = true -> 0 < wk_active k ->
  exists k' fl', on_client_event env cfg files ts events k addr = Ret k' /\ conn_pool_inv (wk_pool k') (live ∖ {[addr]}) fl' /\
    wk_active k' = wk_active k /\
    forall start times, drain_loop (wk_active k') start (drain_timeout (shutdown_timeout cfg)) times =
      drop_while (fun t => t - start <? drain_timeout (shutdown_timeout cfg)) times.
Proof.
  intros Hinv Ha Hev Hact. unfold on_client_event.
  assert (exists c, w_conns (wk_pool k) !! addr = Some c) as [c Hc].
  { apply elem_of_dom. rewrite (cp_dom _ _ _ Hinv). by apply elem_of_union_l. }
  rewrite Hc, Hev. pose proof (map_Forall_lookup_1 _ _ _ _ (cp_ok _ _ _ Hinv) Hc) as Hok.
  destruct (pool_put_inv (touch k addr c) addr live fl) as (k' & fl' & -> & Hi & Hk); [| done |].
  - apply (conn_pool_use (wk_pool k) live fl addr _ (w_heap (wk_pool k))); [done | done | by destruct Hok; constructor].
  - exists k', fl'. split; [done |]. split; [done |]. split; [exact Hk |]. intros start times. apply drain_loop_eq. by rewrite Hk.
Qed.

Lemma closed_client_counted_witness :
  exists k' fl', on_client_event file_env (sample_config []) (fun _ => []) (1, 0) EV_HUP (sample_worker new_conn []) 9 = Ret k' /\
    conn_pool_inv (wk_pool k') ({[9]} ∖ {[9]}) fl' /\ wk_active k' = 1 /\ drain_loop (wk_active k') 0 5 [1; 4; 5; 6] = [5; 6].
Proof.
  destruct (closed_client_counted file_env (sample_config []) (fun _ => []) (1, 0) EV_HUP (sample_worker new_conn []) 9 {[9]} [])
    as (k' & fl' & Hr & Hi & Hk & Hd); [| by apply elem_of_singleton | reflexivity | cbn; lia |].
  - constructor; cbn; [constructor | constructor | done | lia | by rewrite dom_singleton_L, union_empty_r_L | set_solver |].
    apply map_Forall_singleton. destruct sample_conn_ok. by constructor.
  - exists k', fl'. split; [exact Hr |]. split; [exact Hi |]. split; [exact Hk |]. etransitivity; [exact (Hd 0 [1; 4; 5; 6]) | reflexivity].
Defined.

(** ** Starting *)

Section start.
Context {RX : Regex}.

(** What [malloc] answers at the start: for the pool and the store of each server,
    for the limiter and for the counters. *)
Record start_mem : Type := mk_start {
  sm_loop : bool;
  sm_wheel : bool;
  sm_conns : bool;
  sm_pool : nat -> bool;
  sm_store : nat -> bool;
  sm_limiter : bool;
  sm_metrics : bool
}.

Definition start_pool (mem : bool) (s : np_server_config_t) : option upstream_pool_t :=
  if px_enabled (proxy s) then upstream_pool_create mem s else None.

Definition start_store (mem : bool) (s : np_server_config_t) : option cache_store_t :=
  if ca_enabled (cache s) && negb (bool_decide (ca_root (cache s) = []))
  then cache_store_create mem (ca_root (cache s)) (if 0 <? ca_max_entries (cache s) then ca_max_entries (cache s) else 1024)
  else None.

(** The handlers' context. [opened] is the answer of [open] for the access log. *)
Definition start_shared (cfg : np_config_t) (mem : start_mem) (ms : list loaded_module_t) (files : gmap bytes bytes) (opened : option Z) : shared_t :=
  mk_shared (imap (fun i s => start_pool (sm_pool mem i) s) (servers cfg))
    (imap (fun i s => start_store (sm_store mem i) s) (servers cfg))
    (if rl_enabled (rate_limit cfg) then rate_limiter_create (sm_limiter mem) cfg else None)
    (if mt_enabled (metrics cfg) then metrics_create (sm_metrics mem) else None)
    ms files (AccessLog.access_log_init (lg_access_log (log cfg)) opened) [].

(** [EV_READ | EV_EDGE]. *)
Definition EV_LISTEN : Z := Z.lor EV_READ EV_EDGE.

(** The part of [worker_run] before the event loop; [None] when it returns 1.
    [sigfd] is the descriptor of [signalfd]. *)
Definition worker_start (cfg : np_config_t) (mem : start_mem) (h : list region) (ms : list loaded_module_t) (files : gmap bytes bytes)
    (opened : option Z) (sigfd : Z) (listeners : list Z) (now : Z) (s : sys_t) : option worker_t :=
  _ ← event_loop_create (sm_loop mem);
  tw ← timeout_wheel_create NP_TIMEOUT_BUCKETS 1 (sm_wheel mem);
  pool ← conn_pool_create (sm_conns mem) h 4096;
  Some (mk_worker pool (start_shared cfg mem ms files opened)
          (sys_call_log (map (fun fd => SysEpollAdd fd EV_LISTEN) (sigfd :: listeners)) s) tw 0 now).

(** The part of [worker_run] after the event loop: [start] and [times] are the
    readings of the clock.  The event loop is freed apart. *)
Definition worker_stop (cfg : np_config_t) (listeners : list Z) (start : Z) (times : list Z) (k : worker_t) : cres (worker_t * list Z) :=
  let s := sys_call_log (map SysEpollDel listeners) (wk_sys k) in
  let left := drain_loop (wk_active k) start (drain_timeout (shutdown_timeout cfg)) times in
  let sh := wk_shared k in
  pool ← conn_pool_destroy (wk_pool k);
  timers ← timeout_wheel_destroy (wk_timers k);
  let '(log_fd, closed) := AccessLog.access_log_close (sh_log_fd sh) in
  let sh := mk_shared (map (fun _ => None) (sh_upstreams sh)) (map (fun _ => None) (sh_stores sh)) None None
              (sh_modules sh) (sh_files sh) log_fd (sh_log sh) in
  Ret (mk_worker pool sh (sys_call_log (match closed with Some fd => [SysClose fd] | None => [] end) s)
         (Timeout.set_heap timers (wk_timers k)) (wk_active k) (wk_now k), left).

(** A worker starts in a state that satisfies everything the read handler needs:
    for a configuration that was loaded, with a rate and a burst that are not
    negative, whatever memory there is for the parts, the limiter, the counters
    and the pools satisfy their invariants, no backend has been counted, no
    connection is in use, and the timers are an empty wheel. *)
Theorem worker_start_ok (cfg : np_config_t) (mem : start_mem) (h : list region) (ms : list loaded_module_t) (files : gmap bytes bytes)
    (opened : option Z) (sigfd : Z) (listeners : list Z) (now : Z) (s : sys_t) (k : worker_t) :
  config_ok cfg -> 0 <= rl_requests_per_second (rate_limit cfg) -> 0 <= rl_burst (rate_limit cfg) -> 0 <= now <= 2 ^ 62 ->
  files_ok files ->
  worker_start cfg mem h ms files opened sigfd listeners now s = Some k ->
  shared_ok now 0 (wk_shared k) /\ conn_pool_inv (wk_pool k) ∅ [] /\ wk_active k = 0 /\
  wheel_rep (wk_timers k) (replicate 512 []) [].
Proof.
  intros Hcfg Hrate Hburst Hnow Hfiles. unfold worker_start. destruct (sm_loop mem); [| discriminate]. cbn [event_loop_create mbind option_bind].
  unfold timeout_wheel_create. destruct (sm_wheel mem); [| discriminate]. change (true && (0 <=? NP_TIMEOUT_BUCKETS)) with true. cbn iota. cbn [mbind option_bind].
  destruct (sm_conns mem); [| discriminate]. cbn [conn_pool_create mbind option_bind]. intros [= <-].
  cbn [wk_shared wk_pool wk_active wk_timers]. split_and!; [| | done |].
  - constructor; cbn [sh_limiter sh_metrics sh_upstreams sh_files start_shared].
    + intros l. destruct (rl_enabled (rate_limit cfg)); [| discriminate]. pose proof (cf_ints _ Hcfg) as Hi.
      repeat match goal with H : Forall _ (_ :: _) |- _ => apply Forall_cons in H as [? H] end.
      unfold int_ok in *. apply rate_limiter_create_ok; lia.
    + intros m. destruct (mt_enabled (metrics cfg)); [| discriminate]. destruct (sm_metrics mem); [| discriminate]. intros [= <-]. apply metrics_zero_ok.
    + apply Forall_lookup_2. intros i p Hp pool ->. rewrite list_lookup_imap in Hp. destruct (servers cfg !! i) as [sv |] eqn:Hs; [| discriminate].
      cbn in Hp. injection Hp as Hp. unfold start_pool in Hp. destruct (px_enabled (proxy sv)); [| discriminate].
      destruct (sm_pool mem i) eqn:Hm; [| by rewrite ?Hm in Hp]. rewrite ?Hm in Hp.
      destruct (pool_create_inv sv pool (Forall_lookup_1 _ _ _ _ (cf_servers _ Hcfg) Hs) Hp) as (? & ? & _). by split.
    + exact Hfiles.
  - constructor; cbn; try constructor; try lia; try done; set_solver.
  - exact (timeout_wheel_create_rep NP_TIMEOUT_BUCKETS 1 _ eq_refl eq_refl eq_refl).
Qed.

(** C40 A worker stops: the listening sockets leave the event loop, every idle
    connection and every timer is freed and the access log is closed, for any
    state that the handlers can leave.  The connections in use are not closed and
    not freed: they keep their descriptors until the process ends.  And they are
    not served any more: from the stop on nothing is read from or written to any
    descriptor, the drain loop only sleeps and looks at the clock.  docs/cli.md and
    docs/getting-started.md say that requests under way are finished. *)
Theorem worker_stop_frees (cfg : np_config_t) (listeners : list Z) (start : Z) (times : list Z) (k : worker_t) (live : gset Z) (fl : list Z)
    (B : list (list timer)) :
  conn_pool_inv (wk_pool k) live fl -> wheel_rep (wk_timers k) B [] ->
  exists k', worker_stop cfg listeners start times k =
      Ret (k', drain_loop (wk_active k) start (drain_timeout (shutdown_timeout cfg)) times) /\
    dom (w_conns (wk_pool k')) = live /\ (forall a, a ∈ live -> w_conns (wk_pool k') !! a = w_conns (wk_pool k) !! a) /\
    tw_heap (wk_timers k') = ∅ /\
    s_out (wk_sys k') = s_out (wk_sys k) /\ s_in (wk_sys k') = s_in (wk_sys k) /\
    s_calls (wk_sys k') = s_calls (wk_sys k) ++ map SysEpollDel listeners ++
      match (AccessLog.access_log_close (sh_log_fd (wk_shared k))).2 with Some fd => [SysClose fd] | None => [] end.
Proof.
  intros Hpool Hwheel. unfold worker_stop. destruct (conn_pool_destroy_spec _ _ _ Hpool) as (w' & -> & Hd & _ & Hl).
  rewrite (timeout_wheel_destroy_rep _ _ Hwheel). cbn [mbind cres_mbind]. destruct (AccessLog.access_log_close _) as [fd closed].
  eexists. split; [reflexivity |]. cbn [wk_pool wk_timers wk_sys tw_heap Timeout.set_heap sys_call_log s_calls snd].
  split_and!; [done.. |]. by rewrite <- app_assoc.
Qed.

End start.

Lemma worker_start_ok_witness :
  exists k, worker_start (RX := literal_regex) (config_default (RX := literal_regex)) (mk_start true true true (fun _ => true) (fun _ => true) true true) [] [] ∅ None 3 [4]
      100 (mk_sys [] [] [] []) = Some k /\ shared_ok 100 0 (wk_shared k) /\ wk_active k = 0.
Proof.
  eexists. split; [reflexivity |].
  destruct (worker_start_ok (RX := literal_regex) (config_default (RX := literal_regex)) (mk_start true true true (fun _ => true) (fun _ => true) true true) [] [] ∅ None 3 [4]
    100 (mk_sys [] [] [] []) _ config_default_ok ltac:(vm_compute; discriminate) ltac:(vm_compute; discriminate) ltac:(lia) (map_Forall_empty _) eq_refl) as (Hsh & _ & Ha & _).
  split; [exact Hsh | exact Ha].
Defined.

Lemma worker_stop_frees_witness :
  exists k', worker_stop (RX := literal_regex) (sample_config []) [4; 5] 0 [1; 9] (sample_worker new_conn []) = Ret (k', [9]) /\
    dom (w_conns (wk_pool k')) = {[9]}.
Proof.
  destruct (worker_stop_frees (RX := literal_regex) (sample_config []) [4; 5] 0 [1; 9] (sample_worker new_conn []) {[9]} [] (replicate 512 []))
    as (k' & Hr & Hd & _); [| exact (timeout_wheel_create_rep NP_TIMEOUT_BUCKETS 1 _ eq_refl eq_refl eq_refl) |].
  - constructor; cbn; [constructor | constructor | done | lia | by rewrite dom_singleton_L, union_empty_r_L | set_solver |].
    apply map_Forall_singleton. destruct sample_conn_ok. by constructor.
  - exists k'. split; [exact Hr | exact Hd].
Defined.
