(* ===== verification/Answer.v ===== *)
(** * Answers: from the bytes of a request to the bytes of its response

    The server as a function: [reply] is what a client is to get for a request that
    the built-in endpoints answer - the limiter's refusal, the counters, the health
    page and the page for what does not exist - as a function of the request and
    the state.  The read handler of [Worker] sends it: reading, the parser, the
    request object, the choice of the server, dispatch, the writers and the socket
    together implement it. *)

From Stdlib Require Import ZArith Lia String.
From stdpp Require Import base numbers option list gmap.
From S2P Require Import Prelude CLib StringUtil Memory Buffer Parser Request Response Config Upstream RateLimit Conn Kernel FileServer Metrics Cache Features Modules Proxy Handler Worker.

(** ** The specification *)

Section reply.
Context {RX : Regex}.

(** The server that a request is for. *)
Definition server_index (cfg : np_config_t) (fs : list (bytes * bytes)) : nat :=
  match header_val fs (lit "Host") with Some v => server_named (servers cfg) (host_name v) | None => 0%nat end.

(** Whether the client has used up its tokens. *)
Definition limited (env : dispatch_env) (sh : shared_t) : bool :=
  match sh_limiter sh with
  | None => false
  | Some l => negb (bool_decide ((take_token (rlm_rate l) (rlm_burst l) (bucket_of l (de_ip env)) (de_now env)).1 = NP_OK))
  end.

Definition error_reply (status : Z) (ka : bool) : bytes :=
  print_response_head status (status_reason status) (error_fields status ka) ++ error_page status.

Definition metrics_reply (m : np_metrics_t) (ka : bool) : bytes :=
  print_response_head 200 (lit "OK")
    [(lit "Content-Type", lit "text/plain; version=0.0.4"); (lit "Content-Length", fmt_u (zlen (concat (metrics_pieces m))));
     (lit "Connection", conn_token ka)] ++ concat (metrics_pieces m).

Definition health_reply (ka : bool) : bytes := if ka then HEALTHZ_RESPONSE_KA else HEALTHZ_RESPONSE_CLOSE.

(** Whether the cache may answer. *)
Definition cacheable (server : np_server_config_t) (idx : nat) (m : http_method_t) (sh : shared_t) : bool :=
  match ca_enabled (cache server), sh_stores sh !! idx, m with true, Some (Some _), HTTP_METHOD_GET => true | _, _, _ => false end.

(** Whether a backend answers. *)
Definition proxied_to (server : np_server_config_t) (idx : nat) (sh : shared_t) : bool :=
  match px_enabled (proxy server), sh_upstreams sh !! idx with true, Some (Some _) => true | _, _ => false end.

Definition page_reply (server : np_server_config_t) (idx : nat) (sh : shared_t) (m : http_method_t) (path : bytes) (ka : bool) : option bytes :=
  if is_prefix (lit "/healthz") path then Some (health_reply ka)
  else if cacheable server idx m sh || proxied_to server idx sh then None
  else match static_root server with [] => Some (error_reply 404 ka) | _ :: _ => None end.

(** The response to a request; [None] where the cache, a backend or a file has it. *)
Definition reply (env : dispatch_env) (cfg : np_config_t) (server : np_server_config_t) (idx : nat) (sh : shared_t)
    (m : http_method_t) (path : bytes) (ka : bool) : option bytes :=
  if limited env sh then Some (error_reply 429 ka)
  else
    match sh_metrics sh with
    | Some x => if is_prefix (mt_path (metrics cfg)) path then Some (metrics_reply x ka) else page_reply server idx sh m path ka
    | None => page_reply server idx sh m path ka
    end.

End reply.

(** ** Dispatch implements it *)

(** The room that the longest of these responses needs. *)
Definition REPLY_ROOM : Z := 4096.

Section respond.
Context {RX : Regex}.

Lemma select_server_index (cfg : np_config_t) (req : http_request_t) (fs : list (bytes * bytes)) :
  Forall2 header_repr (req_headers req) fs -> select_server cfg req = Ret (server_index cfg fs).
Proof.
  intros Hf. unfold select_server, request_header, server_index.
  destruct (request_header_loop_Ret _ _ (STR (lit "Host")) (lit "Host") Hf (str_repr_STR _)) as (h & -> & Hv). rewrite bind_Ret.
  destruct (header_val fs (lit "Host")) as [v |]; [| by rewrite Hv]. destruct Hv as (Hv & _).
  destruct (ptr h) as [| o off] eqn:Hp; cbn [is_null].
  - unfold str_repr in Hv. rewrite Hp in Hv. destruct Hv as [_ ->]. f_equal. unfold server_named. destruct (list_find _ _) as [[i x] |] eqn:E; [| done].
    apply list_find_Some in E as (_ & Hb & _). exfalso. apply andb_true_iff in Hb as [Hne He]. apply negb_true_iff, bool_decide_eq_false in Hne.
    apply Hne. unfold strcmp_eq, eqb_bytes in He. by apply bool_decide_eq_true in He.
  - rewrite <- Hp. pose proof (str_repr_len _ _ Hv) as Hl.
    assert (load_n (ptr h) (if len h <? 255 then len h else 255) = Ret (take 255 v)) as ->.
    { apply load_n_Ret. replace (if len h <? 255 then len h else 255) with (Z.of_nat (Nat.min 255 (length v)));
        [eapply readable_take_min; exact Hv |]. rewrite Hl. case_match; bprop; lia. }
    by rewrite bind_Ret, host_name_strchr.
Qed.

Context (env : dispatch_env) (cfg : np_config_t) (server : np_server_config_t) (idx : nat)
  (req : http_request_t) (pv bv : bytes) (fs : list (bytes * bytes)) (cnt : Z).
Context (Hfit : request_fits env server req pv bv fs) (Hip : req_remote_ip req = de_ip env).

(** What a branch that answers leaves. *)
Definition answers (c : conn_t) (s : sys_t) (text : bytes) (r : cres (conn_t * shared_t * sys_t)) : Prop :=
  exists b sh', r = Ret (writing b c, sh', s) /\ buf_ok b /\ contents b = contents (c_wbuf c) ++ text.

Lemma limit_value (sh : shared_t) :
  shared_ok (de_now env) cnt sh ->
  exists allowed sh', match sh_limiter sh with
    | None => Ret (NP_OK, sh)
    | Some l => r ← rate_limit_check l (req_remote_ip req) (de_now env); Ret (r.1, set_sh_limiter (Some r.2) sh)
    end = Ret (allowed, sh') /\ negb (bool_decide (allowed = NP_OK)) = limited env sh /\ shared_ok (de_now env) cnt sh' /\
    sh_upstreams sh' = sh_upstreams sh /\ sh_metrics sh' = sh_metrics sh /\ sh_stores sh' = sh_stores sh.
Proof using Hfit Hip.
  intros Hsh. pose proof Hsh as [Hl Hm Hp Hfi]. unfold limited. destruct (sh_limiter sh) as [l |]; [| by eexists _, _; split_and!].
  destruct (rate_limit_check_spec l (req_remote_ip req) (de_now env) (Hl l eq_refl) (rf_ip _ _ _ _ _ _ Hfit)) as (l' & -> & Hok & _).
  rewrite bind_Ret. eexists _, _. split; [done |]. rewrite Hip. split_and!; [done | | done..]. constructor; [| done..]. by intros x [= <-].
Qed.

Lemma error_answers (c : conn_t) (status : Z) (sh : shared_t) (s : sys_t) :
  conn_ok c -> shared_ok (de_now env) cnt sh -> INT_MIN <= status <= INT_MAX -> REPLY_ROOM <= buf_writable (c_wbuf c) ->
  answers c s (error_reply status (req_keep_alive req))
    (b ← response_write_error (c_wbuf c) status (req_keep_alive req);
     let sh := set_sh_metrics (metrics_inc_requests (sh_metrics sh) status) sh in
     sh ← log_request env req status sh; Ret (writing b c, sh, s)).
Proof using Hfit.
  intros Hc Hsh Hs Hroom. unfold REPLY_ROOM in Hroom. pose proof (error_page_length status Hs) as Hp. pose proof (error_head_length status (req_keep_alive req) Hs) as Hh.
  destruct (response_write_error_Ret (OK := np_buf_write_buffer_ok) (c_wbuf c) status (req_keep_alive req) (ck_wbuf _ Hc) Hs) as (b & -> & Hb & Hcont).
  rewrite bind_Ret. cbn zeta. destruct (log_request_ok _ _ _ _ _ _ cnt Hfit status _ Hs (inc_requests_ok _ _ status _ Hsh)) as (sh' & -> & _). rewrite bind_Ret.
  exists b, sh'. split; [done |]. split; [exact Hb |]. etransitivity; [exact Hcont |]. f_equal. unfold fitting, error_reply.
  set (head := print_response_head status _ _) in *. change (wb_writable (c_wbuf c)) with (buf_writable (c_wbuf c)).
  by rewrite (proj2 (Z.leb_le (zlen head + zlen (error_page status)) _)) by lia.
Qed.

Lemma simple_answers (c : conn_t) (text : bytes) (status : Z) (sh : shared_t) (s : sys_t) (r : cres conn_t) :
  shared_ok (de_now env) cnt sh -> INT_MIN <= status <= INT_MAX ->
  (exists b, r = Ret (writing b c) /\ buf_ok b /\ contents b = contents (c_wbuf c) ++ text) ->
  answers c s text (c ← r; sh ← log_request env req status sh; Ret (c, sh, s)).
Proof using Hfit.
  intros Hsh Hs (b & -> & Hb & Hc). rewrite bind_Ret. destruct (log_request_ok _ _ _ _ _ _ cnt Hfit status sh Hs Hsh) as (sh' & -> & _). rewrite bind_Ret.
  by exists b, sh'.
Qed.

Lemma health_answers (c : conn_t) (ka : bool) :
  conn_ok c -> REPLY_ROOM <= buf_writable (c_wbuf c) ->
  exists b, health_handle c ka = Ret (writing b c) /\ buf_ok b /\ contents b = contents (c_wbuf c) ++ health_reply ka.
Proof using.
  intros Hc Hroom. unfold REPLY_ROOM in Hroom. unfold health_handle, health_reply. cbn zeta. set (resp := if ka then _ else _).
  assert (zlen resp <= 256) as Hlen by (unfold resp; destruct ka; vm_compute; discriminate).
  rewrite (proj2 (Z.leb_le _ _)) by lia. destruct (buf_append_Ret (c_wbuf c) resp (ck_wbuf _ Hc) ltac:(lia)) as (b & -> & Hb & Hcont & _).
  rewrite bind_Ret. by exists b.
Qed.

Lemma metrics_answers (c : conn_t) (m : np_metrics_t) (ka : bool) :
  conn_ok c -> metrics_ok m -> REPLY_ROOM <= buf_writable (c_wbuf c) ->
  exists b, metrics_handle m c ka = Ret (writing b c) /\ buf_ok b /\ contents b = contents (c_wbuf c) ++ metrics_reply m ka.
Proof using.
  intros Hc Hm Hroom. destruct (metrics_handle_framed m c ka Hm (ck_wbuf _ Hc) Hroom) as (c' & Hr & Hok & Hs & Hcont).
  destruct (metrics_handle_Ret m c ka Hm (ck_wbuf _ Hc)) as (b & Hr' & Hb). rewrite Hr in Hr'. injection Hr' as ->. rewrite Hr. by exists b.
Qed.

(** The endpoints after the limiter and the counters. *)
Lemma page_answers (c : conn_t) (sh : shared_t) (s : sys_t) (text : bytes) :
  conn_ok c -> shared_ok (de_now env) cnt sh -> REPLY_ROOM <= buf_writable (c_wbuf c) ->
  page_reply server idx sh (req_method req) pv (req_keep_alive req) = Some text ->
  answers c s text
    (is_health ← path_matches (req_path req) (lit "/healthz");
     if (is_health : bool) then
       c ← health_handle c (req_keep_alive req);
       sh ← log_request env req 200 sh;
       Ret (c, sh, s)
     else
       r ← cached_response env server idx req sh;
       let '(hit, sh) := r in
       match hit with
       | Some e =>
           b ← (if ce_data_len e <=? buf_writable (c_wbuf c) then buf_append (c_wbuf c) (ce_data e) else Ret (c_wbuf c));
           sh ← log_request env req (hdr_status (ce_hdr e)) sh;
           Ret (writing b c, sh, s)
       | None =>
           match px_enabled (proxy server), sh_upstreams sh !! idx with
           | true, Some (Some pool) =>
               c ← mark_cacheable server idx req sh c;
               r ← proxy_handle c req idx pool (sh_metrics sh) (de_connect env) s;
               let '(c, pool, m, s) := r in
               Ret (c, set_sh_metrics m (set_sh_upstreams (<[idx := Some pool]> (sh_upstreams sh)) sh), s)
           | _, _ =>
               match static_root server with
               | _ :: _ => r ← file_server_handle c req server (de_static env) s;
                           let '(status, c, s) := r in sh ← log_request env req status sh; Ret (c, sh, s)
               | [] => b ← response_write_error (c_wbuf c) 404 (req_keep_alive req);
                       let sh := set_sh_metrics (metrics_inc_requests (sh_metrics sh) 404) sh in
                       sh ← log_request env req 404 sh; Ret (writing b c, sh, s)
               end
           end
       end).
Proof using Hfit.
  intros Hc Hsh Hroom. unfold page_reply. rewrite (path_matches_ok _ _ _ _ _ _ Hfit), bind_Ret. destruct (is_prefix (lit "/healthz") pv).
  { intros [= <-]. apply simple_answers; [done | unfold INT_MIN, INT_MAX; lia |]. by apply health_answers. }
  destruct (cacheable server idx (req_method req) sh) eqn:Hca; [discriminate |]. destruct (proxied_to server idx sh) eqn:Hpx; [discriminate |]. cbn [orb].
  assert (cached_response env server idx req sh = Ret (None, sh)) as ->.
  { unfold cacheable in Hca. unfold cached_response. destruct (ca_enabled (cache server)); [| done]. destruct (sh_stores sh !! idx) as [[st |] |]; [| done..].
    by destruct (req_method req). }
  rewrite bind_Ret. destruct (static_root server); [| discriminate]. intros [= <-].
  pose proof (error_answers c 404 sh s Hc Hsh ltac:(unfold INT_MIN, INT_MAX; lia) Hroom) as Herr.
  unfold proxied_to in Hpx. destruct (px_enabled (proxy server)); [| exact Herr]. destruct (sh_upstreams sh !! idx) as [[pool |] |]; [discriminate | exact Herr..].
Qed.

Lemma respond_answers (c : conn_t) (sh : shared_t) (s : sys_t) (text : bytes) :
  conn_ok c -> shared_ok (de_now env) cnt sh -> REPLY_ROOM <= buf_writable (c_wbuf c) ->
  reply env cfg server idx sh (req_method req) pv (req_keep_alive req) = Some text ->
  answers c s text (handler_respond env cfg idx server c req sh s).
Proof using Hfit Hip.
  intros Hc Hsh Hroom. unfold reply, handler_respond.
  destruct (limit_value sh Hsh) as (allowed & sh1 & -> & Hlim & Hsh1 & Hup & Hme & Hst). rewrite bind_Ret, Hlim. destruct (limited env sh).
  { intros [= <-]. apply error_answers; try done. }
  rewrite Hme. destruct (sh_metrics sh) as [m |] eqn:Hm.
  - cbn iota. rewrite (path_matches_ok _ _ _ _ _ _ Hfit (mt_path (metrics cfg))), bind_Ret. destruct (is_prefix (mt_path (metrics cfg)) pv).
    + intros [= <-]. cbn iota. apply simple_answers; [done | unfold INT_MIN, INT_MAX; lia |]. apply metrics_answers; [done | | done]. apply (so_metrics _ _ _ Hsh1). congruence.
    + intros Hr. apply page_answers; [done | done | done |]. revert Hr. unfold page_reply, cacheable, proxied_to. by rewrite Hup, Hst.
  - rewrite bind_Ret. intros Hr. apply page_answers; [done | done | done |]. revert Hr. unfold page_reply, cacheable, proxied_to. by rewrite Hup, Hst.
Qed.

End respond.

(** ** The read handler implements it *)

Section serving.
Context {A : Allocator} {RX : Regex} {RO : RegexOK RX}.

(** A path that no rule matches. *)
Definition no_rule (server : np_server_config_t) (pv : bytes) : Prop :=
  Forall (fun r => regexec (rw_re r) (cstr (take 1023 pv)) = None) (rewrite_rules server).

Lemma rewrite_path_none (rules : list rewrite_rule_t) (c : conn_t) (h : list region) (req : http_request_t) (pv : bytes) :
  str_repr (req_path req) pv -> Forall (fun r => regexec (rw_re r) (cstr (take 1023 pv)) = None) rules -> rewrite_path rules c h req = Ret (c, h, req).
Proof.
  intros Hp Hall. pose proof (str_repr_len _ _ Hp) as Hl. induction Hall as [| r rules Hr _ IH]; [done |]. cbn [rewrite_path].
  assert (load_n (ptr (req_path req)) (if len (req_path req) <? 1023 then len (req_path req) else 1023) = Ret (take 1023 pv)) as ->.
  { apply load_n_Ret. replace (if len (req_path req) <? 1023 then len (req_path req) else 1023) with (Z.of_nat (Nat.min 1023 (length pv)));
      [eapply readable_take_min; exact Hp |]. rewrite Hl. case_match; bprop; lia. }
  by rewrite bind_Ret, Hr.
Qed.

(** What is asked of the outside: the modules decline, and there is memory for the
    request. *)
Record quiet (env : dispatch_env) (cfg : np_config_t) (c : conn_t) (h : list region) (sh : shared_t) : Prop := {
  qu_modules : forall x, module_run_request_handlers (de_module env) (sh_modules sh) x = Ret (NP_MODULE_DECLINED, x);
  qu_memory : exists p a h', request_create h (c_arena c).2 = Ret (Some (p, request_zero), a, h')
}.

Lemma dispatch_answers (env : dispatch_env) (cfg : np_config_t) (server : np_server_config_t) (c : conn_t) (h : list region) (req : http_request_t)
    (sh : shared_t) (s : sys_t) (sv : http_parse_state_t bytes) (bv text : bytes) (cnt : Z) :
  let idx := server_index cfg (fields_of sv) in
  let pv := path_val (ps_uri sv) in
  (forall x, module_run_request_handlers (de_module env) (sh_modules sh) x = Ret (NP_MODULE_DECLINED, x)) ->
  conn_ok c -> env_ok env cfg -> request_limits env cfg sv -> shared_ok (de_now env) cnt sh -> REPLY_ROOM <= buf_writable (c_wbuf c) ->
  servers cfg !! idx = Some server -> no_rule server pv ->
  str_repr (req_path req) pv -> Forall2 header_repr (req_headers req) (fields_of sv) -> str_repr (req_body req) bv ->
  req_method req = ps_method sv -> req_upgrade req = ps_upgrade sv -> req_keep_alive req = ps_keep_alive sv ->
  reply env cfg server idx sh (ps_method sv) pv (ps_keep_alive sv) = Some text ->
  exists b req' sh', handler_dispatch env cfg c h req sh s = Ret (writing b c, h, req', sh', s) /\ buf_ok b /\ contents b = contents (c_wbuf c) ++ text.
Proof.
  intros idx pv Hmod Hok [E1 E6 E2 E3 E4 E5] Hlim Hsh Hroom Hsrv Hrules Hp Hf Hb Hm Hu Hka Hreply. unfold handler_dispatch. cbn zeta.
  rewrite (select_server_index cfg _ (fields_of sv)) by done. fold idx. rewrite bind_Ret, Hmod, bind_Ret. change (NP_MODULE_DECLINED =? NP_MODULE_HANDLED) with false. cbn iota.
  rewrite Hsrv, (rewrite_path_none _ _ _ _ pv) by done. rewrite bind_Ret.
  pose proof (Forall_lookup_1 _ _ _ _ Hlim Hsrv pv ltac:(by left)) as [L1 L2 L3 L4]. pose proof (Forall_lookup_1 _ _ _ _ E5 Hsrv) as Hroot. cbn beta in Hroot.
  assert (request_fits env server (set_req_ip (de_ip env) req) pv bv (fields_of sv)) as Hfit.
  { constructor; try done; [cbn; lia |]. rewrite proxy_text_head. cbn. by rewrite Hm, Hu. }
  destruct (respond_answers env cfg server idx _ pv bv _ cnt Hfit eq_refl c sh s text Hok Hsh Hroom) as (b & sh' & -> & Hbok & Hc);
    [cbn; by rewrite Hm, Hka |]. rewrite bind_Ret. by eexists b, _, sh'.
Qed.

(** Writing after dispatch. *)
Lemma after_answer (b : np_buf_t) (c : conn_t) (req : http_request_t) (h : list region) (s : sys_t) :
  conn_ok c -> buf_ok b ->
  exists c' ft h' s', after_dispatch (set_c_request (Some req) (writing b c)) h s = Ret (c', ft, h', s') /\ conn_ok c' /\ c_rbuf c' = c_rbuf c /\
    sent_to (c_fd c) (s_out s') ++ contents (c_wbuf c') = sent_to (c_fd c) (s_out s) ++ contents b /\
    (contents (c_wbuf c') <> [] -> ft = Stay /\ c_state c' = CONN_WRITING_RESPONSE) /\
    (contents (c_wbuf c') = [] -> if c_keep_alive c then ft = Stay /\ c_state c' = CONN_READING_REQUEST else ft = PoolPut).
Proof.
  intros [H1 H2 H3 H4 H5] Hb. unfold after_dispatch. cbn [c_state set_c_request writing set_c_state c_fd set_c_wbuf c_wbuf].
  destruct (write_loop_Ret (c_fd c) b s Hb) as (n & b2 & s2 & -> & [Hb2 _ (t & Ht & Hout) _ _ _ _] & _). rewrite bind_Ret. cbn zeta.
  cbn [c_wbuf set_c_wbuf]. rewrite contents_nil by done. rewrite Ht.
  assert (sent_to (c_fd c) (s_out s2) ++ contents b2 = sent_to (c_fd c) (s_out s) ++ t ++ contents b2) as Hsent by (by rewrite Hout, <- app_assoc).
  case_bool_decide as E.
  - cbn [c_keep_alive set_c_wbuf set_c_request set_c_state writing]. destruct (c_keep_alive c) eqn:Hk.
    + unfold next_request. cbn [c_arena set_c_wbuf set_c_request set_c_state writing].
      destruct (arena_reset_defined h _ H5) as (a & h' & -> & Ha). rewrite bind_Ret. eexists _, _, _, _. split; [done |]. split; [by constructor |].
      split; [done |]. split; [exact Hsent |]. by split.
    + eexists _, _, _, _. split; [done |]. split; [by constructor |]. split; [done |]. split; [exact Hsent |]. by split.
  - eexists _, _, _, _. split; [done |]. split; [by constructor |]. split; [done |]. split; [exact Hsent |]. by split.
Qed.

(** C3 A request is answered: when the bytes in the read buffer after an event are
    what the reference parser takes for a request, and [reply] has a response for
    it, the read handler sends exactly that response to the client - what was sent
    followed by what waits is what there was before followed by the response -
    consumes exactly the request, and then waits to write the rest, reads the next
    request or releases the connection, as the request asked.  From the socket to
    the socket: reading in any pieces, parsing, the virtual host, the limiter, the
    endpoint and writing in any pieces.  It is asked that no rewrite rule matches
    the path, the modules decline, there is memory for the request and at least
    4096 bytes of room in the write buffer, and that the request keeps to the
    arrays of the handlers ([request_limits]: a path of 1 to 850 bytes, a request
    to a backend and [try_files] expansions that fit theirs).  The limiter's
    refusal is the page of an error 429 with its length, and the connection is
    kept when the request asked for it; docs/rate-limiting.md shows a response
    without a body that closes the connection. *)
Theorem request_answered (env : dispatch_env) (cfg : np_config_t) (server : np_server_config_t) (ts : Z * Z) (c : conn_t) (h : list region)
    (sh : shared_t) (s s1 : sys_t) (n cnt : Z) (b : np_buf_t) (sv : http_parse_state_t bytes) (text : bytes) :
  let idx := server_index cfg (fields_of sv) in
  let pv := path_val (ps_uri sv) in
  conn_ok c -> c_state c <> CONN_TUNNEL -> REPLY_ROOM <= buf_writable (c_wbuf c) -> quiet env cfg c h sh ->
  env_ok env cfg -> shared_ok (de_now env) cnt sh ->
  read_loop (c_fd c) (c_rbuf c) s = Ret (n, b, s1) -> n <> np_status_code NP_ERR_CLOSED -> n <> np_status_code NP_ERR ->
  parse_val init_val (contents b) = (PARSE_DONE, sv) -> request_limits env cfg sv ->
  servers cfg !! idx = Some server -> no_rule server pv ->
  reply env cfg server idx sh (ps_method sv) pv (ps_keep_alive sv) = Some text ->
  exists c' ft h' s' sh', handle_read env cfg ts c h sh s = Ret ((c', ft, h', s'), sh') /\ conn_ok c' /\
    sent_to (c_fd c) (s_out s') ++ contents (c_wbuf c') = sent_to (c_fd c) (s_out s) ++ contents (c_wbuf c) ++ text /\
    contents (c_rbuf c') = drop (Z.to_nat (ps_parsed_bytes sv)) (contents b) /\
    (contents (c_wbuf c') <> [] -> ft = Stay /\ c_state c' = CONN_WRITING_RESPONSE) /\
    (contents (c_wbuf c') = [] -> if ps_keep_alive sv then ft = Stay /\ c_state c' = CONN_READING_REQUEST else ft = PoolPut).
Proof.
  intros idx pv Hok Hst Hroom [Hmod (p & a & h1 & Hreq)] He Hsh Hr Hn1 Hn2 Hparse Hlim Hsrv Hrules Hreply. pose proof Hok as [H1 H2 H3 H4 H5].
  destruct (read_loop_Ret (c_fd c) (c_rbuf c) s H1) as (n' & b' & s1' & Hr' & Hrd & _). rewrite Hr in Hr'. injection Hr' as <- <- <-.
  destruct Hrd as [Hb _ _ _ Hout _ _]. unfold handle_read. rewrite bool_decide_false, Hr, bind_Ret by done. cbn zeta.
  rewrite !(proj2 (Z.eqb_neq n _)) by done. cbn [orb]. change (c_rbuf (set_c_rbuf b c)) with b. destruct (read_ptr_readable b Hb) as [Hread Hn].
  destruct (http_parse_request_Ret (read_ptr b) (buf_readable b) http_parse_state_init init_val (contents b) Hread (init_rel _ _)) as (r & ps & Hp & Hres & Hrel).
  rewrite Hparse in Hres, Hrel. cbn [fst snd] in Hres, Hrel. subst r.
  destruct (parse_done_bounds _ _ _ _ Hread ltac:(lia) Hp) as (Hoff & Hparsed & Hbody).
  rewrite buf_readable_val in Hparsed by done. pose proof (rel_parsed_bytes _ _ _ _ Hrel) as Hpb. pose proof (rel_keep_alive _ _ _ _ Hrel) as Hka.
  destruct (Z.eqb_spec (buf_readable b) 0) as [E | E].
  { rewrite buf_readable_val in E by done. assert (contents b = []) as Hnil by (destruct (contents b); [done | cbn in E; lia]). by rewrite Hnil in Hparse. }
  rewrite Hp, bind_Ret. cbn iota. unfold serve. change (c_arena (set_c_rbuf b c)) with (c_arena c). rewrite Hreq, bind_Ret. cbn zeta. cbn iota.
  change (c_rbuf (set_c_arena ((c_arena c).1, a) (set_c_rbuf b c))) with b.
  destruct (request_populate_Ret ps sv _ _ _ ts Hread ltac:(lia) Hrel ltac:(lia) Hbody) as (r & bv & -> & Hpath & Hbv & Hhs & Hmeth & Hup & Hrka & _). rewrite bind_Ret.
  set (c1 := set_c_request _ _). destruct (buf_consume_ok b (ps_parsed_bytes ps) Hb ltac:(lia)) as [Hokr Hcr].
  assert (a_head a <> []) as Ha.
  { destruct (request_create_Ret h _ H5) as (o & a' & h' & Hcr' & Ha & _). rewrite Hreq in Hcr'. by injection Hcr' as <- <- <-. }
  assert (conn_ok c1) as Hok1 by (by constructor).
  destruct (dispatch_answers env cfg server c1 h1 r sh s1 sv bv text cnt Hmod Hok1 He Hlim Hsh Hroom Hsrv Hrules Hpath) as (b2 & req' & sh' & -> & Hb2 & Hc2);
    [rewrite Hhs; by eapply fields_of_repr | done | done | done | congruence | done |].
  rewrite bind_Ret. destruct (after_answer b2 c1 req' h1 s1 Hok1 Hb2) as (c' & ft & h' & s' & -> & Hok' & Hrb & Hsent & Hmore & Hend). rewrite bind_Ret.
  eexists _, _, _, _, _. split; [done |]. split; [done |]. split; [| split; [| split; [exact Hmore |]]].
  - change (c_fd c1) with (c_fd c) in Hsent. rewrite Hsent, Hc2, Hout. done.
  - rewrite Hrb. change (c_rbuf c1) with (buf_consume b (ps_parsed_bytes ps)). by rewrite Hcr, Hpb.
  - intros Hnil. specialize (Hend Hnil). change (c_keep_alive c1) with (ps_keep_alive ps) in Hend. by rewrite Hka in Hend.
Qed.

End serving.

Definition get_health : bytes := lit "GET /healthz HTTP/1.1" ++ CRLF ++ lit "Host: x" ++ CRLF ++ CRLF.

Definition asking : conn_t := set_c_wbuf (mk_buf (Some (zeros 5000)) 5000 0 0) new_conn.

Lemma asking_ok : conn_ok asking.
Proof.
  destruct new_conn_ok. constructor; try done. constructor; cbn; [eexists; split; [reflexivity | apply (zeros_length 5000); [lia | reflexivity]] | lia | lia].
Qed.

Lemma get_health_limits : request_limits file_env file_config (parse_val init_val get_health).2.
Proof.
  constructor; [| constructor]. intros pv [-> | (rule & ms & Hin & _)]; [| by apply elem_of_nil in Hin].
  constructor; [vm_compute; discriminate | vm_compute; discriminate | vm_compute; reflexivity | constructor].
Qed.

(** The request in two pieces, the response in two. *)
Definition health_sys : sys_t := mk_sys [AData (take 9 get_health); AData (drop 9 get_health); AAgain; ACount 20; AAgain] [] [] [].

Lemma health_reads : match read_loop (c_fd asking) (c_rbuf asking) health_sys with Ret (n, b, _) => Some (n, contents b) | Stuck => None end = Some (-2, get_health).
Proof. vm_compute. reflexivity. Qed.

Lemma health_parses : (parse_val init_val get_health).1 = PARSE_DONE.
Proof. vm_compute. reflexivity. Qed.

Lemma health_parse : parse_val init_val get_health = (PARSE_DONE, (parse_val init_val get_health).2).
Proof. rewrite <- health_parses. apply surjective_pairing. Qed.

Lemma health_server : servers file_config !! server_index file_config (fields_of (parse_val init_val get_health).2) = Some (sample_server (lit "/srv") []).
Proof. vm_compute. reflexivity. Qed.

Lemma health_replies :
  reply file_env file_config (sample_server (lit "/srv") []) (server_index file_config (fields_of (parse_val init_val get_health).2)) plain_shared
    (ps_method (parse_val init_val get_health).2) (path_val (ps_uri (parse_val init_val get_health).2)) (ps_keep_alive (parse_val init_val get_health).2) = Some HEALTHZ_RESPONSE_KA.
Proof. vm_compute. reflexivity. Qed.

Lemma health_quiet : quiet file_env file_config asking [] plain_shared.
Proof. constructor; [reflexivity |]. eexists _, _, _. vm_compute. reflexivity. Qed.

Lemma request_answered_witness :
  exists c' ft h' s' sh', handle_read file_env file_config (1, 0) asking [] plain_shared health_sys = Ret ((c', ft, h', s'), sh') /\
    sent_to 5 (s_out s') ++ contents (c_wbuf c') = HEALTHZ_RESPONSE_KA.
Proof.
  pose proof health_reads as Hh. destruct (read_loop (c_fd asking) (c_rbuf asking) health_sys) as [[[n b] s1] |] eqn:Hr; [| discriminate Hh]. injection Hh as -> Hb.
  destruct (request_answered file_env file_config (sample_server (lit "/srv") []) (1, 0) asking [] plain_shared health_sys s1 (-2) 0 b (parse_val init_val get_health).2
    HEALTHZ_RESPONSE_KA asking_ok ltac:(discriminate) ltac:(vm_compute; discriminate) health_quiet file_env_ok (plain_shared_ok _) Hr ltac:(discriminate) ltac:(discriminate))
    as (c' & ft & h' & s' & sh' & Hr' & _ & Hsent & _).
  - rewrite Hb. exact health_parse.
  - exact get_health_limits.
  - exact health_server.
  - constructor.
  - exact health_replies.
  - exists c', ft, h', s', sh'. split; [exact Hr' | exact Hsent].
Defined.
