(* ===== verification/History.v ===== *)
(** * Histories of a worker: src/proc/worker.c over all its components

    The events a worker meets - connections accepted, events of clients and of
    backends - one after the other, on the whole state of the worker: the store of
    connections, the pools of backends, the cache's files, the limiter, the
    counters and the timers.  What each event needs of the outside is [enabled];
    the invariant is [worker_ok]; from the start of a worker every history of
    enabled events is defined and keeps it. *)

From Stdlib Require Import ZArith Lia String.
From stdpp Require Import base numbers option list gmap.
From S2P Require Import Prelude CLib StringUtil Memory Buffer Parser Request Response Config Upstream RateLimit EventLoop Timeout Conn Kernel FileServer Metrics Cache Features Modules Proxy Handler Hello Worker.

(** ** What a connection points to *)

Definition is_proxied (st : conn_state_t) : bool :=
  match st with CONN_PROXYING | CONN_TUNNEL => true | _ => false end.

(** The pointers of a connection into the state of the worker: a connection that
    is proxied has its pool and its backend, one that collects a response has its
    store; and its status is an [int]. *)
Record held (sh : shared_t) (c : conn_t) : Prop := {
  hd_backend : is_proxied (c_state c) = true ->
    exists i k pool, c_proxy_pool c = Some i /\ sh_upstreams sh !! i = Some (Some pool) /\
      c_tls_conn c = Some k /\ (k < length (up_backends pool))%nat;
  hd_store : forall i, cc_store (c_cache c) = Some i -> exists store, sh_stores sh !! i = Some (Some store);
  hd_status : INT_MIN <= c_proxy_status c <= INT_MAX
}.

(** The tables of a worker keep their shape. *)
Definition same_shape (sh sh' : shared_t) : Prop :=
  sh_stores sh' = sh_stores sh /\
  forall i pool, sh_upstreams sh !! i = Some (Some pool) ->
    exists pool', sh_upstreams sh' !! i = Some (Some pool') /\ length (up_backends pool') = length (up_backends pool).

#[global] Instance same_shape_preorder : PreOrder same_shape.
Proof.
  split.
  - intros sh. split; eauto.
  - intros sh1 sh2 sh3 [Hs H] [Hs' H']. split; [congruence |]. intros i pool Hp.
    destruct (H i pool Hp) as (p2 & H2 & L2). destruct (H' i p2 H2) as (p3 & H3 & L3). exists p3. split; [done | congruence].
Qed.

#[global] Instance held_proper : Proper (same_shape ==> eq ==> impl) held.
Proof.
  intros sh sh' [Hs Hu] c c' <- [H1 H2 H3]. constructor; [| by rewrite Hs | done].
  intros Hp. destruct (H1 Hp) as (i & k & pool & E1 & E2 & E3 & E4). destruct (Hu i pool E2) as (pool' & E5 & E6).
  exists i, k, pool'. split_and!; [done.. | lia].
Qed.

#[global] Instance held_proper_flip : Proper (flip same_shape ==> eq ==> flip impl) held.
Proof. intros sh sh' Hs c c' <-. by apply held_proper. Qed.

(** A step that does not close the connection and changes none of the pointers,
    unless it leaves the proxied states. *)
Definition keeps (c c' : conn_t) : Prop :=
  c_cache c' = c_cache c /\ c_proxy_status c' = c_proxy_status c /\ (c_state c' = CONN_CLOSING -> c_state c = CONN_CLOSING) /\
  (is_proxied (c_state c') = false \/
   c_state c' = c_state c /\ c_proxy_pool c' = c_proxy_pool c /\ c_tls_conn c' = c_tls_conn c).

#[global] Instance keeps_preorder : PreOrder keeps.
Proof.
  split.
  - intros c. split_and!; [done.. | by right].
  - intros c1 c2 c3 (A1 & B1 & D1 & C1) (A2 & B2 & D2 & C2). split_and!; [congruence | congruence | auto |].
    destruct C2 as [C2 | (S2 & P2 & T2)]; [by left |]. rewrite S2, P2, T2. exact C1.
Qed.

Lemma held_keeps (sh : shared_t) (c c' : conn_t) : keeps c c' -> held sh c -> held sh c'.
Proof.
  intros (Hc & Hs & _ & Hst) [H1 H2 H3]. constructor; [| by rewrite Hc | by rewrite Hs].
  intros Hp. destruct Hst as [E | (E & P & T)]; [congruence |]. rewrite P, T. apply H1. by rewrite <- E.
Qed.

Lemma keeps_writing (b : np_buf_t) (c : conn_t) : keeps c (writing b c).
Proof. split_and!; [done.. | by left]. Qed.

(** Take apart an equation between results, as far as it goes. *)
Ltac inv_ret H :=
  repeat first
    [ discriminate H
    | apply bind_inv in H as (? & ? & H)
    | match type of H with
      | (let '(_, _) := ?x in _) = _ => destruct x
      | (match ?x with _ => _ end) = Ret _ => destruct x eqn:?
      end ];
  try (injection H; clear H; intros; subst).

(** ** Dispatch *)

Section dispatch.
Context {A : Allocator} {RX : Regex}.

Lemma log_request_shape (env : dispatch_env) (req : http_request_t) (status : Z) (sh sh' : shared_t) :
  log_request env req status sh = Ret sh' -> same_shape sh sh'.
Proof. unfold log_request. intros H. inv_ret H; repeat case_match; (split; [done | cbn; eauto]). Qed.

Lemma file_server_keeps (c c' : conn_t) (req : http_request_t) (server : np_server_config_t) (fs : file_system) (s s' : sys_t) (status : Z) :
  file_server_handle c req server fs s = Ret (status, c', s') -> keeps c c'.
Proof. unfold file_server_handle. intros H. inv_ret H; (split_and!; [done.. | by left]). Qed.

Lemma cached_response_shape (env : dispatch_env) (server : np_server_config_t) (idx : nat) (req : http_request_t) (sh sh' : shared_t) (hit : option cache_entry_t) :
  cached_response env server idx req sh = Ret (hit, sh') -> same_shape sh sh'.
Proof. unfold cached_response. intros H. inv_ret H; (split; [done | cbn; eauto]). Qed.

Lemma build_proxy_request_frame (c c' : conn_t) (req : http_request_t) :
  build_proxy_request c req = Ret c' -> exists b, c' = set_c_upstream_wbuf b c.
Proof. unfold build_proxy_request. intros H. do 8 (apply bind_inv in H as (? & ? & H)). injection H as <-. eauto. Qed.

Lemma proxy_handle_links (c c' : conn_t) (req : http_request_t) (idx : nat) (pool pool' : upstream_pool_t) (m m' : option np_metrics_t)
    (connect : option Z) (s s' : sys_t) :
  proxy_handle c req idx pool m connect s = Ret (c', pool', m', s') ->
  length (up_backends pool') = length (up_backends pool) /\ c_cache c' = c_cache c /\ c_proxy_status c' = c_proxy_status c /\
  c_state c' <> CONN_CLOSING /\
  (is_proxied (c_state c') = false \/
   c_proxy_pool c' = Some idx /\ exists k, c_tls_conn c' = Some k /\ (k < length (up_backends pool'))%nat).
Proof.
  unfold proxy_handle. intros H. apply bind_inv in H as ([[k |] p1] & Hsel & H); pose proof (upstream_select_length _ _ _ Hsel) as L1.
  - apply bind_inv in H as ([ufd p2] & Hget & H). pose proof (upstream_get_length _ _ _ _ _ Hget) as L2. destruct (ufd <? 0).
    + apply bind_inv in H as (p3 & Hrel & H). pose proof (upstream_release_length _ _ _ _ Hrel) as L3.
      apply bind_inv in H as (b & _ & H). injection H as <- <- <- <-. split_and!; [congruence | done.. | by left].
    + apply bind_inv in H as (c1 & Hb & H). apply build_proxy_request_frame in Hb as (b & ->). injection H as <- <- <- <-.
      split_and!; [congruence | done.. | cbn; by destruct (req_upgrade req) |]. right. split; [done |]. exists k. split; [done |].
      rewrite L2. by eapply upstream_select_valid.
  - apply bind_inv in H as (b & _ & H). injection H as <- <- <- <-. split_and!; [congruence | done.. | by left].
Qed.

(** A branch of dispatch ends in a state of the same shape, with a connection that
    holds what it needs and is not closed. *)
Definition ends (sh : shared_t) (c : conn_t) (sh' : shared_t) (c' : conn_t) : Prop :=
  same_shape sh sh' /\ held sh' c' /\ (c_state c' = CONN_CLOSING -> c_state c = CONN_CLOSING).

Lemma ends_trans (sh1 sh2 sh3 : shared_t) (c1 c2 c3 : conn_t) :
  same_shape sh1 sh2 -> keeps c1 c2 -> ends sh2 c2 sh3 c3 -> ends sh1 c1 sh3 c3.
Proof. intros Hs (_ & _ & Hc & _) (Hs' & Hh & Hc'). split; [by transitivity sh2 |]. auto. Qed.

Lemma ends_keeps (sh sh' : shared_t) (c c' : conn_t) : held sh c -> same_shape sh sh' -> keeps c c' -> ends sh c sh' c'.
Proof. intros Hh Hs Hk. split; [done |]. split; [| apply Hk]. rewrite <- Hs. by eapply held_keeps. Qed.

(** An answer that is written and logged. *)
Lemma logged_branch (env : dispatch_env) (req : http_request_t) (status : Z) (sh1 sh sh' : shared_t) (b : np_buf_t) (c c' : conn_t) (s s' : sys_t) :
  (sh ← log_request env req status sh1; Ret (writing b c, sh, s)) = Ret (c', sh', s') -> held sh c -> same_shape sh sh1 -> ends sh c sh' c'.
Proof.
  intros H Hh Hs. apply bind_inv in H as (sh2 & Hl & H). injection H as <- <- <-. apply log_request_shape in Hl.
  apply ends_keeps; [done | by transitivity sh1 | apply keeps_writing].
Qed.

Lemma static_branch (env : dispatch_env) (server : np_server_config_t) (req : http_request_t) (sh sh' : shared_t) (c c' : conn_t) (s s' : sys_t) :
  match static_root server with
  | _ :: _ => r ← file_server_handle c req server (de_static env) s;
              let '(status, c, s) := r in sh ← log_request env req status sh; Ret (c, sh, s)
  | [] => b ← response_write_error (c_wbuf c) 404 (req_keep_alive req);
          let sh := set_sh_metrics (metrics_inc_requests (sh_metrics sh) 404) sh in
          sh ← log_request env req 404 sh; Ret (writing b c, sh, s)
  end = Ret (c', sh', s') -> held sh c -> ends sh c sh' c'.
Proof.
  intros H Hh. destruct (static_root server).
  - apply bind_inv in H as (b & _ & H). eapply logged_branch; [exact H | done |]. split; [done | cbn; eauto].
  - apply bind_inv in H as ([[status c1] s1] & Hf & H). apply bind_inv in H as (sh3 & Hl & H). injection H as <- <- <-.
    apply log_request_shape in Hl. apply file_server_keeps in Hf. by apply ends_keeps.
Qed.

(** Where the store of a marked connection is. *)
Lemma mark_cacheable_held (server : np_server_config_t) (idx : nat) (req : http_request_t) (sh : shared_t) (c c' : conn_t) :
  mark_cacheable server idx req sh c = Ret c' -> held sh c ->
  c_proxy_status c' = c_proxy_status c /\ forall i, cc_store (c_cache c') = Some i -> exists store, sh_stores sh !! i = Some (Some store).
Proof.
  unfold mark_cacheable. intros Hm Hh. destruct (ca_enabled (cache server)); [| injection Hm as <-; split; [done | apply Hh]].
  destruct (sh_stores sh !! idx) as [[store |] |] eqn:Hst; [| injection Hm as <-; split; [done | apply Hh]..].
  apply bind_inv in Hm as (key & _ & Hm). injection Hm as <-. split; [done |]. cbn. intros i [= <-]. eauto.
Qed.

Lemma proxy_branch (env : dispatch_env) (server : np_server_config_t) (idx : nat) (req : http_request_t) (pool : upstream_pool_t) (sh sh' : shared_t)
    (c c' : conn_t) (s s' : sys_t) :
  (c ← mark_cacheable server idx req sh c;
   r ← proxy_handle c req idx pool (sh_metrics sh) (de_connect env) s;
   let '(c, pool, m, s) := r in
   Ret (c, set_sh_metrics m (set_sh_upstreams (<[idx := Some pool]> (sh_upstreams sh)) sh), s)) = Ret (c', sh', s') ->
  sh_upstreams sh !! idx = Some (Some pool) -> held sh c -> ends sh c sh' c'.
Proof.
  intros H Hp Hh. apply bind_inv in H as (c1 & Hmark & H). apply bind_inv in H as ([[[c2 pool2] m2] s2] & Hpx & H). injection H as <- <- <-.
  apply proxy_handle_links in Hpx as (Hlen & Hcc & Hst & Hopen & Hlink). destruct (mark_cacheable_held _ _ _ _ _ _ Hmark Hh) as [Hst1 Hcc1].
  assert (idx < length (sh_upstreams sh))%nat as Hlt by (by eapply lookup_lt_Some). split.
  - split; [done |]. intros i p Hi. cbn. destruct (decide (i = idx)) as [-> | Hne].
    + exists pool2. rewrite list_lookup_insert_eq by done. split; [done | congruence].
    + exists p. by rewrite list_lookup_insert_ne by congruence.
  - split; [| done]. constructor.
    + intros Hpr. destruct Hlink as [E | (Hpp & k & Hk & Hkl)]; [congruence |]. exists idx, k, pool2. split_and!; try done.
      cbn. by rewrite list_lookup_insert_eq.
    + rewrite Hcc. exact Hcc1.
    + rewrite Hst, Hst1. apply Hh.
Qed.

(** After the limiter and the counters. *)
Lemma pages_branch (env : dispatch_env) (idx : nat) (server : np_server_config_t) (req : http_request_t) (sh sh' : shared_t) (c c' : conn_t) (s s' : sys_t) :
  (is_health ← path_matches (req_path req) (lit "/healthz");
   if (is_health : bool) then
     c ← health_handle c (req_keep_alive req);
     sh ← log_request env req 200 sh;
     Ret (c, sh, s)
   else
     r ← cached_response env server idx req sh;
     let '(hit, sh) := r in
     match hit with
     | Some e =>
         b ← (if ce_data_len e <=? buf_writable (c_wbuf c) then buf_append (c_wbuf c) (ce_data e) else Ret (c_wbuf c));
         sh ← log_request env req (hdr_status (ce_hdr e)) sh;
         Ret (writing b c, sh, s)
     | None =>
         match px_enabled (proxy server), sh_upstreams sh !! idx with
         | true, Some (Some pool) =>
             c ← mark_cacheable server idx req sh c;
             r ← proxy_handle c req idx pool (sh_metrics sh) (de_connect env) s;
             let '(c, pool, m, s) := r in
             Ret (c, set_sh_metrics m (set_sh_upstreams (<[idx := Some pool]> (sh_upstreams sh)) sh), s)
         | _, _ =>
             match static_root server with
             | _ :: _ => r ← file_server_handle c req server (de_static env) s;
                         let '(status, c, s) := r in sh ← log_request env req status sh; Ret (c, sh, s)
             | [] => b ← response_write_error (c_wbuf c) 404 (req_keep_alive req);
                     let sh := set_sh_metrics (metrics_inc_requests (sh_metrics sh) 404) sh in
                     sh ← log_request env req 404 sh; Ret (writing b c, sh, s)
             end
         end
     end) = Ret (c', sh', s') -> held sh c -> ends sh c sh' c'.
Proof.
  intros H Hh. apply bind_inv in H as (is_h & _ & H). destruct is_h.
  { apply bind_inv in H as (c1 & Hc1 & H). unfold health_handle in Hc1. inv_ret Hc1; by eapply logged_branch. }
  apply bind_inv in H as ([hit sh2] & Hcr & H). apply cached_response_shape in Hcr. destruct hit as [e |].
  { apply bind_inv in H as (b & _ & H). by eapply logged_branch. }
  assert (held sh2 c) as Hh2 by (by rewrite <- Hcr).
  apply (ends_trans sh sh2 sh' c c); [done | done |].
  { destruct (px_enabled (proxy server)); [| by eapply static_branch]. destruct (sh_upstreams sh2 !! idx) as [[pool |] |] eqn:Hp; [| by eapply static_branch..].
    by eapply proxy_branch. }
Qed.

Lemma handler_respond_held (env : dispatch_env) (cfg : np_config_t) (idx : nat) (server : np_server_config_t) (c c' : conn_t)
    (req : http_request_t) (sh sh' : shared_t) (s s' : sys_t) :
  handler_respond env cfg idx server c req sh s = Ret (c', sh', s') -> held sh c -> ends sh c sh' c'.
Proof.
  unfold handler_respond. intros H Hh. apply bind_inv in H as ([allowed sh1] & Hrl & H).
  assert (same_shape sh sh1) as Hsh1 by (destruct (sh_limiter sh); inv_ret Hrl; (split; [done | cbn; eauto])).
  assert (held sh1 c) as Hh1 by (by rewrite <- Hsh1). clear Hrl.
  apply (ends_trans sh sh1 sh' c c); [done | done |].
  destruct (negb (bool_decide (allowed = NP_OK))).
  { apply bind_inv in H as (b & _ & H). eapply logged_branch; [exact H | done |]. split; [done | cbn; eauto]. }
  apply bind_inv in H as (is_m & _ & H). destruct is_m, (sh_metrics sh1) as [m |]; try (by eapply pages_branch).
  apply bind_inv in H as (c1 & Hc1 & H). unfold metrics_handle in Hc1. inv_ret Hc1. by eapply logged_branch.
Qed.

Lemma answered_keeps (c c' : conn_t) : answered c c' -> keeps c c'.
Proof. intros [-> | (b & _ & ->)]; [done | apply keeps_writing]. Qed.

Lemma rewrite_path_keeps (rules : list rewrite_rule_t) (c c' : conn_t) (h h' : list region) (req req' : http_request_t) :
  rewrite_path rules c h req = Ret (c', h', req') -> keeps c c'.
Proof.
  induction rules as [| rule rules IH]; cbn [rewrite_path]; [by intros [= <- <- <-] |]. intros H. apply bind_inv in H as (v & _ & H).
  destruct (regexec _ _); [| by apply IH]. apply bind_inv in H as (np & _ & H). apply bind_inv in H as ([[p a] h1] & _ & H).
  injection H as <- <- <-. split_and!; [done.. | by right].
Qed.

Lemma handler_dispatch_held (env : dispatch_env) (cfg : np_config_t) (c c' : conn_t) (h h' : list region) (req req' : http_request_t) (pv : bytes)
    (sh sh' : shared_t) (s s' : sys_t) :
  handler_dispatch env cfg c h req sh s = Ret (c', h', req', sh', s') -> ModuleOK (de_module env) -> conn_ok c -> str_repr (req_path req) pv ->
  held sh c -> ends sh c sh' c'.
Proof.
  unfold handler_dispatch. cbn zeta. intros H Hmo Hok Hp Hh. apply bind_inv in H as (idx & _ & H).
  destruct (module_run_answered (de_module env) (sh_modules sh) c (set_req_ip (de_ip env) req) pv Hmo Hok Hp) as (rc & c1 & Hr & _ & Ha).
  rewrite Hr, bind_Ret in H. apply answered_keeps in Ha. destruct (rc =? NP_MODULE_HANDLED).
  - apply bind_inv in H as (sh2 & Hl & H). injection H as <- <- <- <- <-. apply log_request_shape in Hl. by apply ends_keeps.
  - destruct (servers cfg !! idx); [| discriminate]. apply bind_inv in H as ([[c2 h2] r2] & Hrw & H). apply rewrite_path_keeps in Hrw.
    apply bind_inv in H as ([[c3 sh3] s3] & Hre & H). injection H as <- <- <- <- <-.
    apply (ends_trans sh sh sh3 c c2); [done | by transitivity c1 |]. eapply handler_respond_held; [exact Hre |].
    eapply held_keeps; [| exact Hh]. by transitivity c1.
Qed.

End dispatch.

(** ** The handlers of a connection *)

(** Fields that are neither pointers nor the state. *)
Ltac solve_keeps := split_and!; [reflexivity | reflexivity | first [done | by intros; assumption] | first [by left | by right]].

Lemma after_dispatch_keeps (c c' : conn_t) (h h' : list region) (s s' : sys_t) (ft : fate) :
  after_dispatch c h s = Ret (c', ft, h', s') -> keeps c c'.
Proof.
  unfold after_dispatch. intros H. inv_ret H; solve_keeps.
Qed.

(** The request a handler leaves: the one there was, or none. *)
Definition same_request (c c' : conn_t) : Prop := c_request c' = c_request c \/ c_request c' = None.

Lemma logged_same (c c' : conn_t) : same_request c c' -> logged c -> logged c'.
Proof. intros [E | E] Hl req Hr; rewrite E in Hr; [by apply Hl | discriminate]. Qed.

Lemma write_response_keeps (c c' : conn_t) (h h' : list region) (s s' : sys_t) (ft : fate) :
  write_response c h s = Ret (c', ft, h', s') -> keeps c c' /\ same_request c c'.
Proof.
  unfold write_response. intros H. inv_ret H; (split; [solve_keeps | first [by left | by right]]).
Qed.

Lemma write_proxied_keeps (c c' : conn_t) (h h' : list region) (s s' : sys_t) (ft : fate) :
  write_proxied c h s = Ret (c', ft, h', s') -> keeps c c' /\ same_request c c'.
Proof. unfold write_proxied. intros H. inv_ret H. split; [solve_keeps | by left]. Qed.

(** The write handler on a connection that sends no file. *)
Lemma handle_write_Ret (files : Z -> bytes) (c : conn_t) (h : list region) (s : sys_t) :
  conn_ok c -> c_state c <> CONN_SENDFILE ->
  exists c' ft h' s', handle_write files c h s = Ret (c', ft, h', s') /\ conn_ok c' /\ keeps c c' /\ same_request c c' /\ ft <> WorkerClose.
Proof.
  intros Hok Hs. unfold handle_write.
  assert (c_state c = CONN_PROXYING \/ c_state c = CONN_TUNNEL -> exists c' ft h' s', write_proxied c h s = Ret (c', ft, h', s') /\ conn_ok c' /\
    keeps c c' /\ same_request c c' /\ ft <> WorkerClose) as Hprox.
  { intros Hst. destruct (write_proxied_Ret files c h s Hok Hst) as (c' & ft & h' & s' & t & rest & Hr & _ & _ & Hok' & Ho).
    destruct (write_proxied_keeps _ _ _ _ _ _ _ Hr). exists c', ft, h', s'. split_and!; try done. intros ->. exact Ho. }
  assert (pending files c = contents (c_wbuf c) -> (forall b, pending files (set_c_wbuf b c) = contents b) ->
    exists c' ft h' s', write_response c h s = Ret (c', ft, h', s') /\ conn_ok c' /\ keeps c c' /\ same_request c c' /\ ft <> WorkerClose) as Hresp.
  { intros Hp Hb. destruct (write_response_Ret files c h s Hok Hp Hs Hb) as (c' & ft & h' & s' & t & rest & Hr & _ & _ & Hok' & Ho).
    destruct (write_response_keeps _ _ _ _ _ _ _ Hr). exists c', ft, h', s'. split_and!; try done. intros ->. exact Ho. }
  destruct (c_state c) eqn:E; try done; auto; apply Hresp; unfold pending; cbn; by rewrite E.
Qed.

Section reading.
Context {A : Allocator} {RX : Regex} {RO : RegexOK RX}.

Lemma serve_held (env : dispatch_env) (cfg : np_config_t) (ts : Z * Z) (ps : http_parse_state_t str_t) (sv : http_parse_state_t bytes)
    (c c' : conn_t) (h h' : list region) (sh sh' : shared_t) (s s' : sys_t) (ft : fate) :
  serve env cfg ts ps (buf_readable (c_rbuf c)) c h sh s = Ret ((c', ft, h', s'), sh') -> ModuleOK (de_module env) -> conn_ok c -> held sh c ->
  http_parse_request http_parse_state_init (read_ptr (c_rbuf c)) (buf_readable (c_rbuf c)) = Ret (PARSE_DONE, ps) ->
  state_rel (read_ptr (c_rbuf c)) (buf_readable (c_rbuf c)) ps sv -> ends sh c sh' c'.
Proof.
  intros H Hmo Hok Hh Hparse Hrel. pose proof Hok as [H1 H2 H3 H4 H5]. destruct (read_ptr_readable _ H1) as [Hrd Hn].
  destruct (parse_done_bounds _ _ _ _ Hrd ltac:(lia) Hparse) as (Hoff & Hparsed & Hbody). unfold serve in H.
  destruct (request_create_Ret h _ H5) as (o & a & h1 & Hcr & Ha & Hz). rewrite Hcr, bind_Ret in H. cbn zeta in H.
  destruct o as [[p req] |]; [| injection H as <- <- <- <- <-; apply ends_keeps; [done | done | solve_keeps]].
  rewrite (Hz p req eq_refl) in H. change (c_rbuf (set_c_arena ((c_arena c).1, a) c)) with (c_rbuf c) in H.
  destruct (request_populate_Ret ps sv _ _ _ ts Hrd ltac:(lia) Hrel ltac:(lia) Hbody) as (r & bv & Hpop & Hpath & _). rewrite Hpop, bind_Ret in H.
  rewrite buf_readable_val in Hparsed by done. destruct (buf_consume_ok (c_rbuf c) (ps_parsed_bytes ps) H1 ltac:(lia)) as [Hokr _].
  apply bind_inv in H as ([[[[c2 h2] req2] sh2] s2] & Hd & H). apply bind_inv in H as (o & Had & H). injection H as -> <-.
  apply after_dispatch_keeps in Had.
  match type of Hd with handler_dispatch _ _ ?x _ _ _ _ = _ => set (c1 := x) in * end.
  assert (keeps c c1) as Hk1 by solve_keeps.
  eapply (ends_trans sh sh _ c c1); [done | done |].
  eapply handler_dispatch_held in Hd as (Hs & Hh2 & Hop); [| done | by constructor | exact Hpath | by eapply held_keeps].
  split; [done |]. split.
  - eapply held_keeps; [exact Had |]. eapply held_keeps; [| exact Hh2]. solve_keeps.
  - intros E. apply Hop. by apply Had in E.
Qed.

Lemma read_tunnel_keeps (c c' : conn_t) (h h' : list region) (s s' : sys_t) (ft : fate) :
  read_tunnel c h s = Ret (c', ft, h', s') -> keeps c c'.
Proof. unfold read_tunnel. intros H. inv_ret H; solve_keeps. Qed.

Lemma handle_read_held (env : dispatch_env) (cfg : np_config_t) (ts : Z * Z) (c c' : conn_t) (h h' : list region) (sh sh' : shared_t) (s s' : sys_t) (ft : fate) :
  handle_read env cfg ts c h sh s = Ret ((c', ft, h', s'), sh') -> ModuleOK (de_module env) -> conn_ok c -> held sh c -> ends sh c sh' c'.
Proof.
  intros H Hmo Hok Hh. pose proof Hok as [H1 H2 H3 H4 H5]. unfold handle_read in H. case_bool_decide.
  { apply bind_inv in H as (o & Ht & H). injection H as -> <-. apply read_tunnel_keeps in Ht. by apply ends_keeps. }
  apply bind_inv in H as ([[n b] s1] & Hr & H). destruct (read_loop_Ret (c_fd c) (c_rbuf c) s H1) as (n' & b' & s1' & Hr' & Hrd & _).
  rewrite Hr in Hr'. injection Hr' as <- <- <-. pose proof (rd_ok _ _ _ _ _ Hrd) as Hb. cbn zeta in H.
  assert (keeps c (set_c_rbuf b c)) as Hk by solve_keeps.
  assert (forall x, keeps (set_c_rbuf b c) x -> ends sh c sh x) as Hend by (intros x Hx; apply ends_keeps; [done | done | by transitivity (set_c_rbuf b c)]).
  case_match; [injection H as <- <- <- <- <-; by apply Hend |]. case_match; [injection H as <- <- <- <- <-; by apply Hend |].
  change (c_rbuf (set_c_rbuf b c)) with b in *. destruct (read_ptr_readable b Hb) as [Hread Hn].
  destruct (http_parse_request_Ret (read_ptr b) (buf_readable b) http_parse_state_init init_val (contents b) Hread (init_rel _ _)) as (r & ps & Hp & Hres & Hrel).
  rewrite Hp, bind_Ret in H. destruct r; [injection H as <- <- <- <- <-; by apply Hend | |].
  - eapply (ends_trans sh sh); [done | exact Hk |]. eapply serve_held; [exact H | done | by constructor | by eapply held_keeps | exact Hp | exact Hrel].
  - apply bind_inv in H as (w & _ & H). injection H as <- <- <- <- <-. apply Hend. solve_keeps.
Qed.

End reading.

(** ** Events of a backend *)

(** The store and the status of a connection during the relay. *)
Definition relay_keeps (c c' : conn_t) : Prop :=
  cc_store (c_cache c') = cc_store (c_cache c) /\ (int_ok (c_proxy_status c) -> int_ok (c_proxy_status c')).

#[global] Instance relay_keeps_preorder : PreOrder relay_keeps.
Proof. split; [by intros c | intros c1 c2 c3 [E1 S1] [E2 S2]; split; [congruence | auto]]. Qed.

Lemma note_status_keeps (c c' : conn_t) : note_status c = Ret c' -> relay_keeps c c'.
Proof.
  unfold note_status, atoi_in. intros H. inv_ret H; try done; (split; [done |]); intros _;
    match goal with H : match _ with _ => _ end = Ret _ |- _ => inv_ret H end; apply to_i32_ok.
Qed.

Lemma collect_keeps (realloc : Z -> bool) (c c' : conn_t) : collect realloc c = Ret c' -> relay_keeps c c'.
Proof. unfold collect. intros H. inv_ret H; split; done. Qed.

Lemma relay_loop_keeps (fuel : nat) (realloc : Z -> bool) (fd : Z) (c c' : conn_t) (s s' : sys_t) (n : Z) :
  relay_loop fuel realloc fd c s = Ret (n, c', s') -> relay_keeps c c'.
Proof.
  revert c s. induction fuel as [| f IH]; intros c s H; [discriminate |]. cbn [relay_loop] in H.
  apply bind_inv in H as ([[m b] s1] & _ & H). destruct (0 <? m); [| by injection H as <- <- <-].
  apply bind_inv in H as (c1 & H1 & H). apply bind_inv in H as (c2 & H2 & H). apply bind_inv in H as ([[k b2] s2] & _ & H).
  apply note_status_keeps in H1. apply collect_keeps in H2. apply IH in H.
  etransitivity; [| exact H]. etransitivity; [| exact H2]. exact H1.
Qed.

(** What is left of the answers for the relay after the part that writes. *)
Definition relay_io (events : Z) (c : conn_t) (io : list answer) : list answer :=
  if has_event events EV_WRITE && negb (buf_readable (c_upstream_wbuf c) =? 0) then tail io else io.

Lemma k_write_io (fd n : Z) (b b' : np_buf_t) (s s' : sys_t) :
  k_write fd b s = Ret (n, b', s') -> s_io s' = if buf_readable b =? 0 then s_io s else tail (s_io s).
Proof.
  unfold k_write. intros H. destruct (buf_readable b =? 0); [inv_ret H; done |].
  unfold next_answer in H. destruct (s_io s) eqn:E; inv_ret H; by rewrite ?E.
Qed.

(** What the handler of a backend gets from outside. *)
Record penv_ok (env : proxy_env) (sh : shared_t) : Prop := {
  po_stores : pe_stores env = sh_stores sh;
  po_log : pe_log_fd env = sh_log_fd sh;
  po_clock : AccessLog.sane_clock (pe_clock env).1 (pe_clock env).2;
  po_ts : zlen (pe_ts env) < 32;
  po_pad : length (pe_pad env) = 4%nat /\ Forall is_byte (pe_pad env)
}.

(** A connection that may go back to the pool: in no matter what state. *)
Record leaving (sh : shared_t) (c : conn_t) : Prop := {
  lv_ok : conn_ok c;
  lv_logged : logged c;
  lv_store : forall i, cc_store (c_cache c) = Some i -> exists store, sh_stores sh !! i = Some (Some store);
  lv_status : int_ok (c_proxy_status c)
}.

Lemma store_response_Ret (env : proxy_env) (sh : shared_t) (c : conn_t) (f : gmap bytes bytes) :
  penv_ok env sh -> leaving sh c -> files_ok f ->
  exists c' f', store_response env c f = Ret (c', f') /\ leaving sh c' /\ files_ok f' /\ c_tls_conn c' = c_tls_conn c /\ c_request c' = c_request c.
Proof.
  intros [Hst _ _ _ [Hpl Hpb]] [H1 H2 H3 H4] Hf. unfold store_response.
  destruct (cc_store (c_cache c)) as [i |] eqn:Hi; [| eexists _, _; split; [done |]; split; [constructor; auto; by rewrite Hi | done]].
  destruct (cc_buf (c_cache c)) as [buf |]; [| eexists _, _; split; [done |]; split; [constructor; auto; by rewrite Hi | done]].
  destruct (0 <? cc_len (c_cache c)); [| eexists _, _; split; [done |]; split; [constructor; auto; by rewrite Hi | done]].
  destruct (H3 i eq_refl) as [store Hs]. rewrite Hst, Hs.
  destruct (cache_insert _ _ _ _ _ _ _ _ _ _) as [st states] eqn:Hc. eexists _, _. split; [done |].
  split; [constructor; [by destruct H1; constructor | done | cbn; by intros ? [= <-]; eauto | done] |].
  split; [| done]. change states with (st, states).2. rewrite <- Hc. by apply cache_insert_files.
Qed.

Lemma backend_done_Ret (env : proxy_env) (fd n cnt : Z) (c : conn_t) (sh : shared_t) (k : nat) (pool : upstream_pool_t) (s : sys_t) :
  penv_ok env sh -> leaving sh c -> files_ok (sh_files sh) ->
  (c_state c <> CONN_TUNNEL -> c_tls_conn c = Some k) -> (k < length (up_backends pool))%nat ->
  pool_inv pool -> counts_le cnt pool -> cnt < INT_MAX ->
  exists c' pool' f log s', backend_done env fd n c (mk_pshared (Some pool) (sh_files sh) (sh_log sh)) s =
      Ret (c', WorkerClose, mk_pshared (Some pool') f log, s') /\
    leaving sh c' /\ files_ok f /\ pool_inv pool' /\ counts_le (cnt + 1) pool' /\ length (up_backends pool') = length (up_backends pool).
Proof.
  intros He Hc Hf Hk Hlt Hinv Hcnt Hmax. unfold backend_done. cbn zeta. assert (counts_le (cnt + 1) pool) as Hcnt1 by (eapply counts_le_mono; [done | lia]).
  assert (leaving sh (set_c_upstream_fd (-1) c)) as Hc1 by (destruct Hc as [[] ? ? ?]; constructor; auto; by constructor).
  cbn [c_state set_c_upstream_fd]. destruct (_ && _) eqn:E; [| eexists _, _, _, _, _; split; [done |]; by split_and!].
  apply andb_true_iff in E as [_ E%negb_true_iff%bool_decide_eq_false]. specialize (Hk E). cbn [ps_fs ps_log ps_pool].
  destruct (store_response_Ret env sh _ (sh_files sh) He Hc1 Hf) as (c2 & f2 & -> & Hc2 & Hf2 & Htls & Hreq). rewrite bind_Ret, Htls.
  cbn [c_tls_conn set_c_upstream_fd]. rewrite Hk.
  assert (exists line, match c_request c2 with
    | Some req => AccessLog.access_log_write (pe_log_fd env) req (c_proxy_status c2) 0 (pe_clock env).1 (pe_clock env).2 (pe_ts env)
    | None => Ret None end = Ret line) as [line ->].
  { destruct (c_request c2) as [req |] eqn:Hr; [| eauto]. destruct (lv_logged _ _ Hc2 req Hr) as (pv & Hp & Hip & Hpl).
    eapply AccessLog.access_log_write_Ret; [exact Hp | apply He | apply (lv_status _ _ Hc2) | pose proof (po_ts _ _ He); lia]. }
  rewrite bind_Ret. destruct (pool_step_Ret pool (OpPut (Some k) fd) cnt Hinv Hcnt Hmax) as (p' & Hp & Hinv' & Hcnt' & Hlen & _); [by apply Nat.ltb_lt |].
  unfold Upstream.pool_step in Hp. apply bind_inv in Hp as ([p2 closed] & -> & Hp). injection Hp as <-. rewrite bind_Ret.
  eexists _, _, _, _, _. split; [done |]. by split_and!.
Qed.

Lemma leaving_held (sh : shared_t) (c : conn_t) : conn_ok c -> logged c -> held sh c -> leaving sh c.
Proof. intros ? ? []. by constructor. Qed.

(** The links of a proxied connection to its backend. *)
Definition same_links (c c' : conn_t) : Prop :=
  c_state c' = c_state c /\ c_proxy_pool c' = c_proxy_pool c /\ c_tls_conn c' = c_tls_conn c.

Lemma relayed_leaving (sh : shared_t) (c c' : conn_t) :
  relayed c c' -> relay_keeps c c' -> buf_ok (c_upstream_rbuf c') -> leaving sh c -> leaving sh c' /\ same_links c c'.
Proof.
  intros (b & st & cc & ->) [Hs Hst] Hb [[H1 H2 H3 H4 H5] Hl Hcc Hok]. split; [| done]. constructor; [by constructor | done | | by apply Hst].
  intros i. cbn in *. rewrite Hs. apply Hcc.
Qed.

(** The part of the handler that relays to the client. *)
Lemma relay_part (env : proxy_env) (fd cnt : Z) (c : conn_t) (sh : shared_t) (k : nat) (pool : upstream_pool_t) (s : sys_t) :
  penv_ok env sh -> leaving sh c -> files_ok (sh_files sh) -> relay_ready c (s_io s) -> c_tls_conn c = Some k -> (k < length (up_backends pool))%nat ->
  pool_inv pool -> counts_le cnt pool -> cnt < INT_MAX ->
  exists c' ft pool' f log s',
    (r ← relay (pe_realloc env) fd c s;
     let '(n, c, s) := r in
     let s := if 0 <? buf_readable (c_upstream_rbuf c) then sys_call_log [SysEpollMod (c_fd c) EV_WRITE_READ] s else s in
     if (n =? np_status_code NP_ERR_CLOSED) || (n =? np_status_code NP_ERR)
     then backend_done env fd n c (mk_pshared (Some pool) (sh_files sh) (sh_log sh)) s
     else Ret (c, Stay, mk_pshared (Some pool) (sh_files sh) (sh_log sh), s)) = Ret (c', ft, mk_pshared (Some pool') f log, s') /\
    leaving sh c' /\ (ft = Stay -> same_links c c') /\ ft <> PoolPut /\ files_ok f /\ pool_inv pool' /\ counts_le (cnt + 1) pool' /\
    length (up_backends pool') = length (up_backends pool).
Proof.
  intros He Hc Hf Hr Hk Hlt Hinv Hcnt Hmax. unfold relay.
  destruct (relay_loop_Ret (S (length (s_io s))) (pe_realloc env) fd c s ltac:(lia) (ck_upstream_rbuf _ (lv_ok _ _ Hc)) Hr)
    as (n & c1 & s1 & got & Hl & _ & Hb & Hrel & _). rewrite Hl, bind_Ret. apply relay_loop_keeps in Hl.
  destruct (relayed_leaving sh c c1 Hrel Hl Hb Hc) as [Hc1 Hlk]. cbn zeta. case_match.
  - destruct (backend_done_Ret env fd n cnt c1 sh k pool (if 0 <? buf_readable (c_upstream_rbuf c1) then sys_call_log [SysEpollMod (c_fd c1) EV_WRITE_READ] s1 else s1))
      as (c' & pool' & f & log & s' & -> & Hc' & H'); [done | done | done | intros _; by rewrite (proj2 (proj2 Hlk)) | done | done | done | done |].
    exists c', WorkerClose, pool', f, log, s'. split; [done |]. split; [done |]. done.
  - eexists _, _, _, _, _, _. split; [done |]. split_and!; try done. eapply counts_le_mono; [done | lia].
Qed.

Lemma upstream_event_Ret (env : proxy_env) (fd events cnt : Z) (c : conn_t) (sh : shared_t) (k : nat) (pool : upstream_pool_t) (s : sys_t) :
  penv_ok env sh -> leaving sh c -> files_ok (sh_files sh) -> relay_ready c (relay_io events c (s_io s)) ->
  c_tls_conn c = Some k -> (k < length (up_backends pool))%nat -> pool_inv pool -> counts_le cnt pool -> cnt < INT_MAX ->
  exists c' ft pool' f log s',
    proxy_on_upstream_event env fd events c (mk_pshared (Some pool) (sh_files sh) (sh_log sh)) s = Ret (c', ft, mk_pshared (Some pool') f log, s') /\
    leaving sh c' /\ (ft = Stay -> same_links c c') /\ ft <> PoolPut /\ files_ok f /\ pool_inv pool' /\ counts_le (cnt + 1) pool' /\
    length (up_backends pool') = length (up_backends pool).
Proof.
  intros He Hc Hf Hr Hk Hlt Hinv Hcnt Hmax. unfold proxy_on_upstream_event. pose proof Hc as [[H1 H2 H3 H4 H5] Hl Hst Hok].
  assert (counts_le (cnt + 1) pool) as Hcnt1 by (eapply counts_le_mono; [done | lia]).
  assert (forall c1 s1, leaving sh c1 -> relay_ready c1 (s_io s1) -> same_links c c1 ->
    exists c' ft pool' f log s',
      (if has_event events EV_READ then
         r ← relay (pe_realloc env) fd c1 s1;
         let '(n, c, s) := r in
         let s := if 0 <? buf_readable (c_upstream_rbuf c) then sys_call_log [SysEpollMod (c_fd c) EV_WRITE_READ] s else s in
         if (n =? np_status_code NP_ERR_CLOSED) || (n =? np_status_code NP_ERR)
         then backend_done env fd n c (mk_pshared (Some pool) (sh_files sh) (sh_log sh)) s
         else Ret (c, Stay, mk_pshared (Some pool) (sh_files sh) (sh_log sh), s)
       else Ret (c1, Stay, mk_pshared (Some pool) (sh_files sh) (sh_log sh), s1)) = Ret (c', ft, mk_pshared (Some pool') f log, s') /\
      leaving sh c' /\ (ft = Stay -> same_links c c') /\ ft <> PoolPut /\ files_ok f /\ pool_inv pool' /\ counts_le (cnt + 1) pool' /\
      length (up_backends pool') = length (up_backends pool)) as Hrest.
  { intros c1 s1 Hc1 Hr1 (L1 & L2 & L3). destruct (has_event events EV_READ); [| by eexists _, _, _, _, _, _].
    destruct (relay_part env fd cnt c1 sh k pool s1) as (c' & ft & pool' & f & log & s' & -> & Hc' & Hlk & H'); [done | done | done | done | congruence | done | done | done | done |].
    exists c', ft, pool', f, log, s'. split; [done |]. split; [done |]. split; [| done].
    intros E. destruct (Hlk E) as (M1 & M2 & M3). split_and!; congruence. }
  unfold relay_io in Hr. destruct (has_event events EV_WRITE); [| rewrite bind_Ret; by apply Hrest].
  destruct (k_write_Ret fd (c_upstream_wbuf c) s H4) as (n & b & s1 & Hw & Hwr & _). rewrite Hw, bind_Ret. apply k_write_io in Hw.
  destruct Hwr as [Hb _ _ _ _ _ _]. assert (leaving sh (set_c_upstream_wbuf b c)) as Hc1 by (constructor; [by constructor | done..]).
  assert (relay_ready (set_c_upstream_wbuf b c) (s_io s1)) as Hr1.
  { cbn [andb] in Hr. rewrite Hw. destruct (buf_readable (c_upstream_wbuf c) =? 0); exact Hr. }
  cbn zeta. cbn [c_upstream_wbuf set_c_upstream_wbuf]. destruct ((n <? 0) && _); [| destruct (buf_readable b =? 0); rewrite bind_Ret; by apply Hrest].
  unfold send_error. cbn [c_wbuf set_c_upstream_wbuf].
  destruct (response_write_error_Ret (OK := np_buf_write_buffer_ok) (c_wbuf c) 502 false H2) as (b2 & -> & Hb2 & _); [done |]. rewrite !bind_Ret.
  destruct (k_write_Ret (c_fd c) b2 s1 Hb2) as (n3 & b3 & s3 & Hw3 & [Hb3 _ _ _ _ _ _] & _). cbn [c_fd c_wbuf set_c_state set_c_wbuf set_c_upstream_wbuf].
  rewrite Hw3, !bind_Ret. eexists _, _, _, _, _, _. split; [done |]. by split_and!.
Qed.

(** ** The invariant of a worker *)

(** A connection in the store, between two events. *)
Record entry_ok (sh : shared_t) (c : conn_t) : Prop := {
  en_logged : logged c;
  en_held : held sh c;
  en_state : c_state c <> CONN_SENDFILE
}.

(** All connections but the one that an event works on, [x], are well formed, and
    the ones in use are those that are not closed. *)
Definition conns_ok (sh : shared_t) (live : gset Z) (x : option Z) (m : gmap Z conn_t) : Prop :=
  forall a c, m !! a = Some c -> x <> Some a -> entry_ok sh c /\ (a ∈ live <-> c_state c <> CONN_CLOSING).

(** [now] bounds the times the limiter has seen, [cnt] the steps that counted. *)
Record worker_at (now cnt : Z) (x : option Z) (k : worker_t) : Prop := {
  wo_pool : exists live fl, conn_pool_inv (wk_pool k) live fl /\ conns_ok (wk_shared k) live x (w_conns (wk_pool k)) /\
    (forall a, x = Some a -> a ∈ live);
  wo_shared : shared_ok now cnt (wk_shared k);
  wo_active : - cnt <= wk_active k <= cnt;
  wo_timers : exists B, wheel_rep (wk_timers k) B [] /\ zlen B = NP_TIMEOUT_BUCKETS
}.

Definition worker_ok (now cnt : Z) (k : worker_t) : Prop := worker_at now cnt None k.

Definition in_use (k : worker_t) (a : Z) (c : conn_t) : Prop := w_conns (wk_pool k) !! a = Some c /\ c_state c <> CONN_CLOSING.

Lemma entry_ok_shape (sh sh' : shared_t) (c : conn_t) : same_shape sh sh' -> entry_ok sh c -> entry_ok sh' c.
Proof. intros Hs [H1 H2 H3]. constructor; [done | by rewrite <- Hs | done]. Qed.

Lemma shared_ok_later (now now' cnt cnt' : Z) (sh : shared_t) :
  shared_ok now cnt sh -> now <= now' <= 2 ^ 62 -> cnt <= cnt' -> shared_ok now' cnt' sh.
Proof.
  intros H Hn Hc. eapply shared_ok_mono in H as [H1 H2 H3 H4]; [| exact Hc]. constructor; [| done..].
  intros l Hl. by eapply limiter_ok_later; [apply H1 |].
Qed.

Lemma worker_at_later (now now' cnt cnt' : Z) (x : option Z) (k : worker_t) :
  worker_at now cnt x k -> now <= now' <= 2 ^ 62 -> cnt <= cnt' -> worker_at now' cnt' x k.
Proof. intros [H1 H2 H3 H4] Hn Hc. constructor; [done | by eapply shared_ok_later | lia | done]. Qed.

(** What is known of a connection in use. *)
Lemma worker_take (now cnt : Z) (k : worker_t) (a : Z) (c : conn_t) :
  worker_ok now cnt k -> in_use k a c -> worker_at now cnt (Some a) k /\ conn_ok c /\ entry_ok (wk_shared k) c.
Proof.
  intros [(live & fl & Hp & Hc & _) H2 H3 H4] [Ha Hs]. destruct (Hc a c Ha ltac:(done)) as [He Hl].
  split; [constructor; [| done..] | split; [exact (map_Forall_lookup_1 _ _ _ _ (cp_ok _ _ _ Hp) Ha) | done]].
  exists live, fl. split; [done |]. split; [intros b d Hb _; by apply Hc | intros b [= <-]; by apply Hl].
Qed.

Lemma worker_give (now cnt : Z) (k : worker_t) (a : Z) (c : conn_t) :
  worker_at now cnt (Some a) k -> in_use k a c -> entry_ok (wk_shared k) c -> worker_ok now cnt k.
Proof.
  intros [(live & fl & Hp & Hc & Hl) H2 H3 H4] [Ha Hs] He. constructor; [| done..]. exists live, fl. split; [done |]. split; [| done].
  intros b d Hb _. destruct (decide (b = a)) as [-> | Hne]; [| apply Hc; [done | congruence]].
  rewrite Ha in Hb. injection Hb as <-. split; [done |]. split; auto.
Qed.

(** What a handler made of the connection is stored. *)
Lemma worker_store (now now' cnt cnt' : Z) (k : worker_t) (a : Z) (c : conn_t) (h : list region) (sh : shared_t) (s : sys_t) :
  worker_at now cnt (Some a) k -> conn_ok c -> same_shape (wk_shared k) sh -> shared_ok now' cnt' sh -> cnt <= cnt' ->
  worker_at now' cnt' (Some a)
    (mk_worker (set_conns (<[a := c]> (w_conns (wk_pool k))) (Conn.set_heap h (wk_pool k))) sh s (wk_timers k) (wk_active k) (wk_now k)).
Proof.
  intros [(live & fl & Hp & Hc & Hl) H2 H3 H4] Hok Hs Hsh Hcnt. constructor; cbn; [| done | lia | done].
  exists live, fl. split; [exact (conn_pool_use _ _ _ a c h Hp (Hl a eq_refl) Hok) |]. split; [| done].
  intros b d Hb Hne. rewrite lookup_insert_ne in Hb by congruence. destruct (Hc b d Hb Hne) as [He Hi]. split; [| done]. by eapply entry_ok_shape.
Qed.

(** The connections after a release. *)
Lemma conn_pool_put_conns {A : Allocator} (w w' : pool_world) (a : Z) (c : conn_t) :
  conn_pool_put w a = Ret w' -> w_conns w !! a = Some c ->
  forall b d, w_conns w' !! b = Some d -> w_conns w !! b = Some d /\ b <> a \/
    b = a /\ c_state d = CONN_CLOSING /\ c_cache d = c_cache c /\ c_proxy_status d = c_proxy_status c /\ c_request d = c_request c.
Proof.
  unfold conn_pool_put. intros H Hc b d Hd. rewrite Hc in H. cbn [conn_close] in H. cbn zeta in H. case_match.
  - injection H as <-. cbn in Hd. apply lookup_delete_Some in Hd as [Hne Hd]. by left.
  - apply bind_inv in H as ([ar h] & _ & H). injection H as <-. cbn in Hd.
    apply lookup_insert_Some in Hd as [[<- <-] | [Hne Hd]]; [by right | by left].
Qed.

Lemma worker_put {A : Allocator} (now cnt : Z) (k : worker_t) (a : Z) (c : conn_t) :
  worker_at now cnt (Some a) k -> w_conns (wk_pool k) !! a = Some c -> leaving (wk_shared k) c ->
  exists k', pool_put k a = Ret k' /\ worker_ok now cnt k'.
Proof.
  intros [(live & fl & Hp & Hc & Hl) H2 H3 H4] Ha Hlv. unfold pool_put.
  set (w := mk_world (w_conns (wk_pool k)) (w_heap (wk_pool k)) (w_free_head (wk_pool k)) (w_free_count (wk_pool k)) (w_max_free (wk_pool k)) []).
  destruct (conn_pool_put_spec w live fl a) as (w' & fl' & Hput & Hi & _); [by destruct Hp | by apply Hl |]. rewrite Hput, bind_Ret.
  eexists. split; [done |]. constructor; cbn; [| done..]. exists (live ∖ {[a]}), fl'. split; [done |]. split; [| done].
  intros b d Hd _. destruct (conn_pool_put_conns w w' a c Hput Ha b d Hd) as [[Hb Hne] | (-> & Hs & Hcc & Hst & Hrq)].
  - destruct (Hc b d Hb ltac:(congruence)) as [He Hiff]. split; [done |]. rewrite elem_of_difference, elem_of_singleton. tauto.
  - split; [| set_solver]. destruct Hlv as [_ L1 L2 L3]. constructor; [intros r; rewrite Hrq; apply L1 | | by rewrite Hs].
    constructor; [by rewrite Hs | by rewrite Hcc | by rewrite Hst].
Qed.

(** A handler's outcome is stored and its fate carried out. *)
Lemma settle_ok {A : Allocator} (now now' cnt cnt' : Z) (k : worker_t) (a : Z) (c : conn_t) (ft : fate) (h : list region) (sh : shared_t) (s : sys_t) :
  worker_at now cnt (Some a) k -> same_shape (wk_shared k) sh -> shared_ok now' cnt' sh -> cnt < cnt' <= INT_MAX ->
  leaving sh c -> (ft = Stay -> entry_ok sh c /\ c_state c <> CONN_CLOSING) ->
  exists k', settle k a (c, ft, h, s) sh = Ret k' /\ worker_ok now' cnt' k'.
Proof.
  intros Hw Hs Hsh Hcnt Hlv Hstay. unfold settle. cbn zeta.
  pose proof (worker_store now now' cnt cnt' k a c h sh s Hw (lv_ok _ _ Hlv) Hs Hsh ltac:(lia)) as Hst.
  assert (w_conns (set_conns (<[a := c]> (w_conns (wk_pool k))) (Conn.set_heap h (wk_pool k))) !! a = Some c) as Ha by (cbn; apply lookup_insert_eq).
  destruct ft.
  - destruct (Hstay eq_refl) as [He Ho]. eexists. split; [done |]. eapply worker_give; [exact Hst | by split | done].
  - by eapply worker_put.
  - unfold worker_conn_close. cbn [wk_active wk_pool wk_shared wk_sys wk_timers wk_now]. pose proof (wo_active _ _ _ _ Hw) as Hact.
    rewrite i32_Ret, bind_Ret by (unfold INT_MIN, INT_MAX in *; lia). eapply worker_put; [| exact Ha | done].
    destruct Hst as [P1 P2 P3 P4]. constructor; [exact P1 | exact P2 | cbn; lia | exact P4].
Qed.

(** ** One event *)

Section events.
Context {A : Allocator} {RX : Regex} {RO : RegexOK RX}.

(** What the read handler needs of the outside: the modules, the clock, and a
    request within the limits of the handlers' arrays, should one be complete. *)
Record read_env (env : dispatch_env) (cfg : np_config_t) (now : Z) (k : worker_t) (c : conn_t) : Prop := {
  re_modules : ModuleOK (de_module env);
  re_env : env_ok env cfg;
  re_now : now <= de_now env <= 2 ^ 62;
  re_limits : forall n b s1 sv, read_loop (c_fd c) (c_rbuf c) (wk_sys k) = Ret (n, b, s1) ->
    parse_val init_val (contents b) = (PARSE_DONE, sv) -> request_limits env cfg sv
}.

Lemma read_at_ok (env : dispatch_env) (cfg : np_config_t) (ts : Z * Z) (now cnt : Z) (k : worker_t) (a : Z) (c : conn_t) :
  worker_ok now cnt k -> in_use k a c -> read_env env cfg now k c -> cnt + 3 <= INT_MAX ->
  exists k', read_at env cfg ts k a = Ret k' /\ worker_ok (de_now env) (cnt + 3) k'.
Proof.
  intros Hw Hu [R1 R2 R3 R4] Hcnt. destruct (worker_take _ _ _ _ _ Hw Hu) as (Hat & Hok & [Hlg Hh Hsf]). destruct Hu as [Ha Hcl].
  unfold read_at. rewrite Ha.
  destruct (handle_read_safe env cfg ts c (w_heap (wk_pool k)) (wk_shared k) (wk_sys k) cnt R1 Hok Hlg R2) as (c' & ft & h' & s' & sh' & Hr & Hok' & Hlg' & Hsh');
    [eapply shared_ok_later; [apply Hw | done | lia] | lia | exact R4 |].
  rewrite Hr, bind_Ret. cbn [fst snd]. destruct (handle_read_held _ _ _ _ _ _ _ _ _ _ _ _ Hr R1 Hok Hh) as (Hs & Hh' & Hop).
  eapply settle_ok; [exact Hat | done | done | lia | by apply leaving_held |]. intros ->. split; [| intros E; by apply Hcl, Hop].
  constructor; [done | done |]. by eapply handle_read_state.
Qed.

Lemma write_at_ok (files : Z -> bytes) (now cnt : Z) (k : worker_t) (a : Z) (c : conn_t) :
  worker_ok now cnt k -> in_use k a c -> now <= 2 ^ 62 -> cnt + 1 <= INT_MAX ->
  exists k', write_at files k a = Ret k' /\ worker_ok now (cnt + 1) k'.
Proof.
  intros Hw Hu Hn Hcnt. destruct (worker_take _ _ _ _ _ Hw Hu) as (Hat & Hok & [Hlg Hh Hsf]). destruct Hu as [Ha Hcl].
  unfold write_at. rewrite Ha. destruct (handle_write_Ret files c (w_heap (wk_pool k)) (wk_sys k) Hok Hsf) as (c' & ft & h' & s' & Hr & Hok' & Hk & Hrq & Hft).
  rewrite Hr, bind_Ret. pose proof (held_keeps _ _ _ Hk Hh) as Hh'. pose proof (logged_same _ _ Hrq Hlg) as Hlg'.
  eapply settle_ok; [exact Hat | done | eapply shared_ok_mono; [apply Hw | lia] | lia | by apply leaving_held |].
  intros ->. split; [| intros E; by apply Hcl, Hk]. constructor; [done | done |]. by eapply handle_write_state.
Qed.

Lemma touch_ok (now cnt : Z) (k : worker_t) (a : Z) (c : conn_t) :
  worker_ok now cnt k -> in_use k a c ->
  worker_ok now cnt (touch k a c) /\ in_use (touch k a c) a (set_c_last_active (wk_now k) c).
Proof.
  intros Hw Hu. destruct (worker_take _ _ _ _ _ Hw Hu) as (Hat & [H1 H2 H3 H4 H5] & [Hlg [L1 L2 L3] Hsf]).
  assert (in_use (touch k a c) a (set_c_last_active (wk_now k) c)) as Hu' by (split; [cbn; apply lookup_insert_eq | apply Hu]).
  split; [| done]. eapply worker_give; [| exact Hu' | constructor; [done | by constructor | done]].
  exact (worker_store now now cnt cnt k a (set_c_last_active (wk_now k) c) (w_heap (wk_pool k)) (wk_shared k) (wk_sys k) Hat ltac:(by constructor) ltac:(done) (wo_shared _ _ _ _ Hw) ltac:(lia)).
Qed.

Lemma client_event_ok (env : dispatch_env) (cfg : np_config_t) (files : Z -> bytes) (ts : Z * Z) (events : Z) (now cnt : Z) (k : worker_t) (a : Z) (c : conn_t) :
  worker_ok now cnt k -> in_use k a c -> read_env env cfg now k c -> cnt + 4 <= INT_MAX ->
  (has_event events EV_READ = true -> has_event events EV_WRITE = true ->
     forall k', read_at env cfg ts (touch k a c) a = Ret k' -> exists c', in_use k' a c') ->
  exists k', on_client_event env cfg files ts events k a = Ret k' /\ worker_ok (de_now env) (cnt + 4) k'.
Proof.
  intros Hw Hu Henv Hcnt Hboth. destruct (touch_ok _ _ _ _ _ Hw Hu) as [Hwt Hut]. pose proof (re_now _ _ _ _ _ Henv) as Hnow.
  assert (worker_ok (de_now env) cnt (touch k a c)) as Hwn by (eapply worker_at_later; [exact Hwt | lia | lia]).
  unfold on_client_event. rewrite (proj1 Hu). cbn zeta. case_match.
  { destruct (worker_take _ _ _ _ _ Hwn Hut) as (Hat & Hok & [Hlg Hh _]).
    destruct (worker_put _ _ _ _ _ Hat (proj1 Hut) (leaving_held _ _ Hok Hlg Hh)) as (k' & Hp & Hw'). exists k'. split; [done |].
    eapply worker_at_later; [exact Hw' | lia | lia]. }
  assert (exists k1, (if has_event events EV_READ then read_at env cfg ts (touch k a c) a else Ret (touch k a c)) = Ret k1 /\ worker_ok (de_now env) (cnt + 3) k1 /\
    (has_event events EV_WRITE = true -> exists c1, in_use k1 a c1)) as (k1 & -> & Hw1 & Hu1).
  { destruct (has_event events EV_READ).
    - destruct (read_at_ok env cfg ts now cnt (touch k a c) a _ Hwt Hut) as (k1 & Hr & Hw1); [by destruct Henv; constructor | lia |].
      exists k1. split; [done |]. split; [done |]. intros Hwr. by eapply Hboth.
    - eexists. split; [done |]. split; [eapply worker_at_later; [exact Hwn | lia | lia] | eauto]. }
  rewrite bind_Ret. destruct (has_event events EV_WRITE).
  - destruct (Hu1 eq_refl) as [c1 Hc1]. destruct (write_at_ok files _ _ k1 a c1 Hw1 Hc1) as (k' & -> & Hw'); [lia | lia |].
    exists k'. split; [done |]. by replace (cnt + 4) with (cnt + 3 + 1) by lia.
  - exists k1. split; [done |]. eapply worker_at_later; [exact Hw1 | lia | lia].
Qed.

End events.

(** The tables after an event of a backend. *)
Lemma shape_insert (sh : shared_t) (i : nat) (pool pool' : upstream_pool_t) (f : gmap bytes bytes) (log : list bytes) :
  sh_upstreams sh !! i = Some (Some pool) -> length (up_backends pool') = length (up_backends pool) ->
  same_shape sh (set_sh_log log (set_sh_files f (set_sh_upstreams (<[i := Some pool']> (sh_upstreams sh)) sh))).
Proof.
  intros Hi Hl. split; [done |]. intros j p Hj. cbn. destruct (decide (j = i)) as [-> | Hne].
  - exists pool'. rewrite list_lookup_insert_eq by (by eapply lookup_lt_Some). split; [done | congruence].
  - exists p. by rewrite list_lookup_insert_ne by congruence.
Qed.

Lemma upstream_at_ok {A : Allocator} (env : proxy_env) (fd events now cnt : Z) (k : worker_t) (a : Z) (c : conn_t) :
  worker_ok now cnt k -> in_use k a c -> is_proxied (c_state c) = true -> penv_ok env (wk_shared k) -> cnt + 1 <= INT_MAX ->
  relay_ready c (relay_io events c (s_io (wk_sys k))) ->
  exists k', upstream_at env fd events k a = Ret k' /\ worker_ok now (cnt + 1) k'.
Proof.
  intros Hw Hu Hpx He Hcnt Hr. destruct (worker_take _ _ _ _ _ Hw Hu) as (Hat & Hok & [Hlg Hh Hsf]). destruct Hu as [Ha Hcl].
  pose proof (wo_shared _ _ _ _ Hw) as [S1 S2 S3 S4]. pose proof (leaving_held _ _ Hok Hlg Hh) as Hlv.
  destruct (hd_backend _ _ Hh Hpx) as (i & j & pool & Hpp & Hpool & Hj & Hlt). unfold upstream_at. rewrite Ha, Hpp. cbn zeta.
  cbn [mbind option_bind]. rewrite Hpool. cbn [mbind option_bind].
  destruct (Forall_lookup_1 _ _ _ _ S3 Hpool pool eq_refl) as [Hinv Hle].
  destruct (upstream_event_Ret env fd events cnt c (wk_shared k) j pool (wk_sys k) He Hlv S4 Hr Hj Hlt Hinv Hle ltac:(lia))
    as (c' & ft & pool' & f & log & s' & Hev & Hlv' & Hst & Hft & Hf & Hinv' & Hle' & Hlen).
  rewrite Hev, bind_Ret. cbn [ps_pool ps_fs ps_log]. pose proof (shape_insert (wk_shared k) i pool pool' f log Hpool Hlen) as Hsh.
  eapply settle_ok; [exact Hat | exact Hsh | | lia | |].
  - constructor; cbn; [exact S1 | exact S2 | | exact Hf]. apply Forall_insert.
    + eapply Forall_impl; [exact S3 |]. intros p Hp q Hq. destruct (Hp q Hq). split; [done |]. eapply counts_le_mono; [done | lia].
    + intros q [= <-]. by split.
  - destruct Hlv' as [V1 V2 V3 V4]. constructor; [exact V1 | exact V2 | exact V3 | exact V4].
  - intros E. destruct (Hst E) as (L1 & L2 & L3). split; [| by rewrite L1]. constructor; [apply Hlv' | | by rewrite L1].
    rewrite <- Hsh. constructor; [| apply Hlv' | apply Hlv']. rewrite L1, L2, L3. apply Hh.
Qed.

(** ** Accepting *)

Section accepting.
Context {A : Allocator}.

(** The connections after one is taken: it is new, or was idle. *)
Lemma conn_pool_get_conns (w w' : pool_world) (mem : conn_mem) (fd : Z) (peer r : option Z) :
  conn_pool_get w mem fd peer = Ret (r, w') ->
  forall b d, w_conns w' !! b = Some d -> w_conns w !! b = Some d /\ r <> Some b \/
    r = Some b /\ c_state d = CONN_READING_REQUEST /\ c_request d = None /\
    ((exists c, w_conns w !! b = Some c /\ c_cache d = c_cache c /\ c_proxy_status d = c_proxy_status c) \/
     cc_store (c_cache d) = None /\ c_proxy_status d = 0).
Proof.
  assert (forall v v' a q, reset_at v a fd peer = Ret (q, v') -> q = Some a /\ exists c c', w_conns v !! a = Some c /\ w_conns v' = <[a := c']> (w_conns v) /\
    c_state c' = CONN_READING_REQUEST /\ c_request c' = None /\ c_cache c' = c_cache c /\ c_proxy_status c' = c_proxy_status c) as Hreset.
  { unfold reset_at, conn_reset. intros v v' a q H. destruct (w_conns v !! a) as [c |]; [| discriminate]. apply bind_inv in H as ([c' h'] & Hc & H).
    injection H as <- <-. apply bind_inv in Hc as ([ar h] & _ & Hc). injection Hc as <- <-. split; [done |]. by eexists c, _. }
  unfold conn_pool_get. intros H b d Hd. destruct (w_free_head w) as [a |].
  - destruct (w_conns w !! a) as [c |] eqn:Hc; [| discriminate]. apply Hreset in H as (-> & c1 & c' & H1 & H2 & H3 & H4 & H5 & H6).
    cbn in H1, H2. rewrite Hc in H1. injection H1 as <-. rewrite H2 in Hd.
    apply lookup_insert_Some in Hd as [[<- <-] | [Hne Hd]]; [right; split_and!; [done.. |]; left; eauto | left; split; congruence].
  - unfold conn_alloc in H. destruct (cm_conn mem) as [a |]; [| injection H as <- <-; by left].
    destruct (arena_create (w_heap w) NP_ARENA_SIZE) as [[[pa ar] |] h]; [| injection H as <- <-; by left].
    destruct (buf_init _ (cm_rbuf mem) _) as [s1 b1]. destruct (buf_init _ (cm_wbuf mem) _) as [s2 b2].
    destruct (buf_init _ (cm_upstream_rbuf mem) _) as [s3 b3]. destruct (buf_init _ (cm_upstream_wbuf mem) _) as [s4 b4].
    case_decide; [| injection H as <- <-; by left]. apply Hreset in H as (-> & c1 & c' & H1 & H2 & H3 & H4 & H5 & H6).
    cbn in H1, H2. rewrite lookup_insert_eq in H1. injection H1 as <-. rewrite H2 in Hd.
    apply lookup_insert_Some in Hd as [[<- <-] | [Hne Hd]]; [right; split_and!; [done.. |]; right; by rewrite H5, H6 |].
    rewrite lookup_insert_ne in Hd by done. left. split; congruence.
Qed.

Definition accepts (x : accept_answer) (k : worker_t) : Prop :=
  match x with
  | Accepted _ _ mem timer => mem_ok (wk_pool k) mem /\ forall t, timer = Some t -> tw_heap (wk_timers k) !! t = None
  | AcceptError => True
  end.

(** [malloc] answers with new addresses, for every connection that is accepted. *)
Fixpoint accept_ready (rt now : Z) (answers : list accept_answer) (k : worker_t) : Prop :=
  match answers with
  | [] | AcceptError :: _ => True
  | x :: answers' => accepts x k /\ forall k', accept_loop rt now [x] k = Ret k' -> accept_ready rt now answers' k'
  end.

Lemma accept_loop_cons (rt now fd peer : Z) (mem : conn_mem) (timer : option Z) (answers : list accept_answer) (k k1 : worker_t) :
  accept_loop rt now [Accepted fd peer mem timer] k = Ret k1 ->
  accept_loop rt now (Accepted fd peer mem timer :: answers) k = accept_loop rt now answers k1.
Proof.
  cbn [accept_loop]. intros H. apply bind_inv in H as ([[a |] w] & -> & H); rewrite bind_Ret; [| by injection H as <-].
  apply bind_inv in H as (n & -> & H). rewrite bind_Ret. apply bind_inv in H as (r & -> & H). rewrite bind_Ret. by injection H as <-.
Qed.

Lemma timeout_add_ok (tw : timeout_wheel_t) (rt a now : Z) (timer : option Z) :
  (exists B, wheel_rep tw B [] /\ zlen B = NP_TIMEOUT_BUCKETS) -> 0 <= rt <= INT_MAX - NP_TIMEOUT_BUCKETS -> 0 <= now <= 2 ^ 62 ->
  (forall t, timer = Some t -> tw_heap tw !! t = None) ->
  exists r, timeout_add tw rt on_conn_timeout_cb a now timer = Ret r /\ exists B, wheel_rep r.2 B [] /\ zlen B = NP_TIMEOUT_BUCKETS.
Proof.
  intros (B & Hr & Hl) Hrt Hnow Hfresh. destruct timer as [t |]; [| exists (None, tw); cbn; eauto].
  pose proof (wr_current _ _ _ Hr) as Hc. unfold NP_TIMEOUT_BUCKETS in *.
  assert (exists l, B !! (Z.to_nat (tw_current tw + rt / tw_resolution tw) mod length B)%nat = Some l) as [l Hs].
  { apply lookup_lt_is_Some_2, Nat.mod_upper_bound. lia. }
  destruct (timeout_add_rep tw B rt a now t on_conn_timeout_cb l Hr ltac:(lia) ltac:(unfold INT_MAX in *; lia) ltac:(unfold LLONG_MIN; lia)
    ltac:(unfold LLONG_MAX, INT_MAX in *; lia) (Hfresh t eq_refl) Hs) as (tw' & -> & Hr' & _).
  eexists. split; [done |]. eexists. split; [exact Hr' |]. by rewrite length_insert.
Qed.

(** One answer of [accept4]. *)
Lemma accept_step_ok (rt now0 now cnt fd peer : Z) (mem : conn_mem) (timer : option Z) (k : worker_t) :
  worker_ok now0 cnt k -> cnt + 1 <= INT_MAX -> now0 <= 2 ^ 62 -> 0 <= rt <= INT_MAX - NP_TIMEOUT_BUCKETS -> 0 <= now <= 2 ^ 62 ->
  accepts (Accepted fd peer mem timer) k ->
  exists k', accept_loop rt now [Accepted fd peer mem timer] k = Ret k' /\ worker_ok now0 (cnt + 1) k'.
Proof.
  intros [(live & fl & Hp & Hc & _) Hsh Hact Htw] Hcnt Hn0 Hrt Hnow [Hmem Hfresh]. cbn [accept_loop].
  assert (shared_ok now0 (cnt + 1) (wk_shared k)) as Hsh1 by (eapply shared_ok_mono; [exact Hsh | lia]).
  assert (forall r w, conn_pool_get (wk_pool k) mem fd (Some peer) = Ret (r, w) -> (forall b, r = Some b -> b ∉ live) ->
    conns_ok (wk_shared k) (match r with Some b => {[b]} ∪ live | None => live end) None (w_conns w)) as Hconns.
  { intros r w Hget Hnew b d Hd _. destruct (conn_pool_get_conns _ _ _ _ _ _ Hget b d Hd) as [[Hb Hne] | (-> & Hs & Hrq & Hcc)].
    - destruct (Hc b d Hb ltac:(done)) as [He Hiff]. split; [done |]. rewrite <- Hiff. destruct r as [x |]; [| done].
      rewrite elem_of_union, elem_of_singleton. split; [intros [-> | ?]; [done | done] | by right].
    - split; [| rewrite Hs; split; [done | intros _; by apply elem_of_union_l, elem_of_singleton]]. constructor; [intros q; by rewrite Hrq | | by rewrite Hs].
      constructor; [by rewrite Hs | |].
      + destruct Hcc as [(c & Hb & E & _) | [E _]]; rewrite E; [| done]. apply (Hc b c Hb ltac:(done)).
      + destruct Hcc as [(c & Hb & _ & E) | [_ E]]; rewrite E; [| done]. apply (Hc b c Hb ltac:(done)). }
  destruct (conn_pool_get_spec (wk_pool k) live fl mem fd (Some peer) Hp Hmem) as [(w & Hg & Hi) | (a & w & fl' & c & Hg & Hna & Hi & _)]; rewrite Hg, bind_Ret.
  - eexists. split; [done |]. constructor; cbn; [| done | lia | done]. exists live, fl. split; [done |]. split; [| done]. by apply (Hconns None w).
  - rewrite i32_Ret, bind_Ret by (unfold INT_MIN, INT_MAX in *; lia).
    destruct (timeout_add_ok (wk_timers k) rt a now timer Htw Hrt Hnow Hfresh) as (r & -> & Hr). rewrite bind_Ret.
    eexists. split; [done |]. constructor; cbn; [| done | lia | done]. exists ({[a]} ∪ live), fl'. split; [done |]. split; [| done].
    apply (Hconns (Some a) w Hg). by intros b [= <-].
Qed.

Lemma accept_loop_ok (rt now0 now : Z) (answers : list accept_answer) (cnt : Z) (k : worker_t) :
  worker_ok now0 cnt k -> cnt + zlen answers <= INT_MAX -> now0 <= 2 ^ 62 -> 0 <= rt <= INT_MAX - NP_TIMEOUT_BUCKETS -> 0 <= now <= 2 ^ 62 ->
  accept_ready rt now answers k ->
  exists k', accept_loop rt now answers k = Ret k' /\ worker_ok now0 (cnt + zlen answers) k'.
Proof.
  intros Hw Hcnt Hn0 Hrt Hnow. revert cnt k Hw Hcnt. induction answers as [| [fd peer mem timer |] answers IH]; intros cnt k Hw Hcnt Hready; cbn [length] in *.
  - exists k. split; [done |]. eapply worker_at_later; [exact Hw | lia | lia].
  - destruct Hready as [Hacc Hrest]. destruct (accept_step_ok rt now0 now cnt fd peer mem timer k Hw ltac:(lia) Hn0 Hrt Hnow Hacc) as (k1 & Hk1 & Hw1).
    rewrite (accept_loop_cons _ _ _ _ _ _ _ _ _ Hk1).
    destruct (IH (cnt + 1) k1 Hw1 ltac:(lia) (Hrest k1 Hk1)) as (k' & -> & Hw'). exists k'. split; [done |].
    eapply worker_at_later; [exact Hw' | lia | lia].
  - exists k. split; [done |]. eapply worker_at_later; [exact Hw | lia | lia].
Qed.

End accepting.

(** ** Histories *)

(** An event of a worker: what the event loop reports, and what the outside answers
    while it is handled. *)
Inductive worker_event : Type :=
| ClientEvent (env : dispatch_env) (files : Z -> bytes) (ts : Z * Z) (events addr : Z) (io : list answer)
| UpstreamEvent (env : proxy_env) (fd events addr : Z) (io : list answer)
| AcceptEvent (fd now : Z) (answers : list accept_answer).

Definition with_io (io : list answer) (k : worker_t) : worker_t :=
  set_pool_sys (wk_pool k) (mk_sys io (s_calls (wk_sys k)) (s_out (wk_sys k)) (s_in (wk_sys k))) k.

Section histories.
Context {A : Allocator} {RX : Regex} (cfg : np_config_t) (listeners : list Z).

(** The callback that was registered for the event. *)
Definition worker_do (e : worker_event) (k : worker_t) : cres worker_t :=
  match e with
  | ClientEvent env files ts events addr io => on_client_event env cfg files ts events (with_io io k) addr
  | UpstreamEvent env fd events addr io => upstream_at env fd events (with_io io k) addr
  | AcceptEvent fd now answers => on_accept_event cfg listeners fd now answers k
  end.

Fixpoint worker_history (es : list worker_event) (k : worker_t) : cres worker_t :=
  match es with
  | [] => Ret k
  | e :: es' => k ← worker_do e k; worker_history es' k
  end.

(** When an event may come, [now] being the last time the limiter was asked: a
    client's or a backend's for a connection in use, a client's that reports both
    reading and writing only if reading does not release the connection, a
    backend's when the scan for the status cannot leave the buffer ([relay_ready]). *)
Definition enabled (now : Z) (e : worker_event) (k : worker_t) : Prop :=
  match e with
  | ClientEvent env files ts events addr io =>
      exists c, in_use k addr c /\ read_env env cfg now (with_io io k) c /\
        (has_event events EV_READ = true -> has_event events EV_WRITE = true ->
           forall k', read_at env cfg ts (touch (with_io io k) addr c) addr = Ret k' -> exists c', in_use k' addr c')
  | UpstreamEvent env fd events addr io =>
      exists c, in_use k addr c /\ is_proxied (c_state c) = true /\ penv_ok env (wk_shared k) /\ relay_ready c (relay_io events c io)
  | AcceptEvent fd now' answers => 0 <= now' <= 2 ^ 62 /\ accept_ready (read_timeout cfg) now' answers k
  end.

Definition event_now (now : Z) (e : worker_event) : Z :=
  match e with ClientEvent env _ _ _ _ _ => de_now env | _ => now end.

(** How much an event can add to a counter. *)
Definition event_cost (e : worker_event) : Z :=
  match e with ClientEvent _ _ _ _ _ _ => 4 | UpstreamEvent _ _ _ _ _ => 1 | AcceptEvent _ _ answers => zlen answers end.

Definition history_cost (es : list worker_event) : Z := foldr (fun e n => event_cost e + n) 0 es.

Fixpoint history_enabled (now : Z) (es : list worker_event) (k : worker_t) : Prop :=
  match es with
  | [] => True
  | e :: es' => enabled now e k /\ forall k', worker_do e k = Ret k' -> history_enabled (event_now now e) es' k'
  end.

Lemma history_cost_nonneg (es : list worker_event) : 0 <= history_cost es.
Proof. induction es as [| e es IH]; cbn [history_cost foldr]; [done |]. fold (history_cost es). destruct e; cbn [event_cost]; lia. Qed.

Definition history_now (now : Z) (es : list worker_event) : Z := foldl event_now now es.

Context {RO : RegexOK RX}.
Context (Hrt : 0 <= read_timeout cfg <= INT_MAX - NP_TIMEOUT_BUCKETS).

Lemma with_io_ok (now cnt : Z) (io : list answer) (k : worker_t) : worker_ok now cnt k -> worker_ok now cnt (with_io io k).
Proof using. by intros [H1 H2 H3 H4]. Qed.

(** One enabled event is defined and keeps the invariant. *)
Lemma worker_do_ok (now cnt : Z) (e : worker_event) (k : worker_t) :
  worker_ok now cnt k -> enabled now e k -> now <= 2 ^ 62 -> cnt + event_cost e <= INT_MAX ->
  exists k', worker_do e k = Ret k' /\ worker_ok (event_now now e) (cnt + event_cost e) k' /\ event_now now e <= 2 ^ 62.
Proof using RO Hrt.
  intros Hw He Hn Hcnt. destruct e as [env files ts events addr io | env fd events addr io | fd now' answers]; cbn [worker_do event_now event_cost] in *.
  - destruct He as (c & Hu & Henv & Hboth).
    destruct (client_event_ok env cfg files ts events now cnt (with_io io k) addr c) as (k' & Hk & Hw'); [by apply with_io_ok | done | done | lia | done |].
    exists k'. split; [done |]. split; [done |]. apply (re_now _ _ _ _ _ Henv).
  - destruct He as (c & Hu & Hpx & Hpe & Hr).
    destruct (upstream_at_ok env fd events now cnt (with_io io k) addr c) as (k' & Hk & Hw'); [by apply with_io_ok | done.. |]. by exists k'.
  - destruct He as [Hnow Hr]. unfold on_accept_event. case_bool_decide.
    + destruct (accept_loop_ok (read_timeout cfg) now now' answers cnt k Hw Hcnt Hn Hrt Hnow Hr) as (k' & Hk & Hw'). by exists k'.
    + exists k. split; [done |]. split; [| done]. eapply worker_at_later; [exact Hw | lia | lia].
Qed.

Lemma worker_history_ok (es : list worker_event) (now cnt : Z) (k : worker_t) :
  worker_ok now cnt k -> history_enabled now es k -> now <= 2 ^ 62 -> cnt + history_cost es <= INT_MAX ->
  exists k', worker_history es k = Ret k' /\ worker_ok (history_now now es) (cnt + history_cost es) k'.
Proof using RO Hrt.
  revert now cnt k. induction es as [| e es IH]; intros now cnt k Hw He Hn Hcnt; cbn [history_cost foldr history_now foldl worker_history] in *.
  - exists k. split; [done |]. by rewrite Z.add_0_r.
  - destruct He as [He Hes]. fold (history_cost es) in *.
    pose proof (history_cost_nonneg es) as Hpos.
    destruct (worker_do_ok now cnt e k Hw He Hn ltac:(lia)) as (k1 & Hk1 & Hw1 & Hn1). rewrite Hk1, bind_Ret.
    destruct (IH _ _ k1 Hw1 (Hes k1 Hk1) Hn1 ltac:(lia)) as (k' & Hk' & Hw'). exists k'. split; [done |]. by rewrite Z.add_assoc.
Qed.

(** The invariant holds at the start. *)
Lemma worker_start_invariant (mem : start_mem) (h : list region) (ms : list loaded_module_t) (files : gmap bytes bytes)
    (opened : option Z) (sigfd now : Z) (s : sys_t) (k : worker_t) :
  config_ok cfg -> 0 <= rl_requests_per_second (rate_limit cfg) -> 0 <= rl_burst (rate_limit cfg) -> 0 <= now <= 2 ^ 62 -> files_ok files ->
  worker_start cfg mem h ms files opened sigfd listeners now s = Some k -> worker_ok now 0 k /\ w_conns (wk_pool k) = ∅.
Proof using.
  intros Hcfg Hr Hb Hn Hf Hk. destruct (worker_start_ok _ _ _ _ _ _ _ _ _ _ _ Hcfg Hr Hb Hn Hf Hk) as (Hsh & Hp & Ha & Hw).
  assert (w_conns (wk_pool k) = ∅) as Hnil by (apply dom_empty_inv_L; rewrite (cp_dom _ _ _ Hp); set_solver). split; [| done].
  constructor; [| done | lia | exists (replicate 512 []); split; [done | by rewrite length_replicate]].
  exists ∅, []. split; [done |]. split; [| done]. intros a c. by rewrite Hnil.
Qed.

(** C2 A worker is safe through its whole life: from the state it starts in, through
    any sequence of events - clients accepted, requests read, parsed, rewritten and
    dispatched to modules, files, caches and backends, responses relayed and
    written, connections released and reused - to its shutdown.  As long as each
    event is one the event loop can report for a connection in use, and each
    request keeps to the limits of the handlers' arrays, no handler performs an
    undefined operation or fails to return; and in every state reached no
    connection is in use twice or in use and free, every buffer is well formed,
    every proxied connection has its pool and backend, and the limiter, the
    counters, the backend pools, the cache files and the timer wheel satisfy their
    invariants. *)
Theorem worker_history_safe (mem : start_mem) (h : list region) (ms : list loaded_module_t) (files : gmap bytes bytes) (opened : option Z)
    (sigfd now : Z) (s : sys_t) (k : worker_t) (es : list worker_event) (start : Z) (times : list Z) :
  config_ok cfg -> 0 <= rl_requests_per_second (rate_limit cfg) -> 0 <= rl_burst (rate_limit cfg) -> 0 <= now <= 2 ^ 62 -> files_ok files ->
  worker_start cfg mem h ms files opened sigfd listeners now s = Some k ->
  history_enabled now es k -> history_cost es <= INT_MAX ->
  exists k', worker_history es k = Ret k' /\ worker_ok (history_now now es) (history_cost es) k' /\
    exists k'' left, worker_stop cfg listeners start times k' = Ret (k'', left) /\ tw_heap (wk_timers k'') = ∅.
Proof using RO Hrt.
  intros Hcfg Hr Hb Hn Hf Hk Hes Hcost. destruct (worker_start_invariant _ _ _ _ _ _ _ _ _ Hcfg Hr Hb Hn Hf Hk) as [Hw _].
  destruct (worker_history_ok es now 0 k Hw Hes ltac:(lia) ltac:(lia)) as (k' & Hk' & Hw'). exists k'. split; [done |]. split; [done |].
  destruct Hw' as [(live & fl & Hp & _) _ _ (B & Hrep & _)]. unfold worker_stop.
  destruct (conn_pool_destroy_spec _ _ _ Hp) as (w' & -> & _). rewrite (timeout_wheel_destroy_rep _ _ Hrep). cbn [mbind cres_mbind].
  destruct (AccessLog.access_log_close _). by eexists _, _.
Qed.

End histories.

(** ** A backend that outlives its client *)

(** What [proxy_handle] registers and closes. *)
Lemma proxy_handle_calls (c c' : conn_t) (req : http_request_t) (idx : nat) (pool pool' : upstream_pool_t) (m m' : option np_metrics_t)
    (connect : option Z) (s s' : sys_t) :
  proxy_handle c req idx pool m connect s = Ret (c', pool', m', s') -> is_proxied (c_state c') = true ->
  s_calls s' = s_calls s ++ [SysEpollAdd (c_upstream_fd c') EV_WRITE_READ] /\ c_fd c' = c_fd c /\ c_file_fd c' = c_file_fd c.
Proof.
  unfold proxy_handle. intros H Hp. apply bind_inv in H as ([[k |] p1] & _ & H).
  - apply bind_inv in H as ([ufd p2] & _ & H). destruct (ufd <? 0).
    + apply bind_inv in H as (p3 & _ & H). apply bind_inv in H as (b & _ & H). injection H as <- <- <- <-. discriminate.
    + apply bind_inv in H as (c1 & Hb & H). apply build_proxy_request_frame in Hb as (b & ->). by injection H as <- <- <- <-.
  - apply bind_inv in H as (b & _ & H). injection H as <- <- <- <-. discriminate.
Qed.

(** What a backend sends reaches the client that the connection has now. *)
Lemma stale_event (env : proxy_env) (f fd : Z) (d : conn_t) (ps : proxy_shared) (s : sys_t) :
  fresh_conn fd d -> c_tls_conn d = None -> cc_store (c_cache d) = None -> relay_ready d (s_io s) ->
  exists d' ft ps' s' got, proxy_on_upstream_event env f EV_READ d ps s = Ret (d', ft, ps', s') /\
    sent_to f (s_in s') = sent_to f (s_in s) ++ got /\
    sent_to fd (s_out s') ++ contents (c_upstream_rbuf d') = sent_to fd (s_out s) ++ got.
Proof.
  intros Hd Ht Hcc Hr. pose proof (fc_ok _ _ Hd) as Hok. destruct (fc_empty _ _ Hd) as (_ & _ & Hnil & _).
  unfold proxy_on_upstream_event. change (has_event EV_READ EV_WRITE) with false. change (has_event EV_READ EV_READ) with true. cbn iota. rewrite bind_Ret.
  unfold relay. destruct (relay_loop_Ret (S (length (s_io s))) (pe_realloc env) f d s ltac:(lia) (ck_upstream_rbuf _ Hok) Hr)
    as (n & d1 & s1 & got & Hl & _ & _ & (b & st & cc & ->) & _ & Hin & Hout). rewrite Hl, bind_Ret. apply relay_loop_keeps in Hl as [Hst _].
  rewrite (fc_fd _ _ Hd), Hnil in Hout. cbn in Hst. rewrite Hcc in Hst. cbn [app] in Hout. cbn zeta.
  match goal with |- context [if 0 <? ?r then sys_call_log ?l ?x else ?y] => set (s2 := if 0 <? r then sys_call_log l x else y) end.
  assert (s_in s2 = s_in s1 /\ s_out s2 = s_out s1) as [Hi Ho] by (subst s2; by case_match). clearbody s2.
  match goal with |- context [if ?t then backend_done _ _ _ _ _ _ else _] => destruct t end.
  - unfold backend_done. cbn zeta. case_match.
    + unfold store_response. cbn [c_cache set_c_upstream_fd set_c_cache c_tls_conn set_c_proxy_status set_c_upstream_rbuf]. rewrite Hst, bind_Ret.
      cbn [c_tls_conn set_c_upstream_fd set_c_cache set_c_proxy_status set_c_upstream_rbuf]. rewrite Ht.
      eexists _, _, _, _, got. split; [done |]. cbn [s_in s_out sys_call_log]. rewrite Hi, Ho. split; [exact Hin | exact Hout].
    + eexists _, _, _, _, got. split; [done |]. cbn [s_in s_out sys_call_log]. rewrite Hi, Ho. split; [exact Hin | exact Hout].
  - eexists _, _, _, _, got. split; [done |]. rewrite Hi, Ho. split; [exact Hin | exact Hout].
Qed.

(** C21 A client can receive the response to another client's request.  When a request
    comes on a connection that is already proxied, it gets a backend of its own and
    the first one's descriptor is forgotten: neither the second request nor the
    release of the connection removes it from the event loop or closes it, and its
    callback still names the connection.  When the connection has been given to the
    next client, whatever the first backend sends is sent to that client, or waits
    for it. *)
Theorem backend_outlives_client (env : proxy_env) (c c' : conn_t) (req : http_request_t) (idx : nat) (pool pool' : upstream_pool_t)
    (m m' : option np_metrics_t) (connect : option Z) (s s' : sys_t) :
  proxy_handle c req idx pool m connect s = Ret (c', pool', m', s') -> is_proxied (c_state c') = true ->
  0 <= c_upstream_fd c -> c_upstream_fd c' <> c_upstream_fd c -> c_fd c <> c_upstream_fd c -> c_file_fd c <> c_upstream_fd c ->
  (forall x, x = SysEpollDel (c_upstream_fd c) \/ x = SysClose (c_upstream_fd c) ->
     (x ∉ drop (length (s_calls s)) (s_calls s')) /\ (x ∉ (conn_close c').2)) /\
  forall fd d ps s2, fresh_conn fd d -> c_tls_conn d = None -> cc_store (c_cache d) = None -> relay_ready d (s_io s2) ->
    exists d' ft ps' s3 got, proxy_on_upstream_event env (c_upstream_fd c) EV_READ d ps s2 = Ret (d', ft, ps', s3) /\
      sent_to (c_upstream_fd c) (s_in s3) = sent_to (c_upstream_fd c) (s_in s2) ++ got /\
      sent_to fd (s_out s3) ++ contents (c_upstream_rbuf d') = sent_to fd (s_out s2) ++ got.
Proof.
  intros H Hp Hpos Hu Hfd Hfile. destruct (proxy_handle_calls _ _ _ _ _ _ _ _ _ _ _ H Hp) as (Hcalls & Ef & Efile). split.
  - intros x Hx. rewrite Hcalls, drop_app_length. split; [destruct Hx as [-> | ->]; by intros ?%list_elem_of_singleton |].
    unfold conn_close. cbn [snd]. unfold close_fd. rewrite Ef, Efile, !not_elem_of_app. destruct Hx as [-> | ->]; split_and!; case_match; set_solver.
  - intros fd d ps s2. apply stale_event.
Qed.

(** A client whose request waits for the backend on descriptor 7, and who asks again. *)
Definition asking_conn : conn_t := set_c_fd 4 (set_c_upstream_fd 7 sample_proxied).

(** The next client on the same connection. *)
Definition next_conn : conn_t := set_c_proxy_status 200 new_conn.

Definition plain_penv : proxy_env :=
  mk_penv (fun _ => true) 0 [] (mk_io true 0 0 0 true true) [] None (AccessLog.mk_timespec 0 0, AccessLog.mk_timespec 0 0) [].

Lemma next_conn_fresh : fresh_conn 5 next_conn.
Proof. destruct new_conn_fresh as [[] H1 H2 H3 H4 H5]. by constructor. Qed.

Lemma backend_outlives_client_witness :
  exists c' pool' m' s', proxy_handle asking_conn (sample_req (lit "/a")) 0 (mk_pool [mk_ub (lit "10.0.0.1") 80 1 0 0 true []] 0 BALANCE_ROUND_ROBIN 4) None (Some 8)
      (mk_sys [] [] [] []) = Ret (c', pool', m', s') /\ (SysClose 7 ∉ (conn_close c').2) /\
    exists d' ft ps' s3 got, proxy_on_upstream_event plain_penv 7 EV_READ next_conn (mk_pshared None ∅ []) (mk_sys [AData (lit "secret"); ACount 6] [] [] []) = Ret (d', ft, ps', s3) /\
      sent_to 7 (s_in s3) = got /\ sent_to 5 (s_out s3) ++ contents (c_upstream_rbuf d') = got.
Proof.
  destruct (proxy_handle asking_conn (sample_req (lit "/a")) 0 (mk_pool [mk_ub (lit "10.0.0.1") 80 1 0 0 true []] 0 BALANCE_ROUND_ROBIN 4) None (Some 8) (mk_sys [] [] [] []))
    as [[[[c' pool'] m'] s'] |] eqn:H; [| vm_compute in H; discriminate H]. exists c', pool', m', s'. split; [reflexivity |].
  assert (c_state c' = CONN_PROXYING /\ c_upstream_fd c' = 8) as [Hs Hu] by (vm_compute in H; injection H as <- <- <- <-; by split).
  destruct (backend_outlives_client plain_penv asking_conn c' (sample_req (lit "/a")) 0 (mk_pool [mk_ub (lit "10.0.0.1") 80 1 0 0 true []] 0 BALANCE_ROUND_ROBIN 4) pool' None m' (Some 8)
    (mk_sys [] [] [] []) s' H) as [Hcalls Hnext]; [by rewrite Hs | cbn; lia | rewrite Hu; discriminate | discriminate | discriminate |].
  change (c_upstream_fd asking_conn) with 7 in Hcalls, Hnext. split; [exact (proj2 (Hcalls (SysClose 7) (or_intror eq_refl))) |].
  destruct (Hnext 5 next_conn (mk_pshared None ∅ []) (mk_sys [AData (lit "secret"); ACount 6] [] [] []) next_conn_fresh eq_refl eq_refl) as (d' & ft & ps' & s3 & got & Hr & Hi & Ho);
    [left; discriminate |]. exists d', ft, ps', s3, got. split; [exact Hr |]. split; [exact Hi | exact Ho].
Defined.

(** ** A history *)

Lemma file_config_ok : config_ok file_config.
Proof. concrete_ok. Qed.

Definition get_hello : bytes := lit "GET /hello HTTP/1.1" ++ CRLF ++ lit "Host: x" ++ CRLF ++ CRLF.

(** The environment of the worker's samples, with the example module. *)
Definition life_env : dispatch_env :=
  mk_denv (de_ip file_env) (de_now file_env) (de_clock file_env) (de_ts file_env) (de_lookup file_env) (de_static file_env) (de_connect file_env) hello_call.

Lemma life_env_ok : env_ok life_env file_config.
Proof. destruct file_env_ok. by constructor. Qed.

Lemma get_hello_limits : request_limits life_env file_config (parse_val init_val get_hello).2.
Proof.
  constructor; [| constructor]. intros pv [-> | (rule & ms & Hin & _)]; [| by apply elem_of_nil in Hin].
  constructor; [vm_compute; discriminate | vm_compute; discriminate | vm_compute; reflexivity | constructor].
Qed.

Definition life_start : option worker_t :=
  worker_start file_config (mk_start true true true (fun _ => true) (fun _ => true) true true) [] [mk_loaded 1 hello_module] ∅ None 3 [4] 100 (mk_sys [] [] [] []).

(** A client is accepted, asks for the page of the example module, and hangs up. *)
Definition life_events : list worker_event :=
  [AcceptEvent 4 100 [Accepted 5 0 witness_mem (Some 77)];
   ClientEvent life_env (fun _ => []) (1, 0) EV_READ 1000 [AData get_hello; AAgain; AAgain];
   ClientEvent life_env (fun _ => []) (1, 0) EV_HUP 1000 []].

(** The state after the first [n] events. *)
Definition life_after (n : nat) : option worker_t :=
  match life_start with
  | Some k => match worker_history file_config [4] (take n life_events) k with Ret k' => Some k' | _ => None end
  | None => None
  end.

(** What the witness needs of a state: the connection at 1000 is in use, and what
    the next event reads. *)
Definition life_reads (n : nat) (io : list answer) : option bytes :=
  k ← life_after n;
  c ← w_conns (wk_pool k) !! 1000;
  match c_state c, read_loop (c_fd c) (c_rbuf c) (wk_sys (with_io io k)) with
  | CONN_CLOSING, _ => None
  | _, Ret (_, b, _) => Some (contents b)
  | _, _ => None
  end.

Lemma life_reads_1 : life_reads 1 [AData get_hello; AAgain; AAgain] = Some get_hello.
Proof. vm_compute. reflexivity. Qed.

Lemma life_reads_2 : life_reads 2 [] = Some [].
Proof. vm_compute. reflexivity. Qed.

Lemma life_client (n : nat) (events : Z) (io : list answer) (k : worker_t) (t : bytes) :
  life_after n = Some k -> life_reads n io = Some t -> t = get_hello \/ t = [] -> has_event events EV_READ && has_event events EV_WRITE = false ->
  enabled file_config 100 (ClientEvent life_env (fun _ => []) (1, 0) events 1000 io) k.
Proof.
  unfold life_reads. intros -> H Ht Hev. cbn [mbind option_bind] in H. destruct (w_conns (wk_pool k) !! 1000) as [c |] eqn:Hc; [| discriminate].
  cbn [mbind option_bind] in H.
  assert (c_state c <> CONN_CLOSING /\ exists m b s, read_loop (c_fd c) (c_rbuf c) (wk_sys (with_io io k)) = Ret (m, b, s) /\ contents b = t) as [Hs (m & b & s & Hr & Hb)].
  { destruct (read_loop _ _ _) as [[[m b] s] |] eqn:E; destruct (c_state c); try discriminate; split; try discriminate; injection H as <-; by eexists _, _, _. }
  exists c. split; [by split |]. split; [| intros R W; rewrite R, W in Hev; discriminate].
  constructor; [exact hello_module_ok | exact life_env_ok | done |]. intros n' b' s' sv Hr' Hp. rewrite Hr in Hr'. injection Hr' as <- <- <-.
  rewrite Hb in Hp. destruct Ht as [-> | ->]; [| discriminate]. assert (sv = (parse_val init_val get_hello).2) as -> by (by rewrite Hp). apply get_hello_limits.
Qed.

Lemma life_accepts (k : worker_t) : life_start = Some k -> enabled file_config 100 (AcceptEvent 4 100 [Accepted 5 0 witness_mem (Some 77)]) k.
Proof.
  intros Hk. assert (w_conns (wk_pool k) = ∅ /\ tw_heap (wk_timers k) = ∅) as [Hc Ht] by (injection Hk as <-; by split).
  split; [lia |]. split; [| done]. split; [by apply witness_mem_ok |]. intros t _. by rewrite Ht.
Qed.

Lemma life_enabled (k : worker_t) : life_start = Some k -> history_enabled file_config [4] 100 life_events k.
Proof.
  intros Hk. split; [by apply life_accepts |]. intros k1 H1.
  assert (life_after 1 = Some k1) as L1 by (unfold life_after; rewrite Hk; cbn [take life_events worker_history]; by rewrite H1).
  split; [by apply (life_client 1 _ _ _ get_hello); [| exact life_reads_1 | left |] |]. intros k2 H2.
  assert (life_after 2 = Some k2) as L2 by (unfold life_after; rewrite Hk; cbn [take life_events worker_history]; by rewrite H1, bind_Ret, H2).
  split; [by apply (life_client 2 _ _ _ []); [| exact life_reads_2 | right |] | done].
Qed.

Lemma worker_history_safe_witness :
  exists k k', life_start = Some k /\ worker_history file_config [4] life_events k = Ret k' /\ worker_ok 100 9 k'.
Proof.
  destruct life_start as [k |] eqn:Hk; [| discriminate]. exists k.
  destruct (worker_history_safe file_config [4] ltac:(vm_compute; split; discriminate)
    (mk_start true true true (fun _ => true) (fun _ => true) true true) [] [mk_loaded 1 hello_module] ∅ None 3 100 (mk_sys [] [] [] []) k life_events 0 []
    file_config_ok ltac:(vm_compute; discriminate) ltac:(vm_compute; discriminate) ltac:(lia) (map_Forall_empty _) Hk (life_enabled k Hk)
    ltac:(vm_compute; discriminate)) as (k' & Hr & Hw & _).
  exists k'. split; [reflexivity |]. split; [exact Hr | exact Hw].
Defined.
