(* ===== verification/Process.v ===== *)
(** * Processes, sockets and the log: src/proc/{master,daemon,signal}.c, src/net/socket.c, src/core/log.c, src/main.c

    The system calls are answered by arguments; the descriptors closed, the
    processes started, signalled and waited for are recorded in order.  Each part
    is a module of its own. *)

From Stdlib Require Import ZArith Lia String.
From stdpp Require Import base numbers option list gmap.
From S2P Require Import Prelude CLib StringUtil Config Conn.

(** ** Sockets *)

Module Socket.

Record np_socket_t : Type := mk_socket { sk_fd : Z; sk_host : bytes; sk_port : Z }.

(** The answers of [socket], [inet_pton], [bind] and [listen]. *)
Record listen_answers : Type := mk_la {
  la_socket : option Z;
  la_pton : bool;
  la_bind : bool;
  la_listen : bool
}.

Definition ANY : bytes := lit "0.0.0.0".

(** [fcntl] with [F_GETFL] and then [F_SETFL]. *)
Definition socket_set_nonblocking (getfl setfl : bool) : np_status_t :=
  if negb getfl then NP_ERR else if negb setfl then NP_ERR else NP_OK.

(** The socket and the descriptors closed.  [host] is [None] for a null pointer. *)
Definition socket_create_listener (host : option bytes) (port backlog : Z) (a : listen_answers)
    : np_status_t * option np_socket_t * list sys_call :=
  match la_socket a with
  | None => (NP_ERR, None, [])
  | Some fd =>
      let any := match host with None => true | Some h => strcmp_eq h ANY end in
      if negb any && negb (la_pton a) then (NP_ERR, None, [SysClose fd])
      else if negb (la_bind a) then (NP_ERR, None, [SysClose fd])
      else if negb (la_listen a) then (NP_ERR, None, [SysClose fd])
      else (NP_OK, Some (mk_socket fd (default ANY host) port), [])
  end.

Inductive accept_result : Type := AcceptFd (fd : Z) | AcceptBlocks | AcceptFails.

Definition socket_accept (a : accept_result) : np_status_t * option Z :=
  match a with
  | AcceptFd fd => (NP_OK, Some fd)
  | AcceptBlocks => (NP_ERR_AGAIN, None)
  | AcceptFails => (NP_ERR, None)
  end.

(** The answers of [socket], [inet_pton] and [connect]. *)
Inductive connect_result : Type := Connected | InProgress | ConnectFails.

Definition socket_connect_nonblock (sock : option Z) (pton : bool) (conn : connect_result) : np_status_t * option Z * list sys_call :=
  match sock with
  | None => (NP_ERR, None, [])
  | Some fd =>
      if negb pton then (NP_ERR, None, [SysClose fd])
      else
        match conn with
        | ConnectFails => (NP_ERR, None, [SysClose fd])
        | _ => (NP_OK, Some fd, [])
        end
  end.

Definition socket_close (fd : Z) : list sys_call := if 0 <=? fd then [SysClose fd] else [].

(** A descriptor that was opened is either handed to the caller, with NP_OK, and
    open, or closed exactly once, with NP_ERR: for a listening socket and for a
    connection to a backend, whatever the calls after [socket] answer. *)
Theorem sockets_do_not_leak (host : option bytes) (port backlog : Z) (a : listen_answers) (pton : bool) (conn : connect_result) (fd : Z) :
  la_socket a = Some fd ->
  (exists sock, socket_create_listener host port backlog a = (NP_OK, Some sock, []) /\ sk_fd sock = fd /\ sk_port sock = port \/
   socket_create_listener host port backlog a = (NP_ERR, None, [SysClose fd])) /\
  (socket_connect_nonblock (Some fd) pton conn = (NP_OK, Some fd, []) \/
   socket_connect_nonblock (Some fd) pton conn = (NP_ERR, None, [SysClose fd])).
Proof.
  intros Hs. unfold socket_create_listener. rewrite Hs. split.
  - exists (mk_socket fd (default ANY host) port). destruct (negb _ && _); [by right |]. destruct (la_bind a); [| by right].
    destruct (la_listen a); [by left | by right].
  - cbn. destruct pton; [| by right]. destruct conn; auto.
Qed.

Lemma sockets_do_not_leak_witness :
  exists sock, socket_create_listener (Some (lit "1.2.3.4")) 80 16 (mk_la (Some 3) true true false) = (NP_OK, Some sock, []) /\ sk_fd sock = 3 /\ sk_port sock = 80 \/
    socket_create_listener (Some (lit "1.2.3.4")) 80 16 (mk_la (Some 3) true true false) = (NP_ERR, None, [SysClose 3]).
Proof. exact (proj1 (sockets_do_not_leak (Some (lit "1.2.3.4")) 80 16 (mk_la (Some 3) true true false) true InProgress 3 eq_refl)). Defined.

(** *** One listening socket per port *)

Definition bound_t : Type := list (np_socket_t * Z).

Definition already_bound (port : Z) (bound : bound_t) : bool := existsb (fun b => b.2 =? port) bound.

Definition next_listen (ans : list listen_answers) : listen_answers * list listen_answers :=
  match ans with [] => (mk_la None true true true, []) | a :: ans' => (a, ans') end.

(** The loop of [main]: it gives up at the first failure. *)
Fixpoint main_bind (addr : bytes) (backlog : Z) (ports : list Z) (ans : list listen_answers) (bound : bound_t) : option bound_t :=
  match ports with
  | [] => Some bound
  | p :: ports' =>
      if already_bound p bound then main_bind addr backlog ports' ans bound
      else
        let '(a, ans) := next_listen ans in
        match (socket_create_listener (Some addr) p backlog a).1 with
        | (NP_OK, Some sock) => main_bind addr backlog ports' ans (bound ++ [(sock, p)])
        | _ => None
        end
  end.

(** The loop of a reload: it goes on after a failure. *)
Fixpoint reload_bind (addr : bytes) (backlog : Z) (ports : list Z) (ans : list listen_answers) (bound : bound_t) : bound_t :=
  match ports with
  | [] => bound
  | p :: ports' =>
      if already_bound p bound then reload_bind addr backlog ports' ans bound
      else
        let '(a, ans) := next_listen ans in
        match (socket_create_listener (Some addr) p backlog a).1 with
        | (NP_OK, Some sock) => reload_bind addr backlog ports' ans (bound ++ [(sock, p)])
        | _ => reload_bind addr backlog ports' ans bound
        end
  end.

(** The first occurrence of each port that is not in [seen]. *)
Fixpoint firsts (seen ports : list Z) : list Z :=
  match ports with
  | [] => []
  | p :: ports' => if bool_decide (p ∈ seen) then firsts seen ports' else p :: firsts (seen ++ [p]) ports'
  end.

Lemma already_bound_spec (port : Z) (bound : bound_t) : already_bound port bound = bool_decide (port ∈ bound.*2).
Proof.
  unfold already_bound. apply eq_true_iff_eq. rewrite existsb_exists, bool_decide_eq_true, list_elem_of_fmap. split.
  - intros (x & Hx & E). bprop. exists x. split; [done |]. by apply list_elem_of_In.
  - intros (x & -> & Hx). exists x. split; [by apply list_elem_of_In | apply Z.eqb_refl].
Qed.

Lemma create_port (addr : bytes) (p backlog : Z) (a : listen_answers) (sock : np_socket_t) :
  (socket_create_listener (Some addr) p backlog a).1 = (NP_OK, Some sock) -> sk_port sock = p /\ la_socket a = Some (sk_fd sock).
Proof. unfold socket_create_listener. destruct (la_socket a); [| discriminate]. repeat case_match; intros [= <-]; done. Qed.

Lemma main_bind_firsts (addr : bytes) (backlog : Z) (ports : list Z) (ans : list listen_answers) (bound bound' : bound_t) :
  Forall (fun b => sk_port b.1 = b.2) bound -> main_bind addr backlog ports ans bound = Some bound' ->
  bound'.*2 = bound.*2 ++ firsts (bound.*2) ports /\ Forall (fun b => sk_port b.1 = b.2) bound'.
Proof.
  revert ans bound. induction ports as [| p ports IH]; intros ans bound Hb; cbn; [intros [= <-]; by rewrite app_nil_r |].
  rewrite already_bound_spec. case_bool_decide as E; [by apply IH |].
  destruct (next_listen ans) as [a ans']. destruct (socket_create_listener (Some addr) p backlog a).1 as [[] [sock |]] eqn:Hs; try discriminate.
  intros H. apply create_port in Hs as [Hport _]. apply IH in H as [H1 H2]; [| apply Forall_app; split; [done | by repeat constructor]].
  rewrite fmap_app in H1. cbn in H1. by rewrite H1, <- app_assoc.
Qed.

Lemma firsts_spec (seen ports : list Z) :
  NoDup seen -> NoDup (seen ++ firsts seen ports) /\ (forall p, p ∈ seen ++ firsts seen ports <-> p ∈ seen \/ p ∈ ports) /\
  (length (firsts seen ports) <= length ports)%nat.
Proof.
  revert seen. induction ports as [| p ports IH]; intros seen Hnd; cbn.
  - rewrite app_nil_r. split_and!; [done | | lia]. intros q. rewrite elem_of_nil. tauto.
  - case_bool_decide as E.
    + destruct (IH seen Hnd) as (H1 & H2 & H3). split_and!; [done | | lia]. intros q. rewrite H2, elem_of_cons. split; [tauto |].
      intros [? | [-> | ?]]; auto.
    + destruct (IH (seen ++ [p])) as (H1 & H2 & H3).
      { apply NoDup_app. split_and!; [done | | apply NoDup_singleton]. intros x Hx ->%list_elem_of_singleton. done. }
      rewrite <- app_assoc in *. cbn [app] in *. split_and!; [done | | cbn; lia]. intros q. rewrite H2, elem_of_app, list_elem_of_singleton, elem_of_cons. tauto.
Qed.

(** C34 The listening sockets at the start: when every one could be created, there
    is exactly one per distinct port of the servers, in the order of the servers,
    each bound to its port, and no more than servers, so the tables of 16 suffice. *)
Theorem listener_table_correct (addr : bytes) (backlog : Z) (ports : list Z) (ans : list listen_answers) (bound : bound_t) :
  main_bind addr backlog ports ans [] = Some bound ->
  NoDup (bound.*2) /\ (forall p, p ∈ bound.*2 <-> p ∈ ports) /\ bound.*2 = firsts [] ports /\
  Forall (fun b => sk_port b.1 = b.2) bound /\ (length bound <= length ports)%nat.
Proof.
  intros H. apply main_bind_firsts in H as [H1 H2]; [| constructor]. cbn in H1.
  destruct (firsts_spec [] ports (NoDup_nil_2)) as (F1 & F2 & F3). cbn [app] in *. rewrite H1. split_and!; [done | | done | done |].
  - intros p. rewrite F2, elem_of_nil. tauto.
  - rewrite <- (length_fmap snd bound). change (snd <$> bound) with (bound.*2). by rewrite H1.
Qed.

Lemma listener_table_correct_witness :
  exists bound, main_bind (lit "0.0.0.0") 16 [80; 443; 80] [mk_la (Some 3) true true true; mk_la (Some 4) true true true] [] = Some bound /\ NoDup (bound.*2).
Proof.
  eexists. split; [reflexivity |].
  exact (proj1 (listener_table_correct (lit "0.0.0.0") 16 [80; 443; 80] [mk_la (Some 3) true true true; mk_la (Some 4) true true true] _ eq_refl)).
Defined.

End Socket.

(** ** The log *)

Module Log.

Definition STDERR_FILENO : Z := 2.

Record log_t : Type := mk_logger { lg_fd : Z; lg_limit : log_level_t }.

Definition level_num (l : log_level_t) : Z :=
  match l with LOG_ERROR => 0 | LOG_WARN => 1 | LOG_INFO => 2 | LOG_DEBUG => 3 end.

Definition level_str (l : log_level_t) : bytes :=
  match l with LOG_ERROR => lit "ERROR" | LOG_WARN => lit "WARN " | LOG_INFO => lit "INFO " | LOG_DEBUG => lit "DEBUG" end.

(** [opened] is the answer of [open]; [path] is [None] for a null pointer. *)
Definition log_init (path : option bytes) (level : log_level_t) (opened : option Z) (g : log_t) : log_t :=
  match path with
  | None | Some [] => mk_logger (lg_fd g) level
  | Some _ => mk_logger (default (lg_fd g) opened) level
  end.

(** The descriptor closed, if any. *)
Definition log_close (g : log_t) : log_t * list sys_call :=
  if lg_fd g =? STDERR_FILENO then (g, []) else (mk_logger STDERR_FILENO (lg_limit g), [SysClose (lg_fd g)]).

Definition LOG_SIZE : Z := 4096.

(** What is written: [ts] is the formatted time, [msg] the formatted message, [err]
    the text of [errno] when it is asked for.  Lengths are those the formatting
    functions return; a store or a read outside the array is undefined. *)
Definition log_vwrite (g : log_t) (level : log_level_t) (ts : bytes) (pid : Z) (msg : bytes) (err : option bytes) : cres (option (Z * bytes)) :=
  if level_num (lg_limit g) <? level_num level then Ret None
  else
    let text := ts ++ lit " [" ++ level_str level ++ lit "] [" ++ fmt_d pid ++ lit "] " ++ msg in
    let text := match err with Some e => if zlen text <? LOG_SIZE - 64 then text ++ lit ": " ++ e else text | None => text end in
    let text := if zlen text <? LOG_SIZE - 1 then text ++ [10] else text in
    if zlen text <? LOG_SIZE then Ret (Some (lg_fd g, text)) else Stuck.

Definition log_write (g : log_t) (level : log_level_t) (ts : bytes) (pid : Z) (msg : bytes) : cres (option (Z * bytes)) :=
  log_vwrite g level ts pid msg None.

(** [err] is the text of [errno]. *)
Definition log_write_errno (g : log_t) (level : log_level_t) (ts : bytes) (pid : Z) (msg err : bytes) : cres (option (Z * bytes)) :=
  log_vwrite g level ts pid msg (Some err).

(** The log: a message above the level is not written; one whose line has at most
    4094 bytes is written whole, with its newline; one of 4096 bytes or more stores
    the terminator outside the array. *)
Theorem log_vwrite_bounds (g : log_t) (level : log_level_t) (ts : bytes) (pid : Z) (msg : bytes) :
  let line := ts ++ lit " [" ++ level_str level ++ lit "] [" ++ fmt_d pid ++ lit "] " ++ msg in
  (level_num (lg_limit g) < level_num level -> log_vwrite g level ts pid msg None = Ret None) /\
  (level_num level <= level_num (lg_limit g) -> zlen line < LOG_SIZE - 1 -> log_vwrite g level ts pid msg None = Ret (Some (lg_fd g, line ++ [10]))) /\
  (level_num level <= level_num (lg_limit g) -> LOG_SIZE <= zlen line -> log_vwrite g level ts pid msg None = Stuck).
Proof.
  intros line. unfold log_vwrite. fold line. split_and!.
  - intros H. by rewrite (proj2 (Z.ltb_lt _ _) H).
  - intros H Hl. rewrite (proj2 (Z.ltb_ge _ _) H), (proj2 (Z.ltb_lt _ _) Hl).
    rewrite (proj2 (Z.ltb_lt (zlen (line ++ [10])) LOG_SIZE)) by (rewrite length_app; cbn [length]; unfold LOG_SIZE in *; lia). done.
  - intros H Hl. rewrite (proj2 (Z.ltb_ge _ _) H). rewrite (proj2 (Z.ltb_ge (zlen line) (LOG_SIZE - 1))) by (unfold LOG_SIZE in *; lia).
    by rewrite (proj2 (Z.ltb_ge _ _) Hl).
Qed.

End Log.

(** ** The daemon and its file *)

Module Daemon.

(** The answers of the calls of [daemonize]: [fork] gives the child 0. *)
Inductive fork_answer : Type := ForkFails | ForkParent (pid : Z) | ForkChild.

Inductive daemon_result : Type := DaemonError | DaemonExit | DaemonRuns.

Definition pid_text (pid : Z) : bytes := fmt_d pid ++ [10].

(** [setsid] and [fopen] may fail; [pid] is the answer of [getpid].  The result and
    the files. *)
Definition daemonize (pid_file : option bytes) (fork1 : fork_answer) (setsid : bool) (fork2 : fork_answer) (pid : Z) (opens : bool) (fs : gmap bytes bytes)
    : daemon_result * gmap bytes bytes :=
  match fork1 with
  | ForkFails => (DaemonError, fs)
  | ForkParent _ => (DaemonExit, fs)
  | ForkChild =>
      if negb setsid then (DaemonError, fs)
      else
        match fork2 with
        | ForkFails => (DaemonError, fs)
        | ForkParent _ => (DaemonExit, fs)
        | ForkChild =>
            match pid_file with
            | None | Some [] => (DaemonRuns, fs)
            | Some f => (DaemonRuns, if opens then <[f := pid_text pid]> fs else fs)
            end
        end
  end.

Definition pid_file_remove (pid_file : option bytes) (fs : gmap bytes bytes) : gmap bytes bytes :=
  match pid_file with
  | None | Some [] => fs
  | Some f => delete f fs
  end.

(** [fscanf] with [%d]: the number and whether one was read. *)
Definition scan_d (s : bytes) : option Z :=
  let '(v, rest) := strtoll s in
  if bool_decide (rest = s) then None else Some (to_i32 v).

Definition pid_file_read (pid_file : option bytes) (fs : gmap bytes bytes) : Z :=
  match pid_file with
  | None | Some [] => -1
  | Some f =>
      match fs !! f with
      | None => -1
      | Some text => default (-1) (scan_d text)
      end
  end.

Lemma scan_pid (pid : Z) : 0 <= pid <= INT_MAX -> scan_d (pid_text pid) = Some pid.
Proof.
  intros Hp. unfold scan_d, pid_text, fmt_d. rewrite (proj2 (Z.ltb_ge pid 0)) by lia.
  pose proof (fmt_u_digits pid ltac:(lia)) as Hd. pose proof (fmt_u_value pid ltac:(lia)) as Hv.
  destruct (fmt_u pid) as [| c ds] eqn:Ef; [by apply fmt_u_nonempty in Ef |].
  change ((c :: ds) ++ [10]) with (c :: ds ++ [10]). rewrite strtoll_digits; [| done | by intros x [= <-]].
  rewrite Hv, bool_decide_false by (intros E; apply (f_equal length) in E; cbn in E; rewrite length_app in E; cbn in E; lia).
  f_equal. unfold clamp_ll, to_i32, INT_MAX, LLONG_MIN, LLONG_MAX in *. rewrite Z.max_r, Z.min_r by lia.
  rewrite Z.mod_small by lia. case_match; bprop; lia.
Qed.

(** The process identifier that a daemon leaves in its file is read back, and is
    gone after the file is removed. *)
Theorem pid_file_roundtrip (name : bytes) (pid : Z) (fs : gmap bytes bytes) :
  name <> [] -> 0 <= pid <= INT_MAX ->
  exists fs', daemonize (Some name) ForkChild true ForkChild pid true fs = (DaemonRuns, fs') /\
    pid_file_read (Some name) fs' = pid /\ pid_file_read (Some name) (pid_file_remove (Some name) fs') = -1 /\
    forall other, other <> name -> fs' !! other = fs !! other.
Proof.
  intros Hn Hp. destruct name as [| x name]; [done |]. eexists. split; [reflexivity |]. cbn.
  rewrite lookup_insert_eq, scan_pid, lookup_delete_eq by done. split_and!; [done | done |]. intros other Ho. by rewrite lookup_insert_ne by congruence.
Qed.

Lemma pid_file_roundtrip_witness :
  exists fs', daemonize (Some (lit "p")) ForkChild true ForkChild 4321 true ∅ = (DaemonRuns, fs') /\ pid_file_read (Some (lit "p")) fs' = 4321.
Proof.
  destruct (pid_file_roundtrip (lit "p") 4321 ∅) as (fs' & H1 & H2 & _); [discriminate | unfold INT_MAX; lia |].
  exists fs'. split; [exact H1 | exact H2].
Defined.

End Daemon.

(** ** The signals of a worker *)

Module Signal.

Definition SIGHUP : Z := 1.
Definition SIGINT : Z := 2.
Definition SIGTERM : Z := 15.

(** [siginfo] is what [read] returned: the number of the signal, if it was a whole
    structure.  The flag [running] afterwards. *)
Definition signal_handler (siginfo : option Z) (running : bool) : bool :=
  match siginfo with
  | None => running
  | Some n => if (n =? SIGTERM) || (n =? SIGINT) then false else running
  end.

(** The answers of [sigprocmask] and [signalfd]; the descriptor is then given to
    the event loop. *)
Definition signal_init (procmask : bool) (sfd : option Z) : np_status_t * option Z :=
  if negb procmask then (NP_ERR, None)
  else match sfd with None => (NP_ERR, None) | Some fd => (NP_OK, Some fd) end.

End Signal.

(** ** The master *)

Module Master.

Import Socket.

Definition MAX_WORKERS : Z := 64.

(** The flags [g_reload] and [g_shutdown] after a signal. *)
Definition master_sighandler (sig : Z) (flags : bool * bool) : bool * bool :=
  let flags := if sig =? Signal.SIGHUP then (true, flags.2) else flags in
  if (sig =? Signal.SIGTERM) || (sig =? Signal.SIGINT) then (flags.1, true) else flags.

(** What the master does to processes and sockets, in order. *)
Inductive proc_call : Type :=
| Fork (id : nat)
| Kill (pid sig : Z)
| WaitPid (pid : Z)
| CloseListener (fd : Z)
| Listen (port : Z).

(** [ms_forks] are the answers of [fork] to come; [None] is a failure, as is the
    end of the list. *)
Record master_t : Type := mk_master {
  ms_pids : list Z;
  ms_count : Z;
  ms_listeners : list np_socket_t;
  ms_forks : list (option Z);
  ms_calls : list proc_call
}.

Definition add_proc (l : list proc_call) (m : master_t) : master_t :=
  mk_master (ms_pids m) (ms_count m) (ms_listeners m) (ms_forks m) (ms_calls m ++ l).
Definition set_pids (l : list Z) (m : master_t) : master_t :=
  mk_master l (ms_count m) (ms_listeners m) (ms_forks m) (ms_calls m).

(** The slots in use. *)
Definition slots (m : master_t) : list Z := take (Z.to_nat (ms_count m)) (ms_pids m).

(** The parent's side: a failure leaves the slot as it is. *)
Definition spawn_worker (id : nat) (m : master_t) : master_t :=
  let m := add_proc [Fork id] m in
  match ms_forks m with
  | [] => m
  | None :: forks => mk_master (ms_pids m) (ms_count m) (ms_listeners m) forks (ms_calls m)
  | Some pid :: forks => mk_master (<[id := pid]> (ms_pids m)) (ms_count m) (ms_listeners m) forks (ms_calls m)
  end.

Fixpoint spawn_workers (n id : nat) (m : master_t) : master_t :=
  match n with
  | O => m
  | S n' => spawn_workers n' (S id) (spawn_worker id m)
  end.

Definition running_pids (m : master_t) : list Z := filter (fun p => 0 < p) (slots m).

Definition kill_workers (sig : Z) (m : master_t) : master_t := add_proc (map (fun p => Kill p sig) (running_pids m)) m.

Definition wait_workers (m : master_t) : master_t :=
  let n := Z.to_nat (ms_count m) in
  set_pids (map (fun p => if 0 <? p then 0 else p) (take n (ms_pids m)) ++ drop n (ms_pids m))
    (add_proc (map WaitPid (running_pids m)) m).

Definition worker_count (processes : Z) : Z := if MAX_WORKERS <? processes then MAX_WORKERS else processes.

(** A child that [waitpid] reports. *)
Definition reap (dead : Z) (shutdown : bool) (m : master_t) : master_t :=
  if 0 <? dead then
    match index_of (Z.eqb dead) (slots m) with
    | Some i => if shutdown then m else spawn_worker i m
    | None => m
    end
  else m.

Section reload.
Context {RX : Regex}.

(** A reload: [file] is what the configuration file holds, [None] when it cannot be
    opened. *)
Definition reload (cfg : np_config_t) (file : option bytes) (ans : list listen_answers) (m : master_t) : np_config_t * master_t :=
  match config_load file with
  | (NP_OK, new_cfg) =>
      let m := wait_workers (kill_workers Signal.SIGTERM m) in
      let m := add_proc (map (fun l => CloseListener (sk_fd l)) (ms_listeners m)) m in
      let bound := reload_bind (listen_addr new_cfg) (backlog new_cfg) (map listen_port (servers new_cfg)) ans [] in
      let m := mk_master (ms_pids m) (worker_count (worker_processes new_cfg)) (bound.*1) (ms_forks m) (ms_calls m ++ map (fun b => Listen b.2) bound) in
      (new_cfg, spawn_workers (Z.to_nat (ms_count m)) 0 m)
  | _ => (cfg, m)
  end.

(** What one turn of the loop meets: the answer of [waitpid], whether a reload was
    asked for, the configuration file, the sockets, and whether a shutdown was asked
    for before the respawn and at the end of the turn. *)
Record turn : Type := mk_turn {
  t_dead : Z;
  t_shutdown : bool;
  t_reload : bool;
  t_file : option bytes;
  t_listen : list listen_answers;
  t_stop : bool
}.

Definition master_turn (t : turn) (s : np_config_t * master_t) : np_config_t * master_t :=
  let '(cfg, m) := s in
  let m := reap (t_dead t) (t_shutdown t) m in
  if t_reload t then reload cfg (t_file t) (t_listen t) m else (cfg, m).

(** The loop, for as many turns as are given. *)
Fixpoint master_loop (turns : list turn) (s : np_config_t * master_t) : np_config_t * master_t :=
  match turns with
  | [] => s
  | t :: turns' => let s := master_turn t s in if t_stop t then s else master_loop turns' s
  end.

Definition master_run (cfg : np_config_t) (listeners : list np_socket_t) (forks : list (option Z)) (turns : list turn) : np_config_t * master_t :=
  let n := worker_count (worker_processes cfg) in
  let m := mk_master (replicate (Z.to_nat MAX_WORKERS) 0) n listeners forks [] in
  let m := spawn_workers (Z.to_nat n) 0 m in
  let '(cfg, m) := master_loop turns (cfg, m) in
  let m := wait_workers (kill_workers Signal.SIGTERM m) in
  (cfg, add_proc (map (fun l => CloseListener (sk_fd l)) (ms_listeners m)) m).

End reload.

(** *** Lemmas *)

Record master_ok (m : master_t) : Prop := {
  mo_length : length (ms_pids m) = Z.to_nat MAX_WORKERS;
  mo_count : ms_count m <= MAX_WORKERS
}.

(** [n] children started in the slots from [id]. *)
Lemma spawn_workers_Some (ps : list Z) (id : nat) (m : master_t) (forks : list (option Z)) :
  ms_forks m = map Some ps ++ forks -> (id + length ps <= length (ms_pids m))%nat ->
  spawn_workers (length ps) id m =
    mk_master (take id (ms_pids m) ++ ps ++ drop (id + length ps) (ms_pids m)) (ms_count m) (ms_listeners m) forks
      (ms_calls m ++ map Fork (seq id (length ps))).
Proof.
  revert id m. induction ps as [| p ps IH]; intros id m Hf Hl.
  - cbn in *. rewrite Nat.add_0_r, take_drop, app_nil_r, <- Hf. by destruct m.
  - cbn [length spawn_workers seq map]. unfold spawn_worker. cbn [add_proc ms_forks]. rewrite Hf. cbn [map app].
    cbn [length] in Hl. rewrite IH; [| done | cbn; rewrite length_insert; lia]. cbn [ms_pids ms_count ms_listeners ms_calls add_proc]. f_equal.
    + rewrite drop_insert_lt by lia. replace (S id + length ps)%nat with (id + S (length ps))%nat by lia.
      rewrite (take_S_r _ _ p) by (rewrite list_lookup_insert_eq; [done | lia]).
      rewrite take_insert_ge by lia. by rewrite <- app_assoc.
    + by rewrite <- app_assoc.
Qed.

Lemma worker_count_le (n : Z) : worker_count n <= MAX_WORKERS.
Proof. unfold worker_count. case_match; bprop; lia. Qed.

Lemma wait_workers_shape (m : master_t) :
  length (ms_pids (wait_workers m)) = length (ms_pids m) /\ ms_count (wait_workers m) = ms_count m /\
  ms_forks (wait_workers m) = ms_forks m /\ ms_listeners (wait_workers m) = ms_listeners m.
Proof. unfold wait_workers. cbn. split_and!; try done. rewrite length_app, length_map, length_take, length_drop. lia. Qed.



(** C33 A worker that died is replaced in its own slot and the others are left
    alone, when [fork] succeeds.  When it fails the slot keeps the number of the
    dead process: no later turn can start that worker again, since [waitpid]
    reports a child once, and at the shutdown the master signals that number,
    which may be another process by then. *)
Theorem reap_respawns (dead : Z) (i : nat) (m : master_t) (forks : list (option Z)) :
  0 < dead -> index_of (Z.eqb dead) (slots m) = Some i -> (i < Z.to_nat (ms_count m))%nat ->
  (forall pid, ms_forks m = Some pid :: forks -> slots (reap dead false m) = <[i := pid]> (slots m)) /\
  (ms_forks m = None :: forks -> slots (reap dead false m) = slots m /\ Kill dead Signal.SIGTERM ∈ ms_calls (kill_workers Signal.SIGTERM (reap dead false m))).
Proof.
  intros Hd Hi Hlt. unfold reap. rewrite (proj2 (Z.ltb_lt 0 dead) Hd), Hi. split.
  - intros pid Hf. unfold spawn_worker. cbn [add_proc ms_forks]. rewrite Hf. unfold slots. cbn [ms_count ms_pids add_proc].
    by rewrite take_insert_lt.
  - intros Hf. unfold spawn_worker. cbn [add_proc ms_forks]. rewrite Hf. split; [done |].
    unfold kill_workers. cbn [add_proc ms_calls]. apply elem_of_app. right. apply list_elem_of_In, in_map_iff. exists dead. split; [done |].
    apply list_elem_of_In, list_elem_of_filter. split; [done |]. change (dead ∈ slots m).
    apply index_of_Some in Hi as (a & x & b & Heq & _ & Hx & _). bprop. subst x. rewrite Heq. set_solver.
Qed.

Lemma reap_respawns_witness :
  slots (reap 7 false (mk_master (6 :: 7 :: replicate 62 0) 2 [] [Some 9] [])) = [6; 9].
Proof.
  rewrite (proj1 (reap_respawns 7 1 (mk_master (6 :: 7 :: replicate 62 0) 2 [] [Some 9] []) [] ltac:(lia) eq_refl ltac:(cbn; lia)) 9 eq_refl). reflexivity.
Defined.

End Master.
