(* ===== verification/Main.v ===== *)
(** * The program: src/main.c

    [main] as a function of its arguments and of what the system answers; the
    result is the exit status, the files and the calls in order. *)

From Stdlib Require Import ZArith Lia String.
From stdpp Require Import base numbers option list gmap.
From S2P Require Import Prelude CLib StringUtil Memory Config Conn Kernel Modules Worker Process.

(** ** Options *)

Inductive opt_t : Type :=
| OptConfig (file : bytes)
| OptTest
| OptWorker
| OptDaemon
| OptVersion
| OptBad.

(** [getopt] on the letters of one argument, with ["c:twdv"]: the options, and
    whether the next argument is the value of the last one. *)
Fixpoint getopt_letters (s : bytes) : list opt_t * bool :=
  match s with
  | [] => ([], false)
  | c :: s' =>
      if c =? 99 then
        match s' with [] => ([], true) | _ => ([OptConfig s'], false) end
      else
        let '(os, want) := getopt_letters s' in
        let o := if c =? 116 then OptTest else if c =? 119 then OptWorker else if c =? 100 then OptDaemon
                 else if c =? 118 then OptVersion else OptBad in
        (o :: os, want)
  end.

(** [getopt] on the arguments: those that are not options are passed over, and the
    options end at [--].  [want] says that a value is due. *)
Fixpoint getopt_args (want : bool) (args : list bytes) : list opt_t :=
  match args with
  | [] => if want then [OptBad] else []
  | a :: args' =>
      if want then OptConfig a :: getopt_args false args'
      else if bool_decide (a = lit "--") then []
      else
        match a with
        | 45 :: ((_ :: _) as s) => let '(os, want) := getopt_letters s in os ++ getopt_args want args'
        | _ => getopt_args false args'
        end
  end.

Example getopt_sample :
  getopt_args false [lit "-tw"; lit "file"; lit "-dca.conf"; lit "-c"; lit "-t"; lit "-x"; lit "-"; lit "--"; lit "-v"] =
    [OptTest; OptWorker; OptDaemon; OptConfig (lit "a.conf"); OptConfig (lit "-t"); OptBad].
Proof. reflexivity. Qed.

Record options_t : Type := mk_options {
  o_config : bytes;
  o_test : bool;
  o_worker : bool;
  o_daemon : bool
}.

Definition options_default : options_t := mk_options (lit "nproxy.conf") false false false.

Inductive main_call : Type :=
| PrintVersion
| PrintUsage
| ConfigError
| LogOpened (g : Log.log_t)
| ModuleError
| ConfigPrinted
| TestSuccessful
| Bound (port : Z)
| BindFailed
| Daemonized
| DaemonFailed
| WorkerRun (started : bool)
| MasterRun (calls : list Master.proc_call)
| PidRemoved
| Unloaded (calls : list dl_call)
| LogClosed (calls : list sys_call).

(** The options in order: the settings, or what is printed and the exit status. *)
Fixpoint main_options (os : list opt_t) (o : options_t) : options_t + main_call * Z :=
  match os with
  | [] => inl o
  | OptConfig f :: os' => main_options os' (mk_options f (o_test o) (o_worker o) (o_daemon o))
  | OptTest :: os' => main_options os' (mk_options (o_config o) true (o_worker o) (o_daemon o))
  | OptWorker :: os' => main_options os' (mk_options (o_config o) (o_test o) true (o_daemon o))
  | OptDaemon :: os' => main_options os' (mk_options (o_config o) (o_test o) (o_worker o) true)
  | OptVersion :: _ => inr (PrintVersion, 0)
  | OptBad :: _ => inr (PrintUsage, 1)
  end.

(** ** The program *)

(** What the system answers: the files, the loader, the log, the sockets, the calls
    of [daemonize]; then the master's children and turns, or the memory, the
    descriptors and the time a worker starts with. *)
Record main_env : Type := mk_main_env {
  me_fs : gmap bytes bytes;
  me_dl : bytes -> dl_answer;
  me_log : option Z;
  me_listen : list Socket.listen_answers;
  me_fork1 : Daemon.fork_answer;
  me_setsid : bool;
  me_fork2 : Daemon.fork_answer;
  me_pid : Z;
  me_opens : bool;
  me_forks : list (option Z);
  me_turns : list Master.turn;
  me_mem : start_mem;
  me_access : option Z;
  me_sigfd : Z;
  me_now : Z
}.

Record main_result : Type := mk_result {
  mr_rc : Z;
  mr_calls : list main_call;
  mr_fs : gmap bytes bytes
}.

Section main.
Context {RX : Regex}.

(** [worker_run] or [master_run]: the exit status and the configuration it leaves. *)
Definition main_serve (o : options_t) (cfg : np_config_t) (listeners : list Socket.np_socket_t) (ms : list loaded_module_t) (e : main_env)
    : Z * np_config_t * main_call :=
  if o_worker o then
    match worker_start cfg (me_mem e) [] ms (me_fs e) (me_access e) (me_sigfd e) (map Socket.sk_fd listeners) (me_now e) (mk_sys [] [] [] []) with
    | None => (1, cfg, WorkerRun false)
    | Some _ => (0, cfg, WorkerRun true)
    end
  else
    let '(cfg', m) := Master.master_run cfg listeners (me_forks e) (me_turns e) in
    (0, cfg', MasterRun (Master.ms_calls m)).

(** From [daemonize] on. *)
Definition main_run (o : options_t) (cfg : np_config_t) (listeners : list Socket.np_socket_t) (ms : list loaded_module_t) (g : Log.log_t) (e : main_env)
    (calls : list main_call) : main_result :=
  let '(d, fs) :=
    if o_daemon o || pr_daemon (process cfg)
    then Daemon.daemonize (Some (pr_pid_file (process cfg))) (me_fork1 e) (me_setsid e) (me_fork2 e) (me_pid e) (me_opens e) (me_fs e)
    else (Daemon.DaemonRuns, me_fs e) in
  match d with
  | Daemon.DaemonError => mk_result 1 (calls ++ [DaemonFailed; LogClosed (Log.log_close g).2]) fs
  | Daemon.DaemonExit => mk_result 0 calls fs
  | Daemon.DaemonRuns =>
      let calls := calls ++ (if o_daemon o || pr_daemon (process cfg) then [Daemonized] else []) in
      let '(rc, cfg', run) := main_serve o cfg listeners ms e in
      let pid := pr_pid_file (process cfg') in
      mk_result rc
        (calls ++ [run] ++ (if bool_decide (pid = []) then [] else [PidRemoved]) ++
           [Unloaded (module_unload_all ms).2; LogClosed (Log.log_close g).2])
        (if bool_decide (pid = []) then fs else Daemon.pid_file_remove (Some pid) fs)
  end.

(** [args] without the name of the program.  The log starts on the standard error
    output, with the level of information. *)
Definition main (args : list bytes) (e : main_env) : cres main_result :=
  match main_options (getopt_args false args) options_default with
  | inr (call, rc) => Ret (mk_result rc [call] (me_fs e))
  | inl o =>
      match config_load (me_fs e !! o_config o) with
      | (NP_OK, cfg) =>
          let g := Log.log_init (Some (lg_error_log (log cfg))) (lg_level (log cfg)) (me_log e) (Log.mk_logger Log.STDERR_FILENO LOG_INFO) in
          r ← module_load_all (me_dl e) cfg;
          let '(rc, ms, _) := r in
          if negb (rc =? 0) then Ret (mk_result 1 [LogOpened g; ModuleError] (me_fs e))
          else if o_test o then
            Ret (mk_result 0 [LogOpened g; ConfigPrinted; TestSuccessful; LogClosed (Log.log_close g).2] (me_fs e))
          else
            match Socket.main_bind (listen_addr cfg) (backlog cfg) (map listen_port (servers cfg)) (me_listen e) [] with
            | None => Ret (mk_result 1 [LogOpened g; ConfigPrinted; BindFailed; LogClosed (Log.log_close g).2] (me_fs e))
            | Some bound => Ret (main_run o cfg (bound.*1) ms g e ([LogOpened g; ConfigPrinted] ++ map (fun b => Bound b.2) bound))
            end
      | _ => Ret (mk_result 1 [ConfigError] (me_fs e))
      end
  end.

End main.

(** ** Properties *)

(** What a test of the configuration must not do. *)
Definition acts (c : main_call) : bool :=
  match c with
  | Bound _ | Daemonized | DaemonFailed | WorkerRun _ | MasterRun _ | PidRemoved => true
  | _ => false
  end.

(** With [-t] and valid options, the program opens no socket, starts no process
    and leaves every file alone, whatever the other options say; and the exit
    status is 0 exactly when the file can be read and every module loads. *)
Theorem main_test_mode {RX : Regex} (args : list bytes) (e : main_env) (o : options_t) (r : main_result) :
  main_options (getopt_args false args) options_default = inl o -> o_test o = true -> main args e = Ret r ->
  mr_fs r = me_fs e /\ Forall (fun c => acts c = false) (mr_calls r) /\
  (mr_rc r = 0 <-> exists cfg ms calls, config_load (me_fs e !! o_config o) = (NP_OK, cfg) /\ module_load_all (me_dl e) cfg = Ret (0, ms, calls)).
Proof.
  intros Ho Ht. unfold main. rewrite Ho. destruct (me_fs e !! o_config o) as [text |]; cbn [config_load].
  - set (cfg := ld_cfg _). destruct (module_load_all (me_dl e) cfg) as [[[rc ms] calls] |] eqn:Hm; [| discriminate]. cbn [mbind cres_mbind].
    destruct (rc =? 0) eqn:E; bprop; cbn [negb].
    + rewrite Ht. intros [= <-]. cbn. split_and!; [done | by repeat constructor |]. split; [| done]. intros _. exists cfg, ms, calls. by rewrite Hm, E.
    + intros [= <-]. cbn. split_and!; [done | by repeat constructor |]. split; [done |]. intros (cfg' & ms' & calls' & [= <-] & Hm'). congruence.
  - intros [= <-]. cbn. split_and!; [done | by repeat constructor |]. split; [done |]. intros (cfg' & ms' & calls' & [=] & _).
Qed.

Definition sample_main : main_env :=
  mk_main_env {[lit "a.conf" := lit "[process]" ++ [10] ++ lit "pid_file = p"; lit "p" := lit "77"]} (fun _ => DlFailed) None
    [Socket.mk_la (Some 3) true true true] Daemon.ForkChild true Daemon.ForkChild 4321 true [Some 10; Some 11] []
    (mk_start true true true (fun _ => true) (fun _ => true) true true) None 4 100.

Lemma main_test_mode_witness :
  exists r, main (RX := literal_regex) [lit "-dtc"; lit "a.conf"] sample_main = Ret r /\ mr_rc r = 0 /\ Forall (fun c => acts c = false) (mr_calls r).
Proof.
  eexists. split; [reflexivity |]. split; [reflexivity |].
  exact (proj1 (proj2 (main_test_mode (RX := literal_regex) [lit "-dtc"; lit "a.conf"] sample_main _ _ eq_refl eq_refl eq_refl))).
Defined.


