(* ===== verification/Tls.v ===== *)
(** * TLS: src/tls/tls_ctx.c and src/tls/tls_conn.c

    The context of a server and the connections made from it, over OpenSSL.  The
    library is a parameter: the class [OpenSSL] has the calls that the code makes,
    over the library's own state, and [OpenSSLOK] what the manual says of them:
    contexts and sessions are counted references, [SSL_read] and [SSL_write] return
    a count within what was asked for, [SSL_get_error] explains a result that is
    not positive.  The constants are those of openssl/ssl.h.

    The theorems follow the objects through any sequence of calls - contexts made
    and destroyed, connections made before and destroyed after - and give the
    results of the operations on a connection. *)

From Stdlib Require Import ZArith Lia String.
From stdpp Require Import base numbers option list gmap fin_map_dom.
From S2P Require Import Prelude CLib Config.

(** ** The library *)

Definition SSL3_VERSION : Z := 0x0300.
Definition TLS1_VERSION : Z := 0x0301.
Definition TLS1_1_VERSION : Z := 0x0302.
Definition TLS1_2_VERSION : Z := 0x0303.
Definition SSL_OP_SINGLE_DH_USE : Z := 0.
Definition SSL_OP_CIPHER_SERVER_PREFERENCE : Z := Z.shiftl 1 22.
Definition SSL_OP_NO_SSLv3 : Z := Z.shiftl 1 25.
Definition SSL_OP_NO_TLSv1 : Z := Z.shiftl 1 26.
Definition SSL_OP_NO_TLSv1_1 : Z := Z.shiftl 1 28.
Definition SSL_SESS_CACHE_SERVER : Z := 2.
Definition SSL_TLSEXT_ERR_OK : Z := 0.
Definition SSL_ERROR_NONE : Z := 0.
Definition SSL_ERROR_WANT_READ : Z := 2.
Definition SSL_ERROR_WANT_WRITE : Z := 3.
Definition SSL_ERROR_ZERO_RETURN : Z := 6.

(** Contexts and sessions are addresses; a null pointer is [None].  A call that
    reads into a buffer gives the bytes it puts there; one that writes gets the
    bytes of the buffer and the count it is told. *)
Class OpenSSL (W : Type) : Type := {
  OPENSSL_init_ssl : W -> W;
  SSL_CTX_new : W -> option Z * W;
  SSL_CTX_set_min_proto_version : Z -> Z -> W -> Z * W;
  SSL_CTX_set_options : Z -> Z -> W -> W;
  SSL_CTX_set_session_cache_mode : Z -> Z -> W -> W;
  SSL_CTX_sess_set_cache_size : Z -> Z -> W -> W;
  SSL_CTX_set_tlsext_servername_callback : Z -> (Z -> Z) -> W -> W;
  SSL_CTX_use_certificate_file : Z -> bytes -> W -> Z * W;
  SSL_CTX_use_PrivateKey_file : Z -> bytes -> W -> Z * W;
  SSL_CTX_check_private_key : Z -> W -> Z;
  SSL_CTX_free : Z -> W -> W;
  SSL_new : Z -> W -> option Z * W;
  SSL_set_fd : Z -> Z -> W -> W;
  SSL_set_accept_state : Z -> W -> W;
  SSL_do_handshake : Z -> W -> Z * W;
  SSL_read : Z -> Z -> W -> Z * bytes * W;
  SSL_write : Z -> bytes -> Z -> W -> Z * W;
  SSL_get_error : Z -> Z -> W -> Z;
  SSL_shutdown : Z -> W -> W;
  SSL_free : Z -> W -> W
}.

(** ** The code *)

Record np_tls_ctx_t : Type := mk_tls_ctx { tc_ctx : option Z }.

(** The session is never null: [tls_conn_create] keeps no structure without one. *)
Record np_tls_conn_t : Type := mk_tls_conn { tc_ssl : Z; tc_handshake_done : bool }.

Section tls.
Context {W : Type} {LIB : OpenSSL W}.

(** The answer to the name a client asks for: always the same certificate. *)
Definition sni_callback (ssl : Z) : Z := SSL_TLSEXT_ERR_OK.

Definition ctx_options : Z :=
  Z.lor (Z.lor (Z.lor (Z.lor SSL_OP_NO_SSLv3 SSL_OP_NO_TLSv1) SSL_OP_NO_TLSv1_1) SSL_OP_SINGLE_DH_USE) SSL_OP_CIPHER_SERVER_PREFERENCE.

(** The settings of a new context; what the calls return is not looked at. *)
Definition ctx_configure (c : Z) (w : W) : W :=
  SSL_CTX_set_tlsext_servername_callback c sni_callback
    (SSL_CTX_sess_set_cache_size c 4096
       (SSL_CTX_set_session_cache_mode c SSL_SESS_CACHE_SERVER
          (SSL_CTX_set_options c ctx_options (SSL_CTX_set_min_proto_version c TLS1_2_VERSION w).2))).

(** The end of every branch that fails after the context was made. *)
Definition ctx_fail (c : Z) (w : W) : np_status_t * np_tls_ctx_t * W := (NP_ERR_TLS, mk_tls_ctx None, SSL_CTX_free c w).

Definition tls_ctx_create {RX : Regex} (cfg : np_server_config_t) (w : W) : np_status_t * np_tls_ctx_t * W :=
  let '(p, w) := SSL_CTX_new (OPENSSL_init_ssl w) in
  match p with
  | None => (NP_ERR_TLS, mk_tls_ctx None, w)
  | Some c =>
      let w := ctx_configure c w in
      let '(r, w) := SSL_CTX_use_certificate_file c (tls_cert_file (tls cfg)) w in
      if r <=? 0 then ctx_fail c w
      else
        let '(r, w) := SSL_CTX_use_PrivateKey_file c (tls_key_file (tls cfg)) w in
        if r <=? 0 then ctx_fail c w
        else if SSL_CTX_check_private_key c w =? 0 then ctx_fail c w
        else (NP_OK, mk_tls_ctx (Some c), w)
  end.

Definition tls_ctx_destroy (tc : np_tls_ctx_t) (w : W) : np_tls_ctx_t * W :=
  match tc_ctx tc with
  | Some c => (mk_tls_ctx None, SSL_CTX_free c w)
  | None => (tc, w)
  end.

Definition tls_ctx_get (tc : np_tls_ctx_t) : option Z := tc_ctx tc.

(** The memory of the connections' structures; [mem] is the answer of [malloc]. *)
Definition tls_conn_create (mem : option Z) (ctx fd : Z) (m : gmap Z np_tls_conn_t) (w : W) : option Z * gmap Z np_tls_conn_t * W :=
  match mem with
  | None => (None, m, w)
  | Some a =>
      let '(p, w) := SSL_new ctx w in
      match p with
      | None => (None, m, w)
      | Some s => (Some a, <[a := mk_tls_conn s false]> m, SSL_set_accept_state s (SSL_set_fd s fd w))
      end
  end.

(** [None] is a null pointer; a structure that was freed is undefined. *)
Definition tls_conn_destroy (tc : option Z) (m : gmap Z np_tls_conn_t) (w : W) : cres (gmap Z np_tls_conn_t * W) :=
  match tc with
  | None => Ret (m, w)
  | Some a =>
      match m !! a with
      | None => Stuck
      | Some c => Ret (delete a m, SSL_free (tc_ssl c) (SSL_shutdown (tc_ssl c) w))
      end
  end.

Definition wants (err : Z) : bool := (err =? SSL_ERROR_WANT_READ) || (err =? SSL_ERROR_WANT_WRITE).

Definition tls_conn_handshake (c : np_tls_conn_t) (w : W) : np_status_t * np_tls_conn_t * W :=
  if tc_handshake_done c then (NP_OK, c, w)
  else
    let '(rc, w) := SSL_do_handshake (tc_ssl c) w in
    if rc =? 1 then (NP_OK, mk_tls_conn (tc_ssl c) true, w)
    else if wants (SSL_get_error (tc_ssl c) rc w) then (NP_ERR_AGAIN, c, w)
    else (NP_ERR_TLS, c, w).

(** The count or the code, and the bytes put into the buffer. *)
Definition tls_conn_read (c : np_tls_conn_t) (len : Z) (w : W) : Z * bytes * W :=
  let '(n, bs, w) := SSL_read (tc_ssl c) (to_i32 len) w in
  if 0 <? n then (n, bs, w)
  else
    let err := SSL_get_error (tc_ssl c) n w in
    if wants err then (np_status_code NP_ERR_AGAIN, bs, w)
    else if err =? SSL_ERROR_ZERO_RETURN then (np_status_code NP_ERR_CLOSED, bs, w)
    else (np_status_code NP_ERR, bs, w).

(** [buf] are the [len] bytes at the pointer. *)
Definition tls_conn_write (c : np_tls_conn_t) (buf : bytes) (w : W) : Z * W :=
  let '(n, w) := SSL_write (tc_ssl c) buf (to_i32 (zlen buf)) w in
  if 0 <? n then (n, w)
  else if wants (SSL_get_error (tc_ssl c) n w) then (np_status_code NP_ERR_AGAIN, w)
  else (np_status_code NP_ERR, w).

End tls.

(** ** What the manual says *)

(** A context: how many hold it, the oldest protocol that is set for it, and its
    option bits. *)
Record ctx_obj : Type := mk_ctx { ctx_refs : nat; ctx_min_version : Z; ctx_opts : Z }.

(** Whether a context accepts a protocol: it is not older than the oldest set, and
    there is no option against it. *)
Definition no_option (v : Z) : Z :=
  if v =? SSL3_VERSION then SSL_OP_NO_SSLv3 else if v =? TLS1_VERSION then SSL_OP_NO_TLSv1
  else if v =? TLS1_1_VERSION then SSL_OP_NO_TLSv1_1 else 0.

Definition accepts (o : ctx_obj) (v : Z) : bool := (ctx_min_version o <=? v) && (Z.land (ctx_opts o) (no_option v) =? 0).

(** One reference less. *)
Definition release (x : Z) (m : gmap Z ctx_obj) : gmap Z ctx_obj :=
  match m !! x with
  | Some o => if decide (ctx_refs o = 1%nat) then delete x m else <[x := mk_ctx (ctx_refs o - 1) (ctx_min_version o) (ctx_opts o)]> m
  | None => m
  end.

(** [contexts] and [sessions] are the objects that are allocated, a session with
    the context it holds. *)
Class OpenSSLOK (W : Type) (LIB : OpenSSL W) : Type := {
  contexts : W -> gmap Z ctx_obj;
  sessions : W -> gmap Z Z;
  same_objects (w w' : W) : Prop := contexts w' = contexts w /\ sessions w' = sessions w;
  init_objects : forall w, same_objects w (OPENSSL_init_ssl w);
  ctx_new : forall w, match SSL_CTX_new w with
    | (None, w') => same_objects w w'
    | (Some c, w') => contexts w !! c = None /\ sessions w' = sessions w /\ exists v opts, contexts w' = <[c := mk_ctx 1 v opts]> (contexts w)
    end;
  ctx_set_min : forall c v o w, contexts w !! c = Some o ->
    let '(r, w') := SSL_CTX_set_min_proto_version c v w in
    if r =? 1 then contexts w' = <[c := mk_ctx (ctx_refs o) v (ctx_opts o)]> (contexts w) /\ sessions w' = sessions w
    else same_objects w w';
  ctx_set_options : forall c v o w, contexts w !! c = Some o ->
    contexts (SSL_CTX_set_options c v w) = <[c := mk_ctx (ctx_refs o) (ctx_min_version o) (Z.lor (ctx_opts o) v)]> (contexts w) /\
    sessions (SSL_CTX_set_options c v w) = sessions w;
  ctx_set_mode : forall c v w, same_objects w (SSL_CTX_set_session_cache_mode c v w);
  ctx_set_size : forall c v w, same_objects w (SSL_CTX_sess_set_cache_size c v w);
  ctx_set_sni : forall c f w, same_objects w (SSL_CTX_set_tlsext_servername_callback c f w);
  ctx_certificate : forall c f w, same_objects w (SSL_CTX_use_certificate_file c f w).2;
  ctx_key : forall c f w, same_objects w (SSL_CTX_use_PrivateKey_file c f w).2;
  ctx_free : forall c w, is_Some (contexts w !! c) ->
    contexts (SSL_CTX_free c w) = release c (contexts w) /\ sessions (SSL_CTX_free c w) = sessions w;
  ssl_new : forall c o w, contexts w !! c = Some o -> match SSL_new c w with
    | (None, w') => same_objects w w'
    | (Some s, w') => sessions w !! s = None /\ sessions w' = <[s := c]> (sessions w) /\
        contexts w' = <[c := mk_ctx (S (ctx_refs o)) (ctx_min_version o) (ctx_opts o)]> (contexts w)
    end;
  ssl_set_fd : forall s fd w, same_objects w (SSL_set_fd s fd w);
  ssl_set_accept : forall s w, same_objects w (SSL_set_accept_state s w);
  ssl_handshake : forall s w, same_objects w (SSL_do_handshake s w).2;
  ssl_read : forall s n w, same_objects w (SSL_read s n w).2 /\
    (0 < (SSL_read s n w).1.1 -> (SSL_read s n w).1.1 <= n /\ zlen (SSL_read s n w).1.2 = (SSL_read s n w).1.1);
  ssl_write : forall s b n w, same_objects w (SSL_write s b n w).2 /\ (0 < (SSL_write s b n w).1 -> (SSL_write s b n w).1 <= n);
  ssl_shutdown : forall s w, same_objects w (SSL_shutdown s w);
  ssl_free : forall s c w, sessions w !! s = Some c ->
    sessions (SSL_free s w) = delete s (sessions w) /\ contexts (SSL_free s w) = release c (contexts w)
}.

(** ** Histories of calls *)

Section histories.
Context {W : Type} {LIB : OpenSSL W} {OK : OpenSSLOK W LIB} {RX : Regex} (cfg : np_server_config_t).

#[local] Instance same_objects_preorder : PreOrder same_objects.
Proof. split; [by intros w | intros w1 w2 w3 [] []; split; congruence]. Qed.

(** The calls of a server: a context when there is none, connections from it,
    operations on the connections that exist, in any order. *)
Inductive tls_step : np_tls_ctx_t * gmap Z np_tls_conn_t * W -> np_tls_ctx_t * gmap Z np_tls_conn_t * W -> Prop :=
| step_create tc m w r tc' w' : tc_ctx tc = None -> tls_ctx_create cfg w = (r, tc', w') -> tls_step (tc, m, w) (tc', m, w')
| step_destroy tc m w tc' w' : tls_ctx_destroy tc w = (tc', w') -> tls_step (tc, m, w) (tc', m, w')
| step_conn tc m w mem c fd r m' w' : tls_ctx_get tc = Some c -> (forall a, mem = Some a -> m !! a = None) ->
    tls_conn_create mem c fd m w = (r, m', w') -> tls_step (tc, m, w) (tc, m', w')
| step_close tc m w a m' w' : tls_conn_destroy a m w = Ret (m', w') -> tls_step (tc, m, w) (tc, m', w')
| step_handshake tc m w a c r c' w' : m !! a = Some c -> tls_conn_handshake c w = (r, c', w') -> tls_step (tc, m, w) (tc, <[a := c']> m, w')
| step_tls_read tc m w a c len r bs w' : m !! a = Some c -> tls_conn_read c len w = (r, bs, w') -> tls_step (tc, m, w) (tc, m, w')
| step_tls_write tc m w a c buf r w' : m !! a = Some c -> tls_conn_write c buf w = (r, w') -> tls_step (tc, m, w) (tc, m, w').

(** The references to a context: the server's own and those of the sessions. *)
Definition own (tc : np_tls_ctx_t) (x : Z) : nat := if decide (tc_ctx tc = Some x) then 1 else 0.
Definition users (m : gmap Z Z) (x : Z) : nat := size (filter (fun p => p.2 = x) m).
Definition refs_of (m : gmap Z ctx_obj) (x : Z) : nat := match m !! x with Some o => ctx_refs o | None => 0 end.

(** [SSL_CTX_set_min_proto_version] never fails. *)
Definition min_version_set : Prop := forall c v w, (SSL_CTX_set_min_proto_version c v w).1 = 1.

(** No protocol older than TLS 1.2 is accepted; and the oldest is set, if the call
    that sets it, whose result is ignored, succeeds. *)
Definition context_ok (o : ctx_obj) : Prop :=
  (forall v, SSL3_VERSION <= v < TLS1_2_VERSION -> accepts o v = false) /\ (min_version_set -> ctx_min_version o = TLS1_2_VERSION).

Lemma context_ok_eq (o o' : ctx_obj) :
  ctx_min_version o = ctx_min_version o' -> ctx_opts o = ctx_opts o' -> context_ok o' -> context_ok o.
Proof. intros E1 E2. unfold context_ok, accepts. by rewrite E1, E2. Qed.

(** The options alone exclude them. *)
Lemma options_refuse (refs : nat) (min opts v : Z) :
  SSL3_VERSION <= v < TLS1_2_VERSION -> accepts (mk_ctx refs min (Z.lor opts ctx_options)) v = false.
Proof.
  unfold SSL3_VERSION, TLS1_2_VERSION. intros Hv. unfold accepts. cbn [ctx_opts]. apply andb_false_iff. right. apply Z.eqb_neq.
  assert (v = 0x300 \/ v = 0x301 \/ v = 0x302) as Hcases by lia.
  assert (forall b, 0 <= b -> Z.testbit ctx_options b = true -> Z.land (Z.lor opts ctx_options) (Z.shiftl 1 b) <> 0) as Hbit.
  { intros b Hb Ht E. apply (f_equal (fun z => Z.testbit z b)) in E.
    rewrite Z.land_spec, Z.lor_spec, Ht, orb_true_r, Z.shiftl_spec, Z.sub_diag, Z.bits_0 in E by lia. discriminate. }
  destruct Hcases as [-> | [-> | ->]]; [apply (Hbit 25) | apply (Hbit 26) | apply (Hbit 28)]; (lia || reflexivity).
Qed.

(** The objects are those that something holds, counted right, and no context
    accepts a protocol older than TLS 1.2. *)
Record objects_ok (tc : np_tls_ctx_t) (cs : gmap Z ctx_obj) (ss : gmap Z Z) : Prop := {
  ob_refs : forall x, refs_of cs x = (own tc x + users ss x)%nat;
  ob_positive : forall x o, cs !! x = Some o -> ctx_refs o <> 0%nat;
  ob_version : forall x o, cs !! x = Some o -> context_ok o
}.

(** The connections are the sessions, one each. *)
Record conns_match (m : gmap Z np_tls_conn_t) (ss : gmap Z Z) : Prop := {
  cm_live : forall a c, m !! a = Some c -> is_Some (ss !! tc_ssl c);
  cm_apart : forall a b c d, m !! a = Some c -> m !! b = Some d -> tc_ssl c = tc_ssl d -> a = b;
  cm_all : forall s x, ss !! s = Some x -> exists a c, m !! a = Some c /\ tc_ssl c = s
}.

Definition tls_inv (st : np_tls_ctx_t * gmap Z np_tls_conn_t * W) : Prop :=
  objects_ok st.1.1 (contexts st.2) (sessions st.2) /\ conns_match st.1.2 (sessions st.2).

Lemma users_insert (m : gmap Z Z) (s c x : Z) : m !! s = None -> users (<[s := c]> m) x = (users m x + if decide (x = c) then 1 else 0)%nat.
Proof.
  intros Hs. unfold users. case_decide as E.
  - subst x. rewrite map_filter_insert_True by done. rewrite map_size_insert_None; [lia |]. rewrite map_lookup_filter_None. by left.
  - rewrite map_filter_insert_False by (cbn; congruence). rewrite delete_id by done. lia.
Qed.

Lemma users_delete (m : gmap Z Z) (s c x : Z) : m !! s = Some c -> users m x = (users (delete s m) x + if decide (x = c) then 1 else 0)%nat.
Proof. intros Hs. rewrite <- (users_insert (delete s m) s c x) by apply lookup_delete_eq. by rewrite insert_delete_id. Qed.

Lemma refs_release (cs : gmap Z ctx_obj) (c x : Z) (o : ctx_obj) :
  cs !! c = Some o -> ctx_refs o <> 0%nat -> refs_of cs x = (refs_of (release c cs) x + if decide (x = c) then 1 else 0)%nat.
Proof.
  intros Hc Hn. unfold release. rewrite Hc. unfold refs_of. case_decide; case_decide as E.
  - subst x. rewrite Hc, lookup_delete_eq. lia.
  - rewrite lookup_delete_ne by done. lia.
  - subst x. rewrite Hc, lookup_insert_eq. cbn. lia.
  - rewrite lookup_insert_ne by done. lia.
Qed.

Lemma release_lookup (cs : gmap Z ctx_obj) (c x : Z) (o : ctx_obj) :
  release c cs !! x = Some o -> exists o', cs !! x = Some o' /\ (context_ok o' -> context_ok o) /\ (ctx_refs o' <> 0%nat -> ctx_refs o <> 0%nat).
Proof.
  unfold release. destruct (cs !! c) as [p |] eqn:Hc; [| by eauto]. case_decide.
  - intros [_ Hx]%lookup_delete_Some. eauto.
  - intros [[<- <-] | [_ Hx]]%lookup_insert_Some; [exists p; split_and!; [done.. | cbn; lia] | eauto].
Qed.

(** A reference is given up, by the server or by a session. *)
Lemma objects_release (tc tc' : np_tls_ctx_t) (cs : gmap Z ctx_obj) (ss ss' : gmap Z Z) (c : Z) :
  objects_ok tc cs ss -> is_Some (cs !! c) ->
  (forall x, (own tc x + users ss x = own tc' x + users ss' x + if decide (x = c) then 1 else 0)%nat) -> objects_ok tc' (release c cs) ss'.
Proof.
  intros [H1 H2 H3] [o Ho] Hx. constructor.
  - intros x. pose proof (refs_release cs c x o Ho (H2 c o Ho)) as E. rewrite H1, Hx in E. case_decide; lia.
  - intros x p (q & Hq & _ & Hn)%release_lookup. by apply Hn, (H2 x).
  - intros x p (q & Hq & Hok & _)%release_lookup. by apply Hok, (H3 x).
Qed.

(** A context that something holds is allocated. *)
Lemma objects_live (tc : np_tls_ctx_t) (cs : gmap Z ctx_obj) (ss : gmap Z Z) (c : Z) :
  objects_ok tc cs ss -> (own tc c + users ss c <> 0)%nat -> is_Some (cs !! c).
Proof. intros [H1 _ _] Hn. specialize (H1 c). unfold refs_of in H1. destruct (cs !! c); [eauto | lia]. Qed.

Lemma users_live (ss : gmap Z Z) (s c : Z) : ss !! s = Some c -> users ss c <> 0%nat.
Proof. intros Hs. rewrite (users_delete ss s c c Hs), decide_True by done. lia. Qed.

(** The server's own context. *)
Lemma own_some (c x : Z) : own (mk_tls_ctx (Some c)) x = if decide (x = c) then 1%nat else 0%nat.
Proof. unfold own. cbn. repeat case_decide; congruence. Qed.

Lemma own_none (x : Z) : own (mk_tls_ctx None) x = 0%nat.
Proof. done. Qed.

Lemma configure_objects (c : Z) (o : ctx_obj) (w : W) :
  contexts w !! c = Some o ->
  exists o', contexts (ctx_configure c w) = <[c := o']> (contexts w) /\ sessions (ctx_configure c w) = sessions w /\
    ctx_refs o' = ctx_refs o /\ context_ok o'.
Proof.
  intros Ho. pose proof (ctx_set_min c TLS1_2_VERSION o w Ho) as Hmin. destruct (SSL_CTX_set_min_proto_version c TLS1_2_VERSION w) as [r w1] eqn:Em.
  assert (exists v, contexts w1 = <[c := mk_ctx (ctx_refs o) v (ctx_opts o)]> (contexts w) /\ sessions w1 = sessions w /\ (r = 1 -> v = TLS1_2_VERSION)) as (v & E1 & E2 & Hv).
  { destruct (Z.eqb_spec r 1) as [-> | Hr]; [exists TLS1_2_VERSION; by destruct Hmin |]. exists (ctx_min_version o). destruct Hmin as [-> ->].
    split; [symmetry; apply insert_id; by destruct o |]. by split. }
  destruct (ctx_set_options c ctx_options (mk_ctx (ctx_refs o) v (ctx_opts o)) w1) as [F1 F2]; [by rewrite E1, lookup_insert_eq |]. cbn [ctx_refs ctx_min_version ctx_opts] in F1.
  assert (same_objects (SSL_CTX_set_options c ctx_options w1) (ctx_configure c w)) as [G1 G2].
  { unfold ctx_configure. rewrite Em. cbn [snd]. etransitivity; [| apply ctx_set_sni]. etransitivity; [| apply ctx_set_size]. apply ctx_set_mode. }
  eexists. rewrite G1, G2, F1, F2, E1, E2, insert_insert_eq. split; [done |]. split; [done |]. split; [done |]. split; [apply options_refuse |].
  intros Hset. cbn. apply Hv. specialize (Hset c TLS1_2_VERSION w). by rewrite Em in Hset.
Qed.

(** What making a context does: nothing, or a context that the server holds. *)
Lemma create_objects (w w' : W) (r : np_status_t) (tc tc' : np_tls_ctx_t) :
  tls_ctx_create cfg w = (r, tc', w') -> tc_ctx tc = None -> objects_ok tc (contexts w) (sessions w) ->
  objects_ok tc' (contexts w') (sessions w') /\ sessions w' = sessions w /\ (r = NP_OK <-> is_Some (tc_ctx tc')) /\ (r = NP_OK \/ r = NP_ERR_TLS).
Proof.
  unfold tls_ctx_create. intros H Hn Hob. pose proof (init_objects w) as [I1 I2].
  assert (forall x, own tc x = 0%nat) as Hown by (intros x; unfold own; by rewrite Hn).
  assert (objects_ok (mk_tls_ctx None) (contexts w) (sessions w)) as Hnone.
  { destruct Hob as [H1 H2 H3]. constructor; [| done..]. intros x. rewrite H1, Hown. done. }
  pose proof (ctx_new (OPENSSL_init_ssl w)) as Hnew. destruct (SSL_CTX_new (OPENSSL_init_ssl w)) as [[c |] w1].
  2: { destruct Hnew as [E1 E2]. injection H as <- <- <-. rewrite E1, E2, I1, I2. split; [done |]. split; [done |]. split; [| by right]. split; [done | by intros []]. }
  destruct Hnew as (Hc & Hs & v & opts & Hcs). rewrite I1, I2 in *. destruct (configure_objects c (mk_ctx 1 v opts) w1) as (o' & C1 & C2 & Hrefs & Hcok); [by rewrite Hcs, lookup_insert_eq |]. cbn [ctx_refs] in Hrefs.
  rewrite Hcs, insert_insert_eq in C1. rewrite Hs in C2. set (w2 := ctx_configure c w1) in *.
  assert (objects_ok (mk_tls_ctx (Some c)) (contexts w2) (sessions w2)) as Hob2.
  { destruct Hob as [H1 H2 H3]. rewrite C1, C2. constructor.
    - intros x. rewrite own_some. unfold refs_of. case_decide as E.
      + subst x. rewrite lookup_insert_eq, Hrefs. specialize (H1 c). unfold refs_of in H1. rewrite Hc, Hown in H1. lia.
      + rewrite lookup_insert_ne by done. fold (refs_of (contexts w) x). rewrite H1, Hown. lia.
    - intros x o [[<- <-] | [_ Ho]]%lookup_insert_Some; [by rewrite Hrefs | by apply (H2 x)].
    - intros x o [[<- <-] | [_ Ho]]%lookup_insert_Some; [done | by apply (H3 x)]. }
  assert (forall w3, same_objects w2 w3 -> objects_ok (mk_tls_ctx None) (contexts (SSL_CTX_free c w3)) (sessions (SSL_CTX_free c w3)) /\
    sessions (SSL_CTX_free c w3) = sessions w) as Hfail.
  { intros w3 [E1 E2]. destruct (ctx_free c w3) as [F1 F2]; [rewrite E1, C1, lookup_insert_eq; eauto |].
    rewrite F1, F2, E1, E2. split; [| by rewrite C2]. eapply objects_release; [exact Hob2 | rewrite C1, lookup_insert_eq; eauto |].
    intros x. rewrite own_some, own_none. case_decide; lia. }
  assert (forall w3 r0 t0, same_objects w2 w3 -> ctx_fail c w3 = (r0, t0, w') -> objects_ok t0 (contexts w') (sessions w') /\ sessions w' = sessions w /\
    (r0 = NP_OK <-> is_Some (tc_ctx t0)) /\ (r0 = NP_OK \/ r0 = NP_ERR_TLS)) as Hend.
  { intros w3 r0 t0 E F. injection F as <- <- <-. destruct (Hfail w3 E) as [G1 G2]. split; [done |]. split; [done |]. split; [| by right]. split; [done | by intros []]. }
  pose proof (ctx_certificate c (tls_cert_file (tls cfg)) w2) as K1. destruct (SSL_CTX_use_certificate_file _ _ _) as [r1 w3].
  case_match; [by eapply Hend |]. pose proof (ctx_key c (tls_key_file (tls cfg)) w3) as K2. destruct (SSL_CTX_use_PrivateKey_file _ _ _) as [r2 w4].
  assert (same_objects w2 w4) as K3 by (by transitivity w3). case_match; [by eapply Hend |]. case_match; [by eapply Hend |].
  injection H as <- <- <-. destruct K3 as [E1 E2]. rewrite E1, E2. split; [done |]. split; [done |]. split; [cbn; split; eauto | by left].
Qed.

Lemma tls_inv_same (tc : np_tls_ctx_t) (m : gmap Z np_tls_conn_t) (w w' : W) : same_objects w w' -> tls_inv (tc, m, w) -> tls_inv (tc, m, w').
Proof. intros [E1 E2] [H1 H2]. unfold tls_inv in *. cbn in *. by rewrite E1, E2. Qed.

(** A connection is made. *)
Lemma conn_inv (tc : np_tls_ctx_t) (m m' : gmap Z np_tls_conn_t) (w w' : W) (mem r : option Z) (c fd : Z) :
  tls_inv (tc, m, w) -> tc_ctx tc = Some c -> (forall a, mem = Some a -> m !! a = None) -> tls_conn_create mem c fd m w = (r, m', w') -> tls_inv (tc, m', w').
Proof.
  intros Hinv Htc Hfresh H. pose proof Hinv as [Hob [M1 M2 M3]]. cbn in Hob, M1, M2, M3. unfold tls_conn_create in H.
  destruct mem as [a |]; [| by injection H as <- <- <-]. specialize (Hfresh a eq_refl).
  assert (own tc c = 1%nat) as Hown by (unfold own; by rewrite Htc, decide_True).
  destruct (objects_live tc _ _ c Hob ltac:(lia)) as [o Ho].
  pose proof (ssl_new c o w Ho) as Hn. destruct (SSL_new c w) as [[s |] w1]; [| injection H as <- <- <-; by apply (tls_inv_same tc m w)].
  destruct Hn as (Hs & Hss & Hcs). injection H as <- <- <-.
  eapply (tls_inv_same _ _ _ _ (ssl_set_accept _ _)), (tls_inv_same _ _ _ _ (ssl_set_fd _ _ _)).
  split; cbn; rewrite Hss; [rewrite Hcs; destruct Hob as [H1 H2 H3]; constructor |].
  - intros x. rewrite users_insert by done. unfold refs_of. case_decide as E.
    + subst x. rewrite lookup_insert_eq. cbn. specialize (H1 c). unfold refs_of in H1. rewrite Ho in H1. lia.
    + rewrite lookup_insert_ne by done. fold (refs_of (contexts w) x). rewrite H1. lia.
  - intros x p [[<- <-] | [_ Hp]]%lookup_insert_Some; [done | by apply (H2 x)].
  - intros x p [[<- <-] | [_ Hp]]%lookup_insert_Some; [by apply (context_ok_eq _ o), (H3 c o Ho) | by apply (H3 x)].
  - assert (forall b d, m !! b = Some d -> tc_ssl d <> s) as Hne by (intros b d Hb E; destruct (M1 b d Hb) as [y Hy]; congruence).
    constructor.
    + intros b d [[<- <-] | [_ Hb]]%lookup_insert_Some; [cbn; rewrite lookup_insert_eq; eauto |].
      rewrite lookup_insert_ne by (symmetry; by eapply Hne). by eapply M1.
    + intros b1 b2 d1 d2 [[<- <-] | [_ B1]]%lookup_insert_Some [[<- <-] | [_ B2]]%lookup_insert_Some E; cbn in E; [done | | | by eapply M2].
      * by destruct (Hne b2 d2 B2).
      * by destruct (Hne b1 d1 B1).
    + intros s' x [[<- <-] | [_ Hx]]%lookup_insert_Some; [by exists a, (mk_tls_conn s false); rewrite lookup_insert_eq |].
      destruct (M3 s' x Hx) as (b & d & Hb & Hd). exists b, d. split; [| done]. rewrite lookup_insert_ne by congruence. done.
Qed.

(** A connection is destroyed. *)
Lemma close_inv (tc : np_tls_ctx_t) (m m' : gmap Z np_tls_conn_t) (w w' : W) (p : option Z) :
  tls_inv (tc, m, w) -> tls_conn_destroy p m w = Ret (m', w') -> tls_inv (tc, m', w').
Proof.
  intros Hinv H. destruct p as [a |]; [| by injection H as <- <-]. cbn in H. destruct (m !! a) as [c |] eqn:Ha; [| discriminate]. injection H as <- <-.
  eapply (tls_inv_same tc m w _ (ssl_shutdown (tc_ssl c) w)) in Hinv as [Hob [M1 M2 M3]]. set (w1 := SSL_shutdown (tc_ssl c) w) in *. cbn in Hob, M1, M2, M3.
  destruct (M1 a c Ha) as [x Hx]. destruct (ssl_free (tc_ssl c) x w1 Hx) as [F1 F2]. split; cbn; rewrite F1; [rewrite F2 |].
  - eapply objects_release; [exact Hob | apply (objects_live _ _ _ x Hob); pose proof (users_live _ _ _ Hx); lia |].
    intros y. rewrite (users_delete _ _ _ y Hx). lia.
  - constructor.
    + intros b d [Hne Hb]%lookup_delete_Some. rewrite lookup_delete_ne; [by eapply M1 |]. intros E. apply Hne. by apply (M2 a b c d).
    + intros b1 b2 d1 d2 [_ B1]%lookup_delete_Some [_ B2]%lookup_delete_Some. by apply M2.
    + intros s y [Hne Hy]%lookup_delete_Some. destruct (M3 s y Hy) as (b & d & Hb & <-). exists b, d. split; [| done].
      rewrite lookup_delete_ne; [done |]. intros ->. congruence.
Qed.

(** An operation keeps the session of its connection. *)
Lemma update_inv (tc : np_tls_ctx_t) (m : gmap Z np_tls_conn_t) (w : W) (a : Z) (c c' : np_tls_conn_t) :
  m !! a = Some c -> tc_ssl c' = tc_ssl c -> tls_inv (tc, m, w) -> tls_inv (tc, <[a := c']> m, w).
Proof.
  intros Ha Hs [Hob [M1 M2 M3]]. split; [done |]. cbn in *.
  assert (forall b d, <[a := c']> m !! b = Some d -> exists d', m !! b = Some d' /\ tc_ssl d = tc_ssl d') as Hl.
  { intros b d [[<- <-] | [_ Hb]]%lookup_insert_Some; eauto. }
  constructor.
  - intros b d (d' & Hb & ->)%Hl. by eapply M1.
  - intros b1 b2 d1 d2 (e1 & B1 & ->)%Hl (e2 & B2 & ->)%Hl. by apply M2.
  - intros s x Hx. destruct (M3 s x Hx) as (b & d & Hb & Hd). destruct (decide (b = a)) as [-> | Hne].
    + exists a, c'. rewrite lookup_insert_eq. split; [done | congruence].
    + exists b, d. by rewrite lookup_insert_ne.
Qed.

Lemma handshake_frame (c c' : np_tls_conn_t) (w w' : W) (r : np_status_t) :
  tls_conn_handshake c w = (r, c', w') -> same_objects w w' /\ tc_ssl c' = tc_ssl c.
Proof.
  unfold tls_conn_handshake. pose proof (ssl_handshake (tc_ssl c) w) as Hs. destruct (SSL_do_handshake _ _) as [rc w1].
  intros H. repeat case_match; injection H as <- <- <-; done.
Qed.

Lemma read_frame (c : np_tls_conn_t) (len n : Z) (bs : bytes) (w w' : W) : tls_conn_read c len w = (n, bs, w') -> same_objects w w'.
Proof.
  unfold tls_conn_read. pose proof (ssl_read (tc_ssl c) (to_i32 len) w) as [Hs _]. destruct (SSL_read _ _ _) as [[n1 b1] w1].
  intros H. repeat case_match; injection H as <- <- <-; done.
Qed.

Lemma write_frame (c : np_tls_conn_t) (buf : bytes) (n : Z) (w w' : W) : tls_conn_write c buf w = (n, w') -> same_objects w w'.
Proof.
  unfold tls_conn_write. pose proof (ssl_write (tc_ssl c) buf (to_i32 (zlen buf)) w) as [Hs _]. destruct (SSL_write _ _ _ _) as [n1 w1].
  intros H. repeat case_match; injection H as <- <-; done.
Qed.

Lemma tls_step_inv (st st' : np_tls_ctx_t * gmap Z np_tls_conn_t * W) : tls_step st st' -> tls_inv st -> tls_inv st'.
Proof.
  intros Hstep Hinv. destruct Hstep as [tc m w r tc' w' Hn H | tc m w tc' w' H | tc m w mem c fd r m' w' Hc Hf H | tc m w a m' w' H | tc m w a c r c' w' Ha H
    | tc m w a c len r bs w' Ha H | tc m w a c buf r w' Ha H].
  - destruct Hinv as [Hob Hm]. destruct (create_objects _ _ _ tc _ H Hn Hob) as (Hob' & Hs & _). split; [done |]. cbn in *. by rewrite Hs.
  - unfold tls_ctx_destroy in H. destruct (tc_ctx tc) as [c |] eqn:Hc; injection H as <- <-; [| done]. destruct Hinv as [Hob Hm]. cbn in Hob, Hm.
    assert (forall x, own tc x = if decide (x = c) then 1%nat else 0%nat) as Hown by (intros x; rewrite <- own_some; unfold own; by rewrite Hc).
    assert (is_Some (contexts w !! c)) as Hl by (apply (objects_live _ _ _ c Hob); rewrite Hown, decide_True by done; lia).
    destruct (ctx_free c w Hl) as [F1 F2]. split; cbn; rewrite F2; [rewrite F1 | done]. eapply objects_release; [exact Hob | exact Hl |].
    intros x. rewrite Hown, own_none. case_decide; lia.
  - by eapply conn_inv.
  - by eapply close_inv.
  - apply handshake_frame in H as [Hs Hc]. eapply tls_inv_same; [exact Hs |]. by eapply update_inv.
  - apply read_frame in H. by eapply tls_inv_same.
  - apply write_frame in H. by eapply tls_inv_same.
Qed.

(** C30 The TLS objects are neither leaked nor used after they are freed, whatever
    the library answers: through any sequence of calls - contexts made, refused or
    destroyed, connections made, used and destroyed, also after their context - the
    context that the server holds and the sessions of the connections are
    allocated, no two connections share a session, and every context accepts
    nothing older than TLS 1.2, also when the call that sets the oldest protocol,
    whose result is ignored, fails: the options exclude the older ones; when the server holds no context and no connection
    is left, the library has nothing allocated. *)
Theorem tls_no_leak (w0 w : W) (tc : np_tls_ctx_t) (m : gmap Z np_tls_conn_t) :
  contexts w0 = ∅ -> sessions w0 = ∅ -> rtc tls_step (mk_tls_ctx None, ∅, w0) (tc, m, w) ->
  (forall c, tc_ctx tc = Some c -> exists o, contexts w !! c = Some o /\ context_ok o) /\
  (forall a c, m !! a = Some c -> exists x o, sessions w !! tc_ssl c = Some x /\ contexts w !! x = Some o /\ context_ok o) /\
  (forall a b c d, m !! a = Some c -> m !! b = Some d -> tc_ssl c = tc_ssl d -> a = b) /\
  (tc_ctx tc = None -> m = ∅ -> contexts w = ∅ /\ sessions w = ∅).
Proof.
  intros Hc Hs Hr. assert (tls_inv (mk_tls_ctx None, ∅, w0)) as H0.
  { split; cbn; rewrite Hs; [rewrite Hc |]; constructor; try done. }
  assert (tls_inv (tc, m, w)) as [Hob [M1 M2 M3]].
  { revert Hr. apply (rtc_ind_r (R := tls_step) tls_inv); [done | intros y z _ Hyz Hy; by eapply tls_step_inv]. }
  cbn in Hob, M1, M2, M3. pose proof Hob as [H1 H2 H3].
  assert (forall x, (own tc x + users (sessions w) x <> 0)%nat -> exists o, contexts w !! x = Some o /\ context_ok o) as Hlive.
  { intros x Hx. destruct (objects_live _ _ _ x Hob Hx) as [o Ho]. eauto. }
  split_and!.
  - intros c E. apply Hlive. unfold own. rewrite E, decide_True by done. lia.
  - intros a c Ha. destruct (M1 a c Ha) as [x Hx]. destruct (Hlive x) as [o Ho]; [pose proof (users_live _ _ _ Hx); lia |]. exists x, o. by split.
  - exact M2.
  - intros E ->. assert (sessions w = ∅) as Hnil.
    { apply map_empty. intros s. destruct (sessions w !! s) as [x |] eqn:Hx; [| done]. destruct (M3 s x Hx) as (a & c & Ha & _). by rewrite lookup_empty in Ha. }
    split; [| done]. apply map_empty. intros x. destruct (contexts w !! x) as [o |] eqn:Hx; [| done]. destruct (H2 x o Hx).
    specialize (H1 x). unfold refs_of in H1. rewrite Hx in H1. rewrite H1. unfold own. rewrite E, Hnil. done.
Qed.

Lemma to_i32_le (z : Z) : 0 <= z -> to_i32 z <= z.
Proof.
  intros Hz. unfold to_i32. pose proof (Z.mod_le z (2 ^ 32) Hz ltac:(lia)). cbn zeta. case_match; lia.
Qed.

(** The results of reading and writing are those of the plain buffers: a count
    within the length, or one of the codes, and never zero. *)
Theorem tls_conn_read_result (c : np_tls_conn_t) (len n : Z) (bs : bytes) (w w' : W) :
  0 <= len -> tls_conn_read c len w = (n, bs, w') ->
  0 < n <= len /\ zlen bs = n \/
  n = np_status_code NP_ERR_AGAIN \/ n = np_status_code NP_ERR_CLOSED \/ n = np_status_code NP_ERR.
Proof.
  intros Hl. unfold tls_conn_read. pose proof (ssl_read (tc_ssl c) (to_i32 len) w) as [_ Hn]. destruct (SSL_read _ _ _) as [[n1 b1] w1]. cbn [fst snd] in Hn.
  pose proof (to_i32_le len Hl). intros H'. destruct (0 <? n1) eqn:E; bprop.
  - injection H' as <- <- <-. left. destruct (Hn E). lia.
  - repeat case_match; injection H' as <- <- <-; auto.
Qed.

Theorem tls_conn_write_result (c : np_tls_conn_t) (buf : bytes) (n : Z) (w w' : W) :
  tls_conn_write c buf w = (n, w') ->
  0 < n <= zlen buf \/ n = np_status_code NP_ERR_AGAIN \/ n = np_status_code NP_ERR.
Proof.
  unfold tls_conn_write. pose proof (ssl_write (tc_ssl c) buf (to_i32 (zlen buf)) w) as [_ Hn]. destruct (SSL_write _ _ _ _) as [n1 w1]. cbn [fst snd] in Hn.
  pose proof (to_i32_le (zlen buf) ltac:(lia)). intros H'. destruct (0 <? n1) eqn:E; bprop.
  - injection H' as <- <-. left. specialize (Hn E). lia.
  - repeat case_match; injection H' as <- <-; auto.
Qed.

(** From 2 GiB up to 4 GiB the length that the library is given is negative: nothing
    is ever read. *)
Theorem tls_conn_read_large (c : np_tls_conn_t) (len n : Z) (bs : bytes) (w w' : W) :
  2 ^ 31 <= len < 2 ^ 32 -> tls_conn_read c len w = (n, bs, w') -> n < 0.
Proof.
  intros Hl H'. destruct (tls_conn_read_result c len n bs w w' ltac:(lia) H') as [[Hn _] | [-> | [-> | ->]]]; [| done..]. exfalso.
  unfold tls_conn_read in H'. pose proof (ssl_read (tc_ssl c) (to_i32 len) w) as [_ Hr]. destruct (SSL_read _ _ _) as [[n1 b1] w1]. cbn [fst snd] in Hr.
  destruct (0 <? n1) eqn:E; bprop; [| repeat case_match; injection H' as <- <- <-; cbn in Hn; lia]. destruct (Hr E) as [Hle _].
  unfold to_i32 in Hle. rewrite Z.mod_small in Hle by lia. rewrite (proj2 (Z.ltb_ge _ _)) in Hle by lia. lia.
Qed.

(** A handshake that is done stays done, and asks the library no more. *)
Theorem tls_handshake_once (c c' : np_tls_conn_t) (r : np_status_t) (w w' : W) :
  tls_conn_handshake c w = (r, c', w') ->
  (r = NP_OK \/ r = NP_ERR_AGAIN \/ r = NP_ERR_TLS) /\ (tc_handshake_done c' = true <-> r = NP_OK) /\
  (r = NP_OK -> forall w2, tls_conn_handshake c' w2 = (NP_OK, c', w2)).
Proof.
  intros H. unfold tls_conn_handshake in H. destruct (tc_handshake_done c) eqn:Hd.
  - injection H as <- <- <-. rewrite Hd. split_and!; [by left | done |]. intros _ w2. unfold tls_conn_handshake. by rewrite Hd.
  - destruct (SSL_do_handshake _ _) as [rc w1]. destruct (rc =? 1); [injection H as <- <- <-; by split_and!; [left | |] |].
    destruct (wants _); injection H as <- <- <-; rewrite Hd; by split_and!; [tauto | |].
Qed.

End histories.

(** ** An engine

    A library that encrypts nothing: certificates are accepted by name, a handshake
    is at once complete, and what is read comes from a list of answers, [None] when
    nothing is there yet and the empty one when the peer has closed. *)

Record engine : Type := mk_engine {
  en_contexts : gmap Z ctx_obj;
  en_sessions : gmap Z Z;
  en_certs : list bytes;
  en_input : list (option bytes);
  en_error : Z
}.

Definition set_objects (cs : gmap Z ctx_obj) (ss : gmap Z Z) (w : engine) : engine := mk_engine cs ss (en_certs w) (en_input w) (en_error w).

Definition engine_read (n : Z) (w : engine) : Z * bytes * engine :=
  match en_input w with
  | Some ((_ :: _) as bs) :: rest =>
      if 0 <? n then (zlen (take (Z.to_nat n) bs), take (Z.to_nat n) bs, mk_engine (en_contexts w) (en_sessions w) (en_certs w) rest SSL_ERROR_NONE)
      else (-1, [], mk_engine (en_contexts w) (en_sessions w) (en_certs w) (en_input w) 1)
  | Some [] :: _ => (0, [], mk_engine (en_contexts w) (en_sessions w) (en_certs w) (en_input w) SSL_ERROR_ZERO_RETURN)
  | _ => (-1, [], mk_engine (en_contexts w) (en_sessions w) (en_certs w) (tail (en_input w)) SSL_ERROR_WANT_READ)
  end.

#[export] Instance plain_engine : OpenSSL engine := {|
  OPENSSL_init_ssl w := w;
  SSL_CTX_new w := let c := fresh (dom (en_contexts w)) in (Some c, set_objects (<[c := mk_ctx 1 0 0]> (en_contexts w)) (en_sessions w) w);
  SSL_CTX_set_min_proto_version c v w := (1, set_objects (alter (fun o => mk_ctx (ctx_refs o) v (ctx_opts o)) c (en_contexts w)) (en_sessions w) w);
  SSL_CTX_set_options c v w := set_objects (alter (fun o => mk_ctx (ctx_refs o) (ctx_min_version o) (Z.lor (ctx_opts o) v)) c (en_contexts w)) (en_sessions w) w;
  SSL_CTX_set_session_cache_mode _ _ w := w;
  SSL_CTX_sess_set_cache_size _ _ w := w;
  SSL_CTX_set_tlsext_servername_callback _ _ w := w;
  SSL_CTX_use_certificate_file _ f w := (if bool_decide (f ∈ en_certs w) then 1 else 0, w);
  SSL_CTX_use_PrivateKey_file _ f w := (if bool_decide (f ∈ en_certs w) then 1 else 0, w);
  SSL_CTX_check_private_key _ w := 1;
  SSL_CTX_free c w := set_objects (release c (en_contexts w)) (en_sessions w) w;
  SSL_new c w := let s := fresh (dom (en_sessions w)) in
    (Some s, set_objects (alter (fun o => mk_ctx (S (ctx_refs o)) (ctx_min_version o) (ctx_opts o)) c (en_contexts w)) (<[s := c]> (en_sessions w)) w);
  SSL_set_fd _ _ w := w;
  SSL_set_accept_state _ w := w;
  SSL_do_handshake _ w := (1, w);
  SSL_read _ n w := engine_read n w;
  SSL_write _ b n w := (Z.min (zlen b) n, w);
  SSL_get_error _ _ w := en_error w;
  SSL_shutdown _ w := w;
  SSL_free s w := match en_sessions w !! s with
    | Some c => set_objects (release c (en_contexts w)) (delete s (en_sessions w)) w
    | None => w
    end
|}.

Lemma alter_known {T : Type} (f : T -> T) (c : Z) (m : gmap Z T) (o : T) : m !! c = Some o -> alter f c m = <[c := f o]> m.
Proof. intros Ho. apply map_eq. intros i. destruct (decide (i = c)) as [-> | Hne]; by simplify_map_eq. Qed.

#[export] Instance plain_engine_ok : OpenSSLOK engine plain_engine.
Proof.
  refine {| contexts := en_contexts; sessions := en_sessions |}; cbn; try done.
  - intros w. split; [apply not_elem_of_dom, is_fresh |]. split; [done | by exists 0, 0].
  - intros c v o w Ho. split; [| done]. by rewrite (alter_known _ _ _ _ Ho).
  - intros c v o w Ho. split; [| done]. by rewrite (alter_known _ _ _ _ Ho).
  - intros c o w Ho. split; [apply not_elem_of_dom, is_fresh |]. split; [done |]. by rewrite (alter_known _ _ _ _ Ho).
  - intros s n w. unfold engine_read. destruct (en_input w) as [| [[| b bs] |] rest]; cbn; try done. case_match; cbn; [| done].
    split; [done |]. intros _. split; [| done]. rewrite length_take. lia.
  - intros s b n w. split; [done | lia].
  - intros s c w Hs. by rewrite Hs.
Defined.

(** A server with a certificate, two clients, and a context that is destroyed
    before the connections: nothing is left. *)
Definition engine_start : engine := mk_engine ∅ ∅ [lit "cert.pem"; lit "key.pem"] [] 0.

Definition tls_server : @np_server_config_t literal_regex :=
  @mk_server literal_regex 80 [] [] [] [] [] (mk_tls true 443 (lit "cert.pem") (lit "key.pem"))
    (mk_proxy false BALANCE_ROUND_ROBIN 0 0 0 []) (mk_cache false [] 0 0) (mk_gzip false 0).

Lemma tls_no_leak_witness :
  exists w, rtc (tls_step (RX := literal_regex) tls_server) (mk_tls_ctx None, ∅, engine_start) (mk_tls_ctx None, ∅, w) /\ contexts w = ∅ /\ sessions w = ∅.
Proof.
  assert (exists w, rtc (tls_step (RX := literal_regex) tls_server) (mk_tls_ctx None, ∅, engine_start) (mk_tls_ctx None, ∅, w)) as [w Hr].
  { eexists. eapply rtc_l; [eapply (step_create (RX := literal_regex)); [reflexivity | vm_compute; reflexivity] |].
    eapply rtc_l; [eapply (step_conn (RX := literal_regex)) with (mem := Some 100) (fd := 5); [reflexivity | intros a _; reflexivity | vm_compute; reflexivity] |].
    eapply rtc_l; [eapply (step_conn (RX := literal_regex)) with (mem := Some 200) (fd := 6); [reflexivity | intros a [= <-]; reflexivity | vm_compute; reflexivity] |].
    eapply rtc_l; [eapply (step_destroy (RX := literal_regex)); vm_compute; reflexivity |].
    eapply rtc_l; [eapply (step_close (RX := literal_regex)) with (a := Some 100); vm_compute; reflexivity |].
    eapply rtc_l; [eapply (step_close (RX := literal_regex)) with (a := Some 200); vm_compute; reflexivity |]. apply rtc_refl. }
  exists w. split; [exact Hr |].
  destruct (tls_no_leak (OK := plain_engine_ok) (RX := literal_regex) tls_server engine_start w (mk_tls_ctx None) ∅ eq_refl eq_refl Hr) as (_ & _ & _ & Hend). exact (Hend eq_refl eq_refl).
Defined.
